(* ===== verification/_CoqProject ===== *)
-Q . S2P
Prelude.v
Py.v
PyFacts.v
Json.v
JsonFacts.v
Signature.v
Es6Float.v
Canonical.v
JsonRead.v
CanonicalParse.v
JsonRoundtrip.v
Journal.v
Schema.v
Broadcaster.v
Lifecycle.v
Framing.v
FramingFacts.v
World.v
Fnmatch.v
DevHandler.v
Sync.v
DevWp.v
DevSpec.v
DevRoutes.v
DevErrors.v
Protocol.v
Refinement.v
SchemaTheorems.v
LifecycleTheorems.v
DevTheorems.v
WireTheorems.v
Demo.v
DevFindings.v
DevWitnesses.v
WireWitnesses.v
Errors.v
Client.v
Tool.v
EndToEnd.v
Instrument.v
LangGraph.v
InstrumentFacts.v
LangGraphTheorems.v
SdkTheorems.v
SdkWitnesses.v
LangGraphWitnesses.v
Harness.v
Saga.v
HarnessTheorems.v
SagaTheorems.v
MockServer.v
MockTheorems.v
Facade.v
Crew.v
LlamaIndex.v
Kernel.v
Durable.v
DurableTheorems.v
Concurrent.v
DurableWitnesses.v
FacadeTheorems.v
KernelTheorems.v
ResumeTheorems.v
FacadeWitnesses.v
Cli.v
Attributes.v
Dashboard.v
DashboardTheorems.v
ExampleTools.v
ExampleToolsTheorems.v
Agents.v
AgentsTheorems.v
FrameworkAgents.v
FrameworkTheorems.v
StatefulAgent.v
StatefulTheorems.v
Fixtures.v
Demos.v
DemosTheorems.v
Timestamps.v
