(* ===== verification/Prelude.v ===== *)
(** * A verification of the UndoLog Python SDK

    UndoLog records the tool calls of an AI agent in a journal, so that a call is
    executed at most once, an irreversible one waits for a human, and an agent
    that is started again repeats nothing that was completed. This development
    models the Python parts of the repository and proves what they promise.

    ** The parts and how they interact

    A tool is a function wrapped by [undolog_tool] ([decorators.py]). A call of
    it takes the next step of the session ([session.py], found in the context
    variable of [context.py]), asks the proxy over HTTP ([client.py]) what to do
    and runs the body, returns the stored result or raises
    [AwaitingApprovalError]; the outcome of a body is reported back. A tool of
    the tier SAFE bypasses all this and just runs; the theorems about journaled
    calls are about the other tiers. The
    development server ([dev.py]) is such a proxy: a threaded HTTP server whose
    handlers share a SQLite journal and an event broadcaster. A call is
    identified by the digest of its session, step, tool and canonical arguments
    ([signature.py]). The integrations ([integrations/*.py]) wrap the tools of a
    framework's object and run it inside a session; [test_harness.py] simulates
    compensations, and [infra/mock-tool-server/server.py] is the tool backend of
    the examples ([examples/]): agents and scripts that call the SDK, the proxy
    and that backend, and a dashboard that reads the server's event stream.

    ** Files

    - [Prelude], [Py], [PyFacts], [Json], [JsonFacts]: tactics, tables, star of a relation,
      the exceptions, text, bytes and dictionaries of Python, and [json].
    - [Signature], [Es6Float], [Canonical], [JsonRead], [CanonicalParse]:
      [signature.py], with number formatting and the inverse of the canonical
      printer on [plain] values; [JsonRoundtrip]: [json.loads] after [json.dumps],
      with and without indentation, on [portable] values. Both exclude strings in
      which a high surrogate stands directly before a low one: the pair and the
      character it stands for are escaped alike ([surrogate_pair_text]). A [plain]
      value has no floats; the floats of a [portable] one are those that [float]
      reads back from their text.
    - [Schema], [Lifecycle]: the database file with the script and migration of
      [_create_schema], file and in-memory databases, [DevServer] as interleaved
      threads, and [main]. [Cli]: [build_parser], with the rules of [argparse]
      for the options it declares.
    - [Journal], [Broadcaster], [Framing], [FramingFacts], [World], [Fnmatch]:
      the tables of [DevJournal] with their indices, [_EventBroadcaster],
      the body readers of [_DevHandler], and the state of a server. A
      handler is a program ([prog]) of atomic operations, one per SQL statement,
      queue operation, clock or identifier; requests interleave between them.
    - [DevHandler], [Sync], [DevWp], [DevSpec], [DevRoutes], [DevErrors]: every
      route of [_DevHandler] ([dispatch]) and total-correctness rules for it.
    - [Protocol], [Refinement]: the contract of the proxy as a machine per
      signature (free, executing, held, committed), and the simulation that shows
      that [dispatch] implements it.
    - [Errors], [Client], [Tool]: [errors.py], [client.py], and [tier.py],
      [session.py], [context.py], [decorators.py]. An effectful function is a
      state monad with exceptions over [agent], the shared session objects,
      the context variable, the default client and the outside.
    - [EndToEnd]: the wrapper against the server: [httpx] is instantiated by
      [dispatch], so the client's calls are the server's requests. There a request
      is served as a whole, on a connection of its own ([server_http]); handlers
      interleave in [World] and [DevTheorems], and calls in [Concurrent].
    - [Durable], [DurableTheorems]: workflows as trees of calls; [durable] is the
      contract an agent relies on, and runs of decorated tools satisfy it.
      [Concurrent]: the wrapper as a coroutine ([coro], [resume]), the event loop
      as a step relation ([sched]), and batches of calls under [asyncio.gather].
    - [Timestamps]: [_utc_now], with the calendar of [datetime].
    - [Instrument], [InstrumentFacts], [LangGraph], [Facade], [Crew],
      [LlamaIndex], [Kernel]: [_instrument.py], [langgraph.py], what the other
      three wrappers share, [crewai.py], [llamaindex.py], [semantic_kernel.py].
      [SessionFacade] (in [FacadeTheorems]) is the interface of a facade: an
      instance per wrapper, and clients are proved against it. [Attributes]: the
      instance dictionaries, properties and [__getattr__] of the four facades.
    - [Harness], [Saga]: [test_harness.py]. [MockServer]: the mock tool server.
    - [Dashboard]: [sse_dashboard.py]. [ExampleTools]: [example_tools/]. [Agents]:
      [vanilla_agent.py] and what the agents share; [FrameworkAgents]: the agents
      on LangChain, CrewAI, LlamaIndex and Semantic Kernel; [StatefulAgent]:
      [agent_stateful.py]; [Demos]: the approval, replay, multi-tenant and
      compensation scripts; [Fixtures]: the vectors of
      [generate-signature-fixtures.py] and the ones that are committed.
    - [*Theorems], [DevFindings]: the properties; those of [Cli], [Attributes], [Fixtures],
      [Concurrent] and [Timestamps] are in the same file. [Demo], [*Witnesses] and the modules
      [*Examples]: concrete servers and agents on which each property is applied.

    ** What the theorems show

    - [DevTheorems]: the server refines the protocol machine under any sequence
      of requests; a call is answered "executed" once until its failure is
      reported; gated calls do not run before an approval; at most one live
      effect per signature in every interleaving; refused requests change
      nothing; resolved approvals are final; listings are the newest.
    - [SchemaTheorems], [LifecycleTheorems]: a journal file is read back and
      reopened as it is, files of earlier versions are migrated; an in-memory
      journal is a file until it is closed; [stop] always gets on, and ends with
      everything released.
    - [WireTheorems]: the signature's preimage determines the call, canonical
      text is injective up to key order and read back, numbers print as in
      ECMAScript; chunked bodies round-trip and reading them terminates, bodies
      are bounded, responses leave the connection aligned; events arrive in order
      in bounded queues; the approval gate is the glob of the server's patterns.
    - [SdkTheorems], [LangGraphTheorems]: a decorated tool runs its body once and
      replays afterwards, waits when it is gated, and frees its signature when
      it raises; a graph run repeats or resumes through its state.
    - [DurableTheorems], [ResumeTheorems]: a workflow of any shape, cut
      between any two calls and started again in its session, returns what an
      uninterrupted run returns and every body ran once; the same through a
      crew's facade.
    - [Concurrent]: a batch of concurrent calls comes to what the calls in turn
      come to, under every schedule; a fresh one completes within four
      resumptions per call, and survives a crash at any await.
    - [Timestamps]: timestamps sort as the instants they stand for, so listings
      are newest first in time.
    - [FacadeTheorems], [KernelTheorems]: every tool of an accepted crew or
      kernel is behind the interceptor and preparing again is the identity; the
      facade records its run; resume keys reach no function.
    - [HarnessTheorems], [SagaTheorems], [MockTheorems]: rollbacks are LIFO
      within their budgets, the saga assertion accepts exactly complete
      rollbacks; idempotent retries replay, compensations restore tickets.
    - [DashboardTheorems]: the frames the server writes for its subscribers are
      read by the dashboard as the events that were emitted, in order.
    - [ExampleToolsTheorems]: the support tools over the mock server: the server's
      compensations answer what the local handlers return, and a created ticket
      is voided by its compensation.
    - [AgentsTheorems], [FrameworkTheorems]: every tool call of the model gets one
      answer, whose text decodes to what happened; conversations end; all five
      ways of exposing the tools have the same effects, on arguments the schemas
      of the frameworks accept as they are.
    - [StatefulTheorems]: a tools node that is executed again replays; what the
      graph and its runner do with approvals. [DemosTheorems]:
      where the scripts stop, and a run of the approval script end to end.
    - [Cli], [Attributes]: command lines are read as written;
      attribute lookup ends on every instance and resolves as documented.
    - [Fixtures]: the committed vectors are what [canonical_json] prints.
    - [DevFindings] and some theorems of the other files state behaviours that
      differ from what a comment or guide says, or that look unintended.

    ** Fuel and bounds

    Loops that are not structural take fuel. The JSON parser gets twice the
    text's length plus two ([loads_fuel_suffices]), the body readers one more
    than the bytes left on the stream ([consume_go_spec], [drain_go_spec],
    [chunked_reading_terminates]), the pattern translator the pattern's length
    ([translate_fuel_suffices]); retry loops count their attempts down. The
    handler of the event stream takes the number of rounds the client stays
    connected, the conversation loop of the agents the number of rounds
    ([conversations_end]), and attribute lookup needs two ([facade_lookups_end]).
    [drive] runs a coroutine for a number of resumptions, of which four are enough.
    Steps and lengths in a signature are 32 bits wide and their
    overflow is modelled.

    ** Parameters

    BLAKE3 and SHA-256, the parser of float literals, [str] of values and
    exceptions, [httpx] (for the client alone), UUIDs and clocks (streams; the
    laws used are [id_laws]: identifiers are distinct, printable path segments),
    the frameworks' own objects, tool bodies and compensations, pydantic's
    validation, the float arithmetic of the backoff and of [RateLimitError].
    That the digest has no collisions, as the documentation of the SDK assumes,
    is a hypothesis of the theorems that tell the calls of one session apart: the
    recovery theorems and those of [Concurrent].

    ** Not modelled

    Sockets and signals of the command; types and collations of
    SQLite columns and its lock timeouts; UTF-16 and UTF-32 detection of
    [json.loads] and the interpreter's recursion limit; logging and
    what the scripts print; the frameworks and language models themselves, and the
    interleaving of the two tenants of the multi-tenant script; benchmarks, which only call the SDK; the Go, Rust and TypeScript parts of the repository. *)

From Stdlib Require Export ZArith Lia.
From stdpp Require Export base strings gmap sorting numbers list.

Declare Scope undolog_scope.
Delimit Scope undolog_scope with ul.
Create HintDb undolog.
Create Rewrite HintDb undolog_rw.

(** ** Tactics of the development *)

(** Case on every [match] and [if] of the goal, closing the branches that
    contradict the context. *)
Ltac split_matches :=
  repeat (case_match; simplify_eq/=; try done).

(** Turn boolean tests of the program into propositions. *)
Ltac bool_to_prop :=
  repeat match goal with
  | H : andb _ _ = true |- _ => apply andb_prop in H as [? ?]
  | H : orb _ _ = false |- _ => apply orb_false_elim in H as [? ?]
  | H : negb _ = true |- _ => apply negb_true_iff in H
  | H : negb _ = false |- _ => apply negb_false_iff in H
  | H : (_ <? _)%Z = true |- _ => apply Z.ltb_lt in H
  | H : (_ <? _)%Z = false |- _ => apply Z.ltb_ge in H
  | H : (_ <=? _)%Z = true |- _ => apply Z.leb_le in H
  | H : (_ <=? _)%Z = false |- _ => apply Z.leb_gt in H
  | H : (_ =? _)%Z = true |- _ => apply Z.eqb_eq in H
  | H : (_ =? _)%Z = false |- _ => apply Z.eqb_neq in H
  | H : bool_decide _ = true |- _ => apply bool_decide_eq_true in H
  | H : bool_decide _ = false |- _ => apply bool_decide_eq_false in H
  end.

(** ** Tables: lists of rows updated by a predicate *)

(** The first row satisfying a test, in row order. *)
Definition first_where {A} (p : A → bool) (l : list A) : option A :=
  List.find p l.

(** Apply [f] to every row satisfying the test. *)
Definition update_where {A} (p : A → bool) (f : A → A) (l : list A) : list A :=
  (λ x, if p x then f x else x) <$> l.

(** The number of rows satisfying the test. *)
Definition count_where {A} (p : A → bool) (l : list A) : nat :=
  length (List.filter p l).

Section tables.
Context {A : Type}.
Implicit Types (p q : A → bool) (f : A → A) (l : list A) (x : A).

Lemma first_where_Some p l x :
  first_where p l = Some x → x ∈ l ∧ p x = true.
Proof.
  intros H. apply List.find_some in H as [Hin Hp].
  split; [by apply list_elem_of_In | done].
Qed.

Lemma first_where_None p l :
  first_where p l = None ↔ ∀ x, x ∈ l → p x = false.
Proof.
  split.
  - intros H x Hx. eapply List.find_none; [done|]. by apply list_elem_of_In.
  - unfold first_where. intros H. induction l as [|y l IH]; simpl; [done|].
    rewrite (H y) by left. apply IH. intros; apply H; by right.
Qed.

Lemma first_where_is_Some p l x :
  x ∈ l → p x = true → is_Some (first_where p l).
Proof.
  intros Hin Hp. destruct (first_where p l) eqn:E; [done|].
  rewrite first_where_None in E. specialize (E _ Hin). congruence.
Qed.

Lemma first_where_app p l k :
  first_where p (l ++ k) =
    match first_where p l with Some x => Some x | None => first_where p k end.
Proof.
  unfold first_where. induction l as [|y l IH]; simpl; [done|]. by destruct (p y).
Qed.

(** A test that holds of at most one row finds that row. *)
Lemma first_where_unique p l x :
  x ∈ l → p x = true → (∀ y, y ∈ l → p y = true → y = x) →
  first_where p l = Some x.
Proof.
  intros Hin Hp Huniq. destruct (first_where_is_Some p l x) as [y Hy]; [done..|].
  rewrite Hy. f_equal. apply first_where_Some in Hy as [??]. auto.
Qed.

Lemma length_update_where p f l : length (update_where p f l) = length l.
Proof. apply length_fmap. Qed.

Lemma elem_of_update_where p f l x :
  x ∈ update_where p f l ↔ ∃ y, y ∈ l ∧ x = if p y then f y else y.
Proof. unfold update_where. rewrite list_elem_of_fmap. naive_solver. Qed.

Lemma update_where_none p f l :
  (∀ x, x ∈ l → p x = false) → update_where p f l = l.
Proof.
  induction l as [|y l IH]; intros H; [done|]. unfold update_where in *. simpl.
  rewrite (H y) by left. f_equal. apply IH. intros; apply H; by right.
Qed.

Lemma update_where_app p f l k :
  update_where p f (l ++ k) = update_where p f l ++ update_where p f k.
Proof. apply fmap_app. Qed.

(** A column the update does not write keeps its values, row by row. *)
Lemma fmap_update_where {B} (g : A → B) p f l :
  (∀ x, p x = true → g (f x) = g x) → g <$> update_where p f l = g <$> l.
Proof.
  intros Hg. unfold update_where. rewrite <-list_fmap_compose.
  apply list_fmap_ext. intros i x _. simpl. case_match; auto.
Qed.

Lemma update_where_cons p f x l :
  update_where p f (x :: l) = (if p x then f x else x) :: update_where p f l.
Proof. done. Qed.

(** Updates a filter or a search does not see. *)
Lemma filter_update_other p q f l :
  (∀ x, x ∈ l → p x = true → q x = false ∧ q (f x) = false) →
  List.filter q (update_where p f l) = List.filter q l.
Proof.
  induction l as [|x l IH]; intros H; [done|]. rewrite update_where_cons. simpl.
  rewrite IH by (intros; apply H; [by right|done]).
  destruct (p x) eqn:Ep; [|done]. by destruct (H x) as [-> ->]; [left|done|].
Qed.

Lemma first_where_update_other p q f l :
  (∀ x, x ∈ l → p x = true → q x = false ∧ q (f x) = false) →
  first_where q (update_where p f l) = first_where q l.
Proof.
  unfold first_where. induction l as [|x l IH]; intros H; [done|].
  rewrite update_where_cons. simpl. rewrite IH by (intros; apply H; [by right|done]).
  destruct (p x) eqn:Ep; [|done]. by destruct (H x) as [-> ->]; [left|done|].
Qed.

(** A search commutes with an update that keeps its test. *)
Lemma first_where_update p q f l :
  (∀ x, x ∈ l → q (f x) = q x) →
  first_where q (update_where p f l) = (λ x, if p x then f x else x) <$> first_where q l.
Proof.
  unfold first_where. induction l as [|x l IH]; intros H; [done|].
  rewrite update_where_cons. simpl.
  assert (q (if p x then f x else x) = q x) as -> by (case_match; [apply H; left|done]).
  case_match; [done|]. apply IH. intros; apply H; by right.
Qed.

Lemma count_where_0 p l : count_where p l = 0 ↔ ∀ x, x ∈ l → p x = false.
Proof.
  unfold count_where. induction l as [|y l IH]; simpl.
  - split; [intros _ x Hx; by apply elem_of_nil in Hx | done].
  - destruct (p y) eqn:E; simpl.
    + split; [lia|]. intros H. specialize (H y ltac:(left)). congruence.
    + rewrite IH. setoid_rewrite elem_of_cons. naive_solver.
Qed.

Lemma NoDup_fmap_inj_in {B} (g : A → B) l x y :
  NoDup (g <$> l) → x ∈ l → y ∈ l → g x = g y → x = y.
Proof.
  intros Hnd Hx Hy Hg. induction l as [|z l IH]; simpl in *.
  - by apply elem_of_nil in Hx.
  - apply NoDup_cons in Hnd as [Hz Hnd].
    apply elem_of_cons in Hx as [->|Hx]; apply elem_of_cons in Hy as [->|Hy]; auto.
    + exfalso. apply Hz. rewrite Hg. by apply list_elem_of_fmap_2.
    + exfalso. apply Hz. rewrite <-Hg. by apply list_elem_of_fmap_2.
Qed.
End tables.

(** ** Lists and boolean searches *)

Lemma existsb_false_iff {A} (p : A → bool) l :
  existsb p l = false ↔ ∀ x, x ∈ l → p x = false.
Proof.
  rewrite <-not_true_iff_false, List.existsb_exists. setoid_rewrite <-list_elem_of_In.
  setoid_rewrite <-not_true_iff_false. naive_solver.
Qed.

Lemma existsb_true_iff {A} (p : A → bool) l :
  existsb p l = true ↔ ∃ x, x ∈ l ∧ p x = true.
Proof. rewrite List.existsb_exists. by setoid_rewrite <-list_elem_of_In. Qed.

Lemma NoDup_snoc {A} (l : list A) x : NoDup l → x ∉ l → NoDup (l ++ [x]).
Proof.
  intros Hl Hx. apply NoDup_app. split_and!; [done| |apply NoDup_singleton].
  intros y Hy ->%list_elem_of_singleton. done.
Qed.

Lemma elem_of_snoc {A} (l : list A) x y : y ∈ l ++ [x] ↔ y ∈ l ∨ y = x.
Proof. rewrite elem_of_app, list_elem_of_singleton. done. Qed.

Lemma count_where_pos {A} (p : A → bool) l x :
  x ∈ l → p x = true → (0 <? count_where p l)%nat = true.
Proof.
  intros Hx Hp. apply Nat.ltb_lt. destruct (count_where p l) eqn:E; [|lia].
  rewrite count_where_0 in E. specialize (E x Hx). congruence.
Qed.

Lemma count_where_none {A} (p : A → bool) l :
  (∀ x, x ∈ l → p x = false) → (0 <? count_where p l)%nat = false.
Proof. intros H. apply Nat.ltb_ge. by rewrite (proj2 (count_where_0 p l)). Qed.

#[export] Hint Rewrite @length_update_where @update_where_app : undolog_rw.

(** ** Reflexive transitive closure of a step relation *)

Inductive star {S : Type} (R : S → S → Prop) : S → S → Prop :=
| star_refl s : star R s s
| star_step s t u : R s t → star R t u → star R s u.

#[export] Hint Constructors star : undolog.

Lemma star_invariant {S} (R : S → S → Prop) (I : S → Prop) :
  (∀ s t, I s → R s t → I t) → ∀ s t, star R s t → I s → I t.
Proof. intros Hstep s t Hst. induction Hst; eauto. Qed.

Lemma star_trans {S} (R : S → S → Prop) s t u :
  star R s t → star R t u → star R s u.
Proof. induction 1; eauto using star. Qed.
