(* ===== verification/Py.v ===== *)
(** * The Python run time the SDK relies on

    Text, integers and byte strings as the Python code sees them: a [str] is
    its list of code points, a [bytes] object its list of byte values, an
    [int] an unbounded [Z]. The built-in operations the sources call are
    executable functions here: [str] comparison, [int(text, base)],
    [str(int)], hexadecimal formatting, stripping, splitting, UTF-8 encoding
    and decoding. Exceptions are values of [pyexc]. *)

From S2P Require Import Prelude.
Open Scope Z_scope.

(** ** Text *)

Abbreviation pystr := (list Z).
Abbreviation bytes := (list Z).

(** Code points of an ASCII literal: [$"pending"]. *)
Fixpoint lit (s : String.string) : pystr :=
  match s with
  | String.EmptyString => []
  | String.String a s' => Z.of_N (Ascii.N_of_ascii a) :: lit s'
  end.
Arguments lit : simpl never.

Notation "$ s" := (lit s%string) (at level 1, s at level 0, format "$ s") : undolog_scope.
Open Scope undolog_scope.

(** [a == b] on [str]. *)
Fixpoint str_eqb (a b : pystr) : bool :=
  match a, b with
  | [], [] => true
  | x :: a', y :: b' => (x =? y) && str_eqb a' b'
  | _, _ => false
  end.

Lemma str_eqb_eq a b : str_eqb a b = true ↔ a = b.
Proof.
  revert b. induction a as [|x a IH]; intros [|y b]; simpl; try done.
  rewrite andb_true_iff, Z.eqb_eq, IH. naive_solver.
Qed.

Lemma str_eqb_neq a b : str_eqb a b = false ↔ a ≠ b.
Proof.
  rewrite <-str_eqb_eq. destruct (str_eqb a b); naive_solver.
Qed.

Lemma str_eqb_refl a : str_eqb a a = true.
Proof. by apply str_eqb_eq. Qed.

#[export] Hint Rewrite str_eqb_refl : undolog_rw.

(** [a <= b] on [str]: lexicographic order of code points. *)
Fixpoint str_leb (a b : pystr) : bool :=
  match a, b with
  | [], _ => true
  | _ :: _, [] => false
  | x :: a', y :: b' => if x <? y then true else if y <? x then false else str_leb a' b'
  end.

Definition str_le (a b : pystr) : Prop := str_leb a b = true.

#[export] Instance str_le_dec : RelDecision str_le.
Proof. intros a b. unfold str_le. apply _. Defined.

Lemma str_leb_total a b : str_leb a b = true ∨ str_leb b a = true.
Proof.
  revert b. induction a as [|x a IH]; intros [|y b]; simpl; auto.
  destruct (Z.ltb_spec x y), (Z.ltb_spec y x); auto; lia.
Qed.

Lemma str_leb_antisym a b : str_leb a b = true → str_leb b a = true → a = b.
Proof.
  revert b. induction a as [|x a IH]; intros [|y b]; simpl; try done.
  destruct (Z.ltb_spec x y), (Z.ltb_spec y x); try done; try lia.
  intros. f_equal; [lia|auto].
Qed.

Lemma str_leb_trans a b c :
  str_leb a b = true → str_leb b c = true → str_leb a c = true.
Proof.
  revert b c. induction a as [|x a IH]; intros [|y b] [|z c]; simpl; try done.
  repeat match goal with |- context [?u <? ?v] => destruct (Z.ltb_spec u v) end;
    try done; try lia. apply IH.
Qed.

#[export] Instance str_le_total : Total str_le.
Proof. intros a b. apply str_leb_total. Qed.
#[export] Instance str_le_trans : Transitive str_le.
Proof. intros a b c. apply str_leb_trans. Qed.
#[export] Instance str_le_antisym : AntiSymm (=) str_le.
Proof. intros a b. apply str_leb_antisym. Qed.

(** ** Slices and searches *)

(** [s.startswith(p)]. *)
Fixpoint startswith (s p : pystr) : bool :=
  match p, s with
  | [], _ => true
  | _ :: _, [] => false
  | x :: p', y :: s' => (x =? y) && startswith s' p'
  end.

(** The rest of the text after an expected first character. *)
Definition eat (c : Z) (s : pystr) : option pystr :=
  match s with
  | x :: r => if x =? c then Some r else None
  | [] => None
  end.

(** Split at the first character [c]: what precedes it, and what follows when
    it occurs ([str.partition], [bytes.split(c, 1)], [str.find] by length). *)
Fixpoint cut_at (c : Z) (s : pystr) : pystr * option pystr :=
  match s with
  | [] => ([], None)
  | x :: s' =>
      if x =? c then ([], Some s')
      else let '(a, b) := cut_at c s' in (x :: a, b)
  end.

Lemma cut_at_none c s : c ∉ s → cut_at c s = (s, None).
Proof.
  induction s as [|x s IH]; intros H; simpl; [done|].
  apply not_elem_of_cons in H as [??]. rewrite (proj2 (Z.eqb_neq x c)) by congruence.
  by rewrite IH.
Qed.

Lemma cut_at_here c s t : c ∉ s → cut_at c (s ++ c :: t) = (s, Some t).
Proof.
  induction s as [|x s IH]; intros H; simpl; [by rewrite Z.eqb_refl|].
  apply not_elem_of_cons in H as [??]. rewrite (proj2 (Z.eqb_neq x c)) by congruence.
  by rewrite IH.
Qed.

(** Drop leading characters satisfying a test ([str.lstrip]). *)
Fixpoint lstrip_by (p : Z → bool) (s : pystr) : pystr :=
  match s with
  | [] => []
  | x :: s' => if p x then lstrip_by p s' else s
  end.

(** [str.strip] over a class of characters. *)
Definition strip_by (p : Z → bool) (s : pystr) : pystr :=
  reverse (lstrip_by p (reverse (lstrip_by p s))).

(** Remove every occurrence of a non-empty substring, scanning from the left
    ([s.replace(p, "")]); the fuel is the length of [s]. *)
Fixpoint remove_all_go (fuel : nat) (p s : pystr) : pystr :=
  match fuel, s with
  | O, _ | _, [] => s
  | S n, x :: s' =>
      if startswith s p then remove_all_go n p (drop (length p) s)
      else x :: remove_all_go n p s'
  end.
Definition remove_all (p s : pystr) : pystr := remove_all_go (length s) p s.

(** Lower-case ASCII letters ([str.lower] on ASCII text). *)
Definition lower_char (c : Z) : Z := if (65 <=? c) && (c <=? 90) then c + 32 else c.
Definition lower (s : pystr) : pystr := lower_char <$> s.

(** ASCII white space of [bytes.strip] and [int(bytes)]. *)
Definition is_space (c : Z) : bool := ((9 <=? c) && (c <=? 13)) || (c =? 32).

(** White space of [str.strip] and [int(str)]: the Unicode white space. *)
Definition is_uspace (c : Z) : bool :=
  is_space c || ((28 <=? c) && (c <=? 31)) || (c =? 133) || (c =? 160)
  || (c =? 5760) || ((8192 <=? c) && (c <=? 8202)) || (c =? 8232) || (c =? 8233)
  || (c =? 8239) || (c =? 8287) || (c =? 12288).

(** [sep.join(parts)]. *)
Fixpoint join (sep : pystr) (parts : list pystr) : pystr :=
  match parts with
  | [] => []
  | [p] => p
  | p :: ps => p ++ sep ++ join sep ps
  end.

(** ** Integers *)

Definition digit_char (d : Z) : Z := if d <? 10 then 48 + d else 87 + d.

Definition digit_val (c : Z) : option Z :=
  if (48 <=? c) && (c <=? 57) then Some (c - 48)
  else if (97 <=? c) && (c <=? 122) then Some (c - 87)
  else if (65 <=? c) && (c <=? 90) then Some (c - 55)
  else None.

(** Digits of a non-negative integer, most significant first, without leading
    zeros; the fuel bounds the number of digits. *)
Fixpoint to_digits_go (fuel : nat) (base n : Z) (acc : pystr) : pystr :=
  match fuel with
  | O => acc
  | S f =>
      let acc' := digit_char (n mod base) :: acc in
      if n <? base then acc' else to_digits_go f base (n / base) acc'
  end.

(** Enough fuel: a base of at least two needs at most [log2 n + 1] digits. *)
Definition to_digits (base n : Z) : pystr :=
  to_digits_go (S (Z.to_nat (Z.log2 n))) base n [].

(** [str(n)]. *)
Definition str_of_int (n : Z) : pystr :=
  if n <? 0 then 45 :: to_digits 10 (- n) else to_digits 10 n.

(** [f"{n:04x}"] for a non-negative [n]. *)
Definition hex4 (n : Z) : pystr :=
  let d := to_digits 16 n in replicate (4 - length d) 48 ++ d.

(** Digits with single underscores between them. [seen] says whether the last
    character was a digit; the text ends after a digit. *)
Fixpoint parse_digits (base acc : Z) (seen : bool) (s : pystr) : option Z :=
  match s with
  | [] => if seen then Some acc else None
  | c :: s' =>
      if c =? 95 then (if seen then parse_digits base acc false s' else None)
      else match digit_val c with
           | Some d => if d <? base then parse_digits base (acc * base + d) true s' else None
           | None => None
           end
  end.

(** CPython refuses to convert decimal text of more digits than this. *)
Definition int_max_str_digits : nat := 4300.

Definition count_digits (s : pystr) : nat := length (List.filter (λ c, negb (c =? 95)) s).

(** Strip the sign and, in base 16, the optional [0x] prefix. *)
Definition int_prefix (base : Z) (s : pystr) : pystr :=
  match s with
  | z :: x :: s' =>
      if (z =? 48) && (base =? 16) && ((x =? 120) || (x =? 88))
      then default s' (eat 95 s')
      else s
  | _ => s
  end.

(** [int(text, base)] with the given notion of white space; [None] is the
    [ValueError]. *)
Definition py_int_ws (ws : Z → bool) (base : Z) (s : pystr) : option Z :=
  let body t :=
    let t := int_prefix base t in
    if (base =? 10) && (int_max_str_digits <? count_digits t)%nat then None
    else parse_digits base 0 false t in
  let t := strip_by ws s in
  match eat 45 t with
  | Some t' => Z.opp <$> body t'
  | None => body (default t (eat 43 t))
  end.

(** [int(str, base)] and [int(bytes, base)]. *)
Definition py_int (base : Z) (s : pystr) : option Z := py_int_ws is_uspace base s.
Definition py_int_bytes (base : Z) (s : bytes) : option Z := py_int_ws is_space base s.

(** ** Floats

    A finite non-zero double is represented by its sign and the decimal digits
    and decimal-point position of its shortest round-trip text, what CPython's
    [float.__repr__] computes first: the value is [0.d1d2...dk * 10^decpt]. *)

Inductive pyfloat :=
| FNan
| FInf (neg : bool)
| FZero (neg : bool)
| FFin (neg : bool) (digits : list Z) (decpt : Z).

#[export] Instance pyfloat_eq_dec : EqDecision pyfloat.
Proof. solve_decision. Defined.

(** Digits of a shortest round-trip text: one to seventeen of them, no leading
    and no trailing zero. *)
Definition digits_ok (ds : list Z) : bool :=
  (1 <=? length ds)%nat && (length ds <=? 17)%nat
  && forallb (λ d, (0 <=? d) && (d <=? 9)) ds
  && negb (default 0 (head ds) =? 0) && negb (default 0 (last ds) =? 0).

Definition float_ok (f : pyfloat) : bool :=
  match f with FFin _ ds _ => digits_ok ds | _ => true end.

Definition sign_text (neg : bool) : pystr := if neg then [45] else [].
Definition digits_text (ds : list Z) : pystr := digit_char <$> ds.
Definition zeros (n : Z) : pystr := replicate (Z.to_nat n) 48.

(** The exponent of [repr]: a sign and at least two digits. *)
Definition repr_exponent (e : Z) : pystr :=
  let d := to_digits 10 (Z.abs e) in
  (if e <? 0 then [45] else [43]) ++ (if (length d <? 2)%nat then 48 :: d else d).

(** [repr(value)]: exponential notation when the decimal point lies outside
    [-3 .. 16], positional notation otherwise. *)
Definition float_repr (f : pyfloat) : pystr :=
  match f with
  | FNan => $"nan"
  | FInf neg => sign_text neg ++ $"inf"
  | FZero neg => sign_text neg ++ $"0.0"
  | FFin neg ds decpt =>
      sign_text neg ++
      if (decpt <=? -4) || (16 <? decpt) then
        match digits_text ds with
        | [d] => [d] ++ [101] ++ repr_exponent (decpt - 1)
        | d :: rest => [d] ++ [46] ++ rest ++ [101] ++ repr_exponent (decpt - 1)
        | [] => []
        end
      else if decpt <=? 0 then $"0." ++ zeros (- decpt) ++ digits_text ds
      else if Z.of_nat (length ds) <=? decpt then
        digits_text ds ++ zeros (decpt - Z.of_nat (length ds)) ++ $".0"
      else
        take (Z.to_nat decpt) (digits_text ds) ++ [46] ++ drop (Z.to_nat decpt) (digits_text ds)
  end.

(** ** Exceptions *)

Inductive pyexc :=
| EInvalidUuid (session_id : pystr)
| EInvalidNumber (value : pyfloat)
| EUnicodeEncode
| EUnicodeDecode
| EIntLimit
| EIntLiteral
| EJsonDecode
| EReadLength
| EOverflow
| EStruct
| EIntegrity
| ERequest (status : Z) (code message : pystr).

(** [isinstance(exc, ValueError)]: Unicode, JSON, integer-conversion and read
    length errors are [ValueError]s; [OverflowError], [struct.error], [sqlite3.IntegrityError] and the
    server's own [_RequestError] are not. *)
Definition is_ValueError (e : pyexc) : bool :=
  match e with
  | EInvalidUuid _ | EInvalidNumber _ | EUnicodeEncode | EUnicodeDecode
  | EIntLimit | EIntLiteral | EJsonDecode | EReadLength => true
  | EOverflow | EStruct | EIntegrity | ERequest _ _ _ => false
  end.

(** Results of fallible Python code. *)
Abbreviation res A := (pyexc + A)%type.

#[export] Instance res_ret {E} : MRet (sum E) := λ A a, inr a.
#[export] Instance res_bind {E} : MBind (sum E) :=
  λ A B f r, match r with inl e => inl e | inr a => f a end.

(** ** Bytes *)

(** [struct.pack("<I", n)]: four bytes, least significant first; [struct.error]
    outside the unsigned 32-bit range. *)
Definition le32 (n : Z) : bytes :=
  [Z.land n 255; Z.land (Z.shiftr n 8) 255;
   Z.land (Z.shiftr n 16) 255; Z.land (Z.shiftr n 24) 255].
Definition pack_le32 (n : Z) : res bytes :=
  if (0 <=? n) && (n <? 2 ^ 32) then inr (le32 n) else inl EStruct.

Definition is_surrogate (c : Z) : bool := (0xD800 <=? c) && (c <=? 0xDFFF).

(** UTF-8 of one code point. *)
Definition utf8_char (c : Z) : bytes :=
  if c <? 0x80 then [c]
  else if c <? 0x800 then [0xC0 + Z.shiftr c 6; 0x80 + Z.land c 63]
  else if c <? 0x10000 then
    [0xE0 + Z.shiftr c 12; 0x80 + Z.land (Z.shiftr c 6) 63; 0x80 + Z.land c 63]
  else
    [0xF0 + Z.shiftr c 18; 0x80 + Z.land (Z.shiftr c 12) 63;
     0x80 + Z.land (Z.shiftr c 6) 63; 0x80 + Z.land c 63].

(** [s.encode("utf-8")]: surrogates have no encoding. *)
Definition utf8_encode (s : pystr) : res bytes :=
  if existsb is_surrogate s then inl EUnicodeEncode else inr (s ≫= utf8_char).

Definition is_cont (b : Z) : bool := (0x80 <=? b) && (b <=? 0xBF).

(** [b.decode("utf-8", "surrogatepass")]: shortest forms only, surrogates
    pass through. *)
Fixpoint utf8_decode (bs : bytes) : res pystr :=
  match bs with
  | [] => inr []
  | b0 :: r0 =>
      if b0 <? 0x80 then s ← utf8_decode r0; inr (b0 :: s)
      else match r0 with
      | [] => inl EUnicodeDecode
      | b1 :: r1 =>
          if (0xC2 <=? b0) && (b0 <=? 0xDF) then
            if is_cont b1
            then s ← utf8_decode r1; inr ((b0 - 0xC0) * 64 + (b1 - 0x80) :: s)
            else inl EUnicodeDecode
          else match r1 with
          | [] => inl EUnicodeDecode
          | b2 :: r2 =>
              if (0xE0 <=? b0) && (b0 <=? 0xEF) then
                let c := (b0 - 0xE0) * 4096 + (b1 - 0x80) * 64 + (b2 - 0x80) in
                if is_cont b1 && is_cont b2 && (0x800 <=? c)
                then s ← utf8_decode r2; inr (c :: s)
                else inl EUnicodeDecode
              else match r2 with
              | [] => inl EUnicodeDecode
              | b3 :: r3 =>
                  let c := (b0 - 0xF0) * 262144 + (b1 - 0x80) * 4096
                           + (b2 - 0x80) * 64 + (b3 - 0x80) in
                  if (0xF0 <=? b0) && (b0 <=? 0xF4) && is_cont b1 && is_cont b2
                     && is_cont b3 && (0x10000 <=? c) && (c <=? 0x10FFFF)
                  then s ← utf8_decode r3; inr (c :: s)
                  else inl EUnicodeDecode
              end
          end
      end
  end.

Lemma eat_here c s : eat c (c :: s) = Some s.
Proof. simpl. by rewrite Z.eqb_refl. Qed.

Lemma eat_other c x s : x ≠ c → eat c (x :: s) = None.
Proof. intros H. simpl. by rewrite (proj2 (Z.eqb_neq x c)). Qed.

#[export] Hint Rewrite eat_here : undolog_rw.
