(* ===== verification/PyFacts.v ===== *)
(** * Facts about the Python run time

    Round trips of decimal and hexadecimal text, of UTF-8 and of the
    little-endian packing; they are what makes the call-signature preimage
    injective and the number texts comparable. *)

From S2P Require Import Prelude Py.
Open Scope Z_scope.
Open Scope undolog_scope.

(** ** Digits *)

Definition is_digit_of (base d : Z) : Prop := 0 ≤ d < base.

(** The value of a digit sequence, most significant first. *)
Definition digits_value (base acc : Z) (ds : list Z) : Z :=
  foldl (λ a d, a * base + d) acc ds.

Lemma digit_val_char base d :
  base ≤ 16 → is_digit_of base d → digit_val (digit_char d) = Some d.
Proof.
  intros Hb [??]. unfold digit_val, digit_char.
  destruct (Z.ltb_spec d 10).
  - rewrite (proj2 (Z.leb_le _ _)), (proj2 (Z.leb_le _ _)) by lia. f_equal; lia.
  - rewrite (proj2 (Z.leb_le 48 _)), (proj2 (Z.leb_gt _ 57)) by lia. simpl.
    rewrite (proj2 (Z.leb_le 97 _)), (proj2 (Z.leb_le _ 122)) by lia. f_equal; lia.
Qed.

Lemma digit_char_range base d :
  base ≤ 16 → is_digit_of base d →
  48 ≤ digit_char d ≤ 57 ∨ 97 ≤ digit_char d ≤ 102.
Proof. intros Hb [??]. unfold digit_char. destruct (Z.ltb_spec d 10); lia. Qed.

Lemma parse_digits_text base ds acc seen :
  base ≤ 16 → Forall (is_digit_of base) ds → (seen = true ∨ ds ≠ []) →
  parse_digits base acc seen (digit_char <$> ds) = Some (digits_value base acc ds).
Proof.
  intros Hb Hds. revert acc seen. induction Hds as [|d ds Hd Hds IH]; intros acc seen Hne.
  - destruct Hne as [->|]; done.
  - simpl. pose proof (digit_char_range _ _ Hb Hd).
    rewrite (proj2 (Z.eqb_neq _ 95)) by lia.
    rewrite (digit_val_char base) by done.
    rewrite (proj2 (Z.ltb_lt d base)) by apply Hd.
    apply IH. by left.
Qed.

(** What [to_digits] produces, with any sufficient fuel. *)
Record digits_of (base n : Z) (ds : list Z) : Prop := {
  digits_of_ne : ds ≠ [];
  digits_of_ok : Forall (is_digit_of base) ds;
  digits_of_val : digits_value base 0 ds = n;
  digits_of_zero : n = 0 → ds = [0];
  digits_of_head : n ≠ 0 → head ds ≠ Some 0;
}.

Lemma digits_value_app base acc ds es :
  digits_value base acc (ds ++ es) = digits_value base (digits_value base acc ds) es.
Proof. apply foldl_app. Qed.

Lemma digits_of_single base n : 0 ≤ n < base → digits_of base n [n].
Proof.
  intros [? ?]. split.
  - done.
  - constructor; [split; lia|constructor].
  - unfold digits_value. simpl. lia.
  - intros ->. done.
  - simpl. intros ? [=]. done.
Qed.

Lemma digits_of_snoc base n ds :
  2 ≤ base → base ≤ n → digits_of base (n / base) ds →
  digits_of base n (ds ++ [n mod base]).
Proof.
  intros Hb Hn [Hne Hok Hval Hz Hh].
  assert (n / base ≠ 0) as Hq.
  { intros H. apply Z.div_small_iff in H; lia. }
  assert (0 ≤ n mod base < base) by (apply Z.mod_pos_bound; lia).
  split.
  - by destruct ds.
  - apply Forall_app. split; [done|]. by constructor.
  - rewrite digits_value_app, Hval. unfold digits_value. simpl.
    rewrite (Z.div_mod n base) at 3 by lia. lia.
  - lia.
  - intros _. specialize (Hh Hq). by destruct ds.
Qed.

Lemma to_digits_go_spec fuel base n acc :
  2 ≤ base → 0 ≤ n < base ^ Z.of_nat fuel → (1 ≤ fuel)%nat →
  ∃ ds, to_digits_go fuel base n acc = (digit_char <$> ds) ++ acc ∧ digits_of base n ds.
Proof.
  intros Hb. revert n acc. induction fuel as [|f IH]; intros n acc Hn Hf; [lia|].
  simpl. destruct (Z.ltb_spec n base) as [Hlt|Hge].
  - exists [n]. split; [|apply digits_of_single; lia].
    simpl. by rewrite Z.mod_small by lia.
  - rewrite Nat2Z.inj_succ, Z.pow_succ_r in Hn by lia.
    assert (f ≠ 0%nat) by (intros ->; simpl in Hn; lia).
    destruct (IH (n / base) (digit_char (n mod base) :: acc)) as (ds & Heq & Hds).
    + split; [apply Z.div_pos; lia|]. apply Z.div_lt_upper_bound; lia.
    + lia.
    + exists (ds ++ [n mod base]). split; [|by apply digits_of_snoc].
      rewrite Heq, fmap_app. simpl. by rewrite <-app_assoc.
Qed.

Lemma to_digits_spec base n :
  2 ≤ base → 0 ≤ n → ∃ ds, to_digits base n = digit_char <$> ds ∧ digits_of base n ds.
Proof.
  intros Hb Hn. unfold to_digits.
  destruct (to_digits_go_spec (S (Z.to_nat (Z.log2 n))) base n []) as (ds & Heq & Hds); [done|..].
  - split; [done|]. destruct (Z.eq_dec n 0) as [->|].
    + apply Z.pow_pos_nonneg; lia.
    + rewrite Nat2Z.inj_succ, Z2Nat.id by apply Z.log2_nonneg.
      destruct (Z.log2_spec n) as [_ H]; [lia|].
      eapply Z.lt_le_trans; [exact H|]. apply Z.pow_le_mono_l. lia.
  - lia.
  - exists ds. by rewrite Heq, app_nil_r.
Qed.

(** [int(str(n), base)] gives back [n]. *)
Lemma parse_to_digits base n :
  2 ≤ base → base ≤ 16 → 0 ≤ n → parse_digits base 0 false (to_digits base n) = Some n.
Proof.
  intros Hb Hb' Hn. destruct (to_digits_spec base n Hb Hn) as (ds & -> & Hds).
  destruct Hds. rewrite parse_digits_text by auto. by f_equal.
Qed.

Lemma to_digits_inj base n m :
  2 ≤ base → base ≤ 16 → 0 ≤ n → 0 ≤ m → to_digits base n = to_digits base m → n = m.
Proof.
  intros ???? Heq. apply (f_equal (parse_digits base 0 false)) in Heq.
  rewrite !parse_to_digits in Heq by done. by injection Heq.
Qed.

(** ** Little-endian words *)

(** [struct.unpack("<I", b)]. *)
Definition unpack_le32 (b : bytes) : Z :=
  match b with
  | [b0; b1; b2; b3] => b0 + 256 * (b1 + 256 * (b2 + 256 * b3))
  | _ => 0
  end.

Lemma unpack_pack n : 0 ≤ n < 2 ^ 32 → unpack_le32 (le32 n) = n.
Proof.
  intros Hn. unfold unpack_le32, le32.
  change 255 with (Z.ones 8). rewrite !Z.land_ones, !Z.shiftr_div_pow2 by lia.
  change (2 ^ 8) with 256. change (2 ^ 16) with 65536. change (2 ^ 24) with 16777216.
  pose proof (Z.div_mod n 256). pose proof (Z.div_mod (n / 256) 256).
  pose proof (Z.div_mod (n / 256 / 256) 256).
  replace (n / 65536) with (n / 256 / 256) by (by rewrite Z.div_div by lia).
  replace (n / 16777216) with (n / 256 / 256 / 256) by (by rewrite !Z.div_div by lia).
  assert (n / 256 / 256 / 256 < 256).
  { rewrite !Z.div_div by lia. apply Z.div_lt_upper_bound; lia. }
  assert (0 ≤ n / 256 / 256 / 256) by (rewrite !Z.div_div by lia; apply Z.div_pos; lia).
  rewrite (Z.mod_small (n / 256 / 256 / 256)) by lia. lia.
Qed.

Lemma le32_inj n m : 0 ≤ n < 2 ^ 32 → 0 ≤ m < 2 ^ 32 → le32 n = le32 m → n = m.
Proof.
  intros Hn Hm H. rewrite <-(unpack_pack n), <-(unpack_pack m) by done. by rewrite H.
Qed.

(** ** UTF-8 *)

Definition code_point (c : Z) : Prop := 0 ≤ c ≤ 0x10FFFF.

Lemma land63 c : Z.land c 63 = c mod 64.
Proof. change 63 with (Z.ones 6). by rewrite Z.land_ones by lia. Qed.

Lemma is_cont_land c : is_cont (0x80 + c mod 64) = true.
Proof.
  unfold is_cont. pose proof (Z.mod_pos_bound c 64 ltac:(lia)).
  rewrite (proj2 (Z.leb_le _ _)), (proj2 (Z.leb_le _ _)) by lia. done.
Qed.

Lemma utf8_decode_char c bs s :
  code_point c → utf8_decode bs = inr s → utf8_decode (utf8_char c ++ bs) = inr (c :: s).
Proof.
  intros Hc Hs. unfold utf8_char. unfold code_point in Hc.
  rewrite !Z.shiftr_div_pow2, !land63 by lia.
  change (2 ^ 6) with 64. change (2 ^ 12) with 4096. change (2 ^ 18) with 262144.
  pose proof (Z.div_mod c 64 ltac:(lia)).
  pose proof (Z.mod_pos_bound c 64 ltac:(lia)).
  pose proof (Z.div_mod (c / 64) 64 ltac:(lia)).
  pose proof (Z.mod_pos_bound (c / 64) 64 ltac:(lia)).
  pose proof (Z.div_mod (c / 4096) 64 ltac:(lia)).
  pose proof (Z.mod_pos_bound (c / 4096) 64 ltac:(lia)).
  assert (c / 64 / 64 = c / 4096) by (by rewrite Z.div_div by lia).
  assert (c / 4096 / 64 = c / 262144) by (by rewrite Z.div_div by lia).
  assert (0 ≤ c / 4096) by (apply Z.div_pos; lia).
  assert (0 ≤ c / 262144) by (apply Z.div_pos; lia).
  destruct (Z.ltb_spec c 0x80); [simpl; rewrite (proj2 (Z.ltb_lt _ _)) by lia; by rewrite Hs|].
  destruct (Z.ltb_spec c 0x800).
  { simpl. rewrite (proj2 (Z.ltb_ge _ _)), (proj2 (Z.leb_le _ _)), (proj2 (Z.leb_le _ _)) by lia.
    simpl. rewrite is_cont_land, Hs. simpl. do 2 f_equal. lia. }
  destruct (Z.ltb_spec c 0x10000).
  { simpl. rewrite (proj2 (Z.ltb_ge _ _)) by lia.
    rewrite (proj2 (Z.leb_gt _ 0xDF)) by lia. rewrite andb_false_r.
    rewrite (proj2 (Z.leb_le 0xE0 _)), (proj2 (Z.leb_le _ 0xEF)) by lia. simpl.
    rewrite !is_cont_land, Hs. simpl. rewrite (proj2 (Z.leb_le _ _)) by lia. simpl.
    do 2 f_equal. lia. }
  simpl. rewrite (proj2 (Z.ltb_ge _ _)) by lia.
  rewrite (proj2 (Z.leb_gt _ 0xDF)) by lia. rewrite andb_false_r.
  rewrite (proj2 (Z.leb_gt _ 0xEF)) by lia. rewrite andb_false_r.
  rewrite (proj2 (Z.leb_le 0xF0 _)), (proj2 (Z.leb_le _ 0xF4)) by lia. simpl.
  rewrite !is_cont_land, Hs. simpl.
  rewrite (proj2 (Z.leb_le 0x10000 _)), (proj2 (Z.leb_le _ 0x10FFFF)) by lia. simpl.
  do 2 f_equal. lia.
Qed.

(** Decoding what [str.encode] produced gives back the text. *)
Lemma utf8_roundtrip s b :
  Forall code_point s → utf8_encode s = inr b → utf8_decode b = inr s.
Proof.
  unfold utf8_encode. intros Hs. case_match eqn:E; [done|]. intros [= <-]. clear E.
  induction Hs as [|c s Hc Hs IH]; [done|].
  change ((c :: s) ≫= utf8_char) with (utf8_char c ++ (s ≫= utf8_char)).
  by apply utf8_decode_char.
Qed.

Lemma utf8_encode_inj s t b :
  Forall code_point s → Forall code_point t →
  utf8_encode s = inr b → utf8_encode t = inr b → s = t.
Proof.
  intros Hs Ht Es Et. apply utf8_roundtrip in Es; [|done].
  apply utf8_roundtrip in Et; [|done]. congruence.
Qed.

(** ** [int] of digit text *)

Lemma lstrip_by_none p s : (∀ x, x ∈ s → p x = false) → lstrip_by p s = s.
Proof. destruct s as [|x s]; intros H; [done|]. simpl. by rewrite H by left. Qed.

Lemma strip_by_none p s : (∀ x, x ∈ s → p x = false) → strip_by p s = s.
Proof.
  intros H. unfold strip_by. rewrite (lstrip_by_none p s H), lstrip_by_none.
  - apply reverse_involutive.
  - intros x Hx. apply H. by rewrite elem_of_reverse in Hx.
Qed.

(** Characters of digit text. *)
Lemma to_digits_chars base n x :
  2 ≤ base → base ≤ 16 → 0 ≤ n → x ∈ to_digits base n → 48 ≤ x ≤ 57 ∨ 97 ≤ x ≤ 102.
Proof.
  intros Hb Hb' Hn Hx. destruct (to_digits_spec base n Hb Hn) as (ds & E & Hds).
  rewrite E in Hx. apply list_elem_of_fmap in Hx as (d & -> & Hd).
  apply (digit_char_range base); [done|]. destruct Hds as [_ Hok _ _ _].
  rewrite Forall_forall in Hok. by apply Hok.
Qed.

Lemma to_digits_ne base n : 2 ≤ base → 0 ≤ n → to_digits base n ≠ [].
Proof.
  intros Hb Hn. destruct (to_digits_spec base n Hb Hn) as (ds & -> & [Hne _ _ _ _]).
  by destruct ds.
Qed.

Lemma int_prefix_digits base n :
  2 ≤ base → base ≤ 16 → 0 ≤ n → int_prefix base (to_digits base n) = to_digits base n.
Proof.
  intros Hb Hb' Hn. pose proof (λ x, to_digits_chars base n x Hb Hb' Hn) as Hc.
  destruct (to_digits base n) as [|z [|x s]]; [done..|]. simpl.
  assert ((x =? 120) || (x =? 88) = false) as ->; [|by rewrite andb_false_r].
  specialize (Hc x ltac:(right; left)). apply orb_false_iff. split; apply Z.eqb_neq; lia.
Qed.

(** [int(text, base)] reads back digit text, up to the digit limit of base ten. *)
Lemma py_int_ws_digits ws base n :
  2 ≤ base → base ≤ 16 → 0 ≤ n →
  (∀ x, 48 ≤ x ≤ 57 ∨ 97 ≤ x ≤ 102 → ws x = false) →
  (base = 10 → (length (to_digits base n) ≤ int_max_str_digits)%nat) →
  py_int_ws ws base (to_digits base n) = Some n.
Proof.
  intros Hb Hb' Hn Hws Hlen. unfold py_int_ws.
  pose proof (λ x, to_digits_chars base n x Hb Hb' Hn) as Hc.
  rewrite strip_by_none by (intros x Hx; apply Hws, Hc, Hx).
  assert (eat 45 (to_digits base n) = None ∧ eat 43 (to_digits base n) = None) as [-> ->].
  { pose proof (to_digits_ne base n Hb Hn).
    destruct (to_digits base n) as [|z s]; [done|]. specialize (Hc z ltac:(left)).
    split; apply eat_other; lia. }
  simpl. rewrite int_prefix_digits by done.
  assert ((base =? 10) && (int_max_str_digits <? count_digits (to_digits base n))%nat = false) as ->.
  { destruct (Z.eqb_spec base 10) as [->|]; [|done]. simpl. apply Nat.ltb_ge.
    etrans; [|by apply Hlen]. unfold count_digits. apply List.filter_length_le. }
  by apply parse_to_digits.
Qed.

Lemma py_int_bytes_hex n : 0 ≤ n → py_int_bytes 16 (to_digits 16 n) = Some n.
Proof.
  intros Hn. apply py_int_ws_digits; try lia. intros x Hx. unfold is_space.
  apply orb_false_iff. rewrite Z.eqb_neq, andb_false_iff, !Z.leb_gt. lia.
Qed.

Lemma length_to_digits_go fuel base n acc :
  (length (to_digits_go fuel base n acc) ≤ fuel + length acc)%nat.
Proof.
  revert n acc. induction fuel as [|f IH]; intros n acc; simpl; [lia|].
  case_match; simpl; [lia|]. etrans; [apply IH|]. simpl. lia.
Qed.

Lemma length_to_digits base n k :
  0 ≤ n < 2 ^ k → (length (to_digits base n) ≤ S (Z.to_nat k))%nat.
Proof.
  intros Hn. unfold to_digits. etrans; [apply length_to_digits_go|]. simpl.
  assert (Z.log2 n ≤ k); [|lia].
  destruct (Z.eq_dec n 0) as [->|].
  - rewrite Z.log2_nonpos by lia. destruct (Z.le_gt_cases 0 k); [done|].
    rewrite Z.pow_neg_r in Hn by done. lia.
  - assert (Z.log2 n < k); [|lia]. apply Z.log2_lt_pow2; lia.
Qed.

(** The decimal text of a number reads back. *)
Lemma py_int_str_of_int n : 0 ≤ n < 2 ^ 63 → py_int 10 (str_of_int n) = Some n.
Proof.
  intros Hn. unfold str_of_int. rewrite (proj2 (Z.ltb_ge n 0)) by lia.
  apply py_int_ws_digits; try lia.
  - intros x Hx. unfold is_uspace, is_space.
    repeat (apply orb_false_iff; split); rewrite ?andb_false_iff, ?Z.eqb_neq, ?Z.leb_gt; lia.
  - intros _. etrans; [apply (length_to_digits 10 n 63)|]; [lia|]. unfold int_max_str_digits. lia.
Qed.
