(* ===== verification/Json.v ===== *)
(** * JSON values and the [json] module

    The values the SDK passes around are what [json.loads] returns: [dict],
    [list], [str], [int], [float], [bool] and [None]. A [dict] is its list of
    entries in insertion order. [loads] is the decoder the server applies to
    request bodies, with the scanner's error behaviour; [dumps] is the default
    encoder. *)

From S2P Require Import Prelude Py.
Open Scope Z_scope.
Open Scope undolog_scope.

Inductive json :=
| JNull
| JBool (b : bool)
| JInt (n : Z)
| JFloat (f : pyfloat)
| JStr (s : pystr)
| JArr (l : list json)
| JObj (d : list (pystr * json)).

(** Induction through the nested lists. *)
Section json_induction.
Variable P : json → Prop.
Hypothesis Hnull : P JNull.
Hypothesis Hbool : ∀ b, P (JBool b).
Hypothesis Hinteger : ∀ n, P (JInt n).
Hypothesis Hfloat : ∀ f, P (JFloat f).
Hypothesis Hstr : ∀ s, P (JStr s).
Hypothesis Harr : ∀ l, Forall P l → P (JArr l).
Hypothesis Hobj : ∀ d, Forall (λ kv, P kv.2) d → P (JObj d).

Fixpoint json_ind' (v : json) : P v :=
  match v with
  | JNull => Hnull
  | JBool b => Hbool b
  | JInt n => Hinteger n
  | JFloat f => Hfloat f
  | JStr s => Hstr s
  | JArr l =>
      Harr l ((fix go l : Forall P l :=
        match l with
        | [] => Forall_nil_2 _
        | x :: l' => Forall_cons_2 _ x l' (json_ind' x) (go l')
        end) l)
  | JObj d =>
      Hobj d ((fix go d : Forall (λ kv, P kv.2) d :=
        match d with
        | [] => Forall_nil_2 _
        | kv :: d' => Forall_cons_2 _ kv d' (json_ind' kv.2) (go d')
        end) d)
  end.
End json_induction.

(** ** Dictionaries *)

Section dict.
Context {A : Type}.
Implicit Types (k : pystr) (v : A) (d : list (pystr * A)).

(** [d.get(k)]. *)
Fixpoint dict_get k d : option A :=
  match d with
  | [] => None
  | (k', v) :: d' => if str_eqb k k' then Some v else dict_get k d'
  end.

(** [d[k] = v]: an existing key keeps its position. *)
Fixpoint dict_set k v d : list (pystr * A) :=
  match d with
  | [] => [(k, v)]
  | (k', v') :: d' => if str_eqb k k' then (k', v) :: d' else (k', v') :: dict_set k v d'
  end.

(** [d.setdefault(k, v)]. *)
Definition dict_setdefault k v d : list (pystr * A) :=
  match dict_get k d with Some _ => d | None => dict_set k v d end.

(** [d.pop(k, None)], keeping the rest. *)
Fixpoint dict_del k d : list (pystr * A) :=
  match d with
  | [] => []
  | (k', v) :: d' => if str_eqb k k' then d' else (k', v) :: dict_del k d'
  end.

(** [dict(pairs)]. *)
Definition dict_of_pairs (ps : list (pystr * A)) : list (pystr * A) :=
  foldl (λ d kv, dict_set kv.1 kv.2 d) [] ps.

(** A [dict] has one entry per key. *)
Definition dict_ok d : Prop := NoDup d.*1.

Lemma dict_get_set_eq k v d : dict_get k (dict_set k v d) = Some v.
Proof.
  induction d as [|[k' v'] d IH]; simpl; [by rewrite str_eqb_refl|].
  destruct (str_eqb k k') eqn:E; simpl; by rewrite E.
Qed.

Lemma dict_get_set_ne k k' v d : k ≠ k' → dict_get k' (dict_set k v d) = dict_get k' d.
Proof.
  intros Hne. apply str_eqb_neq in Hne. rewrite str_eqb_neq in Hne.
  induction d as [|[k1 v1] d IH]; simpl.
  - by rewrite (proj2 (str_eqb_neq k' k)) by congruence.
  - destruct (str_eqb k k1) eqn:E; simpl; [|by rewrite IH].
    apply str_eqb_eq in E as ->. by rewrite (proj2 (str_eqb_neq k' k1)) by congruence.
Qed.

Lemma dict_get_elem k v d : dict_ok d → dict_get k d = Some v ↔ (k, v) ∈ d.
Proof.
  unfold dict_ok. induction d as [|[k' v'] d IH]; simpl; intros Hnd.
  - split; [done|]. intros H; by apply elem_of_nil in H.
  - apply NoDup_cons in Hnd as [Hk Hnd]. rewrite elem_of_cons.
    destruct (str_eqb k k') eqn:E.
    + apply str_eqb_eq in E as ->. split; [intros [= ->]; by left|].
      intros [[= ->]|H]; [done|]. exfalso. apply Hk.
      apply (list_elem_of_fmap_2 fst) in H. done.
    + apply str_eqb_neq in E. rewrite IH by done. split; [by right|].
      intros [[= ? ?]|?]; done.
Qed.

Lemma dict_get_None k d : dict_get k d = None ↔ k ∉ d.*1.
Proof.
  induction d as [|[k' v'] d IH]; simpl.
  - split; [intros _; apply not_elem_of_nil|done].
  - rewrite not_elem_of_cons. destruct (str_eqb k k') eqn:E.
    + apply str_eqb_eq in E. naive_solver.
    + apply str_eqb_neq in E. rewrite IH. naive_solver.
Qed.

Lemma dict_del_elem k x d : x ∈ dict_del k d → x ∈ d.
Proof.
  induction d as [|[k' v] d IH]; simpl; [done|]. destruct (str_eqb k k'); rewrite ?elem_of_cons; naive_solver.
Qed.

Lemma dict_ok_del k d : dict_ok d → dict_ok (dict_del k d).
Proof.
  unfold dict_ok. induction d as [|[k' v] d IH]; simpl; [done|]. rewrite NoDup_cons. intros [Hk Hd].
  destruct (str_eqb k k'); [done|]. simpl. apply NoDup_cons; split; [|auto].
  intros ([k1 v1] & -> & H%dict_del_elem)%list_elem_of_fmap. apply Hk. by apply (list_elem_of_fmap_2 fst) in H.
Qed.

Lemma dict_get_del k k' d : dict_ok d → dict_get k (dict_del k' d) = if str_eqb k k' then None else dict_get k d.
Proof.
  unfold dict_ok. induction d as [|[k1 v] d IH]; simpl; [by destruct (str_eqb k k')|].
  rewrite NoDup_cons. intros [Hk Hd]. destruct (str_eqb k' k1) eqn:E.
  - apply str_eqb_eq in E as ->. destruct (str_eqb k k1) eqn:E'; [|done].
    apply str_eqb_eq in E' as ->. by apply dict_get_None.
  - simpl. destruct (str_eqb k k1) eqn:E'; [|by apply IH]. apply str_eqb_eq in E' as ->.
    destruct (str_eqb k1 k') eqn:E''; [|done]. apply str_eqb_eq in E'' as ->. by rewrite str_eqb_refl in E.
Qed.

Lemma dict_set_new k v d : k ∉ d.*1 → dict_set k v d = d ++ [(k, v)].
Proof.
  induction d as [|[k' v'] d IH]; simpl; [done|].
  rewrite not_elem_of_cons. intros [Hne Hni].
  rewrite (proj2 (str_eqb_neq k k')) by done. f_equal. auto.
Qed.

Lemma dict_del_none k d : dict_get k d = None → dict_del k d = d.
Proof.
  induction d as [|[k' v] d IH]; simpl; [done|]. destruct (str_eqb k k'); [done|]. intros H. by rewrite IH.
Qed.

Lemma dict_del_set k v d : dict_get k d = None → dict_del k (dict_set k v d) = d.
Proof.
  induction d as [|[k' v'] d IH]; simpl; [by rewrite str_eqb_refl|].
  destruct (str_eqb k k') eqn:E; [done|]. intros H. simpl. by rewrite E, IH.
Qed.

(** Distinct keys keep their pairs as they are. *)
Lemma dict_of_pairs_id ps : dict_ok ps → dict_of_pairs ps = ps.
Proof.
  unfold dict_of_pairs, dict_ok. intros Hnd.
  enough (∀ acc, NoDup ((acc ++ ps).*1) →
    foldl (λ d kv, dict_set kv.1 kv.2 d) acc ps = acc ++ ps) as H.
  { by apply (H []). }
  clear Hnd. induction ps as [|[k v] ps IH]; intros acc Hnd; simpl; [by rewrite app_nil_r|].
  rewrite fmap_app in Hnd. apply NoDup_app in Hnd as (?&Hdis&Hnd2).
  rewrite dict_set_new; last first.
  { intros Hin. eapply Hdis; [exact Hin|]. simpl. left. }
  rewrite IH; rewrite <-?app_assoc; [done|].
  rewrite fmap_app. apply NoDup_app. split_and!; done.
Qed.
End dict.

(** ** [json.dumps] *)

(** One character of a string literal with [ensure_ascii]: printable ASCII as
    it is, the short escapes, everything else as [\uXXXX]. *)
Definition dumps_char (c : Z) : pystr :=
  if c =? 34 then $"\" ++ [34]
  else if c =? 92 then $"\\"
  else if c =? 10 then $"\n"
  else if c =? 13 then $"\r"
  else if c =? 9 then $"\t"
  else if c =? 12 then $"\f"
  else if c =? 8 then $"\b"
  else if (32 <=? c) && (c <=? 126) then [c]
  else if c <? 0x10000 then $"\u" ++ hex4 c
  else
    let v := c - 0x10000 in
    $"\u" ++ hex4 (Z.lor 0xD800 (Z.land (Z.shiftr v 10) 0x3FF))
    ++ $"\u" ++ hex4 (Z.lor 0xDC00 (Z.land v 0x3FF)).

Definition dumps_str (s : pystr) : pystr := [34] ++ (s ≫= dumps_char) ++ [34].

Definition dumps_float (f : pyfloat) : pystr :=
  match f with
  | FNan => $"NaN"
  | FInf neg => sign_text neg ++ $"Infinity"
  | _ => float_repr f
  end.

(** [json.dumps(v)] with the default separators. *)
Fixpoint dumps (v : json) : pystr :=
  match v with
  | JNull => $"null"
  | JBool b => if b then $"true" else $"false"
  | JInt n => str_of_int n
  | JFloat f => dumps_float f
  | JStr s => dumps_str s
  | JArr l => [91] ++ join $", " (map dumps l) ++ [93]
  | JObj d => [123] ++ join $", " (map (λ kv, dumps_str kv.1 ++ $": " ++ dumps kv.2) d) ++ [125]
  end.

(** ** [json.loads] *)

(** A hexadecimal digit of an escape. *)
Definition hex_digit (c : Z) : option Z :=
  match digit_val c with Some d => if d <? 16 then Some d else None | None => None end.

Definition hex4_val (a b c d : Z) : option Z :=
  a ← hex_digit a; b ← hex_digit b; c ← hex_digit c; d ← hex_digit d;
  Some (((a * 16 + b) * 16 + c) * 16 + d).

Definition is_high (u : Z) : bool := (0xD800 <=? u) && (u <=? 0xDBFF).
Definition is_low (u : Z) : bool := (0xDC00 <=? u) && (u <=? 0xDFFF).
Definition join_surrogates (u v : Z) : Z := 0x10000 + (u - 0xD800) * 1024 + (v - 0xDC00).

(** The two-character escapes. *)
Definition short_escape (e : Z) : option Z :=
  if e =? 34 then Some 34
  else if e =? 92 then Some 92
  else if e =? 47 then Some 47
  else if e =? 98 then Some 8
  else if e =? 102 then Some 12
  else if e =? 110 then Some 10
  else if e =? 114 then Some 13
  else if e =? 116 then Some 9
  else None.

Definition push (c : Z) (r : res (pystr * pystr)) : res (pystr * pystr) :=
  match r with inl e => inl e | inr (t, rest) => inr (c :: t, rest) end.

(** A string literal from after its opening quote: its text, and what follows
    the closing quote. A high surrogate escape followed by a low one is one
    code point; a control character is refused. *)
Fixpoint scan_string (s : pystr) : res (pystr * pystr) :=
  match s with
  | [] => inl EJsonDecode
  | c :: r =>
      if c =? 34 then inr ([], r)
      else if c =? 92 then
        match r with
        | [] => inl EJsonDecode
        | e :: r1 =>
            if e =? 117 then
              match r1 with
              | a :: b :: c2 :: d :: r2 =>
                  match hex4_val a b c2 d with
                  | None => inl EJsonDecode
                  | Some u =>
                      if is_high u then
                        match r2 with
                        | x :: y :: a' :: b' :: c' :: d' :: r3 =>
                            if (x =? 92) && (y =? 117) then
                              match hex4_val a' b' c' d' with
                              | None => inl EJsonDecode
                              | Some v =>
                                  if is_low v then push (join_surrogates u v) (scan_string r3)
                                  else push u (scan_string r2)
                              end
                            else push u (scan_string r2)
                        | _ => push u (scan_string r2)
                        end
                      else push u (scan_string r2)
                  end
              | _ => inl EJsonDecode
              end
            else match short_escape e with
                 | Some c' => push c' (scan_string r1)
                 | None => inl EJsonDecode
                 end
        end
      else if c <? 32 then inl EJsonDecode
      else push c (scan_string r)
  end.

Definition is_ascii_digit (c : Z) : bool := (48 <=? c) && (c <=? 57).

(** The longest prefix of decimal digits. *)
Fixpoint span_digits (s : pystr) : pystr * pystr :=
  match s with
  | [] => ([], [])
  | c :: r => if is_ascii_digit c then let '(a, b) := span_digits r in (c :: a, b) else ([], s)
  end.

(** The integer part of a number: a single zero, or digits without a leading
    zero. *)
Definition scan_int_part (s : pystr) : option (pystr * pystr) :=
  match eat 48 s with
  | Some r => Some ([48], r)
  | None => match span_digits s with ([], _) => None | p => Some p end
  end.

Definition scan_frac (s : pystr) : pystr * pystr :=
  match eat 46 s with
  | Some r => match span_digits r with ([], _) => ([], s) | (ds, r') => (46 :: ds, r') end
  | None => ([], s)
  end.

Definition scan_exp (s : pystr) : pystr * pystr :=
  match s with
  | e :: r =>
      if (e =? 101) || (e =? 69) then
        let '(sg, r1) :=
          match eat 43 r with
          | Some r1 => ([43], r1)
          | None => match eat 45 r with Some r1 => ([45], r1) | None => ([], r) end
          end in
        match span_digits r1 with
        | ([], _) => ([], s)
        | (ds, r2) => (e :: sg ++ ds, r2)
        end
      else ([], s)
  | [] => ([], [])
  end.

Fixpoint skip_ws (s : pystr) : pystr :=
  match s with
  | c :: r => if (c =? 32) || (c =? 9) || (c =? 10) || (c =? 13) then skip_ws r else s
  | [] => []
  end.

Section loads.
(** [float(text)]: the C library's decimal-to-double conversion. *)
Variable float_of_text : pystr → pyfloat.

(** The number a scanned token denotes. *)
Definition number_of_token (neg : bool) (int_part frac exp : pystr) : res json :=
  match frac ++ exp with
  | [] =>
      if (int_max_str_digits <? length int_part)%nat then inl EIntLimit
      else match parse_digits 10 0 false int_part with
           | Some n => inr (JInt (if neg then - n else n))
           | None => inl EJsonDecode
           end
  | _ => inr (JFloat (float_of_text (sign_text neg ++ int_part ++ frac ++ exp)))
  end.

Definition scan_number (s : pystr) : res (json * pystr) :=
  let '(neg, t) := match eat 45 s with Some t => (true, t) | None => (false, s) end in
  match scan_int_part t with
  | None => inl EJsonDecode
  | Some (ip, r1) =>
      let '(fr, r2) := scan_frac r1 in
      let '(ex, r3) := scan_exp r2 in
      v ← number_of_token neg ip fr ex; inr (v, r3)
  end.

(** A value, from its first character. The fuel bounds the nesting and the
    number of elements, both at most the length of the text. *)
Fixpoint parse_value (n : nat) (s : pystr) : res (json * pystr) :=
  match n with
  | O => inl EJsonDecode
  | S n =>
      match s with
      | [] => inl EJsonDecode
      | c :: r =>
          if c =? 34 then '(t, r') ← scan_string r; inr (JStr t, r')
          else if c =? 123 then
            match eat 125 (skip_ws r) with
            | Some r' => inr (JObj [], r')
            | None =>
                '(ps, r'') ← parse_members n (skip_ws r); inr (JObj (dict_of_pairs ps), r'')
            end
          else if c =? 91 then
            match eat 93 (skip_ws r) with
            | Some r' => inr (JArr [], r')
            | None => '(l, r'') ← parse_elems n (skip_ws r); inr (JArr l, r'')
            end
          else if startswith s $"null" then inr (JNull, drop 4 s)
          else if startswith s $"true" then inr (JBool true, drop 4 s)
          else if startswith s $"false" then inr (JBool false, drop 5 s)
          else if startswith s $"NaN" then inr (JFloat FNan, drop 3 s)
          else if startswith s $"Infinity" then inr (JFloat (FInf false), drop 8 s)
          else if startswith s $"-Infinity" then inr (JFloat (FInf true), drop 9 s)
          else scan_number s
      end
  end
with parse_elems (n : nat) (s : pystr) : res (list json * pystr) :=
  match n with
  | O => inl EJsonDecode
  | S n =>
      '(v, r) ← parse_value n s;
      match eat 44 (skip_ws r) with
      | Some r' => '(l, r'') ← parse_elems n (skip_ws r'); inr (v :: l, r'')
      | None => match eat 93 (skip_ws r) with Some r' => inr ([v], r') | None => inl EJsonDecode end
      end
  end
with parse_members (n : nat) (s : pystr) : res (list (pystr * json) * pystr) :=
  match n with
  | O => inl EJsonDecode
  | S n =>
      match eat 34 s with
      | Some r =>
          '(k, r1) ← scan_string r;
          match eat 58 (skip_ws r1) with
          | Some r2 =>
              '(v, r3) ← parse_value n (skip_ws r2);
              match eat 44 (skip_ws r3) with
              | Some r4 => '(ps, r5) ← parse_members n (skip_ws r4); inr ((k, v) :: ps, r5)
              | None =>
                  match eat 125 (skip_ws r3) with
                  | Some r4 => inr ([(k, v)], r4)
                  | None => inl EJsonDecode
                  end
              end
          | None => inl EJsonDecode
          end
      | None => inl EJsonDecode
      end
  end.

(** [json.loads(text)]: one value, surrounded by white space only. *)
Definition loads (s : pystr) : res json :=
  '(v, r) ← parse_value (2 * length s + 2) (skip_ws s);
  match skip_ws r with [] => inr v | _ => inl EJsonDecode end.

(** [json.loads(raw)] for a UTF-8 body, with or without a byte-order mark. *)
Definition loads_bytes (raw : bytes) : res json :=
  let raw := if startswith raw [0xEF; 0xBB; 0xBF] then drop 3 raw else raw in
  s ← utf8_decode raw; loads s.
End loads.
