(* ===== verification/JsonFacts.v ===== *)
(** * The fuel of [json.loads]

    Every round of the parser consumes text, so the fuel [loads] starts with is
    never the reason a text is refused: more of it changes nothing. *)

From S2P Require Import Prelude Py PyFacts Json.
Open Scope Z_scope.
Open Scope undolog_scope.

Lemma skip_ws_length s : (length (skip_ws s) ≤ length s)%nat.
Proof. induction s as [|c s IH]; simpl; [lia|]. case_match; simpl; lia. Qed.

Lemma eat_length c s r : eat c s = Some r → length s = S (length r).
Proof. unfold eat. destruct s as [|d s]; [done|]. case_match; [|done]. by intros [= <-]. Qed.

Lemma push_inr c x t r : push c x = inr (t, r) → ∃ t', x = inr (t', r).
Proof. destruct x as [e|[t' r']]; simpl; [done|]. intros [= _ <-]. eauto. Qed.

Lemma scan_string_length s t r : scan_string s = inr (t, r) → (length r < length s)%nat.
Proof.
  remember (length s) as n eqn:En. revert s En t r. induction (lt_wf n) as [n _ IH]. intros s -> t r.
  assert (∀ s' c t' r', (length s' < length s)%nat → push c (scan_string s') = inr (t', r') →
    (length r' < length s)%nat) as Hpush.
  { intros s' c t' r' Hlt (t1 & E)%push_inr. specialize (IH _ Hlt s' eq_refl _ _ E). lia. }
  destruct s as [|c s]; [done|]. cbn [scan_string]. case_match; [intros [= _ <-]; simpl; lia|].
  repeat (case_match; try done); intros Hrun; (eapply Hpush; [|exact Hrun]); subst; simpl; lia.
Qed.

Lemma span_digits_length s a b : span_digits s = (a, b) → (length b + length a = length s)%nat.
Proof.
  revert a b. induction s as [|c s IH]; intros a b; simpl; [by intros [= <- <-]|].
  case_match; [|intros [= <- <-]; simpl; lia]. destruct (span_digits s) as [a' b'].
  intros [= <- <-]. specialize (IH _ _ eq_refl). simpl. lia.
Qed.

Lemma scan_int_part_length s a b : scan_int_part s = Some (a, b) → (length b < length s)%nat.
Proof.
  unfold scan_int_part. destruct (eat 48 s) as [r|] eqn:E; [apply eat_length in E; intros [= _ <-]; lia|].
  destruct (span_digits s) as [[|d ds] r] eqn:Es; [done|]. apply span_digits_length in Es.
  intros [= _ <-]. simpl in Es. lia.
Qed.

Lemma scan_frac_length s a b : scan_frac s = (a, b) → (length b ≤ length s)%nat.
Proof.
  unfold scan_frac. destruct (eat 46 s) as [r|] eqn:E; [|intros [= _ <-]; lia]. apply eat_length in E.
  destruct (span_digits r) as [[|d ds] r'] eqn:Es; intros [= _ <-]; [lia|].
  apply span_digits_length in Es. lia.
Qed.

Lemma scan_exp_length s a b : scan_exp s = (a, b) → (length b ≤ length s)%nat.
Proof.
  unfold scan_exp. destruct s as [|e r]; [by intros [= _ <-]|].
  case_match; [|intros [= _ <-]; lia].
  assert (∀ sg r1, match eat 43 r with
    | Some r1 => ([43], r1)
    | None => match eat 45 r with Some r1 => ([45], r1) | None => ([], r) end
    end = (sg, r1) → (length r1 ≤ length r)%nat) as Hs.
  { intros sg r1. destruct (eat 43 r) as [x|] eqn:E1; [apply eat_length in E1; intros [= _ <-]; lia|].
    destruct (eat 45 r) as [x|] eqn:E2; [apply eat_length in E2|]; intros [= _ <-]; lia. }
  destruct (match eat 43 r with Some _ => _ | None => _ end) as [sg r1] eqn:Eq. specialize (Hs _ _ eq_refl).
  destruct (span_digits r1) as [[|d ds] r2] eqn:Es; intros [= _ <-]; [lia|].
  apply span_digits_length in Es. simpl. lia.
Qed.

Section fuel.
Variable float_of_text : pystr → pyfloat.
Abbreviation value := (parse_value float_of_text).
Abbreviation elems := (parse_elems float_of_text).
Abbreviation members := (parse_members float_of_text).

Lemma scan_number_length s v r : scan_number float_of_text s = inr (v, r) → (length r < length s)%nat.
Proof.
  unfold scan_number.
  assert (∀ neg t, match eat 45 s with Some t => (true, t) | None => (false, s) end = (neg, t) →
    (length t ≤ length s)%nat) as Hs.
  { intros neg t. destruct (eat 45 s) as [x|] eqn:E; [apply eat_length in E|]; intros [= _ <-]; lia. }
  destruct (match eat 45 s with Some _ => _ | None => _ end) as [neg t]. specialize (Hs _ _ eq_refl).
  destruct (scan_int_part t) as [[ip r1]|] eqn:E1; [|done]. apply scan_int_part_length in E1.
  destruct (scan_frac r1) as [fr r2] eqn:E2. apply scan_frac_length in E2.
  destruct (scan_exp r2) as [ex r3] eqn:E3. apply scan_exp_length in E3.
  destruct (number_of_token _ _ _ _ _) as [e|x]; [done|]. cbn [mbind res_bind]. intros [= _ <-]. lia.
Qed.

(** A token of the text and what follows it. *)
Lemma after_eat c r r' : eat c (skip_ws r) = Some r' → (length (skip_ws r') < length r)%nat.
Proof.
  intros H%eat_length. pose proof (skip_ws_length r). pose proof (skip_ws_length r'). lia.
Qed.

(** What is left after a value is shorter than the text it was read from. *)
Lemma parsers_consume n :
  (∀ s v r, value n s = inr (v, r) → (length r < length s)%nat) ∧
  (∀ s l r, elems n s = inr (l, r) → (length r < length s)%nat) ∧
  (∀ s ps r, members n s = inr (ps, r) → (length r < length s)%nat).
Proof.
  induction n as [|n (IHv & IHe & IHm)]; [done|]. split_and!.
  - intros s v r. cbn [parse_value]. destruct s as [|c s]; [done|].
    case_match. { destruct (scan_string s) as [e|[t r']] eqn:E; [done|]. apply scan_string_length in E.
      intros [= _ <-]. simpl. lia. }
    case_match. { pose proof (skip_ws_length s). destruct (eat 125 (skip_ws s)) as [r'|] eqn:E.
      { apply eat_length in E. intros [= _ <-]. simpl. lia. }
      destruct (members n (skip_ws s)) as [e|[ps r'']] eqn:Em; [done|]. apply IHm in Em.
      intros [= _ <-]. simpl. lia. }
    case_match. { pose proof (skip_ws_length s). destruct (eat 93 (skip_ws s)) as [r'|] eqn:E.
      { apply eat_length in E. intros [= _ <-]. simpl. lia. }
      destruct (elems n (skip_ws s)) as [e|[l r'']] eqn:Em; [done|]. apply IHe in Em.
      intros [= _ <-]. simpl. lia. }
    repeat (case_match; [intros [= _ <-]; rewrite length_drop; simpl; lia|]). apply scan_number_length.
  - intros s l r. cbn [parse_elems]. destruct (value n s) as [e|[v r1]] eqn:Ev; [done|]. apply IHv in Ev.
    cbn [mbind res_bind]. destruct (eat 44 (skip_ws r1)) as [r2|] eqn:E; [apply after_eat in E|].
    + destruct (elems n (skip_ws r2)) as [e|[l' r3]] eqn:Ee; [done|]. apply IHe in Ee.
      intros [= _ <-]. lia.
    + destruct (eat 93 (skip_ws r1)) as [r2|] eqn:E2; [|done]. apply eat_length in E2.
      pose proof (skip_ws_length r1). intros [= _ <-]. lia.
  - intros s ps r. cbn [parse_members]. destruct (eat 34 s) as [r0|] eqn:E0; [|done]. apply eat_length in E0.
    destruct (scan_string r0) as [e|[k r1]] eqn:Es; [done|]. apply scan_string_length in Es. cbn [mbind res_bind].
    destruct (eat 58 (skip_ws r1)) as [r2|] eqn:E1; [|done]. apply after_eat in E1.
    destruct (value n (skip_ws r2)) as [e|[v r3]] eqn:Ev; [done|]. apply IHv in Ev. cbn [mbind res_bind].
    destruct (eat 44 (skip_ws r3)) as [r4|] eqn:E2; [apply after_eat in E2|].
    + destruct (members n (skip_ws r4)) as [e|[ps' r5]] eqn:Em; [done|]. apply IHm in Em. intros [= _ <-]. lia.
    + destruct (eat 125 (skip_ws r3)) as [r4|] eqn:E3; [|done]. apply eat_length in E3.
      pose proof (skip_ws_length r3). intros [= _ <-]. lia.
Qed.

(** Any fuel that covers the text gives the same answer. *)
Lemma parsers_stable n :
  (∀ s m, (2 * length s < n)%nat → (n ≤ m)%nat → value m s = value n s) ∧
  (∀ s m, (2 * length s + 1 < n)%nat → (n ≤ m)%nat → elems m s = elems n s) ∧
  (∀ s m, (2 * length s + 1 < n)%nat → (n ≤ m)%nat → members m s = members n s).
Proof.
  induction n as [|n (IHv & IHe & IHm)]; [split_and!; intros; lia|].
  split_and!; intros s [|m] Hs Hm; try lia.
  - cbn [parse_value]. destruct s as [|c s]; [done|]. simpl in Hs. pose proof (skip_ws_length s).
    by rewrite (IHm (skip_ws s) m), (IHe (skip_ws s) m) by lia.
  - cbn [parse_elems]. rewrite (IHv s m) by lia.
    destruct (value n s) as [e|[v r1]] eqn:Ev; [done|]. apply (proj1 (parsers_consume n)) in Ev.
    cbn [mbind res_bind]. destruct (eat 44 (skip_ws r1)) as [r2|] eqn:E; [|done]. apply after_eat in E.
    by rewrite (IHe (skip_ws r2) m) by lia.
  - cbn [parse_members]. destruct (eat 34 s) as [r0|] eqn:E0; [|done]. apply eat_length in E0.
    destruct (scan_string r0) as [e|[k r1]] eqn:Es; [done|]. apply scan_string_length in Es. cbn [mbind res_bind].
    destruct (eat 58 (skip_ws r1)) as [r2|] eqn:E1; [|done]. apply after_eat in E1.
    rewrite (IHv (skip_ws r2) m) by lia.
    destruct (value n (skip_ws r2)) as [e|[v r3]] eqn:Ev; [done|]. apply (proj1 (parsers_consume n)) in Ev.
    cbn [mbind res_bind]. destruct (eat 44 (skip_ws r3)) as [r4|] eqn:E2; [|done]. apply after_eat in E2.
    by rewrite (IHm (skip_ws r4) m) by lia.
Qed.

(** The fuel of [loads] is enough: with any larger amount it gives the same
    value or the same refusal. *)
Theorem loads_fuel_suffices s fuel :
  (2 * length s + 2 ≤ fuel)%nat →
  loads float_of_text s =
    ('(v, r) ← value fuel (skip_ws s); match skip_ws r with [] => inr v | _ => inl EJsonDecode end).
Proof.
  intros Hf. unfold loads. pose proof (skip_ws_length s).
  by rewrite (proj1 (parsers_stable (2 * length s + 2)) (skip_ws s) fuel) by lia.
Qed.
End fuel.
