(* ===== verification/Signature.v ===== *)
(** * Canonical JSON and call signatures ([undolog_sdk/signature.py])

    The functions of the module as they are written: [es6_float] rewrites the
    [repr] of a float, [escape_json_string] escapes one string,
    [canonical_json] prints a value with sorted keys and [call_signature]
    hashes the length-prefixed byte stream. BLAKE3 is a third-party package:
    its digest is the parameter [blake3_hexdigest]. *)

From S2P Require Import Prelude Py Json.
Open Scope Z_scope.
Open Scope undolog_scope.

Definition ES6_EXP_THRESHOLD : Z := 21.

(** [_es6_float]. *)
Definition es6_float (value : pyfloat) : res pystr :=
  match value with
  | FNan | FInf _ => inl (EInvalidNumber value)
  | FZero _ => inr $"0"
  | FFin _ _ _ =>
      let text := float_repr value in
      let '(sign, text) :=
        match eat 45 text with Some t => ([45], t) | None => ([], text) end in
      let '(mant, tail) := cut_at 101 text in
      '(text, exp_str, exp_val) ←
        match tail with
        | Some t =>
            if (0 <? length mant)%nat then
              let exp_str := 101 :: t in
              let exp_str :=
                if str_eqb (take 1 (drop 2 exp_str)) $"0"
                then take 2 exp_str ++ drop 3 exp_str else exp_str in
              match py_int 10 (drop 1 exp_str) with
              | Some e => inr (mant, exp_str, e)
              | None => inl EIntLiteral
              end
            else inr (text, [], 0)
        | None => inr (text, [], 0)
        end;
      let '(first, rest) := cut_at 46 text in
      let dot := match rest with Some _ => [46] | None => [] end in
      let last := default [] rest in
      let '(dot, last) := if str_eqb last $"0" then ([], []) else (dot, last) in
      if (0 <? exp_val) && (exp_val <? ES6_EXP_THRESHOLD) then
        let first := first ++ last in
        let pad := exp_val + 1 - Z.of_nat (length first) in
        inr (sign ++ (if 0 <? pad then first ++ zeros pad else first))
      else if (-7 <? exp_val) && (exp_val <? 0) then
        let last := first ++ last in
        let pad := - exp_val - 1 in
        inr (sign ++ $"0." ++ (if 0 <? pad then zeros pad ++ last else last))
      else inr (sign ++ first ++ dot ++ last ++ exp_str)
  end.

(** One character of [_escape_json_string]. *)
Definition escape_char (code : Z) : pystr :=
  if code =? 34 then $"\" ++ [34]
  else if code =? 92 then $"\\"
  else if code =? 8 then $"\b"
  else if code =? 12 then $"\f"
  else if code =? 10 then $"\n"
  else if code =? 13 then $"\r"
  else if code =? 9 then $"\t"
  else if code <? 0x20 then $"\u" ++ hex4 code
  else if code <? 0x80 then [code]
  else if code <=? 0xFFFF then $"\u" ++ hex4 code
  else
    let hi := 0xD800 + Z.shiftr (code - 0x10000) 10 in
    let lo := 0xDC00 + Z.land (code - 0x10000) 0x3FF in
    $"\u" ++ hex4 hi ++ $"\u" ++ hex4 lo.

(** [_escape_json_string]. *)
Definition escape_json_string (value : pystr) : pystr :=
  [34] ++ (value ≫= escape_char) ++ [34].

(** [str(value)] on an [int], which CPython refuses past its digit limit. *)
Definition int_text (n : Z) : res pystr :=
  if (int_max_str_digits <? length (to_digits 10 (Z.abs n)))%nat then inl EIntLimit
  else inr (str_of_int n).

(** Evaluate a list of fallible computations in order. *)
Fixpoint sequence {A} (l : list (res A)) : res (list A) :=
  match l with
  | [] => inr []
  | r :: l' => a ← r; as_ ← sequence l'; inr (a :: as_)
  end.

(** The entries of a dictionary in sorted key order, each printed as
    [key:value]; the values are looked up by key. *)
Definition canonical_pairs (d : list (pystr * res pystr)) : res (list pystr) :=
  sequence ((λ k,
    v ← default (inl EJsonDecode) (dict_get k d);
    inr (escape_json_string k ++ [58] ++ v)) <$> merge_sort str_le d.*1).

(** [canonical_json]. *)
Fixpoint canonical_json (value : json) : res pystr :=
  match value with
  | JObj d =>
      pairs ← canonical_pairs (map (λ kv, (kv.1, canonical_json kv.2)) d);
      inr ([123] ++ join [44] pairs ++ [125])
  | JArr l =>
      parts ← sequence (map canonical_json l);
      inr ([91] ++ join [44] parts ++ [93])
  | JBool b => inr (if b then $"true" else $"false")
  | JFloat f => es6_float f
  | JInt n => int_text n
  | JNull => inr $"null"
  | JStr s => inr (escape_json_string s)
  end.

(** ** [uuid.UUID(session_id).bytes] *)

Definition is_brace (c : Z) : bool := (c =? 123) || (c =? 125).

(** The 128-bit value [uuid.UUID] reads: an optional [urn:uuid:] prefix,
    braces and hyphens are dropped, thirty-two characters remain and are read
    as a hexadecimal [int]. *)
Definition uuid_int (session_id : pystr) : option Z :=
  let hex := remove_all $"uuid:" (remove_all $"urn:" session_id) in
  let hex := List.filter (λ c, negb (c =? 45)) (strip_by is_brace hex) in
  if (length hex =? 32)%nat then
    match py_int 16 hex with
    | Some n => if (0 <=? n) && (n <? 2 ^ 128) then Some n else None
    | None => None
    end
  else None.

(** Sixteen bytes, most significant first ([int.to_bytes(16, "big")]). *)
Fixpoint be_bytes (k : nat) (n : Z) : bytes :=
  match k with
  | O => []
  | S k => be_bytes k (Z.shiftr n 8) ++ [Z.land n 255]
  end.

Section call_signature.
(** [blake3.blake3(data).hexdigest()]. *)
Variable blake3_hexdigest : bytes → pystr.

(** The byte stream the hasher is fed. *)
Definition signature_preimage
    (session_id : pystr) (step_index : Z) (tool_name : pystr) (args : json) : res bytes :=
  sid ← match uuid_int session_id with
        | Some n => inr (be_bytes 16 n)
        | None => inl (EInvalidUuid session_id)
        end;
  canon ← canonical_json args;
  name_bytes ← utf8_encode tool_name;
  args_bytes ← utf8_encode canon;
  step ← pack_le32 step_index;
  name_len ← pack_le32 (Z.of_nat (length name_bytes));
  args_len ← pack_le32 (Z.of_nat (length args_bytes));
  inr (sid ++ step ++ name_len ++ name_bytes ++ args_len ++ args_bytes).

(** [call_signature]. *)
Definition call_signature
    (session_id : pystr) (step_index : Z) (tool_name : pystr) (args : json) : res pystr :=
  data ← signature_preimage session_id step_index tool_name args;
  inr (blake3_hexdigest data).
End call_signature.
