(* ===== verification/Es6Float.v ===== *)
(** * [_es6_float] prints numbers as ECMAScript does

    [number_to_string] is the algorithm of ECMA-262, Number::toString, on the
    shortest digits of a double; [es6_float], which rewrites the [repr] text,
    computes the same text. *)

From S2P Require Import Prelude Py PyFacts Json Signature.
Open Scope Z_scope.
Open Scope undolog_scope.

(** The exponent of the scientific form: a sign and no leading zero. *)
Definition es_exponent (e : Z) : pystr :=
  (if e <? 0 then [45] else [43]) ++ to_digits 10 (Z.abs e).

(** ECMA-262, 6.1.6.1.20, for a value [0.d1...dk * 10^n]. *)
Definition number_to_string (neg : bool) (ds : list Z) (n : Z) : pystr :=
  let k := Z.of_nat (length ds) in
  let digits := digits_text ds in
  sign_text neg ++
  if (k <=? n) && (n <=? 21) then digits ++ zeros (n - k)
  else if (0 <? n) && (n <=? 21) then take (Z.to_nat n) digits ++ [46] ++ drop (Z.to_nat n) digits
  else if (-6 <? n) && (n <=? 0) then $"0." ++ zeros (- n) ++ digits
  else take 1 digits ++ (if k =? 1 then [] else [46] ++ drop 1 digits)
       ++ [101] ++ es_exponent (n - 1).

(** Decimal exponents of finite doubles lie well inside this range. *)
Definition decpt_ok (n : Z) : Prop := -400 ≤ n ≤ 400.

(** ** The characters of the texts involved *)

Lemma digits_ok_spec ds :
  digits_ok ds = true →
  (1 ≤ length ds ≤ 17)%nat ∧ Forall (is_digit_of 10) ds ∧ last ds ≠ Some 0.
Proof.
  unfold digits_ok. rewrite !andb_true_iff, !Nat.leb_le, forallb_forall.
  intros ((((H1 & H2) & H3) & _) & H5). split; [lia|]. split.
  - apply Forall_forall. intros d Hd.
    specialize (H3 d (proj1 (list_elem_of_In _ _) Hd)). bool_to_prop. split; lia.
  - intros E. by rewrite E in H5.
Qed.

Lemma digits_text_chars ds x :
  Forall (is_digit_of 10) ds → x ∈ digits_text ds → 48 ≤ x ≤ 57.
Proof.
  intros Hds (d & -> & Hd)%list_elem_of_fmap. rewrite Forall_forall in Hds.
  specialize (Hds d Hd). destruct Hds. unfold digit_char. rewrite (proj2 (Z.ltb_lt _ _)) by lia. lia.
Qed.

Lemma zeros_chars n x : x ∈ zeros n → x = 48.
Proof. unfold zeros. by intros [? _]%elem_of_replicate. Qed.

(** Digits that do not end in a zero print as text that does not. *)
Lemma digits_text_last ds :
  Forall (is_digit_of 10) ds → last ds ≠ Some 0 → last (digits_text ds) ≠ Some 48.
Proof.
  intros Hds Hl E. unfold digits_text in E. rewrite fmap_last in E.
  destruct (last ds) as [d|] eqn:El; [|done]. simpl in E. injection E as E. apply Hl. f_equal.
  assert (d ∈ ds) as Hd by (apply last_Some in El as [l ->]; apply elem_of_snoc; by right).
  rewrite Forall_forall in Hds. destruct (Hds d Hd). unfold digit_char in E.
  rewrite (proj2 (Z.ltb_lt _ _)) in E by lia. lia.
Qed.

(** The exponent the code rebuilds: at most one leading zero is dropped. *)
Definition shorten (exp_str : pystr) : pystr :=
  if str_eqb (take 1 (drop 2 exp_str)) $"0" then take 2 exp_str ++ drop 3 exp_str else exp_str.

Definition exponent_ok (e : Z) : bool :=
  str_eqb (shorten (101 :: repr_exponent e)) (101 :: es_exponent e)
  && bool_decide (py_int 10 (es_exponent e) = Some e).

Lemma exponents_ok : forallb exponent_ok (seqZ (-401) 401 ++ seqZ 1 400) = true.
Proof. vm_compute. done. Qed.

Lemma exponent_shortens e :
  e ≠ 0 → -401 ≤ e ≤ 400 →
  shorten (101 :: repr_exponent e) = 101 :: es_exponent e ∧ py_int 10 (es_exponent e) = Some e.
Proof.
  intros Hne He. pose proof exponents_ok as H. rewrite forallb_forall in H.
  specialize (H e). assert (exponent_ok e = true) as Hok.
  { apply H, list_elem_of_In, elem_of_app. rewrite !elem_of_seqZ. lia. }
  apply andb_prop in Hok as [?%str_eqb_eq ?%bool_decide_eq_true]. done.
Qed.

Lemma mantissa_cut d rest t :
  48 ≤ d ≤ 57 → (∀ x, x ∈ rest → 48 ≤ x ≤ 57) →
  cut_at 101 (d :: rest ++ 101 :: t) = (d :: rest, Some t) ∧
  cut_at 101 (d :: 46 :: rest ++ 101 :: t) = (d :: 46 :: rest, Some t) ∧
  cut_at 46 (d :: 46 :: rest) = ([d], Some rest).
Proof.
  intros Hd Hr. split_and!.
  - apply (cut_at_here 101 (d :: rest)). rewrite elem_of_cons. intros [?|?%Hr]; lia.
  - apply (cut_at_here 101 (d :: 46 :: rest)). rewrite !elem_of_cons. intros [?|[?|?%Hr]]; lia.
  - apply (cut_at_here 46 [d]). rewrite list_elem_of_singleton. lia.
Qed.

(** ** The texts agree *)

(** Positional [repr] text without an exponent: the fraction [.0] is dropped. *)
Definition drop_zero_fraction (text : pystr) : pystr :=
  let '(first, rest) := cut_at 46 text in
  let last := default [] rest in
  if str_eqb last $"0" then first
  else first ++ (match rest with Some _ => [46] | None => [] end) ++ last.

Lemma es6_positional neg ds n text :
  float_repr (FFin neg ds n) = sign_text neg ++ text → (∀ t, eat 45 text ≠ Some t) →
  101 ∉ text → es6_float (FFin neg ds n) = inr (sign_text neg ++ drop_zero_fraction text).
Proof.
  intros Hrepr Hsign Hexp. unfold es6_float. rewrite Hrepr.
  assert (∃ sg, (match eat 45 (sign_text neg ++ text) with
    | Some t => ([45], t) | None => ([], sign_text neg ++ text) end) = (sg, text) ∧
    sg = sign_text neg) as (sg & -> & ->).
  { destruct neg; simpl; [eauto|]. destruct (eat 45 text) eqn:E; [|eauto]. by destruct (Hsign l). }
  rewrite (cut_at_none 101 text Hexp). simpl. unfold drop_zero_fraction.
  destruct (cut_at 46 text) as [first rest]. simpl.
  destruct (str_eqb (default [] rest) $"0"); simpl; rewrite ?app_nil_r; done.
Qed.

Lemma not_signed x s : 48 ≤ x ≤ 57 → ∀ t, eat 45 (x :: s) ≠ Some t.
Proof. intros Hx t. by rewrite eat_other by lia. Qed.

Lemma drop_fraction_keep first last :
  46 ∉ first → str_eqb last $"0" = false →
  drop_zero_fraction (first ++ 46 :: last) = first ++ 46 :: last.
Proof.
  intros Hf Hl. unfold drop_zero_fraction. rewrite (cut_at_here 46 first last Hf). simpl.
  by rewrite Hl.
Qed.

Lemma drop_fraction_zero first : 46 ∉ first → drop_zero_fraction (first ++ $".0") = first.
Proof.
  intros Hf. unfold drop_zero_fraction. change ($".0") with (46 :: $"0").
  by rewrite (cut_at_here 46 first $"0" Hf).
Qed.

Lemma digits_no_char ds c : Forall (is_digit_of 10) ds → ¬ (48 ≤ c ≤ 57) → c ∉ digits_text ds.
Proof. intros Hds Hc Hx. by apply digits_text_chars in Hx. Qed.

Lemma zeros_no_char n c : c ≠ 48 → c ∉ zeros n.
Proof. by intros Hc ?%zeros_chars. Qed.

Section finite.
Context (neg : bool) (ds : list Z) (n : Z).
Hypothesis Hds : digits_ok ds = true.

Lemma ds_nonempty : ds ≠ [].
Proof. destruct (digits_ok_spec ds Hds) as (H & _). by destruct ds; simpl in *; [lia|]. Qed.

Lemma ds_digits : Forall (is_digit_of 10) ds.
Proof. by destruct (digits_ok_spec ds Hds) as (_ & H & _). Qed.

Lemma ds_last : last (digits_text ds) ≠ Some 48.
Proof. destruct (digits_ok_spec ds Hds) as (_ & ? & ?). by apply digits_text_last. Qed.

(** No suffix of the digits is the text of zero. *)
Lemma suffix_not_zero pre suf :
  pre ++ suf = digits_text ds → suf ≠ [] → str_eqb suf $"0" = false.
Proof.
  intros E Hne. apply str_eqb_neq. intros ->. apply ds_last. rewrite <-E. by rewrite last_app.
Qed.

Lemma padded_not_zero pre : str_eqb (pre ++ digits_text ds) $"0" = false.
Proof.
  apply str_eqb_neq. intros E. apply ds_last. pose proof ds_nonempty as Hne.
  apply (f_equal last) in E. rewrite last_app in E.
  destruct (last (digits_text ds)) eqn:El; [done|].
  apply last_None in El. by destruct ds.
Qed.

Lemma ds_head : ∃ d rest, digits_text ds = d :: rest ∧ 48 ≤ d ≤ 57.
Proof.
  pose proof ds_nonempty. pose proof ds_digits as Hd. destruct ds as [|d rest]; [done|].
  exists (digit_char d), (digits_text rest). split; [done|].
  apply (digits_text_chars (d :: rest)); [done|]. left.
Qed.

(** [0.000d1...dk]. *)
Lemma es6_small : -3 ≤ n ≤ 0 → es6_float (FFin neg ds n) = inr (number_to_string neg ds n).
Proof.
  intros Hn. pose proof ds_nonempty as Hne. rewrite (es6_positional _ _ _ ($"0." ++ zeros (- n) ++ digits_text ds)).
  - unfold number_to_string.
    rewrite (proj2 (Z.leb_gt _ n)) by (destruct ds; simpl; [done|lia]). simpl andb.
    rewrite (proj2 (Z.ltb_ge 0 n)), (proj2 (Z.ltb_lt (-6) n)), (proj2 (Z.leb_le n 0)) by lia.
    cbv beta iota delta [andb]. do 2 f_equal.
    apply (drop_fraction_keep [48] (zeros (- n) ++ digits_text ds)); [|apply padded_not_zero].
    rewrite list_elem_of_singleton. lia.
  - simpl. rewrite (proj2 (Z.leb_gt n (-4))), (proj2 (Z.ltb_ge 16 n)), (proj2 (Z.leb_le n 0)) by lia.
    done.
  - by apply not_signed.
  - rewrite !not_elem_of_app. split_and!.
    + vm_compute. set_solver.
    + by apply zeros_no_char.
    + apply digits_no_char; [apply ds_digits|lia].
Qed.

(** An integer in positional notation. *)
Lemma es6_integer :
  0 < n ≤ 16 → Z.of_nat (length ds) ≤ n →
  es6_float (FFin neg ds n) = inr (number_to_string neg ds n).
Proof.
  intros Hn Hk. destruct ds_head as (d & rest & Edt & Hd).
  rewrite (es6_positional _ _ _ ((digits_text ds ++ zeros (n - Z.of_nat (length ds))) ++ $".0")).
  - unfold number_to_string.
    rewrite (proj2 (Z.leb_le _ n)), (proj2 (Z.leb_le n 21)) by lia. simpl andb. cbv iota.
    do 2 f_equal. apply drop_fraction_zero. rewrite not_elem_of_app.
    split; [apply digits_no_char; [apply ds_digits|lia]|by apply zeros_no_char].
  - simpl. rewrite (proj2 (Z.leb_gt n (-4))), (proj2 (Z.ltb_ge 16 n)), (proj2 (Z.leb_gt n 0)) by lia.
    rewrite (proj2 (Z.leb_le _ n)) by lia. by rewrite <-app_assoc.
  - rewrite Edt. by apply not_signed.
  - rewrite !not_elem_of_app. split_and!.
    + apply digits_no_char; [apply ds_digits|lia].
    + by apply zeros_no_char.
    + vm_compute. set_solver.
Qed.

(** A fraction in positional notation. *)
Lemma es6_fraction :
  0 < n ≤ 16 → n < Z.of_nat (length ds) →
  es6_float (FFin neg ds n) = inr (number_to_string neg ds n).
Proof.
  intros Hn Hk. destruct ds_head as (d & rest & Edt & Hd).
  assert (∀ x l, x ∈ take l (digits_text ds) → 48 ≤ x ≤ 57) as Htake.
  { intros x l Hx. apply (digits_text_chars ds); [apply ds_digits|].
    by eapply elem_of_take in Hx as (? & ?%list_elem_of_lookup_2 & _). }
  assert (∀ x l, x ∈ drop l (digits_text ds) → 48 ≤ x ≤ 57) as Hdrop.
  { intros x l Hx. apply (digits_text_chars ds); [apply ds_digits|].
    rewrite <-(take_drop l (digits_text ds)). apply elem_of_app. by right. }
  rewrite (es6_positional _ _ _ (take (Z.to_nat n) (digits_text ds) ++ [46] ++ drop (Z.to_nat n) (digits_text ds))).
  - unfold number_to_string.
    rewrite (proj2 (Z.leb_gt _ n)), (proj2 (Z.leb_le n 21)), (proj2 (Z.ltb_lt 0 n)) by lia.
    simpl andb. cbv iota. do 2 f_equal. apply drop_fraction_keep.
    + intros ?%Htake. lia.
    + eapply suffix_not_zero; [apply take_drop|].
      intros E%(f_equal length). rewrite length_drop in E. unfold digits_text in E.
      rewrite length_fmap in E. simpl in E. lia.
  - simpl. rewrite (proj2 (Z.leb_gt n (-4))), (proj2 (Z.ltb_ge 16 n)), (proj2 (Z.leb_gt n 0)) by lia.
    by rewrite (proj2 (Z.leb_gt _ n)) by lia.
  - assert (take (Z.to_nat n) (digits_text ds) = d :: take (Nat.pred (Z.to_nat n)) rest) as ->.
    { rewrite Edt. by destruct (Z.to_nat n) eqn:E; [lia|]. }
    by apply not_signed.
  - rewrite !not_elem_of_app. split_and!.
    + intros ?%Htake. lia.
    + rewrite list_elem_of_singleton. lia.
    + intros ?%Hdrop. lia.
Qed.

(** Exponential [repr] text, with its mantissa taken apart. *)
Definition mantissa (d : Z) (rest : pystr) : pystr :=
  match rest with [] => [d] | _ => d :: 46 :: rest end.

Lemma repr_exponential d rest :
  digits_text ds = d :: rest → n ≤ -4 ∨ 16 < n →
  float_repr (FFin neg ds n) = sign_text neg ++ mantissa d rest ++ 101 :: repr_exponent (n - 1).
Proof.
  intros E Hn. simpl.
  assert ((n <=? -4) || (16 <? n) = true) as ->.
  { apply orb_true_iff. rewrite Z.leb_le, Z.ltb_lt. done. }
  rewrite E. unfold mantissa. by destruct rest.
Qed.

(** What the code makes of the mantissa and the exponent. *)
Lemma es6_exponential d rest :
  digits_text ds = d :: rest → n ≤ -4 ∨ 16 < n → decpt_ok n →
  es6_float (FFin neg ds n) = inr (sign_text neg ++
    (if (0 <? n - 1) && (n - 1 <? ES6_EXP_THRESHOLD) then
       let pad := n - 1 + 1 - Z.of_nat (length (d :: rest)) in
       if 0 <? pad then (d :: rest) ++ zeros pad else d :: rest
     else if (-7 <? n - 1) && (n - 1 <? 0) then
       let pad := - (n - 1) - 1 in
       $"0." ++ (if 0 <? pad then zeros pad ++ d :: rest else d :: rest)
     else mantissa d rest ++ 101 :: es_exponent (n - 1))).
Proof.
  intros E Hn Hok. pose proof (repr_exponential d rest E Hn) as Hrepr.
  assert (48 ≤ d ≤ 57 ∧ ∀ x, x ∈ rest → 48 ≤ x ≤ 57) as [Hd Hrest].
  { split; [|intros x Hx]; apply (digits_text_chars ds); try apply ds_digits; rewrite E;
      [left|by right]. }
  destruct (exponent_shortens (n - 1)) as [Hshort Hint]; [unfold decpt_ok in Hok; lia..|].
  destruct (mantissa_cut d rest (repr_exponent (n - 1)) Hd Hrest) as (Hc1 & Hc2 & Hc3).
  assert (cut_at 101 (mantissa d rest ++ 101 :: repr_exponent (n - 1)) =
    (mantissa d rest, Some (repr_exponent (n - 1)))) as Hcut by (unfold mantissa; by destruct rest).
  unfold es6_float. rewrite Hrepr.
  assert ((match eat 45 (sign_text neg ++ mantissa d rest ++ 101 :: repr_exponent (n - 1)) with
    | Some t => ([45], t)
    | None => ([], sign_text neg ++ mantissa d rest ++ 101 :: repr_exponent (n - 1)) end) =
    (sign_text neg, mantissa d rest ++ 101 :: repr_exponent (n - 1))) as ->.
  { destruct neg; [done|]. simpl app. unfold mantissa. destruct rest; simpl app;
      rewrite eat_other by lia; done. }
  rewrite Hcut. assert ((0 <? length (mantissa d rest))%nat = true) as -> by (by destruct rest).
  fold (shorten (101 :: repr_exponent (n - 1))). rewrite Hshort.
  change (drop 1 (101 :: es_exponent (n - 1))) with (es_exponent (n - 1)). rewrite Hint.
  cbv beta iota delta [mbind res_bind].
  assert (∃ last, cut_at 46 (mantissa d rest) = ([d], last) ∧ default [] last = rest ∧
    [d] ++ (match last with Some _ => [46] | None => [] end) ++ rest = mantissa d rest) as
    (last & -> & Hlast & Hm).
  { unfold mantissa. destruct rest as [|x rest'].
    - exists None. split_and!; [|done..]. apply cut_at_none. rewrite list_elem_of_singleton. lia.
    - exists (Some (x :: rest')). by split_and!. }
  rewrite Hlast. assert (str_eqb rest $"0" = false) as ->.
  { destruct rest; [done|]. by apply (suffix_not_zero [d]). }
  cbv beta iota zeta. destruct (_ && _); [done|]. destruct (_ && _); [done|].
  by rewrite <-Hm, <-!app_assoc.
Qed.
End finite.

(** The code prints every finite number as ECMAScript does. *)
Lemma es6_float_ecmascript neg ds n :
  digits_ok ds = true → decpt_ok n → es6_float (FFin neg ds n) = inr (number_to_string neg ds n).
Proof.
  intros Hds Hok.
  destruct (decide (-3 ≤ n ≤ 0)); [by apply es6_small|].
  destruct (decide (0 < n ≤ 16)).
  { destruct (decide (Z.of_nat (length ds) ≤ n)); [by apply es6_integer|].
    apply es6_fraction; (done || lia). }
  destruct (ds_head ds Hds) as (d & rest & E & Hd).
  rewrite (es6_exponential neg ds n Hds d rest) by (done || lia).
  destruct (digits_ok_spec ds Hds) as (Hk & _ & _).
  assert (length (d :: rest) = length ds) as Hlen.
  { rewrite <-E. unfold digits_text. apply length_fmap. }
  unfold number_to_string, ES6_EXP_THRESHOLD. cbv zeta. rewrite Hlen, E. do 2 f_equal.
  destruct (decide (17 ≤ n ≤ 21)).
  - rewrite (proj2 (Z.ltb_lt 0 _)), (proj2 (Z.ltb_lt _ 21)) by lia. cbv beta iota delta [andb].
    rewrite (proj2 (Z.leb_le _ n)), (proj2 (Z.leb_le n 21)) by lia.
    replace (n - 1 + 1 - Z.of_nat (length ds)) with (n - Z.of_nat (length ds)) by lia.
    destruct (Z.ltb_spec 0 (n - Z.of_nat (length ds))); [done|].
    unfold zeros. replace (Z.to_nat (n - Z.of_nat (length ds))) with 0%nat by lia.
    simpl. by rewrite app_nil_r.
  - assert ((0 <? n - 1) && (n - 1 <? 21) = false) as ->.
    { apply andb_false_iff. rewrite !Z.ltb_ge. lia. }
    assert ((Z.of_nat (length ds) <=? n) && (n <=? 21) = false) as ->.
    { apply andb_false_iff. rewrite !Z.leb_gt. lia. }
    assert ((0 <? n) && (n <=? 21) = false) as ->.
    { apply andb_false_iff. rewrite Z.ltb_ge, Z.leb_gt. lia. }
    destruct (decide (-5 ≤ n ≤ -4)).
    + rewrite (proj2 (Z.ltb_lt (-7) _)), (proj2 (Z.ltb_lt _ 0)),
        (proj2 (Z.ltb_lt (-6) _)), (proj2 (Z.leb_le n 0)) by lia. cbv beta iota delta [andb].
      replace (- (n - 1) - 1) with (- n) by lia. by rewrite (proj2 (Z.ltb_lt 0 _)) by lia.
    + assert ((-7 <? n - 1) && (n - 1 <? 0) = false) as ->.
      { apply andb_false_iff. rewrite !Z.ltb_ge. lia. }
      assert ((-6 <? n) && (n <=? 0) = false) as ->.
      { apply andb_false_iff. rewrite Z.ltb_ge, Z.leb_gt. lia. }
      rewrite <-Hlen. unfold mantissa. destruct rest as [|x rest]; [done|].
      by rewrite (proj2 (Z.eqb_neq _ 1)) by (simpl; lia).
Qed.
