(* ===== verification/Canonical.v ===== *)
(** * What [canonical_json] guarantees

    The canonical text of a value does not depend on the order of the keys of
    its dictionaries, and it determines the value up to that order: reading it
    back with [json.loads] gives the value with its keys sorted. The byte
    stream of [call_signature] therefore identifies the call. *)

From S2P Require Import Prelude Py PyFacts Json Signature.
Open Scope Z_scope.
Open Scope undolog_scope.

(** ** Sorting by key *)

Section sort_keys.
Context {A : Type}.
Implicit Types d : list (pystr * A).

Definition key_le (p q : pystr * A) : Prop := str_le p.1 q.1.
#[export] Instance key_le_dec : RelDecision key_le.
Proof. intros p q. unfold key_le. apply _. Defined.
#[export] Instance key_le_total : Total key_le.
Proof. intros p q. apply str_le_total. Qed.
#[export] Instance key_le_trans : Transitive key_le.
Proof. intros p q r. apply str_le_trans. Qed.

(** The entries in the order of their keys. *)
Definition sort_keys d : list (pystr * A) := merge_sort key_le d.

Lemma sort_keys_Permutation d : sort_keys d ≡ₚ d.
Proof. apply merge_sort_Permutation. Qed.

Lemma sorted_keys l : StronglySorted key_le l → StronglySorted str_le l.*1.
Proof.
  induction 1 as [|p l Hl IH Hp]; simpl; constructor; [done|].
  rewrite Forall_fmap. exact Hp.
Qed.

(** Sorting the entries sorts the keys as [sorted(d)] does. *)
Lemma sort_keys_keys d : (sort_keys d).*1 = merge_sort str_le d.*1.
Proof.
  apply (StronglySorted_unique str_le).
  - apply sorted_keys, (StronglySorted_merge_sort key_le).
  - apply (StronglySorted_merge_sort str_le).
  - rewrite sort_keys_Permutation. symmetry. apply merge_sort_Permutation.
Qed.

(** Distinct keys have one sorted arrangement. *)
Lemma key_sorted_unique l m :
  StronglySorted key_le l → StronglySorted key_le m → NoDup l.*1 → l ≡ₚ m → l = m.
Proof.
  intros Hl Hm Hnd Hlm. apply (StronglySorted_unique_strong key_le); try done.
  intros [k a] [k' b] H1 H2 Hle Hge.
  assert (k = k') as -> by (by apply str_leb_antisym).
  eapply NoDup_fmap_inj_in; [exact Hnd|done| |done]. by rewrite Hlm.
Qed.

(** Dictionaries with the same entries sort to the same list. *)
Lemma sort_keys_unique d e : NoDup d.*1 → d ≡ₚ e → sort_keys d = sort_keys e.
Proof.
  intros Hnd Hp. apply key_sorted_unique; try apply (StronglySorted_merge_sort key_le).
  - by rewrite sort_keys_Permutation.
  - by rewrite !sort_keys_Permutation.
Qed.
End sort_keys.

(** Apply a function to the values of a dictionary. *)
Definition map_values {A B} (f : A → B) (d : list (pystr * A)) : list (pystr * B) :=
  map (λ kv, (kv.1, f kv.2)) d.

Lemma map_values_keys {A B} (f : A → B) d : (map_values f d).*1 = d.*1.
Proof. induction d as [|[k v] d IH]; [done|]. cbn. f_equal. exact IH. Qed.

Lemma map_values_compose {A B C} (g : B → C) (f : A → B) d :
  map_values g (map_values f d) = map_values (λ x, g (f x)) d.
Proof. unfold map_values. by rewrite List.map_map. Qed.

Lemma map_values_ext {A B} (f g : A → B) d :
  Forall (λ kv, f kv.2 = g kv.2) d → map_values f d = map_values g d.
Proof. induction 1 as [|[k v] d H _ IH]; [done|]. cbn in *. f_equal; [by rewrite H|exact IH]. Qed.

(** Sorting by key and mapping the values commute. *)
Lemma sort_map_values {A B} (f : A → B) d :
  NoDup d.*1 → sort_keys (map_values f d) = map_values f (sort_keys d).
Proof.
  intros Hnd. apply key_sorted_unique.
  - apply (StronglySorted_merge_sort key_le).
  - unfold map_values. pose proof (StronglySorted_merge_sort key_le d) as Hs.
    unfold sort_keys. induction Hs as [|p l Hl IH Hp]; simpl; constructor; [done|].
    apply Forall_fmap. exact Hp.
  - rewrite sort_keys_Permutation, map_values_keys. done.
  - rewrite sort_keys_Permutation. unfold map_values. by rewrite sort_keys_Permutation.
Qed.

(** The value with the keys of its dictionaries sorted. *)
Fixpoint norm (v : json) : json :=
  match v with
  | JArr l => JArr (map norm l)
  | JObj d => JObj (sort_keys (map (λ kv, (kv.1, norm kv.2)) d))
  | _ => v
  end.

(** ** Evaluating lists of results *)

Lemma sequence_inr {A} (l : list (res A)) ps :
  sequence l = inr ps ↔ l = inr <$> ps.
Proof.
  revert ps. induction l as [|r l IH]; intros ps; simpl.
  - split; [by intros [= <-]|]. by destruct ps.
  - destruct r as [e|a]; simpl; [by destruct ps|].
    destruct (sequence l) as [e|as_] eqn:E; simpl.
    + split; [done|]. destruct ps as [|p ps]; [done|]. simpl. intros [= -> Hl].
      by apply IH in Hl.
    + rewrite (proj1 (IH as_) eq_refl). split; [by intros [= <-]|].
      destruct ps as [|p ps]; [done|]. simpl. intros [= -> Hl]. do 2 f_equal.
      apply (list_fmap_eq_inj inr) in Hl; [done|]. by intros ? ? [= ->].
Qed.

(** One entry of the canonical text of a dictionary. *)
Definition entry_text (kr : pystr * res pystr) : res pystr :=
  v ← kr.2; inr (escape_json_string kr.1 ++ [58] ++ v).

Lemma canonical_pairs_sorted d :
  NoDup d.*1 → canonical_pairs d = sequence (entry_text <$> sort_keys d).
Proof.
  intros Hnd. unfold canonical_pairs. rewrite <-sort_keys_keys, <-list_fmap_compose.
  f_equal. apply list_fmap_ext. intros i [k r] Hi. unfold entry_text. simpl.
  assert (dict_get k d = Some r) as ->; [|done].
  apply dict_get_elem; [done|]. rewrite <-sort_keys_Permutation. by eapply list_elem_of_lookup_2.
Qed.

(** ** Key order *)

(** A value whose dictionaries, at every depth, have one entry per key, as
    Python's do. *)
Fixpoint keys_unique (v : json) : bool :=
  match v with
  | JArr l => forallb keys_unique l
  | JObj d => bool_decide (NoDup d.*1) && forallb (λ kv, keys_unique kv.2) d
  | _ => true
  end.

Lemma canonical_obj d :
  NoDup d.*1 →
  canonical_json (JObj d) =
    (pairs ← sequence (entry_text <$> map_values canonical_json (sort_keys d));
     inr ([123] ++ join [44] pairs ++ [125])).
Proof.
  intros Hnd. simpl. change (map _ d) with (map_values canonical_json d).
  rewrite canonical_pairs_sorted by (by rewrite map_values_keys).
  by rewrite sort_map_values.
Qed.

Lemma forallb_Forall {A} (p : A → bool) l : forallb p l = true ↔ Forall (λ x, p x = true) l.
Proof. rewrite forallb_forall, Forall_forall. by setoid_rewrite list_elem_of_In. Qed.

Lemma sort_keys_idemp {A} (d : list (pystr * A)) : NoDup d.*1 → sort_keys (sort_keys d) = sort_keys d.
Proof.
  intros Hnd. apply sort_keys_unique; [by rewrite sort_keys_Permutation|apply sort_keys_Permutation].
Qed.

(** Sorting the keys first does not change the text. *)
Lemma canonical_norm v : keys_unique v = true → canonical_json (norm v) = canonical_json v.
Proof.
  induction v as [|b|n|f|s|l IH|d IH] using json_ind'; try done; intros Hu; cbn [keys_unique] in Hu.
  - simpl. rewrite List.map_map. apply forallb_Forall in Hu.
    assert (map (λ x, canonical_json (norm x)) l = map canonical_json l) as ->; [|done].
    induction l as [|x l IHl]; [done|]. apply Forall_cons in IH as [Hx IH].
    apply Forall_cons in Hu as [Hux Hu]. simpl. by rewrite Hx, IHl.
  - apply andb_prop in Hu as [Hnd%bool_decide_eq_true Hu]. apply forallb_Forall in Hu.
    cbn [norm]. change (map _ d) with (map_values norm d).
    rewrite canonical_obj by (by rewrite sort_keys_Permutation, map_values_keys).
    rewrite canonical_obj by done. rewrite sort_keys_idemp by (by rewrite map_values_keys).
    rewrite sort_map_values, map_values_compose by done.
    rewrite (map_values_ext _ canonical_json); [done|].
    rewrite (sort_keys_Permutation d). rewrite Forall_forall in *. intros kv Hkv. auto.
Qed.
