(* ===== verification/JsonRead.v ===== *)
(** * Texts [json.loads] reads

    What the decoder makes of the pieces an encoder writes: escapes, decimal
    integers, and the members of arrays and dictionaries separated by a comma
    or a colon and white space. An encoder's round trip is proved from these. *)

From S2P Require Import Prelude Py PyFacts Json Canonical.
Open Scope Z_scope.
Open Scope undolog_scope.

(** ** Four hexadecimal digits *)

Lemma digits_value_lower base acc ds :
  0 ≤ base → 0 ≤ acc → Forall (is_digit_of base) ds →
  acc * base ^ Z.of_nat (length ds) ≤ digits_value base acc ds.
Proof.
  intros Hb Ha Hds. revert acc Ha. induction Hds as [|d ds Hd Hds IH]; intros acc Ha; simpl length.
  - simpl. lia.
  - change (digits_value base acc (d :: ds)) with (digits_value base (acc * base + d) ds).
    destruct Hd. etrans; [|apply IH; nia].
    rewrite Nat2Z.inj_succ, Z.pow_succ_r by lia.
    assert (0 ≤ base ^ Z.of_nat (length ds)) by (apply Z.pow_nonneg; lia). nia.
Qed.

Lemma digits_of_length base n ds k :
  2 ≤ base → digits_of base n ds → n < base ^ Z.of_nat k → (1 ≤ k)%nat → (length ds ≤ k)%nat.
Proof.
  intros Hb [Hne Hok Hval Hz Hh] Hn Hk. destruct ds as [|d ds]; [done|].
  destruct (Z.eq_dec n 0) as [->|Hn0]; [specialize (Hz eq_refl); injection Hz as _ ->; simpl; lia|].
  apply Forall_cons in Hok as [[Hd0 Hd] Hok].
  assert (d ≠ 0) by (intros ->; by apply Hh).
  change (digits_value base (0 * base + d) ds = n) in Hval.
  pose proof (digits_value_lower base (0 * base + d) ds ltac:(lia) ltac:(lia) Hok) as Hlow.
  rewrite Hval in Hlow. simpl length.
  destruct (Nat.le_gt_cases (S (length ds)) k); [done|]. exfalso.
  assert (base ^ Z.of_nat k ≤ base ^ Z.of_nat (length ds)) by (apply Z.pow_le_mono_r; lia).
  assert (0 < base ^ Z.of_nat (length ds)) by (apply Z.pow_pos_nonneg; lia). nia.
Qed.

Lemma hex_digit_char d : is_digit_of 16 d → hex_digit (digit_char d) = Some d.
Proof.
  intros Hd. unfold hex_digit. rewrite (digit_val_char 16) by done.
  by rewrite (proj2 (Z.ltb_lt d 16)) by apply Hd.
Qed.

Lemma hex4_reads c :
  0 ≤ c < 0x10000 → ∃ x y z t, hex4 c = [x; y; z; t] ∧ hex4_val x y z t = Some c.
Proof.
  intros Hc. destruct (to_digits_spec 16 c) as (ds & E & Hds); [lia..|].
  pose proof (digits_of_length 16 c ds 4 ltac:(lia) Hds ltac:(lia) ltac:(lia)) as Hlen.
  destruct Hds as [Hne Hok Hval _ _]. unfold hex4. rewrite E.
  assert (∀ es, length es = 4%nat → Forall (is_digit_of 16) es → digits_value 16 0 es = c →
    ∃ x y z t, digit_char <$> es = [x; y; z; t] ∧ hex4_val x y z t = Some c) as Hfour.
  { intros [|x [|y [|z [|t [|]]]]] Hl Hes Hv; try done.
    repeat match goal with H : Forall _ (_ :: _) |- _ => apply Forall_cons in H as [? H] end.
    exists (digit_char x), (digit_char y), (digit_char z), (digit_char t). split; [done|].
    unfold hex4_val. rewrite !hex_digit_char by done. simpl. f_equal. rewrite <-Hv.
    unfold digits_value. simpl. lia. }
  destruct (Hfour (replicate (4 - length ds) 0 ++ ds)) as (x & y & z & t & E4 & Hv4).
  - rewrite length_app, length_replicate. lia.
  - apply Forall_app. split; [|done]. apply Forall_replicate. split; lia.
  - rewrite digits_value_app. rewrite <-Hval. f_equal.
    generalize (4 - length ds)%nat as m. intros m. induction m as [|m IH]; [done|]. simpl. exact IH.
  - exists x, y, z, t. split; [|done]. rewrite <-E4, fmap_app, length_fmap. f_equal.
    by rewrite fmap_replicate.
Qed.

(** ** Strings *)

(** A code point; a Python string may hold surrogates as well. *)
Definition code_ok (c : Z) : bool := (0 <=? c) && (c <=? 0x10FFFF).

(** A string in which no high surrogate is followed by a low one: the only
    texts whose escapes are those of another string. *)
Fixpoint unpaired (s : pystr) : bool :=
  match s with
  | [] => true
  | c :: r => code_ok c && negb (is_high c && match r with d :: _ => is_low d | [] => false end) && unpaired r
  end.

Lemma unpaired_code_ok s : unpaired s = true → Forall (λ c, code_ok c = true) s.
Proof.
  induction s as [|c s IH]; [constructor|]. cbn [unpaired]. rewrite !andb_true_iff.
  intros [[Hc _] Hs]. constructor; auto.
Qed.

(** Text that does not continue a high surrogate. *)
Definition follows (rest : pystr) : bool :=
  match rest with
  | x :: y :: a :: b :: c :: d :: _ =>
      if (x =? 92) && (y =? 117) then
        match hex4_val a b c d with Some v => negb (is_low v) | None => false end
      else true
  | _ => true
  end.

Lemma follows_other x y rest : (x =? 92) && (y =? 117) = false → follows (x :: y :: rest) = true.
Proof. intros E. unfold follows. rewrite E. by repeat case_match. Qed.

Lemma follows_char x rest : x ≠ 92 → follows (x :: rest) = true.
Proof. intros E. destruct rest as [|y rest]; [done|]. apply follows_other. by rewrite (proj2 (Z.eqb_neq x 92)). Qed.

Lemma follows_unicode c rest :
  0 ≤ c < 0x10000 → is_low c = false → follows ($"\u" ++ hex4 c ++ rest) = true.
Proof.
  intros Hc Hl. destruct (hex4_reads c Hc) as (x & y & z & t & -> & Hv).
  change ($"\u" ++ [x; y; z; t] ++ rest) with (92 :: 117 :: x :: y :: z :: t :: rest).
  cbn [follows]. simpl. by rewrite Hv, Hl.
Qed.

Lemma scan_unicode c rest :
  0 ≤ c < 0x10000 → (is_high c = true → follows rest = true) →
  scan_string ($"\u" ++ hex4 c ++ rest) = push c (scan_string rest).
Proof.
  intros Hc Hh. destruct (hex4_reads c Hc) as (x & y & z & t & -> & Hv).
  change ($"\u" ++ [x; y; z; t] ++ rest) with (92 :: 117 :: x :: y :: z :: t :: rest).
  cbn [scan_string]. simpl. rewrite Hv. destruct (is_high c); [|done]. specialize (Hh eq_refl).
  destruct rest as [|x' [|y' [|a [|b [|d [|e rest]]]]]]; try done. cbn [follows] in Hh.
  destruct ((x' =? 92) && (y' =? 117)); [|done].
  destruct (hex4_val a b d e) as [v|]; [|done]. apply negb_true_iff in Hh. by rewrite Hh.
Qed.

Lemma scan_surrogates u v rest :
  0xD800 ≤ u ≤ 0xDBFF → 0xDC00 ≤ v ≤ 0xDFFF →
  scan_string ($"\u" ++ hex4 u ++ $"\u" ++ hex4 v ++ rest) =
    push (join_surrogates u v) (scan_string rest).
Proof.
  intros Hu Hv. destruct (hex4_reads u) as (x & y & z & t & -> & Hxu); [lia|].
  destruct (hex4_reads v) as (x' & y' & z' & t' & -> & Hxv); [lia|].
  change ($"\u" ++ [x; y; z; t] ++ $"\u" ++ [x'; y'; z'; t'] ++ rest)
    with (92 :: 117 :: x :: y :: z :: t :: 92 :: 117 :: x' :: y' :: z' :: t' :: rest).
  cbn [scan_string]. simpl. rewrite Hxu.
  assert (is_high u = true) as -> by (unfold is_high; apply andb_true_iff; rewrite !Z.leb_le; lia).
  rewrite Hxv.
  assert (is_low v = true) as -> by (unfold is_low; apply andb_true_iff; rewrite !Z.leb_le; lia).
  done.
Qed.

(** ** Integers *)

(** Text after which a number ends. *)
Definition stops (rest : pystr) : bool :=
  match rest with
  | [] => true
  | c :: _ => negb (is_ascii_digit c) && negb (c =? 46) && negb (c =? 101) && negb (c =? 69)
  end.

Lemma stops_after rest : stops rest = true → scan_frac rest = ([], rest) ∧ scan_exp rest = ([], rest).
Proof.
  destruct rest as [|c r]; [done|]. simpl. rewrite !andb_true_iff, !negb_true_iff.
  intros [[[_ H1] H2] H3]. split.
  - unfold scan_frac, eat. by rewrite H1.
  - by rewrite H2, H3.
Qed.

Lemma span_digits_app ds rest :
  (∀ x, x ∈ ds → is_ascii_digit x = true) → stops rest = true →
  span_digits (ds ++ rest) = (ds, rest).
Proof.
  intros Hds Hr. induction ds as [|x ds IH]; simpl.
  - destruct rest as [|c r]; [done|]. simpl in *. rewrite !andb_true_iff, negb_true_iff in Hr.
    destruct Hr as [[[Hr _] _] _]. by rewrite Hr.
  - rewrite Hds by left. rewrite IH; [done|]. intros y Hy. apply Hds. by right.
Qed.

(** Decimal text: its digits, and its first one. *)
Lemma decimal_chars n x : 0 ≤ n → x ∈ to_digits 10 n → 48 ≤ x ≤ 57.
Proof.
  intros Hn Hx. destruct (to_digits_spec 10 n) as (ds & E & Hds); [lia..|].
  rewrite E in Hx. apply list_elem_of_fmap in Hx as (d & -> & Hd).
  destruct Hds as [_ Hok _ _ _]. rewrite Forall_forall in Hok. destruct (Hok d Hd).
  unfold digit_char. rewrite (proj2 (Z.ltb_lt d 10)) by lia. lia.
Qed.

Lemma decimal_head n : 0 < n → ∃ c t, to_digits 10 n = c :: t ∧ 49 ≤ c ≤ 57.
Proof.
  intros Hn. destruct (to_digits_spec 10 n) as (ds & E & Hds); [lia..|].
  destruct Hds as [Hne Hok _ _ Hh]. destruct ds as [|d ds]; [done|].
  apply Forall_cons in Hok as [[H1 H2] _].
  assert (d ≠ 0) by (intros ->; apply Hh; [lia|done]).
  exists (digit_char d), (digit_char <$> ds). rewrite E. split; [done|].
  unfold digit_char. rewrite (proj2 (Z.ltb_lt d 10)) by lia. lia.
Qed.

Lemma ascii_digit x : 48 ≤ x ≤ 57 → is_ascii_digit x = true.
Proof. intros H. unfold is_ascii_digit. apply andb_true_iff. rewrite !Z.leb_le. lia. Qed.

Lemma scan_int_part_digits n rest :
  0 ≤ n → stops rest = true →
  scan_int_part (to_digits 10 n ++ rest) = Some (to_digits 10 n, rest).
Proof.
  intros Hn Hr. destruct (Z.eq_dec n 0) as [->|]; [done|].
  destruct (decimal_head n) as (c & t & E & Hc); [lia|].
  assert (span_digits (to_digits 10 n ++ rest) = (to_digits 10 n, rest)) as Hspan.
  { apply span_digits_app; [|done]. intros x Hx. by apply ascii_digit, (decimal_chars n). }
  unfold scan_int_part. rewrite Hspan. rewrite E. simpl. by rewrite (proj2 (Z.eqb_neq c 48)) by lia.
Qed.

Section parse.
Variable float_of_text : pystr → pyfloat.

Lemma scan_number_int n rest :
  (length (to_digits 10 (Z.abs n)) ≤ int_max_str_digits)%nat → stops rest = true →
  scan_number float_of_text (str_of_int n ++ rest) = inr (JInt n, rest).
Proof.
  intros Hlen Hr. destruct (stops_after rest Hr) as [Hf He].
  assert (∀ (neg : bool) m, 0 ≤ m → (length (to_digits 10 m) ≤ int_max_str_digits)%nat →
    (match scan_int_part (to_digits 10 m ++ rest) with
     | None => inl EJsonDecode
     | Some (ip, r1) =>
         let '(fr, r2) := scan_frac r1 in
         let '(ex, r3) := scan_exp r2 in
         v ← number_of_token float_of_text neg ip fr ex; inr (v, r3)
     end) = inr (JInt (if neg then - m else m), rest)) as Htok.
  { intros neg m Hm Hl. rewrite scan_int_part_digits by done. rewrite Hf, He.
    unfold number_of_token. simpl. rewrite (proj2 (Nat.ltb_ge _ _)) by done.
    by rewrite parse_to_digits by lia. }
  unfold scan_number, str_of_int. destruct (Z.ltb_spec n 0).
  - rewrite Z.abs_neq in Hlen by lia. pose proof (Htok true (- n) ltac:(lia) Hlen) as E.
    rewrite Z.opp_involutive in E. exact E.
  - rewrite Z.abs_eq in Hlen by lia.
    assert (eat 45 (to_digits 10 n ++ rest) = None) as ->.
    { destruct (to_digits 10 n) as [|c t] eqn:E; [by apply to_digits_ne in E|].
      apply eat_other. pose proof (decimal_chars n c ltac:(lia)) as Hc. rewrite E in Hc.
      specialize (Hc ltac:(left)). lia. }
    exact (Htok false n ltac:(lia) Hlen).
Qed.

(** The first character of decimal text. *)
Lemma int_first n : ∃ c t, str_of_int n = c :: t ∧
  (48 ≤ c ≤ 57 ∨ c = 45 ∧ ∃ d t', t = d :: t' ∧ 48 ≤ d ≤ 57).
Proof.
  unfold str_of_int. destruct (Z.ltb_spec n 0).
  - destruct (decimal_head (- n)) as (c & t & -> & Hc); [lia|].
    exists 45, (c :: t). split; [done|]. right. split; [done|]. exists c, t. split; [done|lia].
  - destruct (to_digits 10 n) as [|c t] eqn:E; [by apply to_digits_ne in E|].
    exists c, t. split; [done|]. left. apply (decimal_chars n); [lia|]. rewrite E. left.
Qed.

(** A value that begins like a number is one. *)
Lemma parse_number fuel c t :
  (48 ≤ c ≤ 57 ∨ c = 45 ∧ ∃ d t', t = d :: t' ∧ 48 ≤ d ≤ 57) →
  parse_value float_of_text (S fuel) (c :: t) = scan_number float_of_text (c :: t).
Proof.
  intros Hc. cbn [parse_value].
  assert (c ≠ 34 ∧ c ≠ 123 ∧ c ≠ 91 ∧ c ≠ 110 ∧ c ≠ 116 ∧ c ≠ 102 ∧ c ≠ 78 ∧ c ≠ 73) as Hne by lia.
  rewrite (proj2 (Z.eqb_neq c 34)), (proj2 (Z.eqb_neq c 123)), (proj2 (Z.eqb_neq c 91)) by lia.
  assert (∀ x s, x ≠ c → startswith (c :: t) (x :: s) = false) as Hsw.
  { intros x s Hx. simpl. by rewrite (proj2 (Z.eqb_neq x c)). }
  change ($"null") with (110 :: $"ull"). change ($"true") with (116 :: $"rue").
  change ($"false") with (102 :: $"alse"). change ($"NaN") with (78 :: $"aN").
  change ($"Infinity") with (73 :: $"nfinity"). rewrite !Hsw by lia.
  assert (startswith (c :: t) $"-Infinity" = false) as ->; [|done].
  destruct Hc as [Hc|(-> & d & t' & -> & Hd)].
  - change ($"-Infinity") with (45 :: $"Infinity"). apply Hsw. lia.
  - change ($"-Infinity") with (45 :: 73 :: $"nfinity").
    cbn [startswith]. by rewrite (proj2 (Z.eqb_neq 73 d)) by lia.
Qed.

Lemma parse_int n fuel rest :
  (length (to_digits 10 (Z.abs n)) ≤ int_max_str_digits)%nat → stops rest = true →
  parse_value float_of_text (S fuel) (str_of_int n ++ rest) = inr (JInt n, rest).
Proof.
  intros Hlen Hr. rewrite <-(scan_number_int n rest Hlen Hr).
  destruct (int_first n) as (c & t & -> & Hc). cbn [app]. apply parse_number.
  destruct Hc as [|(-> & d & t' & -> & Hd)]; [by left|]. right. split; [done|]. by exists d, (t' ++ rest).
Qed.

(** ** Values *)

(** A value without floats and without paired surrogates. *)
Fixpoint plain (v : json) : bool :=
  match v with
  | JFloat _ => false
  | JStr s => unpaired s
  | JArr l => forallb plain l
  | JObj d => forallb (λ kv, unpaired kv.1 && plain kv.2) d
  | _ => true
  end.

(** The first character of a value's text: no white space, separator or
    closing bracket. *)
Definition begins (t : pystr) : Prop :=
  ∃ c r, t = c :: r ∧ c ≠ 32 ∧ c ≠ 9 ∧ c ≠ 10 ∧ c ≠ 13 ∧ c ≠ 93 ∧ c ≠ 125.

Lemma begins_skip t rest : begins t → skip_ws (t ++ rest) = t ++ rest.
Proof.
  intros (c & r & -> & Hc). cbn [app skip_ws].
  rewrite (proj2 (Z.eqb_neq c 32)), (proj2 (Z.eqb_neq c 9)), (proj2 (Z.eqb_neq c 10)),
    (proj2 (Z.eqb_neq c 13)) by lia. done.
Qed.

Lemma begins_app t u : begins t → begins (t ++ u).
Proof. intros (c & r & -> & Hc). exists c, (r ++ u). by split. Qed.

(** [t] followed by text that ends a value is read as [v]. *)
Definition reads (v : json) (t : pystr) : Prop :=
  begins t ∧ ∀ fuel rest, (2 * length t ≤ fuel)%nat → stops rest = true →
    parse_value float_of_text fuel (t ++ rest) = inr (v, rest).

(** [t] is a string literal with the text [s]. *)
Definition literal (s t : pystr) : Prop :=
  ∃ body, t = 34 :: body ∧ ∀ rest, scan_string (body ++ rest) = inr (s, rest).

Lemma literal_begins s t : literal s t → begins t.
Proof. intros (body & -> & _). by exists 34, body. Qed.

Lemma literal_reads s t : literal s t → reads (JStr s) t.
Proof.
  intros Hl. split; [by eapply literal_begins|]. destruct Hl as (body & -> & Hs).
  intros [|fuel] rest Hf Hr; [simpl in Hf; lia|].
  cbn [app parse_value]. change (34 =? 34) with true. cbv iota. by rewrite Hs.
Qed.

Lemma int_reads n :
  (length (to_digits 10 (Z.abs n)) ≤ int_max_str_digits)%nat → reads (JInt n) (str_of_int n).
Proof.
  intros Hn. destruct (int_first n) as (c & r & E & Hc). split.
  - exists c, r. split; [done|]. destruct Hc as [|[-> _]]; lia.
  - intros [|fuel] rest Hf Hr; [rewrite E in Hf; simpl in Hf; lia|]. by apply parse_int.
Qed.

Lemma null_reads : reads JNull $"null".
Proof.
  split; [by exists 110, $"ull"|]. intros [|fuel] rest Hf Hr; [simpl in Hf; lia|]. by destruct rest.
Qed.

Lemma bool_reads b : reads (JBool b) (if b then $"true" else $"false").
Proof.
  split; [destruct b; [by exists 116, $"rue"|by exists 102, $"alse"]|].
  intros [|fuel] rest Hf Hr; destruct b; try (simpl in Hf; lia); by destruct rest.
Qed.

Lemma eat_self c s : eat c (c :: s) = Some s.
Proof. unfold eat. by rewrite Z.eqb_refl. Qed.

(** ** Arrays and dictionaries

    The separators are a comma and a colon, each followed by white space; there
    is white space after the opening bracket and before the closing one. *)

(** White space. *)
Definition blank (s : pystr) : Prop := Forall (λ c, c = 32 ∨ c = 9 ∨ c = 10 ∨ c = 13) s.

Lemma skip_blank ws s : blank ws → skip_ws (ws ++ s) = skip_ws s.
Proof.
  induction 1 as [|c ws Hc _ IH]; [done|]. cbn [app skip_ws].
  by destruct Hc as [->|[->|[->| ->]]].
Qed.

Lemma stops_blank ws c s :
  blank ws → stops (c :: s) = true → stops (ws ++ c :: s) = true.
Proof. intros [|x ws' Hx _]; [done|]. by destruct Hx as [->|[->|[->| ->]]]. Qed.

Section separators.
Variable ws_comma ws_colon ws_open ws_close : pystr.
Hypothesis blank_comma : blank ws_comma.
Hypothesis blank_colon : blank ws_colon.
Hypothesis blank_open : blank ws_open.
Hypothesis blank_close : blank ws_close.

Abbreviation comma := (44 :: ws_comma).
Abbreviation colon := (58 :: ws_colon).

(** Text is no shorter when it is joined to more. *)
Lemma join_cons2 t t' ts : join comma (t :: t' :: ts) = t ++ comma ++ join comma (t' :: ts).
Proof. done. Qed.

Lemma join_begins t ts : begins t → begins (join comma (t :: ts)).
Proof. intros Hb. cbn [join]. destruct ts; [done|]. by apply begins_app. Qed.

Lemma next_member t ts rest :
  begins t → skip_ws (ws_comma ++ join comma (t :: ts) ++ rest) = join comma (t :: ts) ++ rest.
Proof. intros Hb. rewrite skip_blank by done. by apply begins_skip, join_begins. Qed.

Lemma parse_elems_reads l ts fuel rest :
  Forall2 reads l ts → l ≠ [] → (2 * length (join comma ts) + 2 ≤ fuel)%nat →
  parse_elems float_of_text fuel (join comma ts ++ ws_close ++ 93 :: rest) = inr (l, rest).
Proof.
  intros H. revert fuel. induction H as [|v t l ts [Hb Hv] Hl IH]; intros fuel Hne Hf; [done|].
  destruct fuel as [|fuel]; [lia|]. destruct Hl as [|v' t' l ts Hv' Hl].
  - cbn [join] in *. cbn [parse_elems]. rewrite Hv by (by apply stops_blank || lia).
    cbn [mbind res_bind]. by rewrite skip_blank.
  - rewrite join_cons2 in *. rewrite !length_app in Hf. cbn [length] in Hf.
    rewrite <-!app_assoc. cbn [app]. cbn [parse_elems].
    rewrite Hv by (done || lia). cbn [mbind res_bind].
    change (skip_ws (44 :: ?x)) with (44 :: x). rewrite eat_self.
    rewrite next_member by apply Hv'. rewrite IH by (done || lia). done.
Qed.

(** One entry of a dictionary and its text. *)
Definition reads_entry (kv : pystr * json) (t : pystr) : Prop :=
  ∃ tk tv, t = tk ++ colon ++ tv ∧ literal kv.1 tk ∧ reads kv.2 tv.

Lemma entry_begins kv t : reads_entry kv t → begins t.
Proof. intros (tk & tv & -> & Hk & _). by eapply begins_app, literal_begins. Qed.

(** The key and the value of an entry, up to what follows it. *)
Lemma parse_entry k v t rest fuel :
  reads_entry (k, v) t → stops rest = true → (2 * length t ≤ fuel)%nat →
  ∃ r r1 r2, t ++ rest = 34 :: r ∧ scan_string r = inr (k, r1) ∧ skip_ws r1 = 58 :: r2 ∧
    parse_value float_of_text fuel (skip_ws r2) = inr (v, rest).
Proof.
  intros (tk & tv & -> & (body & -> & Hk) & Hb & Hv) Hr Hf. cbn [fst snd] in *.
  exists (body ++ colon ++ tv ++ rest), (colon ++ tv ++ rest), (ws_colon ++ tv ++ rest).
  split; [by rewrite <-app_assoc; cbn [app]; rewrite <-!app_assoc|]. split; [apply Hk|]. split; [done|].
  rewrite skip_blank, begins_skip by done. apply Hv; [|done].
  rewrite !length_app in Hf. cbn [length] in Hf. lia.
Qed.

Lemma parse_members_reads d ts fuel rest :
  Forall2 reads_entry d ts → d ≠ [] → (2 * length (join comma ts) + 2 ≤ fuel)%nat →
  parse_members float_of_text fuel (join comma ts ++ ws_close ++ 125 :: rest) = inr (d, rest).
Proof.
  intros H. revert fuel.
  induction H as [|[k v] t d ts Hkv Hd IH]; intros fuel Hne Hf; [done|].
  destruct fuel as [|fuel]; [lia|].
  destruct Hd as [|kv' t' d ts Hkv' Hd].
  - cbn [join] in *.
    destruct (parse_entry k v t (ws_close ++ 125 :: rest) fuel Hkv
      ltac:(by apply stops_blank) ltac:(lia)) as (r & r1 & r2 & E & Hs & Hc & Hv).
    rewrite E. cbn [parse_members]. rewrite eat_self, Hs. cbn [mbind res_bind].
    rewrite Hc, eat_self, Hv. cbn [mbind res_bind]. by rewrite skip_blank.
  - rewrite join_cons2 in *. rewrite !length_app in Hf. cbn [length] in Hf. rewrite <-!app_assoc.
    destruct (parse_entry k v t (comma ++ join comma (t' :: ts) ++ ws_close ++ 125 :: rest) fuel Hkv eq_refl ltac:(lia))
      as (r & r1 & r2 & E & Hs & Hc & Hv).
    rewrite E. cbn [parse_members]. rewrite eat_self, Hs. cbn [mbind res_bind].
    rewrite Hc, eat_self, Hv. cbn [mbind res_bind app].
    change (skip_ws (44 :: ?x)) with (44 :: x). rewrite eat_self.
    rewrite next_member by (by eapply entry_begins). rewrite IH by (done || lia). done.
Qed.

Lemma array_reads l ts :
  Forall2 reads l ts → reads (JArr l) ([91] ++ ws_open ++ join comma ts ++ ws_close ++ [93]).
Proof.
  intros H. split; [by eexists 91, _|]. intros fuel rest Hf Hr.
  cbn [length app] in Hf. rewrite !length_app in Hf. cbn [length] in Hf.
  destruct fuel as [|fuel]; [lia|]. rewrite <-!app_assoc. cbn [app parse_value].
  change (91 =? 34) with false. change (91 =? 123) with false. change (91 =? 91) with true.
  cbv iota. destruct (decide (l = [])) as [->|Hl].
  { inversion H; subst. cbn [join app]. by rewrite !skip_blank. }
  assert (begins (join comma ts)) as Hb.
  { destruct H as [|v t l ts [Hb _] _]; [done|]. by apply join_begins. }
  rewrite skip_blank, begins_skip by done.
  assert (eat 93 (join comma ts ++ ws_close ++ 93 :: rest) = None) as ->.
  { destruct Hb as (c & r & -> & Hc). apply eat_other. lia. }
  by rewrite (parse_elems_reads l) by (done || lia).
Qed.

Lemma object_reads d ts :
  Forall2 reads_entry d ts → NoDup d.*1 → reads (JObj d) ([123] ++ ws_open ++ join comma ts ++ ws_close ++ [125]).
Proof.
  intros H Hnd. split; [by eexists 123, _|]. intros fuel rest Hf Hr.
  cbn [length app] in Hf. rewrite !length_app in Hf. cbn [length] in Hf.
  destruct fuel as [|fuel]; [lia|]. rewrite <-!app_assoc. cbn [app parse_value].
  change (123 =? 34) with false. change (123 =? 123) with true.
  cbv iota. destruct (decide (d = [])) as [->|Hd].
  { inversion H; subst. cbn [join app]. by rewrite !skip_blank. }
  assert (begins (join comma ts)) as Hb.
  { destruct H as [|kv t d ts Hkv _]; [done|]. by eapply join_begins, entry_begins. }
  rewrite skip_blank, begins_skip by done.
  assert (eat 125 (join comma ts ++ ws_close ++ 125 :: rest) = None) as ->.
  { destruct Hb as (c & r & -> & Hc). apply eat_other. lia. }
  rewrite (parse_members_reads d) by (done || lia). cbn [mbind res_bind].
  by rewrite dict_of_pairs_id.
Qed.
End separators.

(** Text read as a value is that value's JSON document. *)
Lemma loads_reads v t : reads v t → loads float_of_text t = inr v.
Proof.
  intros [Hb Hr]. unfold loads.
  pose proof (begins_skip t [] Hb) as Hs. rewrite app_nil_r in Hs. rewrite Hs.
  rewrite <-(app_nil_r t) at 2. by rewrite Hr by (done || lia).
Qed.
End parse.

(** Every string of characters read back one by one is a literal: an escape is
    read when what follows does not continue it, and only low surrogates do. *)
Lemma literal_of (esc : Z → pystr) s :
  (∀ c rest, code_ok c = true → (is_high c = true → follows rest = true) →
     scan_string (esc c ++ rest) = push c (scan_string rest)) →
  (∀ c rest, code_ok c = true → is_low c = false → follows (esc c ++ rest) = true) →
  unpaired s = true → literal s ([34] ++ (s ≫= esc) ++ [34]).
Proof.
  intros Hesc Hfol Hs. exists ((s ≫= esc) ++ [34]). split; [done|]. intros rest.
  induction s as [|c s IH]; [done|]. cbn [unpaired] in Hs. rewrite !andb_true_iff, negb_true_iff in Hs.
  destruct Hs as [[Hc Hp] Hs]. rewrite bind_cons, <-!app_assoc, Hesc; [|done|].
  - rewrite app_assoc, IH; done.
  - intros Hh. rewrite Hh in Hp. destruct s as [|d s]; [by apply follows_char|].
    rewrite bind_cons, <-app_assoc. apply Hfol; [|done].
    apply unpaired_code_ok in Hs. by apply Forall_cons in Hs as [? _].
Qed.
