(* ===== verification/CanonicalParse.v ===== *)
(** * Reading canonical text back

    [json.loads] applied to the canonical text of a value without floats, and
    without a high surrogate before a low one in its strings, gives the value
    with its keys sorted. *)

From S2P Require Import Prelude Py PyFacts Json Signature Canonical JsonRead.
Open Scope Z_scope.
Open Scope undolog_scope.

(** ** Canonical text *)

(** The escape of one character is read back as that character. *)
Lemma scan_escape c rest :
  code_ok c = true → (is_high c = true → follows rest = true) →
  scan_string (escape_char c ++ rest) = push c (scan_string rest).
Proof.
  unfold code_ok. rewrite !andb_true_iff, !Z.leb_le. intros [H0 H1] Hh.
  unfold escape_char.
  destruct (Z.eqb_spec c 34) as [->|]; [reflexivity|].
  destruct (Z.eqb_spec c 92) as [->|]; [reflexivity|].
  destruct (Z.eqb_spec c 8) as [->|]; [reflexivity|].
  destruct (Z.eqb_spec c 12) as [->|]; [reflexivity|].
  destruct (Z.eqb_spec c 10) as [->|]; [reflexivity|].
  destruct (Z.eqb_spec c 13) as [->|]; [reflexivity|].
  destruct (Z.eqb_spec c 9) as [->|]; [reflexivity|].
  destruct (Z.ltb_spec c 0x20); cbv iota.
  { rewrite <-app_assoc. by apply scan_unicode; [lia|]. }
  destruct (Z.ltb_spec c 0x80); cbv iota.
  { simpl. rewrite (proj2 (Z.eqb_neq c 34)), (proj2 (Z.eqb_neq c 92)), (proj2 (Z.ltb_ge c 32)) by lia.
    done. }
  destruct (Z.leb_spec c 0xFFFF); cbv iota.
  { rewrite <-app_assoc. by apply scan_unicode; [lia|]. }
  assert (0 ≤ Z.shiftr (c - 0x10000) 10 < 1024) as Hsh.
  { rewrite Z.shiftr_div_pow2 by lia. change (2 ^ 10) with 1024.
    split; [apply Z.div_pos; lia|]. apply Z.div_lt_upper_bound; lia. }
  assert (0 ≤ Z.land (c - 0x10000) 0x3FF < 1024) as Hla.
  { change 0x3FF with (Z.ones 10). rewrite Z.land_ones by lia. apply Z.mod_pos_bound. lia. }
  cbv zeta. rewrite <-!app_assoc. rewrite scan_surrogates by lia. f_equal. unfold join_surrogates.
  change 0x3FF with (Z.ones 10). rewrite Z.land_ones, Z.shiftr_div_pow2 by lia.
  change (2 ^ 10) with 1024. pose proof (Z.div_mod (c - 0x10000) 1024). lia.
Qed.

(** The escape of a character that is not a low surrogate continues nothing. *)
Lemma follows_escape c rest :
  code_ok c = true → is_low c = false → follows (escape_char c ++ rest) = true.
Proof.
  unfold code_ok. rewrite !andb_true_iff, !Z.leb_le. intros [H0 H1] Hl. unfold escape_char.
  do 7 (case_match; [by apply follows_other|]).
  destruct (Z.ltb_spec c 0x20); cbv iota; [rewrite <-app_assoc; by apply follows_unicode; [lia|]|].
  destruct (Z.ltb_spec c 0x80); cbv iota; [apply follows_char; by apply Z.eqb_neq|].
  destruct (Z.leb_spec c 0xFFFF); cbv iota; [rewrite <-app_assoc; by apply follows_unicode; [lia|]|].
  cbv zeta. rewrite <-!app_assoc.
  assert (0 ≤ Z.shiftr (c - 0x10000) 10 < 1024).
  { rewrite Z.shiftr_div_pow2 by lia. change (2 ^ 10) with 1024.
    split; [apply Z.div_pos; lia|]. apply Z.div_lt_upper_bound; lia. }
  apply follows_unicode; [lia|]. unfold is_low. apply andb_false_iff. rewrite !Z.leb_gt. lia.
Qed.

Lemma escape_literal s : unpaired s = true → literal s (escape_json_string s).
Proof. apply literal_of; [apply scan_escape|apply follows_escape]. Qed.

Lemma results_Forall2 {A B} (f : A → res B) (R : A → B → Prop) l ts :
  sequence (f <$> l) = inr ts → (∀ x y, x ∈ l → f x = inr y → R x y) → Forall2 R l ts.
Proof.
  rewrite sequence_inr. revert ts. induction l as [|x l IH]; intros [|t ts] H HR; try discriminate H.
  { by apply Forall2_nil. }
  injection H as Hx Hl. constructor; [apply HR; [left|done]|].
  apply IH; [done|]. intros y u Hy. apply HR. by right.
Qed.

Section canonical.
Variable float_of_text : pystr → pyfloat.
Abbreviation reads := (reads float_of_text).

(** The canonical text of a plain value is read as that value with its keys
    sorted. *)
Lemma canonical_reads v t :
  plain v = true → keys_unique v = true → canonical_json v = inr t → reads (norm v) t.
Proof.
  revert t. induction v as [|b|n|f|s|l IH|d IH] using json_ind'; intros t Hp Hu Ht.
  - injection Ht as <-. apply null_reads.
  - injection Ht as <-. apply bool_reads.
  - simpl in Ht. unfold int_text in Ht. case_match eqn:E; [done|]. injection Ht as <-.
    apply int_reads. by apply Nat.ltb_ge.
  - done.
  - injection Ht as <-. by apply literal_reads, escape_literal.
  - cbn [plain keys_unique] in Hp, Hu. apply forallb_Forall in Hp, Hu. rewrite Forall_forall in Hp, Hu, IH.
    simpl in Ht. destruct (sequence _) as [|ts] eqn:E; [done|]. injection Ht as <-.
    apply (array_reads _ [] [] []); [by constructor..|]. apply Forall2_fmap_l.
    eapply results_Forall2; [exact E|]. intros x y Hx. apply IH; auto.
  - cbn [plain keys_unique] in Hp, Hu. apply andb_prop in Hu as [Hnd%bool_decide_eq_true Hu].
    apply forallb_Forall in Hp, Hu. rewrite Forall_forall in Hp, Hu, IH.
    rewrite canonical_obj in Ht by done.
    destruct (sequence _) as [|ts] eqn:E; [done|]. injection Ht as <-.
    cbn [norm]. change (map _ d) with (map_values norm d). rewrite sort_map_values by done.
    apply (object_reads _ [] [] [] []); [by constructor..| |by rewrite map_values_keys, sort_keys_Permutation].
    unfold map_values in *. change (map ?f) with (fmap (M := list) f) in *.
    rewrite <-list_fmap_compose in E. apply Forall2_fmap_l. eapply results_Forall2; [exact E|].
    intros [k v] y Hkv Hy. rewrite sort_keys_Permutation in Hkv. unfold entry_text in Hy. simpl in Hy.
    destruct (canonical_json v) as [|tv] eqn:Ev; [done|]. injection Hy as <-.
    specialize (Hp _ Hkv). apply andb_prop in Hp as [Hk Hpv].
    exists (escape_json_string k), tv. split; [done|]. split; [by apply escape_literal|].
    by apply (IH _ Hkv); [|apply (Hu _ Hkv)|].
Qed.

Lemma loads_canonical v t :
  plain v = true → keys_unique v = true → canonical_json v = inr t →
  loads float_of_text t = inr (norm v).
Proof. intros Hp Hu Ht. by apply loads_reads, canonical_reads. Qed.
End canonical.

(** Plain values with one canonical text differ in the order of keys only. *)
Lemma canonical_injective v w t :
  plain v = true → plain w = true → keys_unique v = true → keys_unique w = true →
  canonical_json v = inr t → canonical_json w = inr t → norm v = norm w.
Proof.
  intros Hv Hw Hkv Hkw Ev Ew.
  pose proof (loads_canonical (λ _, FNan) v t Hv Hkv Ev) as E1.
  rewrite (loads_canonical (λ _, FNan) w t Hw Hkw Ew) in E1. by injection E1.
Qed.

(** ** The byte stream of a signature *)

Lemma length_be_bytes k n : length (be_bytes k n) = k.
Proof.
  revert n. induction k as [|k IH]; intros n; [done|]. simpl. rewrite length_app, IH. simpl. lia.
Qed.

Lemma be_bytes_inj k n m :
  0 ≤ n < 2 ^ (8 * Z.of_nat k) → 0 ≤ m < 2 ^ (8 * Z.of_nat k) → be_bytes k n = be_bytes k m → n = m.
Proof.
  revert n m. induction k as [|k IH]; intros n m Hn Hm H; [simpl in *; lia|].
  simpl in H. apply app_inj_2 in H as [H1 H2]; [|done]. injection H2 as H2.
  change 255 with (Z.ones 8) in H2. rewrite !Z.land_ones in H2 by lia.
  assert (2 ^ (8 * Z.of_nat (S k)) = 2 ^ (8 * Z.of_nat k) * 256) as Hpow.
  { change 256 with (2 ^ 8). rewrite <-Z.pow_add_r by lia. f_equal. lia. }
  rewrite Hpow in Hn, Hm.
  assert (Z.shiftr n 8 = Z.shiftr m 8) as Hd.
  { apply IH; [| |done]; rewrite Z.shiftr_div_pow2 by lia; change (2 ^ 8) with 256;
      (split; [apply Z.div_pos; lia|apply Z.div_lt_upper_bound; lia]). }
  rewrite !Z.shiftr_div_pow2 in Hd by lia. change (2 ^ 8) with 256 in *.
  rewrite (Z.div_mod n 256), (Z.div_mod m 256) by lia. by rewrite Hd, H2.
Qed.

Definition ascii (c : Z) : Prop := 0 ≤ c < 128.

Lemma to_digits_ascii base n : 2 ≤ base ≤ 36 → 0 ≤ n → Forall ascii (to_digits base n).
Proof.
  intros Hb Hn. destruct (to_digits_spec base n) as (ds & -> & Hds); [lia..|].
  destruct Hds as [_ Hok _ _ _]. apply Forall_fmap. eapply Forall_impl; [exact Hok|].
  intros d [Hd0 Hd]. unfold ascii, compose, digit_char. case_match; lia.
Qed.

Lemma hex4_ascii n : 0 ≤ n → Forall ascii (hex4 n).
Proof.
  intros Hn. unfold hex4. apply Forall_app. split; [|apply to_digits_ascii; lia].
  apply Forall_replicate. unfold ascii. lia.
Qed.

Lemma escape_char_ascii c : code_ok c = true → Forall ascii (escape_char c).
Proof.
  unfold code_ok. rewrite !andb_true_iff, !Z.leb_le. intros [H0 H1].
  assert (Forall ascii $"\u") as Hu by (repeat constructor; done).
  unfold escape_char. repeat (case_match; [repeat constructor; unfold ascii; lia|]).
  case_match; [apply Forall_app; split; [done|by apply hex4_ascii]|].
  destruct (Z.ltb_spec c 0x80); [repeat constructor; unfold ascii; lia|].
  destruct (Z.leb_spec c 0xFFFF); [apply Forall_app; split; [done|by apply hex4_ascii]|].
  assert (0 ≤ Z.shiftr (c - 0x10000) 10) by (apply Z.shiftr_nonneg; lia).
  assert (0 ≤ Z.land (c - 0x10000) 0x3FF) by (apply Z.land_nonneg; lia).
  rewrite !Forall_app. split_and!; try done; apply hex4_ascii; lia.
Qed.

Lemma escape_json_string_ascii s : unpaired s = true → Forall ascii (escape_json_string s).
Proof.
  intros Hs%unpaired_code_ok. unfold escape_json_string. rewrite !Forall_app.
  split_and!; [by repeat constructor| |by repeat constructor].
  apply Forall_bind. eapply Forall_impl; [exact Hs|]. apply escape_char_ascii.
Qed.

Lemma join_Forall (P : Z → Prop) sep ps :
  Forall P sep → Forall (Forall P) ps → Forall P (join sep ps).
Proof.
  intros Hsep Hps. induction Hps as [|p ps Hp Hps IH]; [constructor|]. cbn [join].
  destruct ps; [done|]. rewrite !Forall_app. by split_and!.
Qed.

Lemma comma_join_ascii c d ps :
  ascii c → ascii d → Forall (Forall ascii) ps → Forall ascii ([c] ++ join [44] ps ++ [d]).
Proof.
  intros Hc Hd Hps. rewrite !Forall_app. split_and!; [by constructor| |by constructor].
  apply join_Forall; [|done]. by repeat constructor.
Qed.

(** Canonical text is ASCII. *)
Lemma canonical_ascii v t :
  plain v = true → keys_unique v = true → canonical_json v = inr t → Forall ascii t.
Proof.
  revert t. induction v as [|b|n|f|s|l IH|d IH] using json_ind'; intros t Hp Hu Ht.
  - injection Ht as <-. by repeat constructor.
  - injection Ht as <-. destruct b; by repeat constructor.
  - simpl in Ht. unfold int_text in Ht. case_match; [done|]. injection Ht as <-.
    unfold str_of_int. case_match; [constructor; [done|]|]; apply to_digits_ascii; lia.
  - done.
  - injection Ht as <-. by apply escape_json_string_ascii.
  - cbn [plain keys_unique] in Hp, Hu. apply forallb_Forall in Hp, Hu. rewrite Forall_forall in Hp, Hu, IH.
    cbn [canonical_json] in Ht. destruct (sequence _) as [|ts] eqn:E; [done|]. injection Ht as <-.
    apply comma_join_ascii; [done..|].
    apply (results_Forall2 _ (λ _ u, Forall ascii u)) in E; [by eapply Forall2_Forall_r; [exact E|apply Forall_true]|].
    intros x y Hx. apply IH; auto.
  - cbn [plain keys_unique] in Hp, Hu. apply andb_prop in Hu as [Hnd%bool_decide_eq_true Hu].
    apply forallb_Forall in Hp, Hu. rewrite Forall_forall in Hp, Hu, IH.
    rewrite canonical_obj in Ht by done.
    destruct (sequence _) as [|ts] eqn:E; [done|]. injection Ht as <-.
    unfold map_values in E. change (map ?f) with (fmap (M := list) f) in E.
    rewrite <-list_fmap_compose in E. apply comma_join_ascii; [done..|].
    apply (results_Forall2 _ (λ _ u, Forall ascii u)) in E; [by eapply Forall2_Forall_r; [exact E|apply Forall_true]|].
    intros [k v] y Hkv Hy. rewrite sort_keys_Permutation in Hkv. unfold entry_text in Hy. simpl in Hy.
    destruct (canonical_json v) as [|tv] eqn:Ev; [done|]. injection Hy as <-.
    specialize (Hp _ Hkv). apply andb_prop in Hp as [Hk Hpv].
    change (Forall ascii (escape_json_string k ++ [58] ++ tv)). rewrite !Forall_app. split_and!.
    + by apply escape_json_string_ascii.
    + by repeat constructor.
    + by apply (IH _ Hkv); [|apply (Hu _ Hkv)|].
Qed.

Lemma uuid_int_range s n : uuid_int s = Some n → 0 ≤ n < 2 ^ 128.
Proof.
  unfold uuid_int. case_match; [|done]. destruct (py_int 16 _) as [m|]; [|done].
  destruct ((0 <=? m) && (m <? 2 ^ 128)) eqn:E; [|done]. intros [= <-].
  apply andb_prop in E as [?%Z.leb_le ?%Z.ltb_lt]. done.
Qed.

Lemma pack_le32_inv n b : pack_le32 n = inr b → b = le32 n ∧ 0 ≤ n < 2 ^ 32.
Proof.
  unfold pack_le32. destruct ((0 <=? n) && (n <? 2 ^ 32)) eqn:E; [|done]. intros [= <-].
  apply andb_prop in E as [?%Z.leb_le ?%Z.ltb_lt]. done.
Qed.

(** What a byte stream that was produced consists of. *)
Lemma preimage_inv sid step name args b :
  signature_preimage sid step name args = inr b →
  ∃ u canon nb ab,
    uuid_int sid = Some u ∧ canonical_json args = inr canon ∧
    utf8_encode name = inr nb ∧ utf8_encode canon = inr ab ∧
    0 ≤ step < 2 ^ 32 ∧ Z.of_nat (length nb) < 2 ^ 32 ∧ Z.of_nat (length ab) < 2 ^ 32 ∧
    b = be_bytes 16 u ++ le32 step ++ le32 (Z.of_nat (length nb)) ++ nb
          ++ le32 (Z.of_nat (length ab)) ++ ab.
Proof.
  unfold signature_preimage. destruct (uuid_int sid) as [u|] eqn:Eu; [|done]. cbn [mbind res_bind].
  destruct (canonical_json args) as [|canon] eqn:Ec; [done|]. cbn [mbind res_bind].
  destruct (utf8_encode name) as [|nb] eqn:En; [done|]. cbn [mbind res_bind].
  destruct (utf8_encode canon) as [|ab] eqn:Ea; [done|]. cbn [mbind res_bind].
  destruct (pack_le32 step) as [|sb] eqn:Es; [done|]. cbn [mbind res_bind].
  destruct (pack_le32 (Z.of_nat (length nb))) as [|nl] eqn:Enl; [done|]. cbn [mbind res_bind].
  destruct (pack_le32 (Z.of_nat (length ab))) as [|al] eqn:Eal; [done|]. cbn [mbind res_bind].
  intros [= <-]. apply pack_le32_inv in Es as [-> Hs], Enl as [-> Hnl], Eal as [-> Hal].
  exists u, canon, nb, ab. split_and!; done || lia.
Qed.

(** The stream is self-delimiting: it determines its fields. *)
Lemma preimage_fields u u' s s' nb nb' ab ab' :
  0 ≤ u < 2 ^ 128 → 0 ≤ u' < 2 ^ 128 → 0 ≤ s < 2 ^ 32 → 0 ≤ s' < 2 ^ 32 →
  Z.of_nat (length nb) < 2 ^ 32 → Z.of_nat (length nb') < 2 ^ 32 →
  be_bytes 16 u ++ le32 s ++ le32 (Z.of_nat (length nb)) ++ nb ++ le32 (Z.of_nat (length ab)) ++ ab =
  be_bytes 16 u' ++ le32 s' ++ le32 (Z.of_nat (length nb')) ++ nb' ++ le32 (Z.of_nat (length ab')) ++ ab' →
  u = u' ∧ s = s' ∧ nb = nb' ∧ ab = ab'.
Proof.
  intros Hu Hu' Hs Hs' Hn Hn' H.
  apply app_inj_1 in H as [H1 H]; [|by rewrite !length_be_bytes]. apply be_bytes_inj in H1; [|done..].
  apply app_inj_1 in H as [H2 H]; [|done]. apply le32_inj in H2; [|done..].
  apply app_inj_1 in H as [H3 H]; [|done]. apply le32_inj in H3; [|lia..].
  apply app_inj_1 in H as [H4 H]; [|lia]. apply app_inj_1 in H as [_ H5]; done.
Qed.

Lemma ascii_code_point s : Forall ascii s → Forall code_point s.
Proof. intros H. eapply Forall_impl; [exact H|]. unfold ascii, code_point. lia. Qed.

(** Two calls with one byte stream are one call: same session, step, tool and
    arguments up to the order of keys. *)
Lemma preimage_inj sid step name args sid' step' name' args' b :
  Forall code_point name → Forall code_point name' →
  plain args = true → plain args' = true → keys_unique args = true → keys_unique args' = true →
  signature_preimage sid step name args = inr b →
  signature_preimage sid' step' name' args' = inr b →
  uuid_int sid = uuid_int sid' ∧ step = step' ∧ name = name' ∧ norm args = norm args'.
Proof.
  intros Hn Hn' Hp Hp' Hu Hu' E E'.
  apply preimage_inv in E as (u & c & nb & ab & Eu & Ec & Enb & Eab & Hs & Hl & Hla & ->).
  apply preimage_inv in E' as (u' & c' & nb' & ab' & Eu' & Ec' & Enb' & Eab' & Hs' & Hl' & Hla' & E).
  apply preimage_fields in E as (<- & <- & <- & <-); try done; try by eapply uuid_int_range.
  rewrite Eu, Eu'. split; [done|]. split; [done|]. split; [by eapply utf8_encode_inj|].
  assert (c = c') as <-.
  { eapply (utf8_encode_inj c c' ab); [| |done..]; apply ascii_code_point;
      [by apply (canonical_ascii args)|by apply (canonical_ascii args')]. }
  by eapply canonical_injective.
Qed.

(** Calls of one session with one byte stream are at one step. *)
Lemma preimage_step_inj sid step name args step' name' args' b :
  signature_preimage sid step name args = inr b →
  signature_preimage sid step' name' args' = inr b → step = step'.
Proof.
  intros E E'.
  apply preimage_inv in E as (u & c & nb & ab & Eu & _ & _ & _ & Hs & Hl & _ & ->).
  apply preimage_inv in E' as (u' & c' & nb' & ab' & Eu' & _ & _ & _ & Hs' & Hl' & _ & E).
  apply preimage_fields in E as (_ & -> & _); try done; by eapply uuid_int_range.
Qed.
