(* ===== verification/JsonRoundtrip.v ===== *)
(** * [json.loads] inverts [json.dumps]

    The default encoder writes ASCII and separates members with a comma or a
    colon and one space. Reading that text back gives the value itself, its
    dictionaries in the same order, when no string has a high surrogate before a
    low one, every integer is one CPython converts to text, and [float] inverts
    [repr] on its floats. *)

From S2P Require Import Prelude Py PyFacts Json Canonical JsonRead Signature Es6Float CanonicalParse.
Open Scope Z_scope.
Open Scope undolog_scope.

(** ** Floats *)

(** Decimal digits, at least one. *)
Definition digit_run (s : pystr) : Prop := s ≠ [] ∧ Forall (λ c, 48 ≤ c ≤ 57) s.

(** The parts of a number token: an integer part without leading zeros, a
    fraction and an exponent, not both missing. *)
Record float_token (ip fr ex : pystr) : Prop := {
  ft_int : ip = [48] ∨ digit_run ip ∧ head ip ≠ Some 48;
  ft_frac : fr = [] ∨ ∃ ds, fr = 46 :: ds ∧ digit_run ds;
  ft_exp : ex = [] ∨ ∃ sg ds, ex = 101 :: sg :: ds ∧ (sg = 43 ∨ sg = 45) ∧ digit_run ds;
  ft_some : fr ++ ex ≠ [];
}.

(** Text whose first character is not a digit. *)
Definition no_digit (rest : pystr) : bool := match rest with c :: _ => negb (is_ascii_digit c) | [] => true end.

Lemma span_digits_run ds rest : Forall (λ c, 48 ≤ c ≤ 57) ds → no_digit rest = true → span_digits (ds ++ rest) = (ds, rest).
Proof.
  intros Hds Hr. induction Hds as [|x ds Hx Hds IH]; cbn [app span_digits].
  - destruct rest as [|c r]; [done|]. cbn in *. apply negb_true_iff in Hr. by rewrite Hr.
  - by rewrite ascii_digit, IH.
Qed.

Lemma stops_no_digit rest : stops rest = true → no_digit rest = true.
Proof. destruct rest; [done|]. cbn. rewrite !andb_true_iff. tauto. Qed.

Lemma scan_frac_token fr rest :
  fr = [] ∨ (∃ ds, fr = 46 :: ds ∧ digit_run ds) → no_digit rest = true → (∀ r, eat 46 rest ≠ Some r) →
  scan_frac (fr ++ rest) = (fr, rest).
Proof.
  intros [->|(ds & -> & Hne & Hds)] Hr H46; unfold scan_frac; cbn [app].
  - destruct (eat 46 rest) as [r|]; [by destruct (H46 r)|done].
  - rewrite eat_self, span_digits_run by done. by destruct ds.
Qed.

Lemma scan_exp_token ex rest :
  ex = [] ∨ (∃ sg ds, ex = 101 :: sg :: ds ∧ (sg = 43 ∨ sg = 45) ∧ digit_run ds) → stops rest = true →
  scan_exp (ex ++ rest) = (ex, rest).
Proof.
  intros [->|(sg & ds & -> & Hsg & Hne & Hds)] Hr; [by apply stops_after|].
  pose proof (span_digits_run ds rest Hds (stops_no_digit _ Hr)) as Hs. unfold scan_exp. cbn [app].
  by destruct Hsg as [-> | ->]; cbn; rewrite Hs; destruct ds.
Qed.

Lemma scan_int_token ip rest :
  ip = [48] ∨ digit_run ip ∧ head ip ≠ Some 48 → no_digit rest = true → scan_int_part (ip ++ rest) = Some (ip, rest).
Proof.
  intros [->|[[Hne Hip] Hh]] Hr; [done|]. unfold scan_int_part. rewrite span_digits_run by done.
  destruct ip as [|c ip]; [done|]. cbn [app]. by rewrite eat_other by (by intros ->).
Qed.

Lemma scan_number_token float_of_text neg ip fr ex rest :
  float_token ip fr ex → stops rest = true →
  scan_number float_of_text (sign_text neg ++ (ip ++ fr ++ ex) ++ rest) =
    inr (JFloat (float_of_text (sign_text neg ++ ip ++ fr ++ ex)), rest).
Proof.
  intros [Hi Hf He Hs] Hr. rewrite <-!app_assoc.
  assert (no_digit (ex ++ rest) = true ∧ ∀ r, eat 46 (ex ++ rest) ≠ Some r) as [Hn Hd].
  { destruct He as [->|(sg & ds & -> & _)]; [|done]. cbn [app]. split; [by apply stops_no_digit|].
    destruct rest as [|c r]; [done|]. cbn in Hr |- *. rewrite !andb_true_iff, !negb_true_iff in Hr.
    destruct Hr as [[[_ Hr] _] _]. by rewrite Hr. }
  assert (no_digit (fr ++ ex ++ rest) = true) as Hn2 by (by destruct Hf as [->|(ds & -> & _)]).
  assert (∀ t, scan_int_part t = Some (ip, fr ++ ex ++ rest) →
    match scan_int_part t with
    | None => inl EJsonDecode
    | Some (ip, r1) =>
        let '(fr, r2) := scan_frac r1 in let '(ex, r3) := scan_exp r2 in
        v ← number_of_token float_of_text neg ip fr ex; inr (v, r3)
    end = inr (JFloat (float_of_text (sign_text neg ++ ip ++ fr ++ ex)), rest)) as Hgo.
  { intros t ->. rewrite scan_frac_token by done. rewrite scan_exp_token by done.
    unfold number_of_token. by destruct (fr ++ ex). }
  unfold scan_number. destruct neg; cbn [sign_text app].
  - rewrite eat_self. apply Hgo. by apply scan_int_token.
  - assert (eat 45 (ip ++ fr ++ ex ++ rest) = None) as ->; [|apply Hgo; by apply scan_int_token].
    destruct Hi as [->|[[Hne Hip] _]]; [done|]. destruct Hip as [|c ip Hc _]; [done|]. apply eat_other. lia.
Qed.

(** The text of a finite float is a token with a fraction or an exponent. *)
Lemma repr_exponent_digits e :
  ∃ sg ds, repr_exponent e = sg :: ds ∧ (sg = 43 ∨ sg = 45) ∧ digit_run ds.
Proof.
  assert (digit_run (to_digits 10 (Z.abs e))) as [Hne Hd].
  { split; [apply to_digits_ne; lia|]. apply Forall_forall. intros c. apply decimal_chars. lia. }
  unfold repr_exponent.
  exists (if e <? 0 then 45 else 43), (if (length (to_digits 10 (Z.abs e)) <? 2)%nat then 48 :: to_digits 10 (Z.abs e)
    else to_digits 10 (Z.abs e)).
  split; [by case_match|]. split; [case_match; auto|]. case_match; [|done]. split; [done|]. by constructor; [lia|].
Qed.

Definition finite (f : pyfloat) : bool := match f with FZero _ | FFin _ _ _ => true | _ => false end.
Definition float_sign (f : pyfloat) : bool := match f with FNan => false | FInf n | FZero n | FFin n _ _ => n end.

Lemma digits_head ds : digits_ok ds = true → ∃ c r, digits_text ds = c :: r ∧ 49 ≤ c ≤ 57 ∧ Forall (λ c, 48 ≤ c ≤ 57) (c :: r).
Proof.
  intros Hok. pose proof (digits_ok_spec ds Hok) as ([Hl _] & Hd & _).
  unfold digits_ok in Hok. rewrite !andb_true_iff, !negb_true_iff in Hok. destruct Hok as [[_ Hh] _].
  assert (Forall (λ c, 48 ≤ c ≤ 57) (digits_text ds)) as Ht.
  { apply Forall_forall. intros c. by apply digits_text_chars. }
  destruct ds as [|d ds]; [done|]. exists (digit_char d), (digits_text ds). split; [done|]. split; [|done].
  cbn in Hh. apply Z.eqb_neq in Hh. apply Forall_cons in Hd as [[Hd0 Hd] _]. unfold digit_char.
  rewrite (proj2 (Z.ltb_lt d 10)) by lia. lia.
Qed.

Lemma zeros_digits n : Forall (λ c, 48 ≤ c ≤ 57) (zeros n).
Proof. apply Forall_replicate. lia. Qed.

Lemma float_repr_token f :
  finite f = true → float_ok f = true →
  ∃ ip fr ex, float_repr f = sign_text (float_sign f) ++ ip ++ fr ++ ex ∧ float_token ip fr ex.
Proof.
  destruct f as [| |neg|neg ds p]; try done; intros _ Hok.
  { exists [48], [46; 48], []. split; [done|]. split; [by left| |by left|done].
    right. exists [48]. split; [done|]. split; [done|]. by constructor; [lia|]. }
  destruct (digits_head ds Hok) as (c & r & E & Hc & Hd). apply Forall_cons in Hd as [_ Hr].
  cbn [float_repr float_sign float_ok] in *. unfold float_repr. rewrite E.
  destruct ((p <=? -4) || (16 <? p)).
  { destruct (repr_exponent_digits (p - 1)) as (sg & es & -> & Hsg & Hes).
    exists [c], (match r with [] => [] | _ => 46 :: r end), (101 :: sg :: es). split; [by destruct r|].
    split; [|destruct r; [by left|right; by eexists]|right; by eexists _, _|by destruct r].
    right. split; [split; [done|by repeat constructor; lia]|]. cbn. intros [= ->]. lia. }
  destruct (Z.leb_spec p 0).
  { exists [48], (46 :: zeros (- p) ++ c :: r), []. rewrite app_nil_r. split; [done|].
    split; [by left| |by left|done]. right. eexists. split; [done|]. split; [by destruct (zeros (- p))|].
    apply Forall_app. split; [apply zeros_digits|]. by constructor; [lia|]. }
  destruct (Z.leb_spec (Z.of_nat (length ds)) p) as [Hle|Hlt].
  { exists ((c :: r) ++ zeros (p - Z.of_nat (length ds))), [46; 48], []. rewrite <-!app_assoc. split; [done|].
    split; [| |by left|done].
    - right. split; [split; [done|]|cbn; intros [= ->]; lia]. apply Forall_app.
      split; [by constructor; [lia|]|apply zeros_digits].
    - right. exists [48]. split; [done|]. split; [done|]. by constructor; [lia|]. }
  assert (length (c :: r) = length ds) as Hlen by (rewrite <-E; apply length_fmap).
  exists (take (Z.to_nat p) (c :: r)), (46 :: drop (Z.to_nat p) (c :: r)), []. rewrite app_nil_r. split; [done|].
  assert (Forall (λ c, 48 ≤ c ≤ 57) (c :: r)) as Hall by (by constructor; [lia|]).
  split; [| |by left|done].
  - right. split; [split; [|by apply Forall_take]|].
    + destruct (Z.to_nat p) eqn:Ep; [lia|done].
    + destruct (Z.to_nat p) eqn:Ep; [lia|]. cbn. intros [= ->]. lia.
  - right. eexists. split; [done|]. split; [|by apply Forall_drop].
    intros Hnil%(f_equal length). rewrite length_drop in Hnil. cbn [length] in *. lia.
Qed.

Lemma token_first float_of_text f t :
  finite f = true → float_ok f = true → t = float_repr f → ∃ c r, t = c :: r ∧
  (48 ≤ c ≤ 57 ∨ c = 45 ∧ ∃ d r', r = d :: r' ∧ 48 ≤ d ≤ 57) ∧
  ∀ rest, stops rest = true → scan_number float_of_text (t ++ rest) = inr (JFloat (float_of_text t), rest).
Proof.
  intros Hf Hok ->. destruct (float_repr_token f Hf Hok) as (ip & fr & ex & -> & Htok).
  assert (∃ d r', ip = d :: r' ∧ 48 ≤ d ≤ 57) as (d & r' & Eip & Hd).
  { destruct (ft_int _ _ _ Htok) as [->|[[Hne Hip] _]]; [by exists 48, []|].
    destruct Hip as [|d r' Hd _]; [done|]. by exists d, r'. }
  assert (∀ rest, stops rest = true →
    scan_number float_of_text ((sign_text (float_sign f) ++ ip ++ fr ++ ex) ++ rest) =
    inr (JFloat (float_of_text (sign_text (float_sign f) ++ ip ++ fr ++ ex)), rest)) as Hscan.
  { intros rest Hr. rewrite <-app_assoc. by apply scan_number_token. }
  destruct (float_sign f); cbn [sign_text app] in *; rewrite Eip in *; cbn [app] in *; eexists _, _; split; try done.
  - split; [right; eauto|exact Hscan].
  - split; [by left|exact Hscan].
Qed.

(** ** Portable values *)

Section portable.
Variable float_of_text : pystr → pyfloat.

(** A float whose text [float] reads back. *)
Definition float_back (f : pyfloat) : bool :=
  negb (finite f) || float_ok f && bool_decide (float_of_text (float_repr f) = f).

(** A value [json.dumps] writes and [json.loads] reads back unchanged. *)
Fixpoint portable (v : json) : bool :=
  match v with
  | JFloat f => float_back f
  | JInt n => (length (to_digits 10 (Z.abs n)) <=? int_max_str_digits)%nat
  | JStr s => unpaired s
  | JArr l => forallb portable l
  | JObj d =>
      bool_decide (NoDup d.*1) && forallb (λ kv, unpaired kv.1 && portable kv.2) d
  | _ => true
  end.

(** A dictionary is portable when its keys are distinct texts and its values
    are portable. *)
Lemma portable_obj d :
  portable (JObj d) = true ↔
    NoDup d.*1 ∧ Forall (λ k, unpaired k = true) d.*1 ∧ Forall (λ v, portable v = true) d.*2.
Proof.
  cbn [portable]. rewrite andb_true_iff, bool_decide_eq_true, forallb_Forall, !Forall_fmap.
  rewrite <-Forall_and. apply and_iff_compat_l, Forall_iff. intros [k v]. apply andb_true_iff.
Qed.

Lemma portable_get k v d : portable (JObj d) = true → dict_get k d = Some v → portable v = true.
Proof.
  rewrite portable_obj. intros (Hnd & _ & Hv) Hk. apply dict_get_elem in Hk; [|done].
  eapply Forall_forall in Hv; [exact Hv|]. by apply (list_elem_of_fmap_2 snd) in Hk.
Qed.

Lemma float_reads f : float_back f = true → reads float_of_text (JFloat f) (dumps_float f).
Proof.
  unfold float_back. destruct (finite f) eqn:Hf; cbn [negb orb].
  - rewrite andb_true_iff, bool_decide_eq_true. intros [Hok Hback].
    destruct (token_first float_of_text f (float_repr f) Hf Hok eq_refl) as (c & r & E & Hc & Hscan).
    replace (dumps_float f) with (float_repr f) by (by destruct f). split.
    + exists c, r. split; [done|]. destruct Hc as [|[-> _]]; lia.
    + intros [|fuel] rest Hl Hr; [rewrite E in Hl; simpl in Hl; lia|].
      rewrite <-Hback at 2. rewrite <-(Hscan rest Hr), E. cbn [app]. apply parse_number.
      destruct Hc as [|(-> & d & r' & -> & Hd)]; [by left|]. right. split; [done|]. by exists d, (r' ++ rest).
  - intros _. destruct f as [|[]| |]; try done; (split; [by eexists _, _|]);
      intros [|fuel] rest Hl Hr; try (simpl in Hl; lia); by destruct rest.
Qed.
(** The bits of a surrogate, by disjunction or by addition. *)
Lemma lor_low base x :
  Z.land base 0x3FF = 0 → 0 ≤ x < 1024 → Z.lor base (Z.land x 0x3FF) = base + x.
Proof.
  change 0x3FF with (Z.ones 10). intros Hb Hx.
  assert (Z.land x (Z.ones 10) = x) as Ex by (rewrite Z.land_ones, Z.mod_small by lia; done).
  rewrite Ex, <-(Z.lxor_lor base x), Z.add_nocarry_lxor; [done| |];
    (rewrite <-Ex, (Z.land_comm x), Z.land_assoc, Hb; done).
Qed.

(** [json.dumps] and the SDK's own encoder escape alike, the delete character
    apart. *)
Lemma dumps_char_escape c : code_ok c = true → c ≠ 127 → dumps_char c = escape_char c.
Proof.
  unfold code_ok. rewrite !andb_true_iff, !Z.leb_le. intros [H0 H1] Hne.
  unfold dumps_char, escape_char.
  destruct (Z.eqb_spec c 34); [done|]. destruct (Z.eqb_spec c 92); [done|].
  destruct (Z.eqb_spec c 8) as [->|]; [done|]. destruct (Z.eqb_spec c 12) as [->|]; [done|].
  destruct (Z.eqb_spec c 10); [done|]. destruct (Z.eqb_spec c 13); [done|].
  destruct (Z.eqb_spec c 9); [done|]. cbv iota.
  destruct (Z.leb_spec 32 c); destruct (Z.leb_spec c 126); cbn [andb];
    destruct (Z.ltb_spec c 0x20); destruct (Z.ltb_spec c 0x80); try lia; try done;
    destruct (Z.ltb_spec c 0x10000); destruct (Z.leb_spec c 0xFFFF); try lia; try done.
  cbv zeta.
  assert (0 ≤ Z.shiftr (c - 0x10000) 10 < 1024) as Hsh.
  { rewrite Z.shiftr_div_pow2 by lia. change (2 ^ 10) with 1024.
    split; [apply Z.div_pos; lia|]. apply Z.div_lt_upper_bound; lia. }
  rewrite lor_low by done. rewrite <-(Z.land_diag 0x3FF) at 2. rewrite (Z.land_assoc _ 0x3FF 0x3FF).
  rewrite lor_low; [done..|]. change 0x3FF with (Z.ones 10). rewrite Z.land_ones by lia.
  apply Z.mod_pos_bound. lia.
Qed.

Lemma dumps_literal s : unpaired s = true → literal s (dumps_str s).
Proof.
  apply literal_of.
  - intros c rest Hc Hh. destruct (Z.eq_dec c 127) as [->|]; [done|].
    rewrite dumps_char_escape by done. by apply scan_escape.
  - intros c rest Hc Hl. destruct (Z.eq_dec c 127) as [->|]; [by apply (follows_unicode 127)|].
    rewrite dumps_char_escape by done. by apply follows_escape.
Qed.

Lemma Forall2_map_r {A B} (R : A → B → Prop) (f : A → B) l :
  Forall (λ x, R x (f x)) l → Forall2 R l (map f l).
Proof. induction 1; constructor; done. Qed.

(** The text of a portable value is read as that value. *)
Lemma dumps_reads v : portable v = true → reads float_of_text v (dumps v).
Proof.
  induction v as [|b|n|f|s|l IH|d IH] using json_ind'; intros Hp; cbn [portable dumps] in *.
  - apply null_reads.
  - apply bool_reads.
  - by apply int_reads, Nat.leb_le.
  - by apply float_reads.
  - by apply literal_reads, dumps_literal.
  - apply forallb_Forall in Hp. apply (array_reads _ [32] [] []); [by repeat constructor..|].
    apply Forall2_map_r. rewrite Forall_forall in *. auto.
  - apply andb_prop in Hp as [Hnd%bool_decide_eq_true Hp]. apply forallb_Forall in Hp.
    apply (object_reads _ [32] [32] [] []); [by repeat constructor..| |done]. apply Forall2_map_r.
    rewrite Forall_forall in *. intros [k v] Hkv. specialize (Hp _ Hkv).
    apply andb_prop in Hp as [Hk Hv]. exists (dumps_str k), (dumps v).
    split; [done|]. split; [by apply dumps_literal|by apply (IH _ Hkv)].
Qed.

Lemma loads_dumps v : portable v = true → loads float_of_text (dumps v) = inr v.
Proof. intros Hv. by apply loads_reads, dumps_reads. Qed.

(** ** Bytes *)

(** Printable ASCII: no control character, so no line break either. *)
Definition printable (c : Z) : Prop := 32 ≤ c ≤ 126.

Lemma printable_ascii s : Forall printable s → Forall ascii s.
Proof. intros Hs. eapply Forall_impl; [exact Hs|]. unfold printable, ascii. lia. Qed.

Lemma to_digits_printable base n : 2 ≤ base ≤ 36 → 0 ≤ n → Forall printable (to_digits base n).
Proof.
  intros Hb Hn. destruct (to_digits_spec base n) as (ds & -> & Hds); [lia..|].
  destruct Hds as [_ Hok _ _ _]. apply Forall_fmap. eapply Forall_impl; [exact Hok|].
  intros d [Hd0 Hd]. unfold printable, compose, digit_char. case_match; lia.
Qed.

Lemma str_of_int_printable n : Forall printable (str_of_int n).
Proof.
  unfold str_of_int. case_match; [constructor; [done|]|]; apply to_digits_printable; lia.
Qed.

Lemma hex4_printable n : 0 ≤ n → Forall printable (hex4 n).
Proof.
  intros Hn. unfold hex4. apply Forall_app. split; [|apply to_digits_printable; lia].
  apply Forall_replicate. unfold printable. lia.
Qed.

Lemma dumps_char_printable c : code_ok c = true → Forall printable (dumps_char c).
Proof.
  unfold code_ok. rewrite !andb_true_iff, !Z.leb_le. intros [H0 H1].
  assert (Forall printable $"\u") as Hu by (repeat constructor; done).
  unfold dumps_char. do 7 (case_match; [repeat constructor; done|]).
  destruct (Z.leb_spec 32 c), (Z.leb_spec c 126); cbn [andb].
  { constructor; [by split|constructor]. }
  all: destruct (c <? 0x10000); [apply Forall_app; split; [done|by apply hex4_printable]|].
  all: cbv zeta; rewrite !Forall_app; split_and!; try done; apply hex4_printable;
    apply Z.lor_nonneg; (split; [lia|]); apply Z.land_nonneg; right; lia.
Qed.

Lemma dumps_str_printable s : unpaired s = true → Forall printable (dumps_str s).
Proof.
  intros Hs%unpaired_code_ok. unfold dumps_str. rewrite !Forall_app.
  split_and!; [by repeat constructor| |by repeat constructor].
  apply Forall_bind. eapply Forall_impl; [exact Hs|]. apply dumps_char_printable.
Qed.

Lemma dumps_float_printable f : float_back f = true → Forall printable (dumps_float f).
Proof.
  unfold float_back. destruct (finite f) eqn:Hf; cbn [negb orb].
  - rewrite andb_true_iff. intros [Hok _].
    replace (dumps_float f) with (float_repr f) by (by destruct f).
    destruct (float_repr_token f Hf Hok) as (ip & fr & ex & -> & [Hi Hr He _]).
    assert (∀ s, Forall (λ c, 48 ≤ c ≤ 57) s → Forall printable s) as Hd.
    { intros s Hs. eapply Forall_impl; [exact Hs|]. unfold printable. lia. }
    rewrite !Forall_app. split_and!.
    + destruct (float_sign f); by repeat constructor.
    + destruct Hi as [->|[[_ Hi] _]]; [by repeat constructor|auto].
    + destruct Hr as [->|(ds & -> & _ & Hr)]; [constructor|]. constructor; [done|auto].
    + destruct He as [->|(sg & ds & -> & Hsg & _ & He)]; [constructor|].
      constructor; [done|]. constructor; [unfold printable; lia|auto].
  - intros _. destruct f as [|[]| |]; try done; by repeat constructor.
Qed.

(** [json.dumps] writes printable ASCII. *)
Lemma dumps_printable v : portable v = true → Forall printable (dumps v).
Proof.
  assert (∀ c d ps, printable c → printable d → Forall (Forall printable) ps →
    Forall printable ([c] ++ join $", " ps ++ [d])) as Hjoin.
  { intros c d ps Hc Hd Hps. rewrite !Forall_app. split_and!; [by constructor| |by constructor].
    apply join_Forall; [|done]. by repeat constructor. }
  induction v as [|b|n|f|s|l IH|d IH] using json_ind'; intros Hp; cbn [portable dumps] in *.
  - by repeat constructor.
  - destruct b; by repeat constructor.
  - apply str_of_int_printable.
  - by apply dumps_float_printable.
  - by apply dumps_str_printable.
  - apply forallb_Forall in Hp. apply Hjoin; [done..|]. apply Forall_fmap.
    rewrite Forall_forall in *. intros x Hx. by apply IH, Hp.
  - apply andb_prop in Hp as [_ Hp]. apply forallb_Forall in Hp. apply Hjoin; [done..|].
    apply Forall_fmap. rewrite Forall_forall in *. intros [k v] Hkv. specialize (Hp _ Hkv).
    apply andb_prop in Hp as [Hk Hv]. unfold compose. cbn [fst snd]. rewrite !Forall_app.
    split_and!; [by apply dumps_str_printable|by repeat constructor|by apply (IH _ Hkv)].
Qed.

(** ASCII text is its own encoding. *)
Lemma utf8_encode_ascii s : Forall ascii s → utf8_encode s = inr s.
Proof.
  intros Hs. unfold utf8_encode.
  assert (existsb is_surrogate s = false ∧ s ≫= utf8_char = s) as [-> ->]; [|done].
  induction Hs as [|c s [Hc0 Hc] Hs [IH1 IH2]]; [done|]. cbn [existsb]. rewrite bind_cons.
  rewrite IH1, IH2, orb_false_r. unfold is_surrogate, utf8_char.
  by rewrite (proj2 (Z.ltb_lt c 0x80)), (proj2 (Z.leb_gt 0xD800 c)) by lia.
Qed.

Lemma utf8_decode_ascii s : Forall ascii s → utf8_decode s = inr s.
Proof.
  intros Hs. apply utf8_roundtrip; [by apply ascii_code_point|by apply utf8_encode_ascii].
Qed.

(** The body of a request: [json.dumps(v).encode("utf-8")], read by
    [json.loads(raw)]. *)
Lemma loads_bytes_dumps v :
  portable v = true → loads_bytes float_of_text (dumps v) = inr v.
Proof.
  intros Hv. pose proof (printable_ascii _ (dumps_printable v Hv)) as Ha. unfold loads_bytes.
  assert (startswith (dumps v) [0xEF; 0xBB; 0xBF] = false) as ->.
  { destruct Ha as [|c s [_ Hc] _]; [done|]. cbn [startswith].
    by rewrite (proj2 (Z.eqb_neq 0xEF c)) by lia. }
  rewrite utf8_decode_ascii by done. by apply loads_dumps.
Qed.

Lemma printable_unpaired s : Forall printable s → unpaired s = true.
Proof.
  unfold printable. induction 1 as [|c s Hc Hs IH]; [done|]. cbn [unpaired]. rewrite IH, andb_true_r.
  unfold code_ok, is_high. rewrite (proj2 (Z.leb_le 0 c)), (proj2 (Z.leb_le c 0x10FFFF)),
    (proj2 (Z.leb_gt 0xD800 c)) by lia. done.
Qed.

Lemma portable_text s : Forall printable s → portable (JStr s) = true.
Proof. apply printable_unpaired. Qed.

(** ** [json.dumps(value, indent=2)] *)

(** A line break and the indentation of a depth. *)
Definition newline (depth : nat) : pystr := 10 :: replicate (2 * depth) 32.

Fixpoint dumps_indent (depth : nat) (v : json) : pystr :=
  match v with
  | JArr ((_ :: _) as l) =>
      [91] ++ newline (S depth) ++ join (44 :: newline (S depth)) (map (dumps_indent (S depth)) l)
      ++ newline depth ++ [93]
  | JObj ((_ :: _) as d) =>
      [123] ++ newline (S depth)
      ++ join (44 :: newline (S depth))
           (map (λ kv, dumps_str kv.1 ++ $": " ++ dumps_indent (S depth) kv.2) d)
      ++ newline depth ++ [125]
  | _ => dumps v
  end.

Lemma blank_newline n : blank (newline n).
Proof. constructor; [auto|]. apply Forall_replicate. auto. Qed.

Lemma dumps_indent_reads v depth :
  portable v = true → reads float_of_text v (dumps_indent depth v).
Proof.
  revert depth. induction v as [|b|n|f|s|l IH|d IH] using json_ind'; intros depth Hp;
    try (by apply dumps_reads).
  - destruct l as [|x l]; [by apply dumps_reads|].
    cbn [portable] in Hp. apply forallb_Forall in Hp.
    apply (array_reads _ (newline (S depth)) (newline (S depth)) (newline depth)); try apply blank_newline.
    apply (Forall2_map_r _ (dumps_indent (S depth)) (x :: l)). rewrite Forall_forall in *. auto.
  - destruct d as [|e d]; [by apply dumps_reads|].
    cbn [portable] in Hp. apply andb_prop in Hp as [Hnd%bool_decide_eq_true Hp].
    apply forallb_Forall in Hp.
    apply (object_reads _ (newline (S depth)) [32] (newline (S depth)) (newline depth));
      try apply blank_newline; [by repeat constructor| |done].
    apply (Forall2_map_r _ (λ kv, dumps_str kv.1 ++ $": " ++ dumps_indent (S depth) kv.2) (e :: d)).
    rewrite Forall_forall in *. intros [k v] Hkv. specialize (Hp _ Hkv).
    apply andb_prop in Hp as [Hk Hv]. exists (dumps_str k), (dumps_indent (S depth) v).
    split; [done|]. split; [by apply dumps_literal|by apply (IH _ Hkv)].
Qed.

Lemma loads_dumps_indent v :
  portable v = true → loads float_of_text (dumps_indent 0 v) = inr v.
Proof. intros Hv. by apply loads_reads, dumps_indent_reads. Qed.
End portable.
Arguments portable_obj {float_of_text}.
Arguments portable_get {float_of_text}.
Arguments portable_text {float_of_text}.
Arguments dumps_printable {float_of_text}.
