(* ===== verification/Journal.v ===== *)
(** * The SQLite journal of the development server ([DevJournal] of [dev.py])

    The two tables are lists of rows in row order. Every function here is one
    SQL statement or transaction of [DevJournal], run atomically on the tables:
    the primary keys and the partial unique index on live signatures are the
    checks of the insert and update functions. A column that stores
    [json.dumps] text holds the value itself, which every read decodes back. *)

From S2P Require Import Prelude Py Json.
Open Scope Z_scope.
Open Scope undolog_scope.

(** ** Rows *)

(** [_EFFECT_EXECUTING] .. [_EFFECT_REJECTED]. *)
Inductive effect_status := Executing | AwaitingApproval | Committed | Failed | Rejected.

#[export] Instance effect_status_eq_dec : EqDecision effect_status.
Proof. solve_decision. Defined.

Definition effect_status_text (s : effect_status) : pystr :=
  match s with
  | Executing => $"executing"
  | AwaitingApproval => $"awaiting_approval"
  | Committed => $"committed"
  | Failed => $"failed"
  | Rejected => $"rejected"
  end.

(** [_LIVE_EFFECT_STATUSES]: the statuses that occupy a call signature. *)
Definition is_live (s : effect_status) : bool :=
  match s with
  | Executing | AwaitingApproval | Committed => true
  | Failed | Rejected => false
  end.

(** [_APPROVAL_PENDING], [_APPROVAL_APPROVED], [_APPROVAL_REJECTED]. *)
Inductive approval_status := Pending | Approved | Refused.

#[export] Instance approval_status_eq_dec : EqDecision approval_status.
Proof. solve_decision. Defined.

Definition approval_status_text (s : approval_status) : pystr :=
  match s with
  | Pending => $"pending"
  | Approved => $"approved"
  | Refused => $"rejected"
  end.

(** A row of the [effects] table. *)
Record effect := Effect {
  e_id : pystr;
  e_org_id : pystr;
  e_session_id : pystr;
  e_tool_name : pystr;
  e_tool_version : pystr;
  e_tier : pystr;
  e_step_index : Z;
  e_signature : pystr;
  e_status : effect_status;
  e_args : json;
  e_result : option json;
  e_error : option pystr;
  e_replay_count : Z;
  e_last_replayed_at : option pystr;
  e_approval_id : option pystr;
  e_created_at : pystr;
  e_updated_at : pystr;
}.

(** A row of the [approvals] table. *)
Record approval := Approval {
  a_id : pystr;
  a_org_id : pystr;
  a_session_id : pystr;
  a_effect_id : pystr;
  a_tool_name : pystr;
  a_args : json;
  a_status : approval_status;
  a_created_at : pystr;
  a_resolved_at : option pystr;
}.

Record db := Db { effects : list effect; approvals : list approval }.

Definition empty_db : db := Db [] [].

(** ** Statements *)

Definition has_id (id : pystr) (e : effect) : bool := str_eqb (e_id e) id.
Definition holds_signature (sig : pystr) (e : effect) : bool :=
  is_live (e_status e) && str_eqb (e_signature e) sig.
Definition has_approval_id (id : pystr) (a : approval) : bool := str_eqb (a_id a) id.

(** [sqlite3] cannot bind text that has no UTF-8 encoding. *)
Definition bindable (s : pystr) : bool := negb (existsb is_surrogate s).

Definition effect_texts (e : effect) : list pystr :=
  [e_id e; e_org_id e; e_session_id e; e_tool_name e; e_tool_version e;
   e_tier e; e_signature e; e_created_at e] ++ option_list (e_approval_id e).

(** The transaction of [create_effect]: [INSERT OR IGNORE] of the effect, which
    the primary key or the live-signature index may ignore, then the approval,
    whose duplicate key raises and rolls the transaction back. *)
Definition insert_effect (e : effect) (a : option approval) (d : db) : res bool * db :=
  if negb (forallb bindable (effect_texts e)) then (inl EUnicodeEncode, d)
  else if existsb (λ x, has_id (e_id e) x
                        || (is_live (e_status e) && holds_signature (e_signature e) x)) (effects d)
  then (inr false, d)
  else match a with
       | None => (inr true, Db (effects d ++ [e]) (approvals d))
       | Some ap =>
           if existsb (has_approval_id (a_id ap)) (approvals d) then (inl EIntegrity, d)
           else (inr true, Db (effects d ++ [e]) (approvals d ++ [ap]))
       end.

(** [find_live_effect]. *)
Definition find_live_effect (sig : pystr) (d : db) : option effect :=
  first_where (holds_signature sig) (effects d).

Definition set_outcome (status : effect_status) (result : option json)
    (error : option pystr) (now : pystr) (e : effect) : effect :=
  {| e_id := e_id e; e_org_id := e_org_id e; e_session_id := e_session_id e;
     e_tool_name := e_tool_name e; e_tool_version := e_tool_version e;
     e_tier := e_tier e; e_step_index := e_step_index e;
     e_signature := e_signature e; e_status := status; e_args := e_args e;
     e_result := result; e_error := error; e_replay_count := e_replay_count e;
     e_last_replayed_at := e_last_replayed_at e; e_approval_id := e_approval_id e;
     e_created_at := e_created_at e; e_updated_at := now |}.

(** Whether making the rows named [id] live would give one signature two live
    effects: the failure of the partial unique index. *)
Definition revives_taken_signature (id : pystr) (status : effect_status) (d : db) : bool :=
  is_live status
  && existsb (λ x, has_id id x
       && existsb (λ y, negb (has_id id y) && holds_signature (e_signature x) y) (effects d))
     (effects d).

(** [_update_effect]: the status and outcome of one effect, by identifier and
    whatever its current status. *)
Definition update_effect (id : pystr) (status : effect_status) (result : option json)
    (error : option pystr) (now : pystr) (d : db) : res bool * db :=
  if negb (bindable id && forallb bindable (option_list error)) then (inl EUnicodeEncode, d)
  else if revives_taken_signature id status d then (inl EIntegrity, d)
  else (inr (0 <? count_where (has_id id) (effects d))%nat,
        Db (update_where (has_id id) (set_outcome status result error now) (effects d))
           (approvals d)).

Definition bump_replay (now : pystr) (e : effect) : effect :=
  {| e_id := e_id e; e_org_id := e_org_id e; e_session_id := e_session_id e;
     e_tool_name := e_tool_name e; e_tool_version := e_tool_version e;
     e_tier := e_tier e; e_step_index := e_step_index e;
     e_signature := e_signature e; e_status := e_status e; e_args := e_args e;
     e_result := e_result e; e_error := e_error e; e_replay_count := e_replay_count e + 1;
     e_last_replayed_at := Some now; e_approval_id := e_approval_id e;
     e_created_at := e_created_at e; e_updated_at := now |}.

(** The statement of [record_replay]. *)
Definition update_replay (id now : pystr) (d : db) : res bool * db :=
  (inr (0 <? count_where (has_id id) (effects d))%nat,
   Db (update_where (has_id id) (bump_replay now) (effects d)) (approvals d)).

(** Newest first, ties by identifier: [ORDER BY created_at DESC, id DESC]. *)
Definition newer (a b : approval) : Prop :=
  str_leb (a_created_at b) (a_created_at a)
  && (negb (str_eqb (a_created_at a) (a_created_at b)) || str_leb (a_id b) (a_id a)) = true.

#[export] Instance newer_dec : RelDecision newer.
Proof. intros a b. unfold newer. apply _. Defined.

(** [ORDER BY created_at DESC]; rows created together keep their row order. *)
Definition created_later (a b : approval) : Prop := str_le (a_created_at b) (a_created_at a).

#[export] Instance created_later_dec : RelDecision created_later.
Proof. intros a b. unfold created_later. apply _. Defined.

(** [find_pending_approval]. *)
Definition find_pending_approval (effect_id : pystr) (d : db) : option approval :=
  head (merge_sort created_later
    (List.filter (λ a, str_eqb (a_effect_id a) effect_id && bool_decide (a_status a = Pending))
       (approvals d))).

(** [get_approval]. *)
Definition get_approval (id : pystr) (d : db) : option approval :=
  first_where (has_approval_id id) (approvals d).

Definition set_resolution (status : approval_status) (now : pystr) (a : approval) : approval :=
  {| a_id := a_id a; a_org_id := a_org_id a; a_session_id := a_session_id a;
     a_effect_id := a_effect_id a; a_tool_name := a_tool_name a; a_args := a_args a;
     a_status := status; a_created_at := a_created_at a; a_resolved_at := Some now |}.

Definition is_pending_approval (id : pystr) (a : approval) : bool :=
  has_approval_id id a && bool_decide (a_status a = Pending).

(** [resolve_approval]: a conditional update, so only a pending approval is
    resolved. *)
Definition resolve_approval (id : pystr) (status : approval_status) (now : pystr) (d : db)
    : res bool * db :=
  (inr (0 <? count_where (is_pending_approval id) (approvals d))%nat,
   Db (effects d) (update_where (is_pending_approval id) (set_resolution status now) (approvals d))).

Definition DEFAULT_APPROVAL_LIMIT : Z := 100.
Definition MAX_APPROVAL_LIMIT : Z := 500.

(** [list_approvals]; [state = None] is [all]. *)
Definition list_approvals (state : option approval_status) (limit : Z) (d : db) : list approval :=
  let limit := if limit <? 1 then DEFAULT_APPROVAL_LIMIT else limit in
  let clamped := Z.min limit MAX_APPROVAL_LIMIT in
  take (Z.to_nat clamped)
    (merge_sort newer
      (List.filter (λ a, match state with
                         | None => true
                         | Some s => bool_decide (a_status a = s)
                         end) (approvals d))).

(** ** The invariant of the tables *)

Record journal_ok (d : db) : Prop := {
  ids_unique : NoDup (e_id <$> effects d);
  live_unique : ∀ x y, x ∈ effects d → y ∈ effects d →
    is_live (e_status x) = true → is_live (e_status y) = true →
    e_signature x = e_signature y → e_id x = e_id y;
  approval_ids_unique : NoDup (a_id <$> approvals d);
  approval_linked : ∀ a, a ∈ approvals d → a_effect_id a ∈ e_id <$> effects d;
  approval_effects_unique : NoDup (a_effect_id <$> approvals d);
}.

Lemma journal_ok_empty : journal_ok empty_db.
Proof. split; simpl; try apply NoDup_nil_2; intros; set_solver. Qed.

(** An approval is created for the effect it is inserted with. *)
Definition linked (e : effect) (a : option approval) : Prop :=
  match a with Some ap => a_effect_id ap = e_id e | None => True end.

Lemma holds_signature_iff sig e :
  holds_signature sig e = true ↔ is_live (e_status e) = true ∧ e_signature e = sig.
Proof. unfold holds_signature. by rewrite andb_true_iff, str_eqb_eq. Qed.

Lemma has_id_iff id e : has_id id e = true ↔ e_id e = id.
Proof. unfold has_id. by rewrite str_eqb_eq. Qed.

Lemma has_approval_id_iff id a : has_approval_id id a = true ↔ a_id a = id.
Proof. unfold has_approval_id. by rewrite str_eqb_eq. Qed.

(** A live effect of the table is the one its signature finds. *)
Lemma find_live_effect_elem d e :
  journal_ok d → e ∈ effects d → is_live (e_status e) = true →
  find_live_effect (e_signature e) d = Some e.
Proof.
  intros Hok He Hl. apply first_where_unique; [done|by apply holds_signature_iff|].
  intros y Hy [Hly Hs]%holds_signature_iff.
  eapply NoDup_fmap_inj_in; [apply Hok|done..|]. by eapply live_unique.
Qed.

Lemma find_live_effect_Some d sig e :
  find_live_effect sig d = Some e →
  e ∈ effects d ∧ is_live (e_status e) = true ∧ e_signature e = sig.
Proof. intros [? ?%holds_signature_iff]%first_where_Some. naive_solver. Qed.

Lemma find_live_effect_None d sig :
  find_live_effect sig d = None ↔
  ∀ e, e ∈ effects d → is_live (e_status e) = true → e_signature e ≠ sig.
Proof.
  unfold find_live_effect. rewrite first_where_None.
  setoid_rewrite <-not_true_iff_false. setoid_rewrite holds_signature_iff. naive_solver.
Qed.

(** What a refused insertion means: nothing changed, and either the key or the
    signature was taken. *)
Lemma insert_effect_inv e a d r d' :
  insert_effect e a d = (r, d') →
  (r = inr true ∧ effects d' = effects d ++ [e] ∧
     approvals d' = approvals d ++ option_list a ∧
     (∀ x, x ∈ effects d → e_id x ≠ e_id e) ∧
     (is_live (e_status e) = true → find_live_effect (e_signature e) d = None) ∧
     (∀ ap, a = Some ap → ∀ b, b ∈ approvals d → a_id b ≠ a_id ap)) ∨
  (r ≠ inr true ∧ d' = d).
Proof.
  unfold insert_effect. case_match; [by intros [= <- <-]; right|].
  case_match eqn:Hex; [by intros [= <- <-]; right|].
  rewrite existsb_false_iff in Hex.
  assert (∀ x, x ∈ effects d → e_id x ≠ e_id e) as Hid.
  { intros x Hx Heq. specialize (Hex x Hx). apply orb_false_elim in Hex as [Hex _].
    apply not_true_iff_false in Hex. by rewrite has_id_iff in Hex. }
  assert (is_live (e_status e) = true → find_live_effect (e_signature e) d = None) as Hsig.
  { intros Hl. apply first_where_None. intros x Hx. specialize (Hex x Hx).
    apply orb_false_elim in Hex as [_ Hex]. by rewrite Hl in Hex. }
  destruct a as [ap|]; simpl.
  - case_match eqn:Hap; [by intros [= <- <-]; right|]. intros [= <- <-]. left.
    split_and!; [done..|]. intros ? [= <-] b Hb Heq. rewrite existsb_false_iff in Hap.
    specialize (Hap b Hb). apply not_true_iff_false in Hap. by rewrite has_approval_id_iff in Hap.
  - intros [= <- <-]. left. rewrite app_nil_r. split_and!; [done..|]. by intros ? [=].
Qed.

Lemma insert_effect_ok e a d r d' :
  journal_ok d → linked e a → insert_effect e a d = (r, d') → journal_ok d'.
Proof.
  intros Hok Hlink [(_ & He & Ha & Hid & Hsig & Hap)|[_ ->]]%insert_effect_inv; [|done].
  destruct Hok as [H1 H2 H3 H4 H5].
  assert (e_id e ∉ e_id <$> effects d) as Hnew.
  { rewrite list_elem_of_fmap. intros (x & Heq & Hx). by eapply Hid. }
  split; rewrite ?He, ?Ha.
  - rewrite fmap_app. by apply NoDup_snoc.
  - intros x y [Hx| ->]%elem_of_snoc [Hy| ->]%elem_of_snoc Hlx Hly Hs; [by eapply H2|..|done].
    + exfalso. apply Hsig in Hly. rewrite find_live_effect_None in Hly. by eapply Hly.
    + exfalso. apply Hsig in Hlx. rewrite find_live_effect_None in Hlx. by eapply Hlx.
  - destruct a as [ap|]; simpl; [|by rewrite app_nil_r]. rewrite fmap_app.
    apply NoDup_snoc; [done|]. rewrite list_elem_of_fmap. intros (b & Heq & Hb).
    by eapply Hap.
  - intros b Hb. rewrite fmap_app. apply elem_of_app.
    apply elem_of_app in Hb as [Hb|Hb]; [left; by apply H4|right].
    destruct a as [ap|]; simpl in *; [|set_solver].
    apply list_elem_of_singleton in Hb as ->. rewrite Hlink. left.
  - destruct a as [ap|]; simpl; [|by rewrite app_nil_r]. rewrite fmap_app.
    apply NoDup_snoc; [done|]. simpl in Hlink. rewrite Hlink.
    rewrite list_elem_of_fmap. intros (b & Heq & Hb). apply Hnew. rewrite Heq. by apply H4.
Qed.

(** Updates that keep identifiers, signatures and approval links. *)
Lemma effects_update_ok d (f : effect → effect) p :
  journal_ok d → (∀ e, e_id (f e) = e_id e) → (∀ e, e_signature (f e) = e_signature e) →
  (∀ x y, x ∈ effects d → y ∈ effects d → p x = true → p y = false →
     is_live (e_status (f x)) = true → is_live (e_status y) = true →
     e_signature x ≠ e_signature y) →
  (∀ x y, x ∈ effects d → y ∈ effects d → p x = true → p y = true → e_id x = e_id y ∨
     (is_live (e_status (f x)) = true → is_live (e_status x) = true) ∧
     (is_live (e_status (f y)) = true → is_live (e_status y) = true)) →
  journal_ok (Db (update_where p f (effects d)) (approvals d)).
Proof.
  intros [H1 H2 H3 H4 H5] Hid Hsg Hx Hb.
  assert (e_id <$> update_where p f (effects d) = e_id <$> effects d) as Hids.
  { apply fmap_update_where. auto. }
  split; simpl; rewrite ?Hids; try done.
  intros x' y' (x & Hxe & ->)%elem_of_update_where (y & Hye & ->)%elem_of_update_where.
  destruct (p x) eqn:Epx, (p y) eqn:Epy; rewrite ?Hid, ?Hsg; intros Hlx Hly Hs.
  - destruct (Hb x y) as [|[Hbx Hby]]; auto.
  - exfalso. by eapply (Hx x y).
  - exfalso. by eapply (Hx y x).
  - by apply H2.
Qed.

Lemma update_effect_ok id status result error now d r d' :
  journal_ok d → update_effect id status result error now d = (r, d') → journal_ok d'.
Proof.
  intros Hok. unfold update_effect. case_match; [by intros [= <- <-]|].
  case_match eqn:Hrev; [by intros [= <- <-]|]. intros [= <- <-].
  apply effects_update_ok; [done..| |].
  - intros x y Hx Hy Hpx Hpy Hlx Hly Hs. simpl in Hlx.
    unfold revives_taken_signature in Hrev. rewrite Hlx in Hrev. simpl in Hrev.
    rewrite existsb_false_iff in Hrev. specialize (Hrev x Hx). rewrite Hpx in Hrev.
    simpl in Hrev. rewrite existsb_false_iff in Hrev. specialize (Hrev y Hy).
    rewrite Hpy in Hrev. simpl in Hrev. apply not_true_iff_false in Hrev.
    rewrite holds_signature_iff in Hrev. naive_solver.
  - intros x y _ _ Hx%has_id_iff Hy%has_id_iff. left. congruence.
Qed.

Lemma update_replay_ok id now d r d' :
  journal_ok d → update_replay id now d = (r, d') → journal_ok d'.
Proof.
  intros Hok [= <- <-]. apply effects_update_ok; [done..| |].
  - intros x y Hx Hy Hpx Hpy Hlx Hly Hs. simpl in Hlx.
    apply has_id_iff in Hpx. rewrite <-not_true_iff_false, has_id_iff in Hpy.
    apply Hpy. rewrite <-Hpx. symmetry. by eapply (live_unique d).
  - intros x y _ _ Hx%has_id_iff Hy%has_id_iff. left. congruence.
Qed.

Lemma resolve_approval_ok id status now d r d' :
  journal_ok d → resolve_approval id status now d = (r, d') → journal_ok d'.
Proof.
  intros [H1 H2 H3 H4 H5] [= <- <-].
  split; simpl; rewrite ?fmap_update_where by done; try done.
  intros a (b & Hb & ->)%elem_of_update_where. apply H4 in Hb. by case_match.
Qed.

#[export] Hint Resolve journal_ok_empty insert_effect_ok update_effect_ok
  update_replay_ok resolve_approval_ok : undolog.

(** ** Successful statements *)

Lemma insert_effect_new e a d :
  forallb bindable (effect_texts e) = true →
  e_id e ∉ (e_id <$> effects d) →
  find_live_effect (e_signature e) d = None →
  (∀ ap, a = Some ap → a_id ap ∉ (a_id <$> approvals d)) →
  insert_effect e a d = (inr true, Db (effects d ++ [e]) (approvals d ++ option_list a)).
Proof.
  intros Hb Hid Hsig Hap. unfold insert_effect. rewrite Hb. simpl.
  assert (existsb (λ x, has_id (e_id e) x ||
    (is_live (e_status e) && holds_signature (e_signature e) x)) (effects d) = false) as ->.
  { apply existsb_false_iff. intros x Hx. apply orb_false_intro.
    - apply not_true_iff_false. rewrite has_id_iff. intros Heq. apply Hid.
      rewrite <-Heq. by apply list_elem_of_fmap_2.
    - unfold find_live_effect in Hsig. rewrite first_where_None in Hsig.
      rewrite Hsig by done. apply andb_false_r. }
  destruct a as [ap|]; simpl; [|by rewrite app_nil_r].
  assert (existsb (has_approval_id (a_id ap)) (approvals d) = false) as ->; [|done].
  apply existsb_false_iff. intros b Hb'. apply not_true_iff_false. rewrite has_approval_id_iff.
  intros Heq. apply (Hap ap); [done|]. rewrite <-Heq. by apply list_elem_of_fmap_2.
Qed.

(** A signature that is taken refuses the insertion, without an exception. *)
Lemma insert_effect_taken e a d x :
  forallb bindable (effect_texts e) = true → is_live (e_status e) = true →
  find_live_effect (e_signature e) d = Some x →
  insert_effect e a d = (inr false, d).
Proof.
  intros Hb Hl Hx. unfold insert_effect. rewrite Hb, Hl. simpl.
  apply first_where_Some in Hx as [Hx Hs].
  assert (existsb (λ x, has_id (e_id e) x || holds_signature (e_signature e) x) (effects d) = true)
    as ->; [|done].
  apply existsb_true_iff. exists x. split; [done|]. rewrite Hs. apply orb_true_r.
Qed.

(** The live-signature index never refuses an update of a live effect. *)
Lemma revives_live d e status :
  journal_ok d → e ∈ effects d → is_live (e_status e) = true →
  revives_taken_signature (e_id e) status d = false.
Proof.
  intros Hok He Hl. unfold revives_taken_signature. apply andb_false_iff. right.
  apply existsb_false_iff. intros x Hx.
  destruct (has_id (e_id e) x) eqn:Hidx; [|done]. simpl. apply has_id_iff in Hidx.
  assert (x = e) as -> by (eapply NoDup_fmap_inj_in; [apply Hok|done..]).
  apply existsb_false_iff. intros y Hy. apply andb_false_iff.
  destruct (has_id (e_id e) y) eqn:Hidy; [by left|right].
  apply not_true_iff_false. rewrite holds_signature_iff. intros [Hly Hs].
  apply not_true_iff_false in Hidy. apply Hidy, has_id_iff.
  by eapply (live_unique d).
Qed.

(** Updating an identifier rewrites that row and no other. *)
Lemma update_effect_row d e status result error now :
  e ∈ effects d → bindable (e_id e) && forallb bindable (option_list error) = true →
  revives_taken_signature (e_id e) status d = false →
  update_effect (e_id e) status result error now d =
    (inr true, Db (update_where (has_id (e_id e)) (set_outcome status result error now) (effects d))
                  (approvals d)).
Proof.
  intros He Hb Hr. unfold update_effect. rewrite Hb, Hr. simpl.
  by rewrite (count_where_pos _ _ e) by (done || by apply has_id_iff).
Qed.

Lemma update_effect_missing d id status result error now :
  bindable id && forallb bindable (option_list error) = true →
  id ∉ (e_id <$> effects d) →
  update_effect id status result error now d = (inr false, d).
Proof.
  intros Hb Hid. unfold update_effect. rewrite Hb. simpl.
  assert (∀ x, x ∈ effects d → has_id id x = false) as Hno.
  { intros x Hx. apply not_true_iff_false. rewrite has_id_iff. intros <-.
    by apply Hid, list_elem_of_fmap_2. }
  assert (revives_taken_signature id status d = false) as ->.
  { unfold revives_taken_signature. apply andb_false_iff. right. apply existsb_false_iff.
    intros x Hx. by rewrite Hno. }
  rewrite count_where_none, update_where_none by done. by destruct d.
Qed.

(** After the update of a row, its signature finds the new outcome. *)
Lemma find_after_update d e status result error now :
  journal_ok d → e ∈ effects d → is_live (e_status e) = true ∨ find_live_effect (e_signature e) d = None →
  is_live status = true →
  find_live_effect (e_signature e)
    (Db (update_where (has_id (e_id e)) (set_outcome status result error now) (effects d))
        (approvals d)) = Some (set_outcome status result error now e).
Proof.
  intros Hok He Hl Hst. apply first_where_unique.
  - simpl. apply elem_of_update_where. exists e. split; [done|].
    by rewrite (proj2 (has_id_iff _ _) eq_refl).
  - by apply holds_signature_iff.
  - simpl. intros y (x & Hx & ->)%elem_of_update_where [Hly Hs]%holds_signature_iff.
    destruct (has_id (e_id e) x) eqn:Hid.
    + apply has_id_iff in Hid. do 2 f_equal. eapply NoDup_fmap_inj_in; [apply Hok|done..].
    + exfalso. apply not_true_iff_false in Hid. rewrite has_id_iff in Hid.
      destruct Hl as [Hl|Hl].
      * apply Hid. by eapply (live_unique d).
      * rewrite find_live_effect_None in Hl. by eapply Hl.
Qed.

(** After a live effect leaves the live statuses, its signature is free. *)
Lemma free_after_update d e status result error now :
  journal_ok d → e ∈ effects d → is_live (e_status e) = true → is_live status = false →
  find_live_effect (e_signature e)
    (Db (update_where (has_id (e_id e)) (set_outcome status result error now) (effects d))
        (approvals d)) = None.
Proof.
  intros Hok He Hl Hst. apply find_live_effect_None. simpl.
  intros y (x & Hx & ->)%elem_of_update_where. destruct (has_id (e_id e) x) eqn:Hid; simpl.
  - by rewrite Hst.
  - intros Hlx Hs. apply not_true_iff_false in Hid. rewrite has_id_iff in Hid. apply Hid.
    by eapply (live_unique d).
Qed.

(** The approvals of a table row by row. *)
Lemma get_approval_elem d a :
  journal_ok d → a ∈ approvals d → get_approval (a_id a) d = Some a.
Proof.
  intros Hok Ha. apply first_where_unique; [done|by apply has_approval_id_iff|].
  intros b Hb Hid%has_approval_id_iff. eapply NoDup_fmap_inj_in; [|done|done|exact Hid].
  apply Hok.
Qed.

Lemma get_approval_Some d id a :
  get_approval id d = Some a → a ∈ approvals d ∧ a_id a = id.
Proof. intros [? ?%has_approval_id_iff]%first_where_Some. done. Qed.

(** An effect has at most one approval, so its pending one is unique. *)
Lemma find_pending_approval_elem d a :
  journal_ok d → a ∈ approvals d → a_status a = Pending →
  find_pending_approval (a_effect_id a) d = Some a.
Proof.
  intros Hok Ha Hp. unfold find_pending_approval.
  assert (List.filter (λ b, str_eqb (a_effect_id b) (a_effect_id a) &&
    bool_decide (a_status b = Pending)) (approvals d) = [a]) as ->; [|done].
  pose proof (approval_effects_unique d Hok) as Hnd.
  induction (approvals d) as [|b l IH]; [by apply elem_of_nil in Ha|].
  simpl in *. apply NoDup_cons in Hnd as [Hb Hnd].
  apply elem_of_cons in Ha as [<-|Ha].
  - rewrite str_eqb_refl, bool_decide_true by done. simpl. f_equal.
    assert (∀ x, x ∈ l → a_effect_id x ≠ a_effect_id a) as Hne.
    { intros x Hx Heq. apply Hb. rewrite <-Heq. by apply list_elem_of_fmap_2. }
    clear -Hne. induction l as [|y l IH]; [done|]. simpl.
    rewrite (proj2 (str_eqb_neq _ _)) by (apply Hne; left). simpl. apply IH.
    intros; apply Hne; by right.
  - rewrite (proj2 (str_eqb_neq _ _)); [simpl; auto|].
    intros Heq. apply Hb. rewrite Heq. by apply list_elem_of_fmap_2.
Qed.

Lemma resolve_approval_pending d a status now :
  a ∈ approvals d → a_status a = Pending →
  (resolve_approval (a_id a) status now d).1 = inr true.
Proof.
  intros Ha Hp. simpl. rewrite (count_where_pos _ _ a); [done..|].
  unfold is_pending_approval. by rewrite (proj2 (has_approval_id_iff _ _) eq_refl), bool_decide_true.
Qed.

(** ** Listing *)

#[export] Instance newer_total : Total newer.
Proof.
  intros a b. unfold newer.
  destruct (str_eqb (a_created_at a) (a_created_at b)) eqn:E.
  - apply str_eqb_eq in E. rewrite E, !str_eqb_refl. simpl.
    pose proof (str_leb_total (a_created_at b) (a_created_at b)) as [-> | ->];
      apply (str_leb_total (a_id b) (a_id a)).
  - rewrite (proj2 (str_eqb_neq (a_created_at b) (a_created_at a)))
      by (apply str_eqb_neq in E; congruence).
    simpl. rewrite !andb_true_r. apply str_leb_total.
Qed.

#[export] Instance newer_trans : Transitive newer.
Proof.
  intros a b c. unfold newer. rewrite !andb_true_iff, !orb_true_iff, !negb_true_iff, !str_eqb_neq.
  intros [H1 H2] [H3 H4].
  assert (str_leb (a_created_at c) (a_created_at a) = true) as Hca by (by eapply str_leb_trans).
  split; [done|]. destruct (decide (a_created_at a = a_created_at c)) as [E|]; [right|by left].
  assert (a_created_at a = a_created_at b) as E1.
  { apply str_leb_antisym; [by rewrite E|done]. }
  destruct H2 as [?|H2]; [done|]. destruct H4 as [?|H4]; [congruence|].
  by eapply str_leb_trans.
Qed.

(** Whether an approval is in the state a listing asks for. *)
Definition listed (state : option approval_status) (a : approval) : bool :=
  match state with None => true | Some s => bool_decide (a_status a = s) end.

Definition effective_limit (limit : Z) : Z :=
  Z.min (if limit <? 1 then DEFAULT_APPROVAL_LIMIT else limit) MAX_APPROVAL_LIMIT.

Lemma effective_limit_bounds limit : 1 ≤ effective_limit limit ≤ 500.
Proof.
  unfold effective_limit, DEFAULT_APPROVAL_LIMIT, MAX_APPROVAL_LIMIT.
  destruct (Z.ltb_spec limit 1); lia.
Qed.

(** A listing is the newest part of the approvals it asks for. *)
Lemma list_approvals_newest state limit d :
  ∃ rest, list_approvals state limit d ++ rest ≡ₚ List.filter (listed state) (approvals d) ∧
    StronglySorted newer (list_approvals state limit d ++ rest) ∧
    length (list_approvals state limit d) =
      Nat.min (Z.to_nat (effective_limit limit))
              (length (List.filter (listed state) (approvals d))).
Proof.
  unfold list_approvals. fold (effective_limit limit).
  change (λ a, match state with None => true | Some s => bool_decide (a_status a = s) end)
    with (listed state).
  set (l := List.filter (listed state) (approvals d)).
  exists (drop (Z.to_nat (effective_limit limit)) (merge_sort newer l)).
  rewrite take_drop. split_and!.
  - apply merge_sort_Permutation.
  - apply (StronglySorted_merge_sort newer).
  - rewrite length_take. by rewrite (merge_sort_Permutation newer l).
Qed.
