(* ===== verification/Schema.v ===== *)
(** * The schema of the journal file ([DevJournal._create_schema] of [dev.py])

    The database file as SQLite sees it: tables with named columns, indexes and
    views, whose names do not depend on case. [create_schema] is the script and
    the column migration every start runs. [effect_of_row] and [approval_of_row]
    read the rows back as the records [Journal] works on. *)

From S2P Require Import Prelude Py Json Journal.
Open Scope Z_scope.
Open Scope undolog_scope.

(** ** The file *)

(** The value of a cell; [SJson] is the text [json.dumps] gives for a value. *)
Inductive sqlval := SNull | SText (s : pystr) | SInt (n : Z) | SJson (v : json).

Record column := Column { cl_name : pystr; cl_not_null : bool; cl_default : sqlval }.

(** A row has one cell per column, under the column's name. *)
Abbreviation row := (list (pystr * sqlval)).

Record table := Table { tb_columns : list column; tb_rows : list row }.

(** An index on one or two columns; [ix_where] restricts it to the rows whose
    column has one of the texts. *)
Record sqlindex := SqlIndex {
  ix_table : pystr;
  ix_columns : list pystr;
  ix_where : option (pystr * list pystr);
  ix_unique : bool;
}.

(** A column of a view: a column of the table, a constant, or
    [CASE WHEN c = 't' THEN e ELSE NULL END]. *)
Inductive sqlexpr := XCol (c : pystr) | XConst (v : sqlval) | XCase (c t : pystr) (e : sqlexpr).

Record view := View { vw_table : pystr; vw_columns : list (pystr * sqlexpr) }.

Record file := File {
  fl_tables : list (pystr * table);
  fl_indexes : list (pystr * sqlindex);
  fl_views : list (pystr * view);
}.
Definition empty_file : file := File [] [] [].

(** [sqlite3.OperationalError] and [sqlite3.IntegrityError]. *)
Inductive sql_error := Operational | Integrity.

(** ** Names *)

Definition same_name (a b : pystr) : bool := str_eqb (lower a) (lower b).
Definition named {A} (n : pystr) (l : list (pystr * A)) : option A :=
  snd <$> List.find (λ p, same_name n p.1) l.
Definition is_named {A} (n : pystr) (l : list (pystr * A)) : bool :=
  match named n l with Some _ => true | None => false end.

(** Replace what is under a name. *)
Definition put_named {A} (n : pystr) (v : A) (l : list (pystr * A)) : list (pystr * A) :=
  (λ p, if same_name n p.1 then (p.1, v) else p) <$> l.

Definition has_column (n : pystr) (t : table) : bool :=
  existsb (λ c, same_name n (cl_name c)) (tb_columns t).

(** The cell of a row under a column name. *)
Definition cell (n : pystr) (r : row) : option sqlval := named n r.

(** ** Unique indexes *)

Definition val_eqb_text (v : option sqlval) (t : pystr) : bool :=
  match v with Some (SText s) => str_eqb s t | _ => false end.

(** Whether a row is in the index. *)
Definition indexed (ix : sqlindex) (r : row) : bool :=
  match ix_where ix with
  | None => true
  | Some (c, ts) => existsb (val_eqb_text (cell c r)) ts
  end.

(** Equal keys; a [NULL] differs from every key. *)
Definition key_val_eqb (v w : option sqlval) : bool :=
  match v, w with
  | Some (SText s), Some (SText t) => str_eqb s t
  | Some (SInt n), Some (SInt m) => n =? m
  | _, _ => false
  end.
Definition same_key (ix : sqlindex) (r r' : row) : bool :=
  forallb (λ c, key_val_eqb (cell c r) (cell c r')) (ix_columns ix).

(** Two rows of the index with the same key. *)
Fixpoint violates (ix : sqlindex) (rs : list row) : bool :=
  match rs with
  | [] => false
  | r :: rs' =>
      (indexed ix r && existsb (λ r', indexed ix r' && same_key ix r r') rs') || violates ix rs'
  end.

(** ** Statements *)

Inductive stmt :=
| CreateTable (n : pystr) (cols : list column)
| CreateIndex (n : pystr) (ix : sqlindex)
| CreateView (n : pystr) (v : view).

(** One [IF NOT EXISTS] statement. The name may be taken by an object of the
    other kind; an index needs its table and columns, and a unique one rows that
    satisfy it. *)
Definition run_stmt (s : stmt) (f : file) : sql_error + file :=
  match s with
  | CreateTable n cols =>
      if is_named n (fl_tables f) || is_named n (fl_views f) then inr f
      else if is_named n (fl_indexes f) then inl Operational
      else inr (File (fl_tables f ++ [(n, Table cols [])]) (fl_indexes f) (fl_views f))
  | CreateIndex n ix =>
      match named (ix_table ix) (fl_tables f) with
      | None => inl Operational
      | Some t =>
          if is_named n (fl_tables f) || is_named n (fl_views f) then inl Operational
          else if is_named n (fl_indexes f) then inr f
          else if negb (forallb (λ c, has_column c t)
                          (ix_columns ix ++ match ix_where ix with Some (c, _) => [c] | None => [] end))
          then inl Operational
          else if ix_unique ix && violates ix (tb_rows t) then inl Integrity
          else inr (File (fl_tables f) (fl_indexes f ++ [(n, ix)]) (fl_views f))
      end
  | CreateView n v =>
      if is_named n (fl_tables f) || is_named n (fl_views f) then inr f
      else if is_named n (fl_indexes f) then inl Operational
      else inr (File (fl_tables f) (fl_indexes f) (fl_views f ++ [(n, v)]))
  end.

(** [executescript]: what ran before a failing statement stays. *)
Fixpoint executescript (ss : list stmt) (f : file) : (sql_error + ()) * file :=
  match ss with
  | [] => (inr (), f)
  | s :: ss' =>
      match run_stmt s f with
      | inl e => (inl e, f)
      | inr f' => executescript ss' f'
      end
  end.

(** [ALTER TABLE t ADD COLUMN c]. *)
Definition add_column (t : pystr) (c : column) (f : file) : sql_error + file :=
  match named t (fl_tables f) with
  | None => inl Operational
  | Some tb =>
      if has_column (cl_name c) tb then inl Operational
      else inr (File
        (put_named t (Table (tb_columns tb ++ [c])
           ((λ r, r ++ [(cl_name c, cl_default c)]) <$> tb_rows tb)) (fl_tables f))
        (fl_indexes f) (fl_views f))
  end.

(** ** The script *)

Definition text_column (n : pystr) : column := Column n true SNull.
Definition null_column (n : pystr) : column := Column n false SNull.

Definition TOOL_VERSION : column := Column $"tool_version" true (SText $"1.0.0").
Definition TIER : column := Column $"tier" true (SText $"compensable").
Definition REPLAY_COUNT : column := Column $"replay_count" true (SInt 0).
Definition LAST_REPLAYED_AT : column := null_column $"last_replayed_at".
Definition APPROVAL_ID : column := null_column $"approval_id".

Definition EFFECTS : list column :=
  [null_column $"id"; text_column $"org_id"; text_column $"session_id"; text_column $"tool_name";
   TOOL_VERSION; TIER; text_column $"step_index"; text_column $"signature"; text_column $"status";
   text_column $"args"; null_column $"result"; null_column $"error"; REPLAY_COUNT; LAST_REPLAYED_AT;
   APPROVAL_ID; text_column $"created_at"; text_column $"updated_at"].

Definition APPROVALS : list column :=
  [null_column $"id"; text_column $"org_id"; text_column $"session_id"; text_column $"effect_id";
   text_column $"tool_name"; text_column $"args"; text_column $"status"; text_column $"created_at";
   null_column $"resolved_at"].

Definition LIVE_SIGNATURE : sqlindex :=
  SqlIndex $"effects" [$"signature"]
    (Some ($"status", [$"executing"; $"awaiting_approval"; $"committed"])) true.
Definition EFFECTS_SESSION : sqlindex := SqlIndex $"effects" [$"session_id"; $"step_index"] None false.
Definition APPROVALS_STATUS : sqlindex := SqlIndex $"approvals" [$"status"; $"created_at"] None false.

Definition EFFECT_LOG : view :=
  View $"effects"
    [($"effect_id", XCol $"id"); ($"org_id", XCol $"org_id"); ($"session_id", XCol $"session_id");
     ($"tool_id", XConst SNull); ($"call_signature", XCol $"signature"); ($"tool_name", XCol $"tool_name");
     ($"tool_version", XCol $"tool_version"); ($"tier", XCol $"tier"); ($"step_index", XCol $"step_index");
     ($"args_snapshot", XCol $"args"); ($"result_snapshot", XCol $"result"); ($"state", XCol $"status");
     ($"compensation_args", XConst SNull); ($"executed_at", XCol $"created_at");
     ($"committed_at", XCol $"updated_at"); ($"compensated_at", XConst SNull);
     ($"replay_count", XCol $"replay_count"); ($"last_replayed_at", XCol $"last_replayed_at");
     ($"approval_request_id", XCol $"approval_id")].

Definition APPROVAL_REQUESTS : view :=
  View $"approvals"
    [($"approval_request_id", XCol $"id"); ($"org_id", XCol $"org_id"); ($"session_id", XCol $"session_id");
     ($"effect_id", XCol $"effect_id"); ($"tool_name", XCol $"tool_name");
     ($"irreversibility_reason", XConst (SText $"irreversible tool execution requires approval"));
     ($"risk_tags", XConst (SText $"[]")); ($"estimated_impact", XConst SNull);
     ($"proposed_args", XCol $"args"); ($"agent_context", XConst (SText $"{}")); ($"state", XCol $"status");
     ($"timeout_at", XCol $"created_at"); ($"auto_approve_on_timeout", XConst (SInt 0));
     ($"resolved_at", XCol $"resolved_at");
     ($"resolved_by", XCase $"status" $"approved" (XConst (SText $"user")));
     ($"approved_args", XCase $"status" $"approved" (XCol $"args")); ($"created_at", XCol $"created_at")].

Definition SCRIPT : list stmt :=
  [CreateTable $"effects" EFFECTS;
   CreateIndex $"effects_live_signature_idx" LIVE_SIGNATURE;
   CreateIndex $"effects_session_idx" EFFECTS_SESSION;
   CreateTable $"approvals" APPROVALS;
   CreateIndex $"approvals_status_idx" APPROVALS_STATUS;
   CreateView $"undolog_effect_log" EFFECT_LOG;
   CreateView $"undolog_approval_requests" APPROVAL_REQUESTS].

(** The columns that were added after the first version, in the order the
    migration looks at them. *)
Definition MIGRATIONS : list column := [TOOL_VERSION; TIER; REPLAY_COUNT; LAST_REPLAYED_AT; APPROVAL_ID].

(** [PRAGMA table_info(effects)]. *)
Definition table_info (n : pystr) (f : file) : list pystr :=
  match named n (fl_tables f) with Some t => cl_name <$> tb_columns t | None => [] end.

(** The [if columns and c not in columns] statements; [columns] was read
    before the first of them. *)
Fixpoint migrate (columns : list pystr) (cs : list column) (f : file) : (sql_error + ()) * file :=
  match cs with
  | [] => (inr (), f)
  | c :: cs' =>
      if match columns with [] => true | _ => existsb (str_eqb (cl_name c)) columns end
      then migrate columns cs' f
      else match add_column $"effects" c f with
           | inl e => (inl e, f)
           | inr f' => migrate columns cs' f'
           end
  end.

(** [_create_schema]. *)
Definition create_schema (f : file) : (sql_error + ()) * file :=
  match executescript SCRIPT f with
  | (inl e, f') => (inl e, f')
  | (inr _, f') => migrate (table_info $"effects" f') MIGRATIONS f'
  end.

(** ** Reading views *)

Fixpoint eval_expr (e : sqlexpr) (r : row) : option sqlval :=
  match e with
  | XCol c => cell c r
  | XConst v => Some v
  | XCase c t e' => if val_eqb_text (cell c r) t then eval_expr e' r else Some SNull
  end.

Fixpoint eval_columns (cs : list (pystr * sqlexpr)) (r : row) : option row :=
  match cs with
  | [] => Some []
  | (n, e) :: cs' => v ← eval_expr e r; vs ← eval_columns cs' r; Some ((n, v) :: vs)
  end.

(** [SELECT * FROM view]; [None] when the table or a column is missing. *)
Definition select_view (n : pystr) (f : file) : option (list row) :=
  v ← named n (fl_views f); t ← named (vw_table v) (fl_tables f);
  mapM (eval_columns (vw_columns v)) (tb_rows t).

(** ** Rows as records *)

Definition opt_text (s : option pystr) : sqlval := match s with Some s => SText s | None => SNull end.
Definition opt_json (v : option json) : sqlval := match v with Some v => SJson v | None => SNull end.

Definition row_of_effect (e : effect) : row :=
  [($"id", SText (e_id e)); ($"org_id", SText (e_org_id e)); ($"session_id", SText (e_session_id e));
   ($"tool_name", SText (e_tool_name e)); ($"tool_version", SText (e_tool_version e));
   ($"tier", SText (e_tier e)); ($"step_index", SInt (e_step_index e));
   ($"signature", SText (e_signature e)); ($"status", SText (effect_status_text (e_status e)));
   ($"args", SJson (e_args e)); ($"result", opt_json (e_result e)); ($"error", opt_text (e_error e));
   ($"replay_count", SInt (e_replay_count e)); ($"last_replayed_at", opt_text (e_last_replayed_at e));
   ($"approval_id", opt_text (e_approval_id e)); ($"created_at", SText (e_created_at e));
   ($"updated_at", SText (e_updated_at e))].

Definition row_of_approval (a : approval) : row :=
  [($"id", SText (a_id a)); ($"org_id", SText (a_org_id a)); ($"session_id", SText (a_session_id a));
   ($"effect_id", SText (a_effect_id a)); ($"tool_name", SText (a_tool_name a)); ($"args", SJson (a_args a));
   ($"status", SText (approval_status_text (a_status a))); ($"created_at", SText (a_created_at a));
   ($"resolved_at", opt_text (a_resolved_at a))].

Definition as_text (v : sqlval) : option pystr := match v with SText s => Some s | _ => None end.
Definition as_int (v : sqlval) : option Z := match v with SInt n => Some n | _ => None end.
Definition as_json (v : sqlval) : option json := match v with SJson v => Some v | _ => None end.
Definition as_opt {A} (g : sqlval → option A) (v : sqlval) : option (option A) :=
  match v with SNull => Some None | _ => Some <$> g v end.

Definition status_of_text (s : pystr) : option effect_status :=
  List.find (λ st, str_eqb (effect_status_text st) s)
    [Executing; AwaitingApproval; Committed; Failed; Rejected].
Definition approval_status_of_text (s : pystr) : option approval_status :=
  List.find (λ st, str_eqb (approval_status_text st) s) [Pending; Approved; Refused].

Definition get {A} (g : sqlval → option A) (n : pystr) (r : row) : option A := cell n r ≫= g.

(** [_effect_to_dict]. *)
Definition effect_of_row (r : row) : option effect :=
  id ← get as_text $"id" r; org ← get as_text $"org_id" r; sid ← get as_text $"session_id" r;
  tool ← get as_text $"tool_name" r; version ← get as_text $"tool_version" r; tier ← get as_text $"tier" r;
  step ← get as_int $"step_index" r; sig ← get as_text $"signature" r;
  st ← get as_text $"status" r; status ← status_of_text st;
  args ← get as_json $"args" r; result ← get (as_opt as_json) $"result" r;
  error ← get (as_opt as_text) $"error" r; count ← get as_int $"replay_count" r;
  last ← get (as_opt as_text) $"last_replayed_at" r; aid ← get (as_opt as_text) $"approval_id" r;
  created ← get as_text $"created_at" r; updated ← get as_text $"updated_at" r;
  Some (Effect id org sid tool version tier step sig status args result error count last aid created updated).

(** [_approval_to_dict]. *)
Definition approval_of_row (r : row) : option approval :=
  id ← get as_text $"id" r; org ← get as_text $"org_id" r; sid ← get as_text $"session_id" r;
  eid ← get as_text $"effect_id" r; tool ← get as_text $"tool_name" r; args ← get as_json $"args" r;
  st ← get as_text $"status" r; status ← approval_status_of_text st;
  created ← get as_text $"created_at" r; resolved ← get (as_opt as_text) $"resolved_at" r;
  Some (Approval id org sid eid tool args status created resolved).

(** The tables of a file. *)
Definition db_of_file (f : file) : option db :=
  te ← named $"effects" (fl_tables f); ta ← named $"approvals" (fl_tables f);
  es ← mapM effect_of_row (tb_rows te); aps ← mapM approval_of_row (tb_rows ta);
  Some (Db es aps).

(** The file a journal with these tables has. *)
Definition file_of_rows (es aps : list row) : file :=
  File [($"effects", Table EFFECTS es); ($"approvals", Table APPROVALS aps)]
    [($"effects_live_signature_idx", LIVE_SIGNATURE); ($"effects_session_idx", EFFECTS_SESSION);
     ($"approvals_status_idx", APPROVALS_STATUS)]
    [($"undolog_effect_log", EFFECT_LOG); ($"undolog_approval_requests", APPROVAL_REQUESTS)].
Definition file_of_db (d : db) : file :=
  file_of_rows (row_of_effect <$> effects d) (row_of_approval <$> approvals d).
