(* ===== verification/Broadcaster.v ===== *)
(** * Server-Sent Events ([_EventBroadcaster] and [_format_sse_frame] of [dev.py])

    Every subscriber owns a bounded queue. The hub keeps the queue of every
    subscription ever made, the set of the registered ones and whether it was
    closed; [None] in a queue is the shutdown mark. *)

From S2P Require Import Prelude Py Json.
Open Scope Z_scope.
Open Scope undolog_scope.

Definition SSE_QUEUE_SIZE : nat := 128.

Record hub := Hub {
  hub_queues : gmap nat (list (option json));
  hub_subs : gset nat;
  hub_closed : bool;
  hub_next : nat;
}.

Definition empty_hub : hub := Hub ∅ ∅ false 0.

(** [queue.put_nowait]: [queue.Full] drops the item. *)
Definition put_nowait (x : option json) (q : list (option json)) : list (option json) :=
  if (length q <? SSE_QUEUE_SIZE)%nat then q ++ [x] else q.

(** [subscribe]: a new queue, which receives the shutdown mark at once when the
    hub is closed and is registered otherwise. *)
Definition subscribe (h : hub) : nat * hub :=
  let i := hub_next h in
  if hub_closed h
  then (i, Hub (<[i := [None]]> (hub_queues h)) (hub_subs h) true (S i))
  else (i, Hub (<[i := []]> (hub_queues h)) ({[i]} ∪ hub_subs h) false (S i)).

(** [unsubscribe]. *)
Definition unsubscribe (i : nat) (h : hub) : hub :=
  Hub (hub_queues h) (hub_subs h ∖ {[i]}) (hub_closed h) (hub_next h).

(** [emit]: offer the envelope to every registered subscriber. *)
Definition emit (envelope : json) (h : hub) : hub :=
  Hub (map_imap (λ i q, Some (if decide (i ∈ hub_subs h) then put_nowait (Some envelope) q else q))
         (hub_queues h))
      (hub_subs h) (hub_closed h) (hub_next h).

(** [close]: refuse new subscribers, unregister everybody and put the shutdown
    mark in their queues. [queue.put] waits for room, so the call does not
    return while a queue stays full. *)
Definition close (h : hub) : option hub :=
  if decide (map_Forall (λ i q, i ∈ hub_subs h → (length q < SSE_QUEUE_SIZE)%nat) (hub_queues h))
  then Some (Hub (map_imap (λ i q, Some (if decide (i ∈ hub_subs h) then q ++ [None] else q))
                    (hub_queues h))
                 ∅ true (hub_next h))
  else None.

(** [subscription.get]: the oldest item, or [queue.Empty] after the heartbeat
    interval. *)
Definition sub_get (i : nat) (h : hub) : option (option json) * hub :=
  match hub_queues h !! i with
  | Some (x :: q) =>
      (Some x, Hub (<[i := q]> (hub_queues h)) (hub_subs h) (hub_closed h) (hub_next h))
  | _ => (None, h)
  end.

(** ** Frames *)

(** [STANDARD_EVENT_ALIASES]. *)
Definition STANDARD_EVENT_ALIASES : list (pystr * pystr) :=
  [($"effect_intercepted", $"effect_created");
   ($"approval_required", $"approval_requested");
   ($"approval_approved", $"approval_resolved");
   ($"approval_rejected", $"approval_resolved")].

(** [_format_sse_frame]; [time_ns] is the clock reading. The envelope is the
    dictionary [_emit] builds, whose [type] is a string. *)
Definition format_sse_frame (envelope : list (pystr * json)) (alias : bool) (time_ns : Z)
    : option pystr :=
  match dict_get $"type" envelope with
  | Some (JStr evt_type) =>
      let '(evt_type, envelope) :=
        match (if alias then dict_get evt_type STANDARD_EVENT_ALIASES else None) with
        | Some a => (a, dict_set $"type" (JStr a) envelope)
        | None => (evt_type, envelope)
        end in
      Some ($"event: " ++ evt_type ++ [10] ++ $"id: " ++ str_of_int time_ns ++ [10]
            ++ $"data: " ++ dumps (JObj envelope) ++ [10; 10])
  | _ => None
  end.

(** What one round of the loop of [_handle_events] writes to the client, or how
    the loop ends. *)
Inductive stream_out :=
| StreamPing
| StreamFrame (frame : pystr)
| StreamBadEnvelope
| StreamEnd.

(** ** The bound on the queues *)

(** Registered subscriptions have a queue, no queue outgrows its bound, and
    identifiers of future subscriptions are unused. *)
Record hub_ok (h : hub) : Prop := {
  subs_known : ∀ i, i ∈ hub_subs h → is_Some (hub_queues h !! i);
  queues_bounded : ∀ i q, hub_queues h !! i = Some q → (length q ≤ SSE_QUEUE_SIZE)%nat;
  next_unused : ∀ i, is_Some (hub_queues h !! i) → (i < hub_next h)%nat;
  closed_empty : hub_closed h = true → hub_subs h = ∅;
}.

Lemma put_nowait_bounded x q :
  (length q ≤ SSE_QUEUE_SIZE)%nat → (length (put_nowait x q) ≤ SSE_QUEUE_SIZE)%nat.
Proof.
  unfold put_nowait. intros. case_match eqn:E; [|done].
  apply Nat.ltb_lt in E. rewrite length_app. simpl. lia.
Qed.

Lemma hub_ok_empty : hub_ok empty_hub.
Proof. split; simpl; intros *; rewrite ?lookup_empty; naive_solver set_solver. Qed.

Lemma subscribe_ok h : hub_ok h → hub_ok (subscribe h).2.
Proof.
  intros [H1 H2 H3 H4]. unfold subscribe. destruct (hub_closed h) eqn:Ec; split; simpl.
  - rewrite H4 by done. set_solver.
  - intros i q. rewrite lookup_insert. case_decide; [intros [= <-]; simpl; unfold SSE_QUEUE_SIZE; lia|].
    apply H2.
  - intros i. rewrite lookup_insert. case_decide; [lia|]. intros ?%H3. lia.
  - intros _. by apply H4.
  - intros i. rewrite elem_of_union, elem_of_singleton, lookup_insert. case_decide; [done|].
    intros [->|?]; [done|]. by apply H1.
  - intros i q. rewrite lookup_insert. case_decide; [intros [= <-]; simpl; lia|]. apply H2.
  - intros i. rewrite lookup_insert. case_decide; [lia|]. intros ?%H3. lia.
  - done.
Qed.

Lemma unsubscribe_ok i h : hub_ok h → hub_ok (unsubscribe i h).
Proof.
  intros [H1 H2 H3 H4]. split; simpl; [set_solver|done|done|].
  intros Hc. rewrite H4 by done. set_solver.
Qed.

Lemma emit_lookup env h i :
  hub_queues (emit env h) !! i =
    (λ q, if decide (i ∈ hub_subs h) then put_nowait (Some env) q else q) <$> hub_queues h !! i.
Proof. simpl. rewrite map_lookup_imap. by destruct (hub_queues h !! i). Qed.

Lemma emit_ok env h : hub_ok h → hub_ok (emit env h).
Proof.
  intros [H1 H2 H3 H4]. split.
  - intros i Hi. rewrite emit_lookup, fmap_is_Some. by apply H1.
  - intros i q'. rewrite emit_lookup. destruct (hub_queues h !! i) as [q|] eqn:E; [|done].
    intros [= <-]. specialize (H2 _ _ E). case_decide; auto using put_nowait_bounded.
  - intros i. rewrite emit_lookup, fmap_is_Some. apply H3.
  - apply H4.
Qed.

Lemma sub_get_ok i h : hub_ok h → hub_ok (sub_get i h).2.
Proof.
  intros Hok. unfold sub_get. destruct (hub_queues h !! i) as [[|x q]|] eqn:E; [done| |done].
  destruct Hok as [H1 H2 H3 H4]. split; simpl; [|..|done].
  - intros j Hj. rewrite lookup_insert. case_decide; [done|]. by apply H1.
  - intros j q'. rewrite lookup_insert. case_decide; [|apply H2].
    intros [= <-]. apply H2 in E. simpl in E. lia.
  - intros j. rewrite lookup_insert. case_decide; [subst; intros _; apply H3; by rewrite E|].
    apply H3.
Qed.

Lemma close_ok h h' : hub_ok h → close h = Some h' → hub_ok h'.
Proof.
  unfold close. intros [H1 H2 H3 H4]. case_decide as Hroom; [|done]. intros [= <-].
  assert (∀ i, map_imap (λ i q, Some (if decide (i ∈ hub_subs h) then q ++ [None] else q))
      (hub_queues h) !! i = (λ q, if decide (i ∈ hub_subs h) then q ++ [None] else q)
      <$> hub_queues h !! i) as Hl.
  { intros i. rewrite map_lookup_imap. by destruct (hub_queues h !! i). }
  split; simpl; [set_solver| | |done].
  - intros i q'. rewrite Hl. destruct (hub_queues h !! i) as [q|] eqn:E; [|done].
    intros [= <-]. case_decide as Hi; [|eauto]. specialize (Hroom _ _ E Hi).
    rewrite length_app. simpl. lia.
  - intros i. rewrite Hl, fmap_is_Some. apply H3.
Qed.

#[export] Hint Resolve hub_ok_empty subscribe_ok unsubscribe_ok emit_ok sub_get_ok close_ok : undolog.
