(* ===== verification/Lifecycle.v ===== *)
(** * The life of a development server ([DevServer] and [main] of [dev.py])

    Where the journal's database lives ([DevJournal.__init__], [_connect] and
    [close]), how [start], [serve_forever] and [stop] interact with the thread
    that serves, and the exit codes of the command. Of [socketserver] the model
    has what [serve_forever] and [shutdown] do to their two flags. *)

From S2P Require Import Prelude Py Json Journal Schema Broadcaster.
Open Scope Z_scope.
Open Scope undolog_scope.

(** ** Where the database lives *)

(** A database name: whether it is a shared in-memory database, what it holds,
    whether the journal's anchor connection is open, and how many connections of
    requests are. A file, and a memory database somebody is connected to, keep
    what they hold. *)
Record store := Store {
  so_in_memory : bool;
  so_contents : option file;
  so_anchor : bool;
  so_connections : nat;
}.

(** Opening a connection creates a database that does not exist. *)
Definition connect (s : store) : store :=
  Store (so_in_memory s) (Some (default empty_file (so_contents s))) (so_anchor s) (S (so_connections s)).

(** A memory database goes with its last connection. *)
Definition forget_unused (s : store) : store :=
  if so_in_memory s && negb (so_anchor s) && (so_connections s =? 0)%nat
  then Store (so_in_memory s) None false 0 else s.

Definition disconnect (s : store) : store :=
  forget_unused (Store (so_in_memory s) (so_contents s) (so_anchor s) (pred (so_connections s))).

(** [with closing(self._connect()) as conn: ...]: one operation of the journal. *)
Definition journal_op {A} (op : file → A * file) (s : store) : A * store :=
  let s := connect s in
  let '(a, f) := op (default empty_file (so_contents s)) in
  (a, disconnect (Store (so_in_memory s) (Some f) (so_anchor s) (so_connections s))).

(** The name before the journal is made: a memory database has a fresh name. *)
Definition unopened (in_memory : bool) (contents : option file) : store :=
  Store in_memory (if in_memory then None else contents) false 0.

(** [DevJournal.__init__]: the anchor of a memory database is opened first. *)
Definition open_journal (s : store) : (sql_error + ()) * store :=
  journal_op create_schema
    (if so_in_memory s then Store true (Some (default empty_file (so_contents s))) true (so_connections s)
     else s).

(** [DevJournal.close]. *)
Definition close_journal (s : store) : store :=
  if so_anchor s then forget_unused (Store (so_in_memory s) (so_contents s) false (so_connections s)) else s.

(** ** Threads *)

(** Where a thread that runs [serve_forever] is: before the loop, in it, and in
    the two [finally] blocks. *)
Inductive serve_pc := SEnter | SLoop | SLeave | SSignal | SReset | SDone.

#[export] Instance serve_pc_eq_dec : EqDecision serve_pc.
Proof. solve_decision. Defined.

(** Where the thread that calls [start], [serve_forever] and [stop] is:
    elsewhere, serving itself, or at a statement of [stop]. *)
Inductive control_pc :=
| CElsewhere
| CServe (pc : serve_pc)
| CBroadcaster | CTest | CRequest | CWait | CServing | CServerClose | CJournal | CJoin.

(** The server: [_serving], the two flags of [socketserver], whether the socket
    is open, the broadcaster and the database, and the threads. *)
Record lifecycle := Lifecycle {
  lc_serving : bool;
  lc_shutdown_request : bool;
  lc_is_shut_down : bool;
  lc_socket : bool;
  lc_hub : hub;
  lc_store : store;
  lc_threads : list serve_pc;
  lc_thread : option nat;
  lc_control : control_pc;
}.

(** [DevServer.__init__], on a journal that was opened. *)
Definition DevServer (s : store) : lifecycle :=
  Lifecycle false false false true empty_hub s [] None CElsewhere.

Definition set_flags (serving request down : bool) (l : lifecycle) : lifecycle :=
  Lifecycle serving request down (lc_socket l) (lc_hub l) (lc_store l) (lc_threads l) (lc_thread l) (lc_control l).
Definition set_control (c : control_pc) (l : lifecycle) : lifecycle :=
  Lifecycle (lc_serving l) (lc_shutdown_request l) (lc_is_shut_down l) (lc_socket l) (lc_hub l) (lc_store l)
    (lc_threads l) (lc_thread l) c.
Definition set_threads (ts : list serve_pc) (t : option nat) (l : lifecycle) : lifecycle :=
  Lifecycle (lc_serving l) (lc_shutdown_request l) (lc_is_shut_down l) (lc_socket l) (lc_hub l) (lc_store l)
    ts t (lc_control l).

(** One statement of a thread in [serve_forever] and the [finally] of its
    caller; in the loop it polls until a shutdown is requested, and may leave by
    an exception. *)
Definition serving_next (pc : serve_pc) (l : lifecycle) : list (serve_pc * lifecycle) :=
  match pc with
  | SEnter => [(SLoop, set_flags (lc_serving l) (lc_shutdown_request l) false l)]
  | SLoop => (SLeave, l) :: if lc_shutdown_request l then [] else [(SLoop, l)]
  | SLeave => [(SSignal, set_flags (lc_serving l) false (lc_is_shut_down l) l)]
  | SSignal => [(SReset, set_flags (lc_serving l) (lc_shutdown_request l) true l)]
  | SReset => [(SDone, set_flags false (lc_shutdown_request l) (lc_is_shut_down l) l)]
  | SDone => []
  end.

(** One statement of [stop]; waiting for the event blocks, and closing the
    broadcaster blocks while a subscriber's queue is full. *)
Definition stop_next (l : lifecycle) : list lifecycle :=
  match lc_control l with
  | CElsewhere | CServe _ => []
  | CBroadcaster =>
      match Broadcaster.close (lc_hub l) with
      | None => []
      | Some h =>
          [Lifecycle (lc_serving l) (lc_shutdown_request l) (lc_is_shut_down l) (lc_socket l) h (lc_store l)
             (lc_threads l) (lc_thread l) CTest]
      end
  | CTest => [set_control (if lc_serving l then CRequest else CServerClose) l]
  | CRequest => [set_control CWait (set_flags (lc_serving l) true (lc_is_shut_down l) l)]
  | CWait => if lc_is_shut_down l then [set_control CServing l] else []
  | CServing => [set_control CServerClose (set_flags false (lc_shutdown_request l) (lc_is_shut_down l) l)]
  | CServerClose =>
      [Lifecycle (lc_serving l) (lc_shutdown_request l) (lc_is_shut_down l) false (lc_hub l) (lc_store l)
         (lc_threads l) (lc_thread l) CJournal]
  | CJournal =>
      [Lifecycle (lc_serving l) (lc_shutdown_request l) (lc_is_shut_down l) (lc_socket l) (lc_hub l)
         (close_journal (lc_store l)) (lc_threads l) (lc_thread l) CJoin]
  | CJoin => [set_control CElsewhere (set_threads (lc_threads l) None l)]
  end.

(** [start]. *)
Definition start (l : lifecycle) : lifecycle :=
  set_threads (lc_threads l ++ [SEnter]) (Some (length (lc_threads l)))
    (set_flags true (lc_shutdown_request l) (lc_is_shut_down l) l).

(** [serve_forever], up to its loop. *)
Definition serve_forever (l : lifecycle) : lifecycle :=
  set_control (CServe SEnter) (set_flags true (lc_shutdown_request l) (lc_is_shut_down l) l).

(** The steps of the serving threads and of a [stop] that was called. *)
Inductive runs_on : lifecycle → lifecycle → Prop :=
| run_thread l i pc pc' l' :
    lc_threads l !! i = Some pc → (pc', l') ∈ serving_next pc l →
    runs_on l (set_threads (<[i := pc']> (lc_threads l)) (lc_thread l) l')
| run_self l pc pc' l' :
    lc_control l = CServe pc → (pc', l') ∈ serving_next pc l →
    runs_on l (set_control (match pc' with SDone => CElsewhere | _ => CServe pc' end) l')
| run_stop l l' : l' ∈ stop_next l → runs_on l l'.

(** What the owner of the server does: it starts it once, in the background or
    on its own thread, and stops it; requests use the journal and the
    broadcaster while it runs. *)
Inductive life : lifecycle → lifecycle → Prop :=
| life_start l :
    lc_control l = CElsewhere → lc_threads l = [] → lc_is_shut_down l = false → life l (start l)
| life_serve l :
    lc_control l = CElsewhere → lc_threads l = [] → lc_is_shut_down l = false → life l (serve_forever l)
| life_stop l : lc_control l = CElsewhere → life l (set_control CBroadcaster l)
| life_request l A (op : file → A * file) h :
    life l (Lifecycle (lc_serving l) (lc_shutdown_request l) (lc_is_shut_down l) (lc_socket l) h
              (journal_op op (lc_store l)).2 (lc_threads l) (lc_thread l) (lc_control l))
| life_on l l' : runs_on l l' → life l l'.

(** ** The command *)

(** What constructing the server can raise. *)
Inductive start_error := SqliteError | OSError | OtherError.

(** How [main] ends: an exit code, or an exception that propagates. *)
Inductive exit := ExitCode (n : Z) | ParserExit | Propagates.

(** The arguments, with the subcommand that is implied. *)
Definition raw_args (argv : list pystr) : list pystr :=
  match argv with
  | a :: _ => if existsb (str_eqb a) [$"dev"; $"-h"; $"--help"] then argv else $"dev" :: argv
  | [] => [$"dev"]
  end.

Section main.
Context {Options Server : Type}.
(** [argparse]: the options, or the exit it takes; making the server; whether
    [serve_forever] returned, was interrupted, or raised something else; and
    the server after [stop]. *)
Variable parse_args : list pystr → option Options.
Variable make_server : Options → start_error + Server.
Inductive served_until := Returned | Interrupted | Raised.
Variable run_server : Server → served_until * Server.
Variable stop : Server → Server.

(** [main], with the server as it is left. *)
Definition main (argv : list pystr) : exit * option Server :=
  match parse_args (raw_args argv) with
  | None => (ParserExit, None)
  | Some args =>
      match make_server args with
      | inl SqliteError | inl OSError => (ExitCode 1, None)
      | inl OtherError => (Propagates, None)
      | inr server =>
          let '(r, server) := run_server server in
          (match r with Raised => Propagates | _ => ExitCode 0 end, Some (stop server))
      end
  end.
End main.
