(* ===== verification/Framing.v ===== *)
(** * Request framing (the body readers of [_DevHandler] in [dev.py])

    A handler object serves every request of one connection. [conn] is what it
    keeps between and during requests: the bytes the client sends until it
    closes the connection ([rfile]), the headers of the request being served,
    and the two class attributes the handler assigns, [_body_read] and
    [_undolog_request_id]. A read waits for the bytes it asked for, so it
    returns fewer only when the stream ends. *)

From S2P Require Import Prelude Py Json.
Open Scope Z_scope.
Open Scope undolog_scope.

Record conn := Conn {
  rfile : bytes;
  headers : list (pystr * pystr);
  body_read : bool;
  close_connection : bool;
  request_id : option pystr;
}.

Definition MAX_BODY_BYTES : Z := 1024 * 1024.
Definition MAX_CHUNK_LINE_BYTES : Z := 8 * 1024.
Definition CONSUME_PIECE : Z := 64 * 1024.

Definition set_rfile (r : bytes) (c : conn) : conn :=
  Conn r (headers c) (body_read c) (close_connection c) (request_id c).
Definition set_body_read (b : bool) (c : conn) : conn :=
  Conn (rfile c) (headers c) b (close_connection c) (request_id c).
Definition set_close (b : bool) (c : conn) : conn :=
  Conn (rfile c) (headers c) (body_read c) b (request_id c).
Definition set_request_id (r : pystr) (c : conn) : conn :=
  Conn (rfile c) (headers c) (body_read c) (close_connection c) (Some r).

(** [self.headers.get(name)]: the first header of that name, case ignored. *)
Fixpoint header_get (name : pystr) (hs : list (pystr * pystr)) : option pystr :=
  match hs with
  | [] => None
  | (k, v) :: hs' => if str_eqb (lower k) (lower name) then Some v else header_get name hs'
  end.

Definition truncated_body : pyexc :=
  ERequest 400 $"invalid_request" $"truncated request body".
Definition invalid_chunk_size : pyexc :=
  ERequest 400 $"invalid_request" $"invalid chunk size".
Definition invalid_content_length : pyexc :=
  ERequest 400 $"invalid_request" $"invalid Content-Length header".
Definition body_too_large : pyexc :=
  ERequest 413 $"body_too_large" $"request body exceeds the configured limit".
Definition invalid_json_body : pyexc :=
  ERequest 400 $"invalid_request" $"invalid JSON body".
Definition body_not_object : pyexc :=
  ERequest 400 $"invalid_request" $"request body must be a JSON object".

(** ** Reads *)

(** [rfile.read(n)] of a size that is not negative. *)
Definition read_some (n : Z) (r : bytes) : bytes * bytes :=
  (take (Z.to_nat n) r, drop (Z.to_nat n) r).

(** [rfile.read(n)]: [-1] reads to the end of the stream, any other negative
    size raises, as [ValueError] when it fits a machine word. *)
Definition read (n : Z) (r : bytes) : res bytes * bytes :=
  if n <? - 2 ^ 63 then (inl EOverflow, r)
  else if n <? -1 then (inl EReadLength, r)
  else if n =? -1 then (inr r, [])
  else let '(data, r') := read_some n r in (inr data, r').

(** [rfile.readline(limit)]: through the first newline, at most [limit] bytes. *)
Fixpoint readline_go (limit : nat) (r : bytes) : bytes * bytes :=
  match limit, r with
  | O, _ => ([], r)
  | _, [] => ([], [])
  | S n, b :: r' =>
      if b =? 10 then ([b], r')
      else let '(l, r'') := readline_go n r' in (b :: l, r'')
  end.
Definition readline (r : bytes) : bytes * bytes :=
  readline_go (Z.to_nat MAX_CHUNK_LINE_BYTES) r.

(** [_consume]: discard bytes in pieces; the fuel bounds the pieces, each of
    which takes at least one byte. *)
Fixpoint consume_go (fuel : nat) (remaining : Z) (r : bytes) : res () * bytes :=
  if remaining <=? 0 then (inr (), r)
  else match fuel with
       | O => (inl truncated_body, r)
       | S f =>
           let '(chunk, r') := read_some (Z.min remaining CONSUME_PIECE) r in
           match chunk with
           | [] => (inl truncated_body, r')
           | _ => consume_go f (remaining - Z.of_nat (length chunk)) r'
           end
       end.
Definition consume (length_ : Z) (r : bytes) : res () * bytes :=
  consume_go (S (length r)) length_ r.

(** Trailer fields, up to an empty line or the end of the stream. *)
Fixpoint skip_trailers (fuel : nat) (r : bytes) : bytes :=
  match fuel with
  | O => r
  | S f =>
      let '(line, r') := readline r in
      if (length line =? 0)%nat || str_eqb line [13; 10] || str_eqb line [10]
      then r' else skip_trailers f r'
  end.

(** The loop of [_read_chunked]. *)
Fixpoint read_chunked_go (fuel : nat) (parts : bytes) (total : Z) (overflow : bool) (r : bytes)
    : res (bytes * bool) * bytes :=
  match fuel with
  | O => (inl truncated_body, r)
  | S f =>
      let '(size_line, r) := readline r in
      match size_line with
      | [] => (inl truncated_body, r)
      | _ =>
          match py_int_bytes 16 (strip_by is_space (cut_at 59 size_line).1) with
          | None => (inl invalid_chunk_size, r)
          | Some size =>
              if size =? 0 then (inr (parts, overflow), skip_trailers (S (length r)) r)
              else if overflow || (MAX_BODY_BYTES <? total + size) then
                match consume size r with
                | (inl e, r) => (inl e, r)
                | (inr _, r) =>
                    match consume 2 r with
                    | (inl e, r) => (inl e, r)
                    | (inr _, r) => read_chunked_go f parts total true r
                    end
                end
              else
                match read size r with
                | (inl e, r) => (inl e, r)
                | (inr data, r) =>
                    if Z.of_nat (length data) <? size then (inl truncated_body, r)
                    else match consume 2 r with
                         | (inl e, r) => (inl e, r)
                         | (inr _, r) => read_chunked_go f (parts ++ data) (total + size) overflow r
                         end
                end
          end
      end
  end.

(** [_read_chunked]; every round reads at least one byte of the stream. *)
Definition read_chunked (r : bytes) : res (bytes * bool) * bytes :=
  read_chunked_go (S (length r)) [] 0 false r.

Section body.
Variable float_of_text : pystr → pyfloat.

Definition content_length_text (c : conn) : pystr :=
  default $"0" (header_get $"Content-Length" (headers c)).

Definition is_chunked (c : conn) : bool :=
  match header_get $"Transfer-Encoding" (headers c) with Some _ => true | None => false end.

(** The bytes of the body, and whether it passed the ceiling. *)
Definition read_raw (c : conn) : res (bytes * bool) * conn :=
  if is_chunked c then
    match read_chunked (rfile c) with
    | (inl e, r) => (inl e, set_rfile r c)
    | (inr p, r) => (inr p, set_body_read true (set_rfile r c))
    end
  else
    match py_int 10 (content_length_text c) with
    | None => (inl invalid_content_length, c)
    | Some n =>
        if n =? 0 then (inr ([], false), set_body_read true c)
        else if n <=? MAX_BODY_BYTES then
          match read n (rfile c) with
          | (inl e, r) => (inl e, set_rfile r c)
          | (inr raw, r) => (inr (raw, false), set_body_read true (set_rfile r c))
          end
        else (inr ([], true), c)
    end.

(** What the bytes of a body decode to. *)
Definition decode_body (raw : bytes) : res (list (pystr * json)) :=
  match raw with
  | [] => inr []
  | _ =>
      match loads_bytes float_of_text raw with
      | inl EJsonDecode => inl invalid_json_body
      | inl e => inl e
      | inr (JObj d) => inr d
      | inr _ => inl body_not_object
      end
  end.

(** [_read_body]. *)
Definition read_body (c : conn) : res (list (pystr * json)) * conn :=
  match read_raw c with
  | (inl e, c') => (inl e, c')
  | (inr (raw, overflow), c') =>
      if overflow then (inl body_too_large, c') else (decode_body raw, c')
  end.
End body.

(** The loop of [_discard_unread_body]: it stops at the end of the stream. *)
Fixpoint drain_go (fuel : nat) (remaining : Z) (r : bytes) : bytes :=
  if remaining <=? 0 then r
  else match fuel with
       | O => r
       | S f =>
           let '(chunk, r') := read_some (Z.min remaining CONSUME_PIECE) r in
           match chunk with
           | [] => r'
           | _ => drain_go f (remaining - Z.of_nat (length chunk)) r'
           end
       end.

(** [_discard_unread_body]. *)
Definition discard_unread_body (c : conn) : conn :=
  if body_read c then c
  else if is_chunked c then c
  else match py_int 10 (content_length_text c) with
       | None => c
       | Some n =>
           if n =? 0 then set_body_read true c
           else set_body_read true (set_rfile (drain_go (S (length (rfile c))) n (rfile c)) c)
       end.

(** [_body_is_unread]. *)
Definition body_is_unread (c : conn) : bool :=
  if body_read c then false
  else if is_chunked c then true
  else match py_int 10 (content_length_text c) with
       | None => true
       | Some n => 0 <? n
       end.

(** The connection effects of [_send_json]: drain, then close the connection
    when unread bytes remain; the flag is the [Connection: close] header. *)
Definition finish_response (c : conn) : bool * conn :=
  let c := discard_unread_body c in
  if body_is_unread c then (true, set_close true c) else (false, c).
