(* ===== verification/FramingFacts.v ===== *)
(** * What the body readers guarantee

    Closed forms of the reading loops, the round trip of the chunked transfer
    coding, the bound on what is kept in memory, and the alignment of the
    stream with the end of the request body. *)

From S2P Require Import Prelude Py PyFacts Json Framing.
Open Scope Z_scope.
Open Scope undolog_scope.

(** ** Reading loops *)

Lemma read_nonneg n r : 0 ≤ n → read n r = (inr (take (Z.to_nat n) r), drop (Z.to_nat n) r).
Proof.
  intros Hn. unfold read.
  rewrite (proj2 (Z.ltb_ge n (- 2 ^ 63))), (proj2 (Z.ltb_ge n (-1))), (proj2 (Z.eqb_neq n (-1))) by lia.
  done.
Qed.

Lemma read_exact data rest :
  read (Z.of_nat (length data)) (data ++ rest) = (inr data, rest).
Proof. rewrite read_nonneg, Nat2Z.id by lia. by rewrite take_app_length, drop_app_length. Qed.

(** A negative size raises or takes the whole stream. *)
Lemma read_negative n r data r' : n < 0 → read n r = (inr data, r') → n = -1 ∧ data = r ∧ r' = [].
Proof.
  intros Hn. unfold read. destruct (Z.ltb_spec n (- 2 ^ 63)); [done|].
  destruct (Z.ltb_spec n (-1)); [done|]. destruct (Z.eqb_spec n (-1)); [|lia]. by intros [= <- <-].
Qed.

Lemma consume_go_spec fuel n r :
  0 ≤ n → (length r < fuel)%nat →
  consume_go fuel n r =
    if n <=? Z.of_nat (length r) then (inr (), drop (Z.to_nat n) r) else (inl truncated_body, []).
Proof.
  revert n r. induction fuel as [|f IH]; intros n r Hn Hf; [lia|]. simpl.
  destruct (Z.leb_spec n 0) as [H0|H0].
  - assert (n = 0) as -> by lia. rewrite (proj2 (Z.leb_le _ _)) by lia. done.
  - unfold read_some. assert (0 < Z.min n CONSUME_PIECE ≤ n) as Hm by (unfold CONSUME_PIECE; lia).
    set (m := Z.to_nat (Z.min n CONSUME_PIECE)).
    destruct r as [|b r'].
    + rewrite take_nil, drop_nil. simpl. by rewrite (proj2 (Z.leb_gt _ _)) by lia.
    + destruct (take m (b :: r')) as [|x t] eqn:Et.
      { exfalso. apply (f_equal length) in Et. rewrite length_take in Et. simpl in Et. subst m. lia. }
      rewrite <-Et. rewrite IH; rewrite ?length_take, ?length_drop; simpl length in *;
        [|subst m; lia|subst m; lia].
      assert (Z.of_nat (Nat.min m (S (length r'))) = Z.min (Z.of_nat m) (Z.of_nat (S (length r'))))
        as -> by lia.
      destruct (Z.leb_spec n (Z.of_nat (S (length r')))).
      * rewrite (proj2 (Z.leb_le _ _)) by (subst m; lia). f_equal. rewrite drop_drop.
        f_equal. subst m. lia.
      * rewrite (proj2 (Z.leb_gt _ _)) by (subst m; lia). done.
Qed.

Lemma consume_spec n r :
  0 ≤ n →
  consume n r =
    if n <=? Z.of_nat (length r) then (inr (), drop (Z.to_nat n) r) else (inl truncated_body, []).
Proof. intros Hn. apply consume_go_spec; lia. Qed.

Lemma consume_exact data rest :
  consume (Z.of_nat (length data)) (data ++ rest) = (inr (), rest).
Proof.
  rewrite consume_spec by lia. rewrite length_app, (proj2 (Z.leb_le _ _)) by lia.
  by rewrite Nat2Z.id, drop_app_length.
Qed.

(** Draining stops at the end of the stream instead of failing. *)
Lemma drain_go_spec fuel n r :
  0 ≤ n → (length r < fuel)%nat → drain_go fuel n r = drop (Z.to_nat n) r.
Proof.
  revert n r. induction fuel as [|f IH]; intros n r Hn Hf; [lia|]. simpl.
  destruct (Z.leb_spec n 0) as [H0|H0].
  - by assert (n = 0) as -> by lia.
  - unfold read_some. assert (0 < Z.min n CONSUME_PIECE ≤ n) as Hm by (unfold CONSUME_PIECE; lia).
    set (m := Z.to_nat (Z.min n CONSUME_PIECE)).
    destruct r as [|b r']; [by rewrite take_nil, !drop_nil|].
    destruct (take m (b :: r')) as [|x t] eqn:Et.
    { exfalso. apply (f_equal length) in Et. rewrite length_take in Et. simpl in Et. subst m. lia. }
    rewrite <-Et. rewrite length_take.
    assert (Z.of_nat (Nat.min m (length (b :: r'))) ≤ n) by (subst m; lia).
    rewrite IH; [|subst m; lia|rewrite length_drop; simpl in *; subst m; lia].
    rewrite drop_drop. destruct (Nat.le_gt_cases m (length (b :: r'))).
    + f_equal. subst m. lia.
    + rewrite !drop_ge; [done|subst m; lia..].
Qed.

(** ** Lines *)

Lemma readline_go_line fuel line rest :
  10 ∉ line → (length line < fuel)%nat →
  readline_go fuel (line ++ 10 :: rest) = (line ++ [10], rest).
Proof.
  revert fuel. induction line as [|b line IH]; intros fuel Hn Hf; destruct fuel as [|f];
    simpl in *; try lia; [done|].
  apply not_elem_of_cons in Hn as [? Hn]. rewrite (proj2 (Z.eqb_neq b 10)) by congruence.
  rewrite IH by (done || lia). done.
Qed.

Lemma readline_line line rest :
  10 ∉ line → Z.of_nat (length line) < MAX_CHUNK_LINE_BYTES →
  readline (line ++ 10 :: rest) = (line ++ [10], rest).
Proof. intros. unfold readline. apply readline_go_line; [done|]. lia. Qed.

(** ** The chunked transfer coding *)

Definition crlf : bytes := [13; 10].

(** A sender's framing of a body: the chunks, the last chunk and no trailer. *)
Definition encode_chunk (data : bytes) : bytes :=
  to_digits 16 (Z.of_nat (length data)) ++ crlf ++ data ++ crlf.
Definition encode_chunks (chunks : list bytes) : bytes :=
  (chunks ≫= encode_chunk) ++ $"0" ++ crlf ++ crlf.

(** Chunks a sender can frame: not empty, and of a size that fits the size line. *)
Definition chunk_ok (data : bytes) : Prop := data ≠ [] ∧ Z.of_nat (length data) < 2 ^ 64.

Lemma hex_no_special n x :
  0 ≤ n → x ∈ to_digits 16 n → x ≠ 10 ∧ x ≠ 13 ∧ x ≠ 59 ∧ is_space x = false.
Proof.
  intros Hn Hx. apply to_digits_chars in Hx; [|lia..].
  split_and!; try lia. unfold is_space.
  apply orb_false_iff. rewrite Z.eqb_neq, andb_false_iff, !Z.leb_gt. lia.
Qed.

(** A size line parses to its size. *)
Lemma size_line_parses n :
  0 ≤ n → py_int_bytes 16 (strip_by is_space (cut_at 59 (to_digits 16 n ++ crlf)).1) = Some n.
Proof.
  intros Hn. rewrite cut_at_none; simpl.
  2:{ intros [Hx|Hx]%elem_of_app; [by apply hex_no_special in Hx as (_ & _ & ? & _)|].
      unfold crlf in Hx. set_solver by lia. }
  etrans; [|apply (py_int_bytes_hex n Hn)]. f_equal. unfold strip_by.
  assert (∀ x, x ∈ to_digits 16 n → is_space x = false) as Hsp.
  { intros x Hx. by apply hex_no_special in Hx as (_ & _ & _ & ?). }
  pose proof (to_digits_ne 16 n ltac:(lia) Hn) as Hne.
  assert (lstrip_by is_space (to_digits 16 n ++ crlf) = to_digits 16 n ++ crlf) as ->.
  { destruct (to_digits 16 n) as [|x s]; [done|]. simpl. by rewrite Hsp by left. }
  rewrite reverse_app. change (reverse crlf) with [10; 13]. simpl.
  rewrite lstrip_by_none; [apply reverse_involutive|].
  intros x Hx. apply Hsp. by rewrite elem_of_reverse in Hx.
Qed.

Lemma readline_size n rest :
  0 ≤ n < 2 ^ 64 → readline (to_digits 16 n ++ crlf ++ rest) = (to_digits 16 n ++ crlf, rest).
Proof.
  intros Hn. replace (to_digits 16 n ++ crlf ++ rest)
    with ((to_digits 16 n ++ [13]) ++ 10 :: rest) by (by rewrite <-app_assoc).
  rewrite readline_line; [by rewrite <-app_assoc|..].
  - intros [Hx|Hx]%elem_of_app; [apply hex_no_special in Hx as (? & _); lia|].
    apply list_elem_of_singleton in Hx. lia.
  - pose proof (length_to_digits 16 n 64 Hn). rewrite length_app. simpl.
    unfold MAX_CHUNK_LINE_BYTES. lia.
Qed.

Lemma size_line_nonempty n : 0 ≤ n → ∃ x s, to_digits 16 n ++ crlf = x :: s.
Proof.
  intros Hn. pose proof (to_digits_ne 16 n ltac:(lia) Hn). destruct (to_digits 16 n); [done|].
  simpl. eauto.
Qed.

(** The last chunk ends the body where the next request starts. *)
Lemma read_last_chunk fuel parts total overflow rest :
  read_chunked_go (S fuel) parts total overflow ($"0" ++ crlf ++ crlf ++ rest) =
    (inr (parts, overflow), rest).
Proof.
  change ($"0" ++ crlf ++ crlf ++ rest) with (to_digits 16 0 ++ crlf ++ (crlf ++ rest)).
  cbn [read_chunked_go]. rewrite readline_size by lia.
  change (to_digits 16 0 ++ crlf) with [48; 13; 10] at 1.
  rewrite size_line_parses by lia. simpl. unfold readline. simpl. done.
Qed.

(** One chunk: kept while the body fits the ceiling, discarded afterwards. *)
Lemma read_one_chunk fuel parts total overflow data rest :
  chunk_ok data →
  read_chunked_go (S fuel) parts total overflow (encode_chunk data ++ rest) =
    if overflow || (MAX_BODY_BYTES <? total + Z.of_nat (length data))
    then read_chunked_go fuel parts total true rest
    else read_chunked_go fuel (parts ++ data) (total + Z.of_nat (length data)) overflow rest.
Proof.
  intros [Hne Hlt]. unfold encode_chunk. rewrite <-!app_assoc. cbn [read_chunked_go].
  rewrite readline_size by lia.
  destruct (size_line_nonempty (Z.of_nat (length data))) as (x & s & E); [lia|].
  rewrite E at 1. rewrite size_line_parses by lia.
  rewrite (proj2 (Z.eqb_neq _ 0)) by (destruct data; simpl; [done|lia]).
  destruct (overflow || _).
  - rewrite consume_exact. change 2 with (Z.of_nat (length crlf)). by rewrite consume_exact.
  - rewrite read_exact, Z.ltb_irrefl.
    change 2 with (Z.of_nat (length crlf)). by rewrite consume_exact.
Qed.

Lemma encode_chunks_cons data chunks rest :
  encode_chunks (data :: chunks) ++ rest = encode_chunk data ++ encode_chunks chunks ++ rest.
Proof. unfold encode_chunks. rewrite bind_cons, <-!app_assoc. done. Qed.

Definition total_size (chunks : list bytes) : Z := Z.of_nat (length (concat chunks)).

Lemma read_chunks fuel parts total overflow chunks rest :
  Forall chunk_ok chunks → (length chunks < fuel)%nat →
  (overflow = false → total ≤ MAX_BODY_BYTES) →
  ∃ kept, read_chunked_go fuel parts total overflow (encode_chunks chunks ++ rest) =
    (inr (kept, overflow || (MAX_BODY_BYTES <? total + total_size chunks)), rest) ∧
    (overflow || (MAX_BODY_BYTES <? total + total_size chunks) = false → kept = parts ++ concat chunks).
Proof.
  intros Hok. revert fuel parts total overflow.
  induction Hok as [|data chunks Hd Hok IH]; intros fuel parts total overflow Hf Ht;
    destruct fuel as [|fuel]; simpl in Hf; try lia.
  - exists parts. unfold encode_chunks. simpl mbind. rewrite app_nil_l, <-!app_assoc.
    rewrite read_last_chunk. unfold total_size. simpl. rewrite Z.add_0_r, app_nil_r.
    split; [|done]. destruct overflow; [done|]. simpl. by rewrite (proj2 (Z.ltb_ge _ _)) by auto.
  - rewrite encode_chunks_cons, read_one_chunk by done.
    assert (total_size (data :: chunks) = Z.of_nat (length data) + total_size chunks) as ->
      by (unfold total_size; simpl; rewrite length_app; lia).
    assert (0 ≤ total_size chunks) by (unfold total_size; lia). rewrite Z.add_assoc.
    destruct (overflow || (MAX_BODY_BYTES <? total + Z.of_nat (length data))) eqn:Eo.
    + destruct (IH fuel parts total true) as (kept & E & _); [lia|done|]. exists kept. rewrite E. simpl.
      assert (overflow || (MAX_BODY_BYTES <? total + Z.of_nat (length data) + total_size chunks) = true)
        as ->; [|done].
      apply orb_true_iff in Eo as [->|Eo]; [done|]. apply Z.ltb_lt in Eo.
      apply orb_true_iff. right. apply Z.ltb_lt. lia.
    + apply orb_false_elim in Eo as [-> Eo]. simpl. apply Z.ltb_ge in Eo.
      destruct (IH fuel (parts ++ data) (total + Z.of_nat (length data)) false) as (kept & E & Hk);
        [lia|done|].
      exists kept. rewrite E. simpl in *. split; [done|].
      intros Hk'. rewrite Hk by done. by rewrite <-app_assoc.
Qed.

(** Every framed body is read back, and the stream is left at its end, also when
    the body is over the ceiling. *)
Lemma encode_chunks_long chunks rest :
  Forall chunk_ok chunks → (length chunks ≤ length (encode_chunks chunks ++ rest))%nat.
Proof.
  intros Hok. induction Hok as [|data chunks [Hne _] Hok IH]; [simpl; lia|].
  rewrite encode_chunks_cons, length_app. unfold encode_chunk. rewrite !length_app.
  assert (1 ≤ length data)%nat by (destruct data; simpl; [done|lia]).
  rewrite length_cons. rewrite length_app in IH. lia.
Qed.

Lemma read_chunked_encoded chunks rest :
  Forall chunk_ok chunks →
  ∃ kept, read_chunked (encode_chunks chunks ++ rest) =
    (inr (kept, MAX_BODY_BYTES <? total_size chunks), rest) ∧
    (total_size chunks ≤ MAX_BODY_BYTES → kept = concat chunks).
Proof.
  intros Hok. unfold read_chunked. pose proof (encode_chunks_long chunks rest Hok).
  destruct (read_chunks (S (length (encode_chunks chunks ++ rest))) [] 0 false chunks rest)
    as (kept & E & Hk); [done|lia|unfold MAX_BODY_BYTES; lia|].
  exists kept. rewrite E. split; [done|]. intros Hle. apply Hk. simpl. by apply Z.ltb_ge.
Qed.

(** ** What is kept in memory *)

Lemma read_length n r data r' :
  0 ≤ n → read n r = (inr data, r') → Z.of_nat (length data) ≤ n.
Proof. intros Hn. rewrite read_nonneg by done. intros [= <- <-]. rewrite length_take. lia. Qed.

Lemma consume_two_nil : (consume 2 []).1 = inl truncated_body.
Proof. done. Qed.

Lemma read_chunked_go_bounded fuel parts total overflow r kept ov r' :
  Z.of_nat (length parts) = total → total ≤ MAX_BODY_BYTES →
  read_chunked_go fuel parts total overflow r = (inr (kept, ov), r') →
  Z.of_nat (length kept) ≤ MAX_BODY_BYTES.
Proof.
  revert parts total overflow r. induction fuel as [|f IH]; intros parts total overflow r Hp Ht;
    cbn [read_chunked_go]; [done|].
  destruct (readline r) as [line r1]. destruct line as [|b line]; [done|].
  destruct (py_int_bytes 16 _) as [size|]; [|done].
  destruct (size =? 0); [by intros [= <- _ _]; lia|].
  destruct (overflow || _) eqn:Eo.
  - destruct (consume size r1) as [[e|[]] r2]; [done|].
    destruct (consume 2 r2) as [[e|[]] r3]; [done|]. by apply IH.
  - apply orb_false_elim in Eo as [_ Eo%Z.ltb_ge].
    destruct (read size r1) as [[e|data] r2] eqn:Er; [done|].
    destruct (Z.ltb_spec (Z.of_nat (length data)) size); [done|].
    destruct (consume 2 r2) as [[e|[]] r3] eqn:Ec; [done|].
    destruct (Z.lt_ge_cases size 0) as [Hneg|Hpos].
    + apply read_negative in Er as (_ & _ & ->); [|done].
      pose proof consume_two_nil as Hn. by rewrite Ec in Hn.
    + pose proof (read_length _ _ _ _ Hpos Er). apply IH; [rewrite length_app|]; lia.
Qed.

(** The decoded body never exceeds the ceiling, when its length is announced as
    a number that is not negative or by chunks. *)
Lemma read_raw_bounded c raw ov c' :
  is_chunked c = true ∨ (∃ n, py_int 10 (content_length_text c) = Some n ∧ 0 ≤ n) →
  read_raw c = (inr (raw, ov), c') → Z.of_nat (length raw) ≤ MAX_BODY_BYTES.
Proof.
  intros Hframe. unfold read_raw. destruct (is_chunked c) eqn:Ec.
  - destruct (read_chunked (rfile c)) as [[e|[kept o]] r] eqn:E; [done|]. intros [= <- <- <-].
    eapply (read_chunked_go_bounded _ [] 0); [done|unfold MAX_BODY_BYTES; lia|exact E].
  - destruct Hframe as [?|(n & -> & Hn)]; [done|].
    destruct (n =? 0); [intros [= <- _ _]; unfold MAX_BODY_BYTES; simpl; lia|].
    destruct (Z.leb_spec n MAX_BODY_BYTES).
    + destruct (read n (rfile c)) as [[e|data] r] eqn:Er; [done|]. intros [= <- _ _].
      pose proof (read_length _ _ _ _ Hn Er). lia.
    + intros [= <- _ _]. unfold MAX_BODY_BYTES. simpl. lia.
Qed.

(** ** Termination: every round consumes a byte *)

Lemma readline_go_length fuel r line r' :
  readline_go fuel r = (line, r') → length r = (length line + length r')%nat.
Proof.
  revert r line r'. induction fuel as [|f IH]; intros [|b r] line r'; simpl;
    try (intros [= <- <-]; done).
  destruct (b =? 10); [intros [= <- <-]; done|].
  destruct (readline_go f r) as [l r1] eqn:E. intros [= <- <-]. simpl. by rewrite (IH _ _ _ E).
Qed.

Lemma read_shorter n r data r' : read n r = (data, r') → (length r' ≤ length r)%nat.
Proof.
  unfold read, read_some. repeat case_match; intros; simplify_eq/=; try lia. rewrite length_drop. lia.
Qed.

Lemma consume_go_shorter fuel n r x r' : consume_go fuel n r = (x, r') → (length r' ≤ length r)%nat.
Proof.
  revert n r. induction fuel as [|f IH]; intros n r; simpl; (case_match; [by intros [= <- <-]|]).
  - by intros [= <- <-].
  - destruct (take _ r); [intros [= <- <-]|intros ?%IH]; rewrite length_drop in *; lia.
Qed.

(** The bound on the rounds is enough: a larger one gives the same result. *)
Lemma read_chunked_fuel fuel parts total overflow r :
  (length r < fuel)%nat →
  read_chunked_go fuel parts total overflow r =
    read_chunked_go (S (length r)) parts total overflow r.
Proof.
  assert (∀ f1 f2 parts total overflow r, (length r < f1)%nat → (length r < f2)%nat →
    read_chunked_go f1 parts total overflow r = read_chunked_go f2 parts total overflow r) as H.
  { induction f1 as [|f1 IH]; intros f2 parts' total' overflow' r' H1 H2; [lia|].
    destruct f2 as [|f2]; [lia|]. cbn [read_chunked_go].
    destruct (readline r') as [line r1] eqn:El. apply readline_go_length in El.
    destruct line as [|b line]; [done|]. simpl in El.
    destruct (py_int_bytes 16 _) as [size|]; [|done].
    destruct (size =? 0); [done|]. destruct (overflow' || _).
    - destruct (consume size r1) as [[e|[]] r2] eqn:E2; [done|]. apply consume_go_shorter in E2.
      destruct (consume 2 r2) as [[e|[]] r3] eqn:E3; [done|]. apply consume_go_shorter in E3.
      apply IH; lia.
    - destruct (read size r1) as [[e|data] r2] eqn:E2; [done|]. apply read_shorter in E2.
      case_match; [done|].
      destruct (consume 2 r2) as [[e|[]] r3] eqn:E3; [done|]. apply consume_go_shorter in E3.
      apply IH; lia. }
  intros Hf. apply H; lia.
Qed.
