(* ===== verification/World.v ===== *)
(** * Programs of the server and their interleavings

    Every request runs on its own thread. A handler is a program over atomic
    operations: one SQL statement or transaction of the journal, one call of
    the event hub, one reading of the clock, one fresh UUID, or one use of the
    thread's own connection. [exec] runs a program alone; [step] runs one
    operation of one thread of a pool, so [star step] covers every
    interleaving of concurrent requests. *)

From S2P Require Import Prelude Py Json Journal Broadcaster Framing.
Open Scope Z_scope.
Open Scope undolog_scope.

Inductive op : Type → Type :=
| OUuid4 : op pystr
| OUtcNow : op pystr
| OInsertEffect (e : effect) (approval_id : option pystr) : op bool
| OFindLiveEffect (sig : pystr) : op (option effect)
| OUpdateEffect (id : pystr) (status : effect_status) (result : option json)
    (error : option pystr) (now : pystr) : op bool
| OUpdateReplay (id now : pystr) : op bool
| OFindPendingApproval (effect_id : pystr) : op (option approval)
| OGetApproval (id : pystr) : op (option approval)
| OResolveApproval (id : pystr) (status : approval_status) (now : pystr) : op bool
| OListApprovals (state : option approval_status) (limit : Z) : op (list approval)
| OEmit (envelope : json) : op ()
| OSubscribe : op nat
| OUnsubscribe (i : nat) : op ()
| OSubGet (i : nat) : op (option (option json))
| OTimeNs : op Z
| OConn {X : Type} (f : conn → res X * conn) : op X.

(** A program returns, raises, or runs one operation and continues with its
    outcome. *)
Inductive prog (A : Type) : Type :=
| Ret (a : A)
| Raise (e : pyexc)
| Vis {X : Type} (o : op X) (k : res X → prog A).
Arguments Ret {A} a.
Arguments Raise {A} e.
Arguments Vis {A X} o k.

Fixpoint prog_bind' {A B} (f : A → prog B) (p : prog A) : prog B :=
  match p with
  | Ret a => f a
  | Raise e => Raise e
  | Vis o k => Vis o (λ r, prog_bind' f (k r))
  end.

#[export] Instance prog_ret : MRet prog := λ A a, Ret a.
#[export] Instance prog_bind : MBind prog := λ A B, prog_bind'.

(** Run one operation; its exception becomes the program's. *)
Definition perform {X} (o : op X) : prog X :=
  Vis o (λ r, match r with inl e => Raise e | inr x => Ret x end).

(** [try: p except: h]. *)
Fixpoint catch {A} (p : prog A) (h : pyexc → prog A) : prog A :=
  match p with
  | Ret a => Ret a
  | Raise e => h e
  | Vis o k => Vis o (λ r, catch (k r) h)
  end.

(** ** The shared state *)

Record world := World {
  w_db : db;
  w_hub : hub;
  w_uuids : nat;
  w_ticks : nat;
}.

Definition set_db (d : db) (w : world) : world := World d (w_hub w) (w_uuids w) (w_ticks w).
Definition set_hub (h : hub) (w : world) : world := World (w_db w) h (w_uuids w) (w_ticks w).

(** Text that can stand between the slashes of a path. *)
Definition is_segment (s : pystr) : bool := negb (existsb (λ c, c =? 47) s) && (0 <? length s)%nat.

(** What the server relies on from [uuid.uuid4] and the clock: an identifier is
    drawn once, it can be named in a path, and neither identifiers nor
    timestamps hold surrogates. *)
Class id_laws (uuid4_str utc_now_str : nat → pystr) : Prop := {
  uuid4_inj : Inj (=) (=) uuid4_str;
  uuid4_text : ∀ n, bindable (uuid4_str n) = true;
  uuid4_segment : ∀ n, is_segment (uuid4_str n) = true;
  now_text : ∀ n, bindable (utc_now_str n) = true;
}.

Section exec.
(** The UUIDs [uuid.uuid4] draws and the clock readings, in the order of the
    calls. *)
Variable uuid4_str : nat → pystr.
Variable utc_now_str : nat → pystr.
Variable time_ns_at : nat → Z.

(** The approval row [create_effect] writes beside an effect. *)
Definition approval_of (e : effect) (approval_id : pystr) : approval :=
  {| a_id := approval_id; a_org_id := e_org_id e; a_session_id := e_session_id e;
     a_effect_id := e_id e; a_tool_name := e_tool_name e; a_args := e_args e;
     a_status := Pending; a_created_at := e_created_at e; a_resolved_at := None |}.

Definition lift_db {X} (r : res X * db) (w : world) (c : conn) : res X * world * conn :=
  (r.1, set_db r.2 w, c).

Definition run_op {X} (o : op X) (w : world) (c : conn) : res X * world * conn :=
  match o in op X return res X * world * conn with
  | OUuid4 => (inr (uuid4_str (w_uuids w)), World (w_db w) (w_hub w) (S (w_uuids w)) (w_ticks w), c)
  | OUtcNow => (inr (utc_now_str (w_ticks w)), World (w_db w) (w_hub w) (w_uuids w) (S (w_ticks w)), c)
  | OInsertEffect e aid => lift_db (insert_effect e (approval_of e <$> aid) (w_db w)) w c
  | OFindLiveEffect sig => (inr (find_live_effect sig (w_db w)), w, c)
  | OUpdateEffect id st res err now => lift_db (update_effect id st res err now (w_db w)) w c
  | OUpdateReplay id now => lift_db (update_replay id now (w_db w)) w c
  | OFindPendingApproval id => (inr (find_pending_approval id (w_db w)), w, c)
  | OGetApproval id => (inr (get_approval id (w_db w)), w, c)
  | OResolveApproval id st now => lift_db (resolve_approval id st now (w_db w)) w c
  | OListApprovals st limit => (inr (list_approvals st limit (w_db w)), w, c)
  | OEmit env => (inr (), set_hub (emit env (w_hub w)) w, c)
  | OSubscribe => let '(i, h) := subscribe (w_hub w) in (inr i, set_hub h w, c)
  | OUnsubscribe i => (inr (), set_hub (unsubscribe i (w_hub w)) w, c)
  | OSubGet i => let '(x, h) := sub_get i (w_hub w) in (inr x, set_hub h w, c)
  | OTimeNs => (inr (time_ns_at (w_ticks w)), World (w_db w) (w_hub w) (w_uuids w) (S (w_ticks w)), c)
  | OConn f => let '(r, c') := f c in (r, w, c')
  end.

(** Run a program to its end, without interference. *)
Fixpoint exec {A} (p : prog A) (w : world) (c : conn) : res A * world * conn :=
  match p with
  | Ret a => (inr a, w, c)
  | Raise e => (inl e, w, c)
  | Vis o k => let '(r, w', c') := run_op o w c in exec (k r) w' c'
  end.

Lemma exec_ret {A} (a : A) w c : exec (mret a) w c = (inr a, w, c).
Proof. done. Qed.

Lemma exec_bind {A B} (p : prog A) (f : A → prog B) w c :
  exec (p ≫= f) w c =
    match exec p w c with
    | (inr a, w', c') => exec (f a) w' c'
    | (inl e, w', c') => (inl e, w', c')
    end.
Proof.
  revert w c. induction p as [a|e|X o k IH]; intros w c; try done.
  simpl. destruct (run_op o w c) as [[r w'] c']. apply IH.
Qed.

Lemma exec_perform {X} (o : op X) w c : exec (perform o) w c = run_op o w c.
Proof. simpl. by destruct (run_op o w c) as [[[]?]?]. Qed.

Lemma exec_catch {A} (p : prog A) h w c :
  exec (catch p h) w c =
    match exec p w c with
    | (inl e, w', c') => exec (h e) w' c'
    | x => x
    end.
Proof.
  revert w c. induction p as [a|e|X o k IH]; intros w c; simpl; try done.
  destruct (run_op o w c) as [[r w'] c']. apply IH.
Qed.

(** ** Interleavings *)

(** A pool of threads, each with the program it still has to run and its own
    connection, over the shared state. *)
Record thread := Thread { th_type : Type; th_prog : prog th_type; th_conn : conn }.
Record pool := Pool { p_world : world; p_threads : list thread }.

Inductive step : pool → pool → Prop :=
| step_thread i w ths A X (o : op X) (k : res X → prog A) c r w' c' :
    ths !! i = Some (Thread A (Vis o k) c) →
    run_op o w c = (r, w', c') →
    step (Pool w ths) (Pool w' (<[i := Thread A (k r) c']> ths))
| step_accept w ths A (p : prog A) c :
    step (Pool w ths) (Pool w (ths ++ [Thread A p c])).

(** Run the next operation of thread [i]; a thread that is done stays. *)
Definition sched_one (p : pool) (i : nat) : pool :=
  match p_threads p !! i with
  | Some (Thread A (Vis o k) c) =>
      let '(r, w', c') := run_op o (p_world p) c in
      Pool w' (<[i := Thread A (k r) c']> (p_threads p))
  | _ => p
  end.

(** Run a schedule: the thread that moves at each step. *)
Definition run_schedule (p : pool) (order : list nat) : pool := foldl sched_one p order.

Lemma sched_one_step p i : star step p (sched_one p i).
Proof.
  unfold sched_one. destruct p as [w ths]. simpl.
  destruct (ths !! i) as [[A [a|e|X o k] c]|] eqn:E; try apply star_refl.
  destruct (run_op o w c) as [[r w'] c'] eqn:Eo.
  eapply star_step; [|apply star_refl]. by econstructor.
Qed.

Lemma run_schedule_steps p order : star step p (run_schedule p order).
Proof.
  revert p. induction order as [|i order IH]; intros p; [apply star_refl|].
  eapply star_trans; [apply (sched_one_step p i)|apply IH].
Qed.

(** ** The invariant of the shared state *)

(** Identifiers drawn later are new: no row uses them. *)
Definition uuids_fresh (w : world) : Prop :=
  ∀ n, (w_uuids w ≤ n)%nat →
    (uuid4_str n ∉ (e_id <$> effects (w_db w))) ∧ (uuid4_str n ∉ (a_id <$> approvals (w_db w))).

Record world_ok (w : world) : Prop := {
  world_journal : journal_ok (w_db w);
  world_hub : hub_ok (w_hub w);
}.

Lemma linked_approval_of e aid : linked e (approval_of e <$> aid).
Proof. by destruct aid. Qed.

Lemma run_op_ok {X} (o : op X) w c r w' c' :
  world_ok w → run_op o w c = (r, w', c') → world_ok w'.
Proof.
  intros [Hj Hh] H. destruct o; simpl in H.
  all: try (injection H as <- <- <-; split; simpl; done || by eauto with undolog).
  - destruct (insert_effect _ _ _) eqn:E. injection H as <- <- <-.
    split; simpl; [|done]. eauto using insert_effect_ok, linked_approval_of.
  - destruct (update_effect _ _ _ _ _ _) eqn:E. injection H as <- <- <-.
    split; simpl; [|done]. eauto using update_effect_ok.
  - pose proof (subscribe_ok _ Hh). destruct (subscribe _). injection H as <- <- <-. by split.
  - pose proof (sub_get_ok i _ Hh). destruct (sub_get _ _). injection H as <- <- <-. by split.
  - destruct (f c). by injection H as <- <- <-.
Qed.

Lemma exec_ok {A} (p : prog A) w c r w' c' :
  world_ok w → exec p w c = (r, w', c') → world_ok w'.
Proof.
  revert w c. induction p as [a|e|X o k IH]; simpl; intros w c Hok.
  - by intros [= <- <- <-].
  - by intros [= <- <- <-].
  - destruct (run_op o w c) as [[r1 w1] c1] eqn:E. eauto using run_op_ok.
Qed.

Lemma step_ok p q : step p q → world_ok (p_world p) → world_ok (p_world q).
Proof. destruct 1; simpl; eauto using run_op_ok. Qed.
End exec.

(** Programs are stepped through by the lemmas above, not by reduction. *)
Arguments prog_bind : simpl never.
Arguments prog_ret : simpl never.
Arguments perform : simpl never.
Arguments exec : simpl never.

#[export] Hint Rewrite @exec_ret @exec_bind @exec_perform @exec_catch : undolog_rw.
