(* ===== verification/Fnmatch.v ===== *)
(** * Shell patterns ([fnmatch.fnmatchcase], used by [_requires_approval])

    [translate] reads a pattern the way [fnmatch.translate] does, bracket
    expressions included, and [fnmatchcase] matches the whole name. *)

From S2P Require Import Prelude Py.
Open Scope Z_scope.
Open Scope undolog_scope.

Inductive token :=
| TStar
| TAny
| TNever
| TLit (c : Z)
| TSet (neg : bool) (ranges : list (Z * Z)).

#[export] Instance token_eq_dec : EqDecision token.
Proof. solve_decision. Defined.

(** The text of a bracket expression and what follows it; a leading [!] and a
    [\]] right after it do not close it. *)
Definition cut_set (r : pystr) : option (pystr * pystr) :=
  let p := match eat 33 r with Some _ => 1%nat | None => 0%nat end in
  let p := match eat 93 (drop p r) with Some _ => S p | None => p end in
  match cut_at 93 (drop p r) with
  | (a, Some rest) => Some (take p r ++ a, rest)
  | (_, None) => None
  end.

(** Split the text at its range hyphens: a hyphen is looked for from offset
    [k], past the first character of a chunk and, after a range, past the two
    characters that follow it. *)
Fixpoint chunks_go (fuel : nat) (cur : pystr) (k : nat) : list pystr :=
  match fuel with
  | O => [cur]
  | S f =>
      match cut_at 45 (drop k cur) with
      | (a, Some rest) => (take k cur ++ a) :: chunks_go f rest 2
      | (_, None) => [cur]
      end
  end.

(** An empty last chunk is a literal hyphen of the previous one. *)
Fixpoint close_chunks (cs : list pystr) : list pystr :=
  match cs with
  | [c; []] => [c ++ [45]]
  | c :: cs' => c :: close_chunks cs'
  | [] => []
  end.

(** Drop the ranges whose bounds are out of order, from the right. *)
Fixpoint merge_chunks (cs : list pystr) : list pystr :=
  match cs with
  | [] => []
  | c :: cs' =>
      match merge_chunks cs' with
      | [] => [c]
      | d :: ds =>
          if default 0 (head d) <? default 0 (last c)
          then (removelast c ++ tail d) :: ds
          else c :: d :: ds
      end
  end.

Definition set_chunks (stuff : pystr) : list pystr :=
  let k := match eat 33 stuff with Some _ => 2%nat | None => 1%nat end in
  merge_chunks (close_chunks (chunks_go (length stuff) stuff k)).

Definition single (c : Z) : Z * Z := (c, c).

(** The characters and ranges of the chunks; [first] says that the chunk is not
    the end of a range. *)
Fixpoint chunk_ranges (first : bool) (cs : list pystr) : list (Z * Z) :=
  match cs with
  | [] => []
  | [c] => single <$> (if first then c else tail c)
  | c :: ((d :: _) as cs') =>
      (single <$> removelast (if first then c else tail c))
      ++ (default 0 (last c), default 0 (head d)) :: chunk_ranges false cs'
  end.

Definition set_token (stuff : pystr) : token :=
  match set_chunks stuff with
  | [] | [[]] => TNever
  | c :: cs =>
      match eat 33 c with
      | Some c' =>
          match c', cs with
          | [], [] => TAny
          | _, _ => TSet true (chunk_ranges true (c' :: cs))
          end
      | None => TSet false (chunk_ranges true (c :: cs))
      end
  end.

Fixpoint translate_go (fuel : nat) (pat : pystr) : list token :=
  match fuel, pat with
  | O, _ | _, [] => []
  | S f, c :: r =>
      if c =? 42 then TStar :: translate_go f r
      else if c =? 63 then TAny :: translate_go f r
      else if c =? 91 then
        match cut_set r with
        | Some (stuff, rest) => set_token stuff :: translate_go f rest
        | None => TLit 91 :: translate_go f r
        end
      else TLit c :: translate_go f r
  end.

(** Every round consumes at least one character of the pattern. *)
Definition translate (pat : pystr) : list token := translate_go (length pat) pat.

Lemma cut_at_shorter c s a b : cut_at c s = (a, Some b) → (length b < length s)%nat.
Proof.
  revert a b. induction s as [|x s IH]; intros a b; simpl; [done|].
  destruct (x =? c); [intros [= _ <-]; lia|]. destruct (cut_at c s) as [a' b'].
  intros [= _ ->]. specialize (IH _ _ eq_refl). lia.
Qed.

Lemma cut_set_shorter r stuff rest : cut_set r = Some (stuff, rest) → (length rest < length r)%nat.
Proof.
  unfold cut_set. set (p := match eat 93 _ with Some _ => _ | None => _ end).
  destruct (cut_at 93 (drop p r)) as [a [b|]] eqn:E; [|done]. apply cut_at_shorter in E.
  rewrite length_drop in E. intros [= _ <-]. lia.
Qed.

(** The length of the pattern is fuel enough: more of it changes nothing. *)
Lemma translate_fuel_suffices n m pat :
  (length pat ≤ n)%nat → (n ≤ m)%nat → translate_go m pat = translate_go n pat.
Proof.
  revert m pat. induction n as [|n IH]; intros m [|c r] Hl Hm; simpl in Hl; try lia; [by destruct m..|].
  destruct m as [|m]; [lia|]. simpl. rewrite (IH m r) by lia.
  destruct (cut_set r) as [[stuff rest]|] eqn:E; [|done]. apply cut_set_shorter in E.
  by rewrite (IH m rest) by lia.
Qed.

Definition in_range (c : Z) (r : Z * Z) : bool := (r.1 <=? c) && (c <=? r.2).

Definition token_matches (t : token) (c : Z) : bool :=
  match t with
  | TStar | TNever => false
  | TAny => true
  | TLit x => x =? c
  | TSet neg rs => xorb neg (existsb (in_range c) rs)
  end.

Fixpoint glob_match (ts : list token) : pystr → bool :=
  match ts with
  | [] => λ s, match s with [] => true | _ => false end
  | TStar :: ts' =>
      fix star s := glob_match ts' s || match s with [] => false | _ :: s' => star s' end
  | t :: ts' =>
      λ s, match s with [] => false | c :: s' => token_matches t c && glob_match ts' s' end
  end.

(** [fnmatch.fnmatchcase(name, pat)]. *)
Definition fnmatchcase (name pat : pystr) : bool := glob_match (translate pat) name.

(** ** Patterns without and with a final star *)

Definition is_meta (c : Z) : bool := (c =? 42) || (c =? 63) || (c =? 91).

Lemma translate_literal pat tail fuel :
  forallb (λ c, negb (is_meta c)) pat = true → (length pat ≤ fuel)%nat →
  translate_go fuel (pat ++ tail) = (TLit <$> pat) ++ translate_go (fuel - length pat) tail.
Proof.
  revert fuel. induction pat as [|c pat IH]; intros fuel Hm Hf; simpl in *.
  - by rewrite Nat.sub_0_r.
  - destruct fuel as [|fuel]; [lia|]. apply andb_prop in Hm as [Hc Hm].
    apply negb_true_iff in Hc. unfold is_meta in Hc.
    apply orb_false_elim in Hc as [Hc H3]. apply orb_false_elim in Hc as [H1 H2].
    simpl. rewrite H1, H2, H3. f_equal. apply IH; [done|lia].
Qed.

Lemma glob_match_literal ts pat name :
  glob_match ((TLit <$> pat) ++ ts) name =
    startswith name pat && glob_match ts (drop (length pat) name).
Proof.
  revert name. induction pat as [|c pat IH]; intros name.
  - by destruct name.
  - destruct name as [|x name]; [done|]. simpl. rewrite IH. by rewrite andb_assoc.
Qed.

Lemma glob_match_star name : glob_match [TStar] name = true.
Proof. by induction name. Qed.

Lemma fnmatchcase_prefix_star pat name :
  forallb (λ c, negb (is_meta c)) pat = true →
  fnmatchcase name (pat ++ [42]) = startswith name pat.
Proof.
  intros Hm. unfold fnmatchcase, translate. rewrite length_app. simpl.
  rewrite translate_literal by (done || lia).
  replace (length pat + 1 - length pat)%nat with 1%nat by lia. simpl translate_go.
  rewrite glob_match_literal, glob_match_star. apply andb_true_r.
Qed.

Lemma fnmatchcase_exact pat name :
  forallb (λ c, negb (is_meta c)) pat = true →
  fnmatchcase name pat = str_eqb name pat.
Proof.
  intros Hm. unfold fnmatchcase, translate. rewrite <-(app_nil_r pat) at 2.
  rewrite translate_literal by (done || lia). rewrite Nat.sub_diag. simpl translate_go.
  rewrite glob_match_literal. clear Hm.
  revert name. induction pat as [|c pat IH]; intros [|x name]; simpl; try done.
  rewrite <-IH. simpl. by rewrite <-andb_assoc, Z.eqb_sym.
Qed.
