(* ===== verification/DevHandler.v ===== *)
(** * The HTTP handler of the development server ([_DevHandler] of [dev.py])

    Every method of the handler is a program over the operations of [World]:
    the journal methods of [DevJournal] first, then the request helpers, then
    the routes, composed by [dispatch] as [_dispatch] composes them. The base
    class hands a request over as its command, the parsed path and the decoded
    query parameters; its headers and body are in the connection. *)

From S2P Require Import Prelude Py Json Signature Journal Broadcaster Framing World Fnmatch.
Open Scope Z_scope.
Open Scope undolog_scope.

(** ** [DevJournal] methods *)

Module DevJournal.

(** The row of a new call. *)
Definition new_effect (effect_id created_at org_id session_id tool_name : pystr) (step_index : Z)
    (args : json) (signature : pystr) (status : effect_status) (approval_id : option pystr)
    (tool_version tier : pystr) : effect :=
  {| e_id := effect_id; e_org_id := org_id; e_session_id := session_id;
     e_tool_name := tool_name; e_tool_version := tool_version; e_tier := tier;
     e_step_index := step_index; e_signature := signature; e_status := status;
     e_args := args; e_result := None; e_error := None; e_replay_count := 0;
     e_last_replayed_at := None; e_approval_id := approval_id;
     e_created_at := created_at; e_updated_at := created_at |}.

(** [tier or (...)]. *)
Definition resolve_tier (tier : option pystr) (status : effect_status) : pystr :=
  match tier with
  | Some (c :: t) => c :: t
  | _ => if bool_decide (status = AwaitingApproval) then $"irreversible" else $"compensable"
  end.

Definition create_effect (org_id session_id tool_name : pystr) (step_index : Z) (args : json)
    (signature : pystr) (status : effect_status) (approval_id : option pystr)
    (tool_version : pystr) (tier : option pystr) : prog (option pystr) :=
  effect_id ← perform OUuid4;
  created_at ← perform OUtcNow;
  inserted ← perform (OInsertEffect
    (new_effect effect_id created_at org_id session_id tool_name step_index args signature
       status approval_id tool_version (resolve_tier tier status)) approval_id);
  mret (if inserted : bool then Some effect_id else None).

Definition find_live_effect (signature : pystr) : prog (option effect) :=
  perform (OFindLiveEffect signature).

Definition record_commit (effect_id : pystr) (result : json) : prog bool :=
  now ← perform OUtcNow;
  perform (OUpdateEffect effect_id Committed (Some result) None now).

Definition record_replay (effect_id : pystr) : prog bool :=
  now ← perform OUtcNow;
  perform (OUpdateReplay effect_id now).

Definition record_fail (effect_id error : pystr) : prog bool :=
  now ← perform OUtcNow;
  perform (OUpdateEffect effect_id Failed None (Some error) now).

Definition mark_rejected (effect_id : pystr) : prog bool :=
  now ← perform OUtcNow;
  perform (OUpdateEffect effect_id Rejected None None now).

Definition find_pending_approval (effect_id : pystr) : prog (option approval) :=
  perform (OFindPendingApproval effect_id).

Definition get_approval (approval_id : pystr) : prog (option approval) :=
  perform (OGetApproval approval_id).

Definition resolve_approval (approval_id : pystr) (status : approval_status) : prog bool :=
  now ← perform OUtcNow;
  perform (OResolveApproval approval_id status now).

Definition list_approvals (state : option approval_status) (limit : Z) : prog (list approval) :=
  perform (OListApprovals state limit).

End DevJournal.

(** ** Payloads *)

(** [_mock_tool_result]. *)
Definition mock_tool_result (tool_name : pystr) (args : json) : json :=
  JObj [($"success", JBool true);
        ($"output", JObj [($"mock", JBool true); ($"tool_name", JStr tool_name); ($"args", args)]);
        ($"duration_ms", JInt 0)].

Definition opt_str (o : option pystr) : json :=
  match o with Some s => JStr s | None => JNull end.

(** [_approval_to_dict]. *)
Definition approval_to_dict (a : approval) : json :=
  JObj [($"id", JStr (a_id a)); ($"org_id", JStr (a_org_id a));
        ($"session_id", JStr (a_session_id a)); ($"effect_id", JStr (a_effect_id a));
        ($"tool_name", JStr (a_tool_name a)); ($"args", a_args a);
        ($"status", JStr (approval_status_text (a_status a)));
        ($"created_at", JStr (a_created_at a)); ($"resolved_at", opt_str (a_resolved_at a))].

Record request := Request {
  rq_command : pystr;
  rq_path : pystr;
  rq_params : list (pystr * list pystr);
}.

Record response := Response {
  rs_status : Z;
  rs_body : json;
  rs_close : bool;
  rs_request_id : pystr;
}.

Inductive reply := Reply (r : response) | Streamed (out : list stream_out).

(** The server's configuration. *)
Record server := Server { irreversible_patterns : list pystr; auto_approve : bool }.

Definition DEFAULT_ORG_ID : pystr := $"local".

Definition invalid_request (message : pystr) : pyexc := ERequest 400 $"invalid_request" message.

(** [text or None]: an empty text counts as missing. *)
Definition nonempty (o : option pystr) : option pystr :=
  match o with Some (c :: t) => Some (c :: t) | _ => None end.

Fixpoint split_on (c : Z) (s : pystr) : list pystr :=
  match s with
  | [] => [[]]
  | x :: s' =>
      if x =? c then [] :: split_on c s'
      else match split_on c s' with
           | p :: ps => (x :: p) :: ps
           | [] => [[x]]
           end
  end.

(** [_APPROVAL_ACTION_RE] and [_EFFECT_ACTION_RE]: [/<kind>/<id>/<action>] with a
    non-empty identifier. *)
Definition match_action (kind : pystr) (actions : list pystr) (path : pystr)
    : option (pystr * pystr) :=
  match split_on 47 path with
  | [[]; k; c :: id; action] =>
      if str_eqb k kind && existsb (str_eqb action) actions then Some (c :: id, action) else None
  | _ => None
  end.

Section handler.
Variable float_of_text : pystr → pyfloat.
Variable blake3_hexdigest : bytes → pystr.
(** [str(exc)] of an exception of the standard library. *)
Variable exc_str : pyexc → pystr.
(** [str(value)] of a decoded value that is not a string. *)
Variable py_str : json → pystr.
Variable srv : server.

(** ** Request helpers *)

Definition get_conn : prog conn := perform (OConn (λ c, (inr c, c))).

(** [_request_id]. *)
Definition get_request_id : prog pystr :=
  c ← get_conn;
  match request_id c with
  | Some r => mret r
  | None =>
      r ← perform OUuid4;
      _ ← perform (OConn (λ c, (inr (), set_request_id r c)));
      mret r
  end.

(** [_require_method]. *)
Definition require_method (rq : request) (allowed : pystr) : prog () :=
  if str_eqb (rq_command rq) allowed then mret ()
  else Raise (ERequest 405 $"method_not_allowed" (allowed ++ $" required")).

(** [_org_id]. *)
Definition org_of (c : conn) : pystr :=
  match nonempty (header_get $"X-UndoLog-Org-Id" (headers c)) with
  | Some o => o
  | None => default DEFAULT_ORG_ID (nonempty (header_get $"X-Org-Id" (headers c)))
  end.
Definition org_id : prog pystr := c ← get_conn; mret (org_of c).

(** [_read_body]. *)
Definition read_body_ : prog (list (pystr * json)) :=
  perform (OConn (read_body float_of_text)).

(** [_send_json]. *)
Definition send_json (status : Z) (payload : json) : prog response :=
  close ← perform (OConn (λ c, let '(b, c') := finish_response c in (inr b, c')));
  rid ← get_request_id;
  mret (Response status payload close rid).

(** [_send_error]. *)
Definition send_error (status : Z) (code message : pystr) : prog response :=
  rid ← get_request_id;
  now ← perform OUtcNow;
  send_json status
    (JObj [($"request_id", JStr rid); ($"code", JStr code);
           ($"message", JStr message); ($"timestamp", JStr now)]).

Definition opt_field (k : pystr) (v : json) : list (pystr * json) :=
  match v with JNull => [] | _ => [(k, v)] end.

(** [_emit]; [JNull] stands for an argument that is [None]. *)
Definition emit_event (event_type org : pystr) (session_id effect_id approval_id payload : json)
    : prog () :=
  now ← perform OUtcNow;
  perform (OEmit (JObj ([($"type", JStr event_type); ($"timestamp", JStr now);
                         ($"org_id", JStr org)]
    ++ opt_field $"session_id" session_id ++ opt_field $"effect_id" effect_id
    ++ opt_field $"approval_id" approval_id ++ opt_field $"payload" payload))).

Definition stage (s : pystr) : json := JObj [($"stage", JStr s)].

(** [_requires_approval]. *)
Definition requires_approval (tool_name : pystr) : bool :=
  existsb (fnmatchcase tool_name) (irreversible_patterns srv).

(** [_approval_payload]. *)
Definition approval_payload (approval_id : pystr) : prog json :=
  a ← DevJournal.get_approval approval_id;
  mret (match a with Some ap => approval_to_dict ap | None => JObj [] end).

(** ** Routes *)

(** [_handle_health]. *)
Definition handle_health : prog response :=
  send_json 200 (JObj [($"status", JStr $"ok"); ($"service", JStr $"undolog-dev")]).

Definition executed_body (effect_id : json) : json :=
  JObj [($"status", JStr $"executed"); ($"effect_id", effect_id); ($"result", JNull)].

Definition pending_body (approval_id : pystr) : json :=
  JObj [($"status", JStr $"pending_approval"); ($"approval_id", JStr approval_id);
        ($"retry_after", JInt 5)].

Definition replayed_body (e : effect) : json :=
  JObj [($"status", JStr $"replayed"); ($"effect_id", JStr (e_id e));
        ($"result", default JNull (e_result e))].

(** [_respond_for_live_effect]. *)
Definition respond_for_live_effect (e : effect) (org : pystr) : prog response :=
  match e_status e with
  | Committed =>
      _ ← DevJournal.record_replay (e_id e);
      _ ← emit_event $"effect_replayed" org (JStr (e_session_id e)) (JStr (e_id e)) JNull
            (stage $"replayed");
      send_json 200 (replayed_body e)
  | AwaitingApproval =>
      if auto_approve srv then
        a ← DevJournal.find_pending_approval (e_id e);
        _ ← match a with
            | Some ap =>
                _ ← DevJournal.resolve_approval (a_id ap) Approved;
                payload ← approval_payload (a_id ap);
                emit_event $"approval_approved" org (JStr (e_session_id e)) (JStr (e_id e))
                  (JStr (a_id ap)) payload
            | None => mret ()
            end;
        send_json 200 (executed_body (JStr (e_id e)))
      else
        a ← DevJournal.find_pending_approval (e_id e);
        match a with
        | Some ap => send_json 202 (pending_body (a_id ap))
        | None => send_json 200 (executed_body (JStr (e_id e)))
        end
  | _ => send_json 200 (executed_body (JStr (e_id e)))
  end.

(** The parameters [_handle_tool_call] accepts from a body, with its checks in
    their order. *)
Definition tool_call_params (body : list (pystr * json)) : res (pystr * pystr * json * Z) :=
  session_id ← match dict_get $"session_id" body with
               | Some (JStr (c :: t)) => inr (c :: t)
               | _ => inl (invalid_request $"session_id and tool_name are required")
               end;
  tool_name ← match dict_get $"tool_name" body with
              | Some (JStr (c :: t)) => inr (c :: t)
              | _ => inl (invalid_request $"session_id and tool_name are required")
              end;
  args ← match default (JObj []) (dict_get $"args" body) with
         | JObj d => inr (JObj d)
         | _ => inl (invalid_request $"args must be a JSON object")
         end;
  step_index ← match default (JInt 0) (dict_get $"step_index" body) with
               | JInt n => if n <? 0
                           then inl (invalid_request $"step_index must be a non-negative integer")
                           else inr n
               | _ => inl (invalid_request $"step_index must be a non-negative integer")
               end;
  inr (session_id, tool_name, args, step_index).

Definition of_res {A} (r : res A) : prog A :=
  match r with inl e => Raise e | inr a => mret a end.

(** The signature of a call: a [ValueError] becomes a refused request, any
    other exception escapes. *)
Definition tool_call_signature (session_id : pystr) (step_index : Z) (tool_name : pystr)
    (args : json) : res pystr :=
  match call_signature blake3_hexdigest session_id step_index tool_name args with
  | inl e =>
      if is_ValueError e
      then inl (invalid_request ($"unable to canonicalize tool args: " ++ exc_str e))
      else inl e
  | inr s => inr s
  end.

(** [str(body.get("tool_version", "1.0.0"))]. *)
Definition tool_version_of (body : list (pystr * json)) : pystr :=
  match default (JStr $"1.0.0") (dict_get $"tool_version" body) with
  | JStr s => s
  | v => py_str v
  end.

(** Auto-approval of a new irreversible call: the effect is journaled as
    executing with an approval that is resolved at once. *)
Definition auto_approve_call (org session_id tool_name : pystr) (step_index : Z) (args : json)
    (signature tool_version tier : pystr) : prog (option pystr * option pystr) :=
  aid ← perform OUuid4;
  eid ← DevJournal.create_effect org session_id tool_name step_index args signature
          Executing (Some aid) tool_version (Some tier);
  match eid with
  | Some id =>
      _ ← DevJournal.resolve_approval aid Approved;
      _ ← emit_event $"approval_required" org (JStr session_id) (JStr id) (JStr aid)
            (stage $"approval_required");
      payload ← approval_payload aid;
      _ ← emit_event $"approval_approved" org (JStr session_id) (JStr id) (JStr aid) payload;
      mret (Some id, None)
  | None => mret (None, Some aid)
  end.

(** The branch of [_handle_tool_call] for a signature no live effect holds: the
    effect and approval identifiers it journaled, or the live effect of a
    concurrent call that claimed the signature first. *)
Definition claim_call (org session_id tool_name : pystr) (step_index : Z) (args : json)
    (signature tool_version tier : pystr)
    : prog (option pystr * option pystr * option effect) :=
  '(status, effect_id, approval_id) ←
    (if requires_approval tool_name then
       if auto_approve srv then
         '(eid, aid) ← auto_approve_call org session_id tool_name step_index args
                         signature tool_version tier;
         mret (Executing, eid, aid)
       else
         aid ← perform OUuid4;
         mret (AwaitingApproval, None, Some aid)
     else mret (Executing, None, None));
  effect_id ←
    match effect_id with
    | Some id => mret (Some id)
    | None =>
        DevJournal.create_effect org session_id tool_name step_index args signature
          status approval_id tool_version (Some tier)
    end;
  match effect_id with
  | None =>
      existing ← DevJournal.find_live_effect signature;
      mret (None, approval_id, existing)
  | Some id => mret (Some id, approval_id, None)
  end.

(** The decision of [_handle_tool_call], once the request is understood. *)
Definition decide_call (org session_id tool_name : pystr) (step_index : Z) (args : json)
    (signature tool_version : pystr) : prog response :=
  existing ← DevJournal.find_live_effect signature;
  let tier := if requires_approval tool_name then $"irreversible" else $"compensable" in
  '(effect_id, approval_id, existing) ←
    match existing with
    | Some e => mret (None, None, Some e)
    | None => claim_call org session_id tool_name step_index args signature tool_version tier
    end;
  match existing with
  | Some e => respond_for_live_effect e org
  | None =>
      match approval_id with
      | Some aid =>
          _ ← emit_event $"approval_required" org (JStr session_id) (opt_str effect_id) (JStr aid)
                (stage $"approval_required");
          send_json 202 (pending_body aid)
      | None => send_json 200 (executed_body (opt_str effect_id))
      end
  end.

(** [_handle_tool_call]. *)
Definition handle_tool_call : prog response :=
  body ← read_body_;
  '(session_id, tool_name, args, step_index) ← of_res (tool_call_params body);
  org ← org_id;
  signature ← of_res (tool_call_signature session_id step_index tool_name args);
  _ ← emit_event $"effect_intercepted" org (JStr session_id) JNull JNull (stage $"intercepted");
  decide_call org session_id tool_name step_index args signature (tool_version_of body).

Definition outcome_body (status effect_id : pystr) : json :=
  JObj [($"status", JStr status); ($"effect_id", JStr effect_id)].

(** [_handle_effect_action]. *)
Definition handle_effect_action (effect_id action : pystr) : prog response :=
  org ← org_id;
  body ← read_body_;
  let session_id := default JNull (dict_get $"session_id" body) in
  if str_eqb action $"commit" then
    match default (JObj []) (dict_get $"result" body) with
    | JObj result =>
        found ← DevJournal.record_commit effect_id (JObj result);
        if found : bool then
          _ ← emit_event $"effect_committed" org session_id (JStr effect_id) JNull
                (stage $"committed");
          send_json 200 (outcome_body $"committed" effect_id)
        else send_error 404 $"not_found" $"effect not found"
    | _ => Raise (invalid_request $"result must be a JSON object")
    end
  else
    match default (JStr []) (dict_get $"error" body) with
    | JStr error =>
        found ← DevJournal.record_fail effect_id error;
        if found : bool then
          _ ← emit_event $"effect_failed" org session_id (JStr effect_id) JNull
                (JObj [($"stage", JStr $"execute"); ($"error", JStr $"failed")]);
          send_json 200 (outcome_body $"failed" effect_id)
        else send_error 404 $"not_found" $"effect not found"
    | _ => Raise (invalid_request $"error must be a string")
    end.

(** [_handle_approval_decision]. *)
Definition handle_approval_decision (approval_id action : pystr) : prog response :=
  org ← org_id;
  a ← DevJournal.get_approval approval_id;
  match a with
  | None => send_error 404 $"not_found" $"approval not found"
  | Some ap =>
      if negb (bool_decide (a_status ap = Pending))
      then send_error 409 $"conflict" $"approval already resolved"
      else
        _ ← read_body_;
        if str_eqb action $"reject" then
          won ← DevJournal.resolve_approval approval_id Refused;
          if won : bool then
            _ ← DevJournal.mark_rejected (a_effect_id ap);
            payload ← approval_payload approval_id;
            _ ← emit_event $"approval_rejected" org (JStr (a_session_id ap)) JNull
                  (JStr approval_id) payload;
            send_json 200 (JObj [($"status", JStr $"rejected"); ($"approval_id", JStr approval_id)])
          else send_error 409 $"conflict" $"approval already resolved"
        else
          won ← DevJournal.resolve_approval approval_id Approved;
          if won : bool then
            let result := mock_tool_result (a_tool_name ap) (a_args ap) in
            _ ← DevJournal.record_commit (a_effect_id ap) result;
            payload ← approval_payload approval_id;
            _ ← emit_event $"approval_approved" org (JStr (a_session_id ap))
                  (JStr (a_effect_id ap)) (JStr approval_id) payload;
            send_json 200
              (JObj [($"status", JStr $"approved"); ($"approval_id", JStr approval_id);
                     ($"effect_id", JStr (a_effect_id ap)); ($"execution", JStr $"committed");
                     ($"result", result)])
          else send_error 409 $"conflict" $"approval already resolved"
  end.

(** [params.get(k, [dflt])[0]]. *)
Definition param (k : pystr) (rq : request) (dflt : pystr) : pystr :=
  match dict_get k (rq_params rq) with Some (v :: _) => v | _ => dflt end.

(** The state filter of [_handle_list_approvals]. *)
Definition parse_state (s : pystr) : option (option approval_status) :=
  if str_eqb s $"pending" then Some (Some Pending)
  else if str_eqb s $"approved" then Some (Some Approved)
  else if str_eqb s $"rejected" then Some (Some Refused)
  else if str_eqb s $"all" then Some None
  else None.

(** [_handle_list_approvals]. *)
Definition handle_list_approvals (rq : request) : prog response :=
  match parse_state (param $"state" rq $"pending") with
  | None => Raise (invalid_request $"invalid state")
  | Some state =>
      match py_int 10 (param $"limit" rq (str_of_int DEFAULT_APPROVAL_LIMIT)) with
      | None => Raise (invalid_request $"invalid limit")
      | Some limit =>
          l ← DevJournal.list_approvals state limit;
          send_json 200 (JArr (approval_to_dict <$> l))
      end
  end.

(** The naming choice of [_handle_events]. *)
Definition use_aliases (rq : request) (c : conn) : bool :=
  existsb (str_eqb (lower (param $"aliases" rq $"false"))) [$"true"; $"1"]
  || existsb (str_eqb (lower (param $"naming" rq $"proxy"))) [$"standard"; $"aliases"]
  || existsb (str_eqb (lower (default [] (header_get $"X-Event-Naming" (headers c)))))
       [$"standard"; $"aliases"].

(** The loop of [_handle_events]; [rounds] is the number of writes the client
    stays connected for. *)
Fixpoint events_loop (rounds : nat) (alias : bool) (i : nat) : prog (list stream_out) :=
  match rounds with
  | O => mret []
  | S n =>
      x ← perform (OSubGet i);
      match x with
      | None => out ← events_loop n alias i; mret (StreamPing :: out)
      | Some None => mret [StreamEnd]
      | Some (Some (JObj env)) =>
          t ← perform OTimeNs;
          match format_sse_frame env alias t with
          | Some f => out ← events_loop n alias i; mret (StreamFrame f :: out)
          | None => mret [StreamBadEnvelope]
          end
      | Some (Some _) => mret [StreamBadEnvelope]
      end
  end.

(** [_handle_events]. *)
Definition handle_events (rq : request) (rounds : nat) : prog (list stream_out) :=
  c ← get_conn;
  i ← perform OSubscribe;
  _ ← get_request_id;
  _ ← perform (OConn (λ c, (inr (), set_close true c)));
  out ← events_loop rounds (use_aliases rq c) i;
  _ ← perform (OUnsubscribe i);
  mret out.

Definition replied (p : prog response) : prog reply := r ← p; mret (Reply r).

(** The routing of [_dispatch]. *)
Definition route (rq : request) (rounds : nat) : prog reply :=
  let path := rq_path rq in
  if str_eqb path $"/health" then
    _ ← require_method rq $"GET"; replied handle_health
  else if str_eqb path $"/events" then
    _ ← require_method rq $"GET"; out ← handle_events rq rounds; mret (Streamed out)
  else if str_eqb path $"/approvals" then
    _ ← require_method rq $"GET"; replied (handle_list_approvals rq)
  else if str_eqb path $"/mcp/tool_call" then
    _ ← require_method rq $"POST"; replied handle_tool_call
  else
    match match_action $"approvals" [$"approve"; $"reject"] path,
          match_action $"effects" [$"commit"; $"fail"] path with
    | Some (id, action), _ =>
        _ ← require_method rq $"POST"; replied (handle_approval_decision id action)
    | None, Some (id, action) =>
        _ ← require_method rq $"PUT"; replied (handle_effect_action id action)
    | None, None => replied (send_error 404 $"not_found" $"unknown path")
    end.

(** [_dispatch]: a refused request and a [ValueError] are answered, any other
    exception escapes to [handle_error], which drops the connection. *)
Definition dispatch (rq : request) (rounds : nat) : prog reply :=
  catch (route rq rounds) (λ e,
    match e with
    | ERequest status code message => replied (send_error status code message)
    | _ => if is_ValueError e then replied (send_error 400 $"invalid_request" (exc_str e))
           else Raise e
    end).

End handler.

(** The helpers are reasoned about by their own rules. *)
Arguments require_method : simpl never.
Arguments replied : simpl never.
Arguments emit_event : simpl never.
Arguments send_json : simpl never.
Arguments send_error : simpl never.
Arguments approval_payload : simpl never.
Arguments respond_for_live_effect : simpl never.
Arguments DevJournal.create_effect : simpl never.
Arguments executed_body : simpl never.
Arguments pending_body : simpl never.
Arguments replayed_body : simpl never.
Arguments outcome_body : simpl never.
Arguments approval_to_dict : simpl never.
Arguments mock_tool_result : simpl never.
