(* ===== verification/Sync.v ===== *)
(** * Responses keep the connection in step

    [on_conn P p Q] follows the thread's own connection through a handler, for
    every state of the shared tables and every result of the other operations.
    On a connection whose handler has not read a body yet, every response
    either leaves the stream at the end of the request's body or closes the
    connection. *)

From S2P Require Import Prelude Py PyFacts Json Signature Journal Broadcaster Framing FramingFacts.
From S2P Require Import World Fnmatch DevHandler.
Open Scope Z_scope.
Open Scope undolog_scope.

Section on_conn.
Variable uuid4_str : nat → pystr.
Variable utc_now_str : nat → pystr.
Variable time_ns_at : nat → Z.

Abbreviation run := (exec uuid4_str utc_now_str time_ns_at).

Definition on_conn {A} (P : conn → Prop) (p : prog A) (Q : res A → conn → Prop) : Prop :=
  ∀ w c, P c → let '(r, _, c') := run p w c in Q r c'.

Lemma on_conn_ret {A} (a : A) (P : conn → Prop) (Q : res A → conn → Prop) :
  (∀ c, P c → Q (inr a) c) → on_conn P (mret a) Q.
Proof. intros H w c HP. by apply H. Qed.

Lemma on_conn_raise {A} e (P : conn → Prop) (Q : res A → conn → Prop) :
  (∀ c, P c → Q (inl e) c) → on_conn P (Raise e) Q.
Proof. intros H w c HP. by apply H. Qed.

Lemma on_conn_bind {A B} (p : prog A) (f : A → prog B) P (R : conn → Prop) Q :
  on_conn P p (λ r c, match r with inr _ => R c | inl e => Q (inl e) c end) →
  (∀ a, on_conn R (f a) Q) → on_conn P (p ≫= f) Q.
Proof.
  intros Hp Hf w c HP. specialize (Hp w c HP). rewrite exec_bind.
  destruct (run p w c) as [[[e|a] w'] c']; [done|]. by apply Hf.
Qed.

Lemma on_conn_catch {A} (p : prog A) h P (R : conn → Prop) Q :
  on_conn P p (λ r c, match r with inr _ => Q r c | inl e => R c end) →
  (∀ e, on_conn R (h e) Q) → on_conn P (catch p h) Q.
Proof.
  intros Hp Hh w c HP. specialize (Hp w c HP). rewrite exec_catch.
  destruct (run p w c) as [[[e|a] w'] c']; [|done]. by apply Hh.
Qed.

Lemma on_conn_mono {A} (p : prog A) (P P' : conn → Prop) (Q Q' : res A → conn → Prop) :
  on_conn P p Q → (∀ c, P' c → P c) → (∀ r c, Q r c → Q' r c) → on_conn P' p Q'.
Proof.
  intros Hp HP HQ w c Hc. specialize (Hp w c (HP c Hc)).
  destruct (run p w c) as [[r w'] c']. by apply HQ.
Qed.

(** Operations on the shared state leave the connection alone. *)
Definition shared {X} (o : op X) : bool := match o with OConn _ => false | _ => true end.

Lemma on_conn_shared {X} (o : op X) (P : conn → Prop) :
  shared o = true → on_conn P (perform o) (λ _ c, P c).
Proof.
  intros Ho w c HP. rewrite exec_perform.
  destruct o; simpl in *; try done; by repeat case_match; simplify_eq/=.
Qed.

Lemma on_conn_own {X} (f : conn → res X * conn) (P : conn → Prop) (Q : res X → conn → Prop) :
  (∀ c, P c → Q (f c).1 (f c).2) → on_conn P (perform (OConn f)) Q.
Proof.
  intros Hf w c HP. rewrite exec_perform. simpl. specialize (Hf c HP). by destruct (f c).
Qed.

(** A program that keeps a property of the connection. *)
Definition keeps {A} (P : conn → Prop) (p : prog A) : Prop := on_conn P p (λ _ c, P c).

Lemma keeps_ret {A} (a : A) P : keeps P (mret a).
Proof. by apply on_conn_ret. Qed.

Lemma keeps_raise {A} e P : keeps P (Raise e : prog A).
Proof. by apply on_conn_raise. Qed.

Lemma keeps_bind {A B} (p : prog A) (f : A → prog B) P :
  keeps P p → (∀ a, keeps P (f a)) → keeps P (p ≫= f).
Proof.
  intros Hp Hf. eapply on_conn_bind; [|exact Hf].
  eapply on_conn_mono; [exact Hp|done|]. by intros [].
Qed.

Lemma keeps_shared {X} (o : op X) P : shared o = true → keeps P (perform o).
Proof. apply on_conn_shared. Qed.

Lemma keeps_get_conn P : keeps P get_conn.
Proof. by apply on_conn_own. Qed.
End on_conn.

(** Step through a program none of whose operations touches the connection. *)
Ltac keeps_tac :=
  repeat lazymatch goal with
  | |- keeps _ _ _ _ (mret _) => apply keeps_ret
  | |- keeps _ _ _ _ (Raise _) => apply keeps_raise
  | |- keeps _ _ _ _ get_conn => apply keeps_get_conn
  | |- keeps _ _ _ _ (perform _) => apply keeps_shared; reflexivity
  | |- keeps _ _ _ _ (mbind _ _) => apply keeps_bind; [|intros ?]
  | |- keeps _ _ _ _ (match _ with _ => _ end) => case_match
  end.

Section sync.
Variable uuid4_str : nat → pystr.
Variable utc_now_str : nat → pystr.
Variable time_ns_at : nat → Z.
Variable float_of_text : pystr → pyfloat.
Variable blake3_hexdigest : bytes → pystr.
Variable exc_str : pyexc → pystr.
Variable py_str : json → pystr.
Variable srv : server.
(** The connection when the request was read. *)
Variable c0 : conn.

Abbreviation on := (on_conn uuid4_str utc_now_str time_ns_at).
Abbreviation keeps_ := (keeps uuid4_str utc_now_str time_ns_at).

(** Where the request's body ends, when its framing says so. *)
Definition body_end (c : conn) : bytes :=
  if is_chunked c then (read_chunked (rfile c)).2
  else match py_int 10 (content_length_text c) with
       | Some n => drop (Z.to_nat n) (rfile c)
       | None => rfile c
       end.

(** No body byte has been read, or reading it failed in a way that closes the
    connection; the headers are the request's. *)
Definition unread (c : conn) : Prop :=
  headers c = headers c0 ∧ body_read c = false ∧
  (is_chunked c0 = false → rfile c = rfile c0).
Definition untouched (c : conn) : Prop := unread c ∧ rfile c = rfile c0.
Definition at_end (c : conn) : Prop :=
  headers c = headers c0 ∧ body_read c = true ∧ rfile c = body_end c0.
Definition serving_conn (c : conn) : Prop := unread c ∨ at_end c.
Definition in_step (c : conn) : Prop := rfile c = body_end c0 ∨ close_connection c = true.

Hypothesis length_not_negative :
  ∀ n, py_int 10 (content_length_text c0) = Some n → 0 ≤ n.

Lemma same_framing c :
  headers c = headers c0 →
  is_chunked c = is_chunked c0 ∧ content_length_text c = content_length_text c0.
Proof. unfold is_chunked, content_length_text. by intros ->. Qed.

(** Reading the body from the start ends at its end, or leaves a connection
    whose response closes it. *)
Lemma read_raw_sync c : untouched c → serving_conn (read_raw c).2.
Proof.
  intros [(Hh & Hb & _) Hr]. destruct (same_framing c Hh) as [Hc Hl].
  unfold read_raw, serving_conn. rewrite Hc, Hl.
  destruct (is_chunked c0) eqn:Ec.
  - rewrite Hr. destruct (read_chunked (rfile c0)) as [[e|p] r] eqn:E; simpl.
    + left. split_and!; [done..|]. by rewrite Ec.
    + right. split_and!; [done..|]. simpl. unfold body_end. by rewrite Ec, E.
  - destruct (py_int 10 _) as [n|] eqn:En; simpl; [|by left].
    pose proof (length_not_negative n eq_refl) as Hn.
    assert (body_end c0 = drop (Z.to_nat n) (rfile c0)) as He.
    { unfold body_end. by rewrite Ec, En. }
    destruct (Z.eqb_spec n 0) as [->|]; simpl.
    + right. split_and!; [done..|]. simpl. by rewrite He, Hr.
    + destruct (Z.leb_spec n MAX_BODY_BYTES); simpl; [|by left].
      rewrite read_nonneg by lia. simpl.
      right. split_and!; [done..|]. simpl. by rewrite He, Hr.
Qed.

Lemma read_body_sync : on untouched (read_body_ float_of_text) (λ _ c, serving_conn c).
Proof.
  apply on_conn_own. intros c Hc. pose proof (read_raw_sync c Hc) as H. unfold read_body.
  destruct (read_raw c) as [[e|[raw ov]] c']; simpl in *; [done|]. by destruct ov.
Qed.

(** Answering ends the body or the connection. *)
Lemma finish_response_sync c : serving_conn c → in_step (finish_response c).2.
Proof.
  intros [(Hh & Hb & Hr)|(Hh & Hb & Hr)]; destruct (same_framing c Hh) as [Hc Hl];
    unfold finish_response, discard_unread_body; rewrite Hb.
  - rewrite Hc, Hl. destruct (is_chunked c0) eqn:Ec.
    + unfold body_is_unread. rewrite Hb, Hc. by right.
    + destruct (py_int 10 _) as [n|] eqn:En.
      * pose proof (length_not_negative n eq_refl) as Hn.
        assert (body_end c0 = drop (Z.to_nat n) (rfile c)) as He.
        { unfold body_end. by rewrite Ec, En, Hr. }
        destruct (Z.eqb_spec n 0) as [->|]; left; [by rewrite He|].
        change (drain_go (S (length (rfile c))) n (rfile c) = body_end c0).
        rewrite drain_go_spec by lia. done.
      * unfold body_is_unread. rewrite Hb, Hc, Hl, En. by right.
  - unfold body_is_unread. rewrite Hb. by left.
Qed.

(** ** The handlers *)

Definition stays_in_step {A} (r : res A) (c : conn) : Prop :=
  match r with inr _ => in_step c | inl _ => serving_conn c end.

(** Properties the identifier of the request does not affect. *)
Definition id_blind (P : conn → Prop) : Prop := ∀ c r, P c → P (set_request_id r c).

Definition returns {A} (P : conn → Prop) (p : prog A) : Prop :=
  on P p (λ r c, match r with inr _ => P c | inl _ => False end).

Lemma request_id_returns P : id_blind P → returns P get_request_id.
Proof.
  intros HP w c Hc. unfold get_request_id. rewrite exec_bind.
  assert (exec uuid4_str utc_now_str time_ns_at get_conn w c = (inr c, w, c)) as -> by done.
  destruct (request_id c) as [r|]; [done|].
  rewrite exec_bind, exec_perform. cbn [run_op].
  rewrite exec_bind, exec_perform. cbn [run_op]. by apply HP.
Qed.

Lemma serving_conn_blind : id_blind serving_conn.
Proof. intros c r [(?&?&?)|(?&?&?)]; [by left|by right]. Qed.
Lemma in_step_blind : id_blind in_step.
Proof. intros c r H. exact H. Qed.

Lemma send_json_sync status payload : on serving_conn (send_json status payload) stays_in_step.
Proof.
  unfold send_json. apply (on_conn_bind _ _ _ _ _ _ in_step).
  - apply on_conn_own. intros c Hc. pose proof (finish_response_sync c Hc) as H.
    by destruct (finish_response c).
  - intros b. apply (on_conn_bind _ _ _ _ _ _ in_step).
    + eapply on_conn_mono; [apply request_id_returns, in_step_blind|done|]. by intros [].
    + intros r. by apply on_conn_ret.
Qed.

Lemma sync_bind {A B} (p : prog A) (f : A → prog B) :
  keeps_ serving_conn p → (∀ a, on serving_conn (f a) stays_in_step) →
  on serving_conn (p ≫= f) stays_in_step.
Proof.
  intros Hp Hf. apply (on_conn_bind _ _ _ _ _ _ serving_conn); [|done].
  eapply on_conn_mono; [exact Hp|done|]. by intros [].
Qed.

Lemma sync_raise {A} e : on serving_conn (Raise e : prog A) stays_in_step.
Proof. by apply on_conn_raise. Qed.

Lemma keeps_returns {A} P (p : prog A) : returns P p → keeps_ P p.
Proof. intros H. eapply on_conn_mono; [exact H|done|]. by intros []. Qed.

Lemma send_error_sync status code message :
  on serving_conn (send_error status code message) stays_in_step.
Proof.
  unfold send_error. apply sync_bind; [apply keeps_returns, request_id_returns, serving_conn_blind|].
  intros rid. apply sync_bind; [by apply keeps_shared|]. intros now. apply send_json_sync.
Qed.

Lemma emit_event_keeps ty org s e a p P : keeps_ P (emit_event ty org s e a p).
Proof. unfold emit_event. keeps_tac. Qed.

Lemma approval_payload_keeps id P : keeps_ P (approval_payload id).
Proof. unfold approval_payload, DevJournal.get_approval. keeps_tac. Qed.

Lemma create_effect_keeps org sid tool step args sig st aid ver tier P :
  keeps_ P (DevJournal.create_effect org sid tool step args sig st aid ver tier).
Proof. unfold DevJournal.create_effect. keeps_tac. Qed.

Lemma stamped_keeps (o : pystr → op bool) P :
  (∀ now, shared (o now) = true) → keeps_ P (now ← perform OUtcNow; perform (o now)).
Proof.
  intros Ho. apply keeps_bind; [by apply keeps_shared|]. intros now. by apply keeps_shared.
Qed.

(** Step through a handler: shared operations, events and journal methods keep
    the connection, answers bring it in step. *)
Ltac sync_step :=
  lazymatch goal with
  | |- on_conn _ _ _ _ (send_json _ _) _ => apply send_json_sync
  | |- on_conn _ _ _ _ (send_error _ _ _) _ => apply send_error_sync
  | |- on_conn _ _ _ _ (Raise _) _ => apply sync_raise
  | |- on_conn _ _ _ _ (mbind _ _) _ => apply sync_bind; [|intros ?]
  | |- on_conn _ _ _ _ (match _ with _ => _ end) _ => case_match
  | |- keeps _ _ _ _ (emit_event _ _ _ _ _ _) => apply emit_event_keeps
  | |- keeps _ _ _ _ (approval_payload _) => apply approval_payload_keeps
  | |- keeps _ _ _ _ (DevJournal.create_effect _ _ _ _ _ _ _ _ _ _) => apply create_effect_keeps
  | |- keeps _ _ _ _ (DevJournal.find_live_effect _) => by apply keeps_shared
  | |- keeps _ _ _ _ (DevJournal.find_pending_approval _) => by apply keeps_shared
  | |- keeps _ _ _ _ (DevJournal.get_approval _) => by apply keeps_shared
  | |- keeps _ _ _ _ (DevJournal.list_approvals _ _) => by apply keeps_shared
  | |- keeps _ _ _ _ (DevJournal.record_commit _ _) => by apply stamped_keeps
  | |- keeps _ _ _ _ (DevJournal.record_replay _) => by apply stamped_keeps
  | |- keeps _ _ _ _ (DevJournal.record_fail _ _) => by apply stamped_keeps
  | |- keeps _ _ _ _ (DevJournal.mark_rejected _) => by apply stamped_keeps
  | |- keeps _ _ _ _ (DevJournal.resolve_approval _ _) => by apply stamped_keeps
  | |- _ => progress keeps_tac
  end.
Ltac sync_tac := cbv beta iota zeta; repeat (sync_step; cbv beta iota zeta).

Lemma respond_sync e org : on serving_conn (respond_for_live_effect srv e org) stays_in_step.
Proof. unfold respond_for_live_effect. sync_tac. Qed.

Lemma auto_approve_keeps org sid tool step args sig ver tier P :
  keeps_ P (auto_approve_call org sid tool step args sig ver tier).
Proof. unfold auto_approve_call. sync_tac. Qed.

Lemma claim_call_keeps org sid tool step args sig ver tier P :
  keeps_ P (claim_call srv org sid tool step args sig ver tier).
Proof.
  unfold claim_call. apply keeps_bind.
  - case_match; [case_match|]; sync_tac. apply auto_approve_keeps.
  - intros [[st eid] aid]. sync_tac.
Qed.

Lemma decide_call_sync org sid tool step args sig ver :
  on serving_conn (decide_call srv org sid tool step args sig ver) stays_in_step.
Proof.
  unfold decide_call. apply sync_bind; [by apply keeps_shared|]. intros ex.
  apply sync_bind; [case_match; [apply keeps_ret|apply claim_call_keeps]|].
  intros [[eid aid] ex']. destruct ex'; [apply respond_sync|]. sync_tac.
Qed.

(** A handler reads the body once, before anything else touches the stream. *)
Lemma sync_read_body {A} (f : list (pystr * json) → prog A) :
  (∀ body, on serving_conn (f body) stays_in_step) →
  on untouched (body ← read_body_ float_of_text; f body) stays_in_step.
Proof.
  intros Hf. apply (on_conn_bind _ _ _ _ _ _ serving_conn); [|done].
  eapply on_conn_mono; [apply read_body_sync|done|]. by intros [].
Qed.

Lemma untouched_serving c : untouched c → serving_conn c.
Proof. intros [? _]. by left. Qed.

Lemma sync_untouched {A} (p : prog A) :
  on serving_conn p stays_in_step → on untouched p stays_in_step.
Proof. intros H. eapply on_conn_mono; [exact H|exact untouched_serving|done]. Qed.

Lemma bind_untouched {A B} (p : prog A) (f : A → prog B) :
  keeps_ untouched p → (∀ a, on untouched (f a) stays_in_step) →
  on untouched (p ≫= f) stays_in_step.
Proof.
  intros Hp Hf. apply (on_conn_bind _ _ _ _ _ _ untouched); [|done].
  eapply on_conn_mono; [exact Hp|done|]. intros [] c Hc; [by apply untouched_serving|done].
Qed.

Lemma org_id_keeps P : keeps_ P org_id.
Proof. unfold org_id. keeps_tac. Qed.

Lemma of_res_keeps {A} (r : res A) P : keeps_ P (of_res r).
Proof. destruct r; [apply keeps_raise|apply keeps_ret]. Qed.

Lemma tool_call_sync :
  on untouched (handle_tool_call float_of_text blake3_hexdigest exc_str py_str srv) stays_in_step.
Proof.
  unfold handle_tool_call. apply sync_read_body. intros body.
  apply sync_bind; [apply of_res_keeps|]. intros [[[sid tool] args] step].
  apply sync_bind; [apply org_id_keeps|]. intros org.
  apply sync_bind; [apply of_res_keeps|]. intros sig.
  apply sync_bind; [apply emit_event_keeps|]. intros _. apply decide_call_sync.
Qed.

Lemma effect_action_sync id action :
  on untouched (handle_effect_action float_of_text id action) stays_in_step.
Proof.
  unfold handle_effect_action. apply bind_untouched; [apply org_id_keeps|]. intros org.
  apply sync_read_body. intros body. sync_tac.
Qed.

Lemma approval_decision_sync id action :
  on untouched (handle_approval_decision float_of_text id action) stays_in_step.
Proof.
  unfold handle_approval_decision. apply bind_untouched; [apply org_id_keeps|]. intros org.
  apply bind_untouched; [by apply keeps_shared|]. intros [a|]; [|apply sync_untouched; sync_tac].
  case_match; [apply sync_untouched; sync_tac|]. apply sync_read_body. intros body. sync_tac.
Qed.

Lemma list_approvals_sync rq : on untouched (handle_list_approvals rq) stays_in_step.
Proof. apply sync_untouched. unfold handle_list_approvals. sync_tac. Qed.

(** The event stream closes its connection. *)
Definition closes (c : conn) : Prop := close_connection c = true.

Lemma returns_ret {A} (a : A) P : returns P (mret a).
Proof. by apply on_conn_ret. Qed.

Lemma returns_bind {A B} (p : prog A) (f : A → prog B) P :
  returns P p → (∀ a, returns P (f a)) → returns P (p ≫= f).
Proof.
  intros Hp Hf. eapply on_conn_bind; [|exact Hf]. eapply on_conn_mono; [exact Hp|done|]. by intros [].
Qed.

Lemma returns_sub_get i P : returns P (perform (OSubGet i)).
Proof. intros w c Hc. rewrite exec_perform. simpl. by destruct (sub_get i (w_hub w)). Qed.

Lemma events_loop_returns rounds alias i P : returns P (events_loop rounds alias i).
Proof.
  induction rounds as [|n IH]; simpl events_loop; [apply returns_ret|].
  apply returns_bind; [apply returns_sub_get|]. intros x.
  assert (∀ f : list stream_out → list stream_out,
    returns P (out ← events_loop n alias i; mret (f out))) as Hmore.
  { intros f. apply returns_bind; [apply IH|]. intros out. apply returns_ret. }
  destruct x as [[env|]|]; [|apply returns_ret|apply (Hmore (cons StreamPing))].
  destruct env; try apply returns_ret.
  apply returns_bind; [by intros w c Hc|]. intros t.
  case_match; [apply (Hmore (cons (StreamFrame _)))|apply returns_ret].
Qed.

Lemma unread_blind : id_blind untouched.
Proof. intros c r H. exact H. Qed.

Lemma events_sync rq rounds : on untouched (handle_events rq rounds) stays_in_step.
Proof.
  unfold handle_events. apply bind_untouched; [apply keeps_get_conn|]. intros c.
  apply bind_untouched; [by apply keeps_shared|]. intros i.
  apply bind_untouched; [apply keeps_returns, request_id_returns, unread_blind|]. intros rid.
  apply (on_conn_bind _ _ _ _ _ _ closes); [by apply on_conn_own|]. intros _.
  apply (on_conn_mono _ _ _ _ closes _
    (λ r c, match r with inr _ => closes c | inl _ => False end)); [|done|].
  - apply returns_bind; [apply events_loop_returns|]. intros out.
    apply returns_bind; [by intros w c' Hc|]. intros _. apply returns_ret.
  - intros [e|out] c' Hc; [done|by right].
Qed.

(** ** [dispatch] *)

Lemma replied_sync p : on untouched p stays_in_step → on untouched (replied p) stays_in_step.
Proof.
  intros Hp. unfold replied. apply (on_conn_bind _ _ _ _ _ _ in_step).
  - eapply on_conn_mono; [exact Hp|done|]. by intros [].
  - intros r. by apply on_conn_ret.
Qed.

Lemma require_sync rq allowed (k : prog reply) :
  on untouched k stays_in_step → on untouched (_ ← require_method rq allowed; k) stays_in_step.
Proof.
  intros Hk. apply bind_untouched; [|done]. unfold require_method.
  case_match; [apply keeps_ret|apply keeps_raise].
Qed.

Lemma route_sync rq rounds :
  on untouched (route float_of_text blake3_hexdigest exc_str py_str srv rq rounds) stays_in_step.
Proof.
  unfold route. cbv zeta.
  case_match; [apply require_sync, replied_sync, sync_untouched, send_json_sync|].
  case_match.
  { apply require_sync, (on_conn_bind _ _ _ _ _ _ in_step); [|intros; by apply on_conn_ret].
    eapply on_conn_mono; [apply events_sync|done|]. by intros []. }
  case_match; [apply require_sync, replied_sync, list_approvals_sync|].
  case_match; [apply require_sync, replied_sync, tool_call_sync|].
  destruct (match_action _ _ _) as [[id action]|].
  { apply require_sync, replied_sync, approval_decision_sync. }
  destruct (match_action _ _ _) as [[id action]|].
  { apply require_sync, replied_sync, effect_action_sync. }
  apply replied_sync, sync_untouched, send_error_sync.
Qed.

Lemma replied_error_sync s code m : on serving_conn (replied (send_error s code m)) stays_in_step.
Proof.
  unfold replied. apply (on_conn_bind _ _ _ _ _ _ in_step).
  - eapply on_conn_mono; [apply send_error_sync|done|]. by intros [].
  - intros r. by apply on_conn_ret.
Qed.

Lemma dispatch_sync rq rounds :
  on untouched (dispatch float_of_text blake3_hexdigest exc_str py_str srv rq rounds) stays_in_step.
Proof.
  unfold dispatch. apply (on_conn_catch _ _ _ _ _ _ serving_conn).
  - eapply on_conn_mono; [apply route_sync|done|]. by intros [].
  - intros e. destruct e; simpl; (apply replied_error_sync || apply sync_raise).
Qed.
End sync.
