(* ===== verification/DevWp.v ===== *)
(** * Total-correctness rules for the handler programs

    [wp p Q w c] says that [p], run alone from the state [(w, c)], returns a
    value satisfying [Q]; it is false when [p] raises. The rules step through a
    handler one operation at a time; [quiet] relates the states before and
    after the operations that answer a request without touching the journal. *)

From S2P Require Import Prelude Py Json Signature Journal Broadcaster Framing World Fnmatch.
From S2P Require Import DevHandler.
Open Scope Z_scope.
Open Scope undolog_scope.

(** The journal and the registered subscribers are untouched; UUIDs are only
    consumed. *)
Record quiet (w w' : world) : Prop := {
  quiet_db : w_db w' = w_db w;
  quiet_uuids : (w_uuids w ≤ w_uuids w')%nat;
  quiet_subs : hub_subs (w_hub w') = hub_subs (w_hub w);
  quiet_closed : hub_closed (w_hub w') = hub_closed (w_hub w);
}.

#[export] Instance quiet_preorder : PreOrder quiet.
Proof.
  split.
  - intros w. by split.
  - intros w1 w2 w3 [] []. split; (congruence || lia).
Qed.

#[export] Hint Extern 1 (quiet ?w ?w) => reflexivity : undolog.

Section wp.
Variable uuid4_str : nat → pystr.
Variable utc_now_str : nat → pystr.
Variable time_ns_at : nat → Z.

Abbreviation run := (exec uuid4_str utc_now_str time_ns_at).
Abbreviation op_run := (run_op uuid4_str utc_now_str time_ns_at).

Definition wp {A} (p : prog A) (Q : A → world → conn → Prop) (w : world) (c : conn) : Prop :=
  match run p w c with
  | (inr a, w', c') => Q a w' c'
  | (inl _, _, _) => False
  end.

#[local] Arguments wp : simpl never.

Lemma wp_mono {A} (p : prog A) (Q R : A → world → conn → Prop) w c :
  wp p Q w c → (∀ a w' c', Q a w' c' → R a w' c') → wp p R w c.
Proof. unfold wp. destruct (run p w c) as [[[]?]?]; auto. Qed.

Lemma wp_ret {A} (a : A) (Q : A → world → conn → Prop) w c : Q a w c → wp (mret a) Q w c.
Proof. done. Qed.

Lemma wp_bind {A B} (p : prog A) (f : A → prog B) Q w c :
  wp p (λ a w' c', wp (f a) Q w' c') w c → wp (p ≫= f) Q w c.
Proof. unfold wp. rewrite exec_bind. destruct (run p w c) as [[[]?]?]; auto. Qed.

Lemma wp_perform {X} (o : op X) Q w c :
  match op_run o w c with (inr x, w', c') => Q x w' c' | (inl _, _, _) => False end →
  wp (perform o) Q w c.
Proof. unfold wp. by rewrite exec_perform. Qed.

Lemma wp_exec {A} (p : prog A) Q w c :
  wp p Q w c ↔ ∃ a w' c', run p w c = (inr a, w', c') ∧ Q a w' c'.
Proof.
  unfold wp. destruct (run p w c) as [[[e|a] w'] c']; [naive_solver|].
  split; [eauto 6|]. by intros (? & ? & ? & [= -> -> ->] & ?).
Qed.

Lemma wp_of_res {A} (r : res A) a (Q : A → world → conn → Prop) w c :
  r = inr a → Q a w c → wp (of_res r) Q w c.
Proof. by intros ->. Qed.

(** A program that does not raise keeps its value under [catch]. *)
Lemma wp_catch {A} (p : prog A) h Q w c : wp p Q w c → wp (catch p h) Q w c.
Proof. unfold wp. rewrite exec_catch. by destruct (run p w c) as [[[]?]?]. Qed.

(** ** Operations *)

Lemma wp_uuid4 Q w c :
  (∀ w', w_db w' = w_db w → w_hub w' = w_hub w → w_uuids w' = S (w_uuids w) →
     Q (uuid4_str (w_uuids w)) w' c) →
  wp (perform OUuid4) Q w c.
Proof. intros H. apply wp_perform. simpl. by apply H. Qed.

Lemma wp_utc_now Q w c :
  (∀ w' now, quiet w w' → w_uuids w' = w_uuids w → Q now w' c) → wp (perform OUtcNow) Q w c.
Proof. intros H. apply wp_perform. simpl. by apply H. Qed.

Lemma wp_emit env Q w c :
  (∀ w', quiet w w' → w_uuids w' = w_uuids w → Q () w' c) → wp (perform (OEmit env)) Q w c.
Proof. intros H. apply wp_perform. simpl. by apply H. Qed.

Lemma wp_get_conn Q w c : Q c w c → wp get_conn Q w c.
Proof. done. Qed.

(** ** Helpers of the handler *)

Lemma wp_emit_event ty org s e a p Q w c :
  (∀ w', quiet w w' → w_uuids w' = w_uuids w → Q () w' c) →
  wp (emit_event ty org s e a p) Q w c.
Proof.
  intros H. unfold emit_event. apply wp_bind, wp_utc_now. intros w1 now Hq1 Hu1.
  apply wp_emit. intros w2 Hq2 Hu2. apply H; [by etrans|congruence].
Qed.

(** The identifier of the request is the handler's, drawn when it has none. *)
Lemma wp_request_id Q w c :
  (∀ rid w', quiet w w' → request_id c = Some rid ∨
       request_id c = None ∧ rid = uuid4_str (w_uuids w) → Q rid w' (set_request_id rid c)) →
  wp get_request_id Q w c.
Proof.
  intros H. unfold get_request_id. apply wp_bind, wp_get_conn.
  destruct (request_id c) as [rid|] eqn:E.
  - apply wp_ret. assert (c = set_request_id rid c) as Hc by (destruct c; simpl in *; by rewrite E).
    rewrite Hc. apply H; auto with undolog.
  - apply wp_bind, wp_uuid4. intros w' Hdb Hhub Hu. apply wp_bind, wp_perform. simpl.
    apply wp_ret. apply H; [|by right]. split; rewrite ?Hdb, ?Hhub; try done. lia.
Qed.

Lemma wp_send_json status payload Q w c :
  (∀ w' c' rid, quiet w w' → rfile c' = rfile (finish_response c).2 →
     close_connection c' = close_connection (finish_response c).2 →
     Q (Response status payload (finish_response c).1 rid) w' c') →
  wp (send_json status payload) Q w c.
Proof.
  intros H. unfold send_json. apply wp_bind, wp_perform. simpl.
  destruct (finish_response c) as [b c1] eqn:E. simpl in *.
  apply wp_bind, wp_request_id. intros rid w' Hq _. apply wp_ret. by apply H.
Qed.

(** Answering does not depend on the identifier of the request. *)
Lemma finish_response_request_id rid c :
  finish_response (set_request_id rid c) =
    ((finish_response c).1, set_request_id rid (finish_response c).2).
Proof.
  destruct c as [r hs br cc ri].
  unfold finish_response, discard_unread_body, body_is_unread, is_chunked,
    content_length_text, set_request_id, set_body_read, set_close, set_rfile; simpl.
  destruct br; simpl; [done|].
  destruct (header_get $"Transfer-Encoding" hs) eqn:E1; simpl; rewrite ?E1; [done|].
  destruct (py_int 10 _) as [n|] eqn:E2; simpl; rewrite ?E1, ?E2; [|done].
  destruct (n =? 0); simpl; done.
Qed.

Lemma wp_send_error status code message Q w c :
  (∀ w' c' rid now, quiet w w' → rfile c' = rfile (finish_response c).2 →
     close_connection c' = close_connection (finish_response c).2 →
     Q (Response status
          (JObj [($"request_id", JStr rid); ($"code", JStr code);
                 ($"message", JStr message); ($"timestamp", JStr now)])
          (finish_response c).1 rid) w' c') →
  wp (send_error status code message) Q w c.
Proof.
  intros H. unfold send_error. apply wp_bind, wp_request_id. intros rid w1 Hq1 _.
  apply wp_bind, wp_utc_now. intros w2 now Hq2 _.
  unfold send_json. apply wp_bind, wp_perform. simpl.
  rewrite finish_response_request_id. simpl.
  apply wp_bind, wp_request_id. intros rid' w3 Hq3 [Hr'|[Hr' _]]; [|done].
  simpl in Hr'. injection Hr' as <-. apply wp_ret. apply H; [|done..].
  by etrans; [|etrans].
Qed.

Lemma wp_org_id Q w c : Q (org_of c) w c → wp org_id Q w c.
Proof. intros H. unfold org_id. apply wp_bind, wp_get_conn, wp_ret. apply H. Qed.

Lemma wp_approval_payload id Q w c : (∀ p, Q p w c) → wp (approval_payload id) Q w c.
Proof. intros H. unfold approval_payload. apply wp_bind, wp_perform. simpl. by apply wp_ret. Qed.

(** ** Journal methods *)

Lemma wp_find_live_effect sig (Q : option effect → world → conn → Prop) w c :
  Q (find_live_effect sig (w_db w)) w c → wp (DevJournal.find_live_effect sig) Q w c.
Proof. intros H. by apply wp_perform. Qed.

Lemma wp_find_pending_approval id (Q : option approval → world → conn → Prop) w c :
  Q (find_pending_approval id (w_db w)) w c → wp (DevJournal.find_pending_approval id) Q w c.
Proof. intros H. by apply wp_perform. Qed.

Lemma wp_get_approval id (Q : option approval → world → conn → Prop) w c :
  Q (get_approval id (w_db w)) w c → wp (DevJournal.get_approval id) Q w c.
Proof. intros H. by apply wp_perform. Qed.

Lemma wp_list_approvals st limit (Q : list approval → world → conn → Prop) w c :
  Q (list_approvals st limit (w_db w)) w c → wp (DevJournal.list_approvals st limit) Q w c.
Proof. intros H. by apply wp_perform. Qed.

(** A statement that timestamps its row: the clock is read first, then the
    statement runs on the journal as it was. *)
Lemma wp_stamped (o : pystr → op bool) (stmt : pystr → db → res bool * db) Q w c :
  (∀ now w0 c0, op_run (o now) w0 c0 = lift_db (stmt now (w_db w0)) w0 c0) →
  (∀ now, ∃ b w', stmt now (w_db w) = (inr b, w_db w') ∧ ∀ w'',
     w_db w'' = w_db w' → w_uuids w'' = w_uuids w → w_hub w'' = w_hub w → Q b w'' c) →
  wp (now ← perform OUtcNow; perform (o now)) Q w c.
Proof.
  intros Ho H. apply wp_bind, wp_perform. simpl. apply wp_perform. rewrite Ho. simpl.
  destruct (H (utc_now_str (w_ticks w))) as (b & w' & E & HQ).
  unfold lift_db. rewrite E. simpl. by apply HQ.
Qed.

Lemma wp_record_replay id (Q : bool → world → conn → Prop) w c :
  (∀ now b w', update_replay id now (w_db w) = (inr b, w_db w') →
     w_uuids w' = w_uuids w → w_hub w' = w_hub w → Q b w' c) →
  wp (DevJournal.record_replay id) Q w c.
Proof.
  intros H. apply (wp_stamped (OUpdateReplay id) (update_replay id)); [done|].
  intros now. eexists _, (set_db _ w). split; [done|]. intros w' E1 E2 E3.
  eapply (H now); [by rewrite E1|done..].
Qed.

Lemma wp_resolve_approval id st (Q : bool → world → conn → Prop) w c :
  (∀ now b w', resolve_approval id st now (w_db w) = (inr b, w_db w') →
     w_uuids w' = w_uuids w → w_hub w' = w_hub w → Q b w' c) →
  wp (DevJournal.resolve_approval id st) Q w c.
Proof.
  intros H. apply (wp_stamped (OResolveApproval id st) (resolve_approval id st)); [done|].
  intros now. eexists _, (set_db _ w). split; [done|]. intros w' E1 E2 E3.
  eapply (H now); [by rewrite E1|done..].
Qed.

(** An update that the journal does not refuse. *)
Definition updates id st r err (d : db) (b : bool) (d' : pystr → db) : Prop :=
  ∀ now, update_effect id st r err now d = (inr b, d' now).

Lemma wp_update_effect id st r err b d' (Q : bool → world → conn → Prop) w c :
  updates id st r err (w_db w) b d' →
  (∀ now w', w_db w' = d' now → w_uuids w' = w_uuids w → w_hub w' = w_hub w → Q b w' c) →
  wp (now ← perform OUtcNow; perform (OUpdateEffect id st r err now)) Q w c.
Proof.
  intros Hu H.
  apply (wp_stamped (OUpdateEffect id st r err) (update_effect id st r err)); [done|].
  intros now. exists b, (set_db (d' now) w). split; [apply Hu|]. intros w' E1 E2 E3.
  by eapply (H now).
Qed.

(** Reading a body that decodes. *)
Lemma wp_read_body ft body c1 Q w c :
  read_body ft c = (inr body, c1) → Q body w c1 → wp (read_body_ ft) Q w c.
Proof. intros H HQ. apply wp_perform. simpl. by rewrite H. Qed.
End wp.

Arguments wp : simpl never.
