(* ===== verification/DevSpec.v ===== *)
(** * What the routes of the development server do

    Total specifications of the routes, branch by branch: the answer, the
    journal afterwards, and the identifiers drawn. *)

From S2P Require Import Prelude Py Json Signature Journal Broadcaster Framing World Fnmatch.
From S2P Require Import DevHandler DevWp.
Open Scope Z_scope.
Open Scope undolog_scope.

Section spec.
Variable float_of_text : pystr → pyfloat.
Variable blake3_hexdigest : bytes → pystr.
Variable exc_str : pyexc → pystr.
Variable py_str : json → pystr.
Variable srv : server.
Variable uuid4_str : nat → pystr.
Variable utc_now_str : nat → pystr.
Variable time_ns_at : nat → Z.

Abbreviation wpr := (wp uuid4_str utc_now_str time_ns_at).
Abbreviation tool_call := (handle_tool_call float_of_text blake3_hexdigest exc_str py_str srv).
Abbreviation dispatch_ := (dispatch float_of_text blake3_hexdigest exc_str py_str srv).
Abbreviation fresh := (uuids_fresh uuid4_str).

Context `{!id_laws uuid4_str utc_now_str}.

(** ** Freshness of the identifiers *)

Lemma fresh_quiet w w' : fresh w → quiet w w' → fresh w'.
Proof. intros Hf [Hdb Hu _ _] n Hn. rewrite Hdb. apply Hf. lia. Qed.

Lemma fresh_db w w' :
  fresh w → e_id <$> effects (w_db w') = e_id <$> effects (w_db w) →
  a_id <$> approvals (w_db w') = a_id <$> approvals (w_db w) →
  (w_uuids w ≤ w_uuids w')%nat → fresh w'.
Proof. intros Hf He Ha Hu n Hn. rewrite He, Ha. apply Hf. lia. Qed.

Lemma bindable_tier (tier : option pystr) status :
  forallb bindable (option_list tier) = true →
  bindable (DevJournal.resolve_tier tier status) = true.
Proof.
  destruct tier as [[|c t]|]; simpl; try rewrite andb_true_r; try done;
    intros _; by case_bool_decide.
Qed.

(** ** [create_effect] *)

Lemma wp_create_effect org sid tool step args sig status aid ver tier Q w c :
  fresh w → find_live_effect sig (w_db w) = None →
  forallb bindable ([org; sid; tool; ver; sig] ++ option_list aid ++ option_list tier) = true →
  (∀ a, aid = Some a → ∃ n, (n < w_uuids w)%nat ∧ a = uuid4_str n
      ∧ a ∉ (a_id <$> approvals (w_db w))) →
  (∀ w' now, let e := DevJournal.new_effect (uuid4_str (w_uuids w)) now org sid tool step args sig
                  status aid ver (DevJournal.resolve_tier tier status) in
     w_db w' = Db (effects (w_db w) ++ [e]) (approvals (w_db w) ++ option_list (approval_of e <$> aid)) →
     w_hub w' = w_hub w → fresh w' → w_uuids w' = S (w_uuids w) →
     Q (Some (uuid4_str (w_uuids w))) w' c) →
  wpr (DevJournal.create_effect org sid tool step args sig status aid ver tier) Q w c.
Proof.
  intros Hf Hsig Hb Haid H. unfold DevJournal.create_effect.
  apply wp_bind, wp_perform. simpl. apply wp_bind, wp_perform. simpl.
  apply wp_bind, wp_perform. simpl.
  rewrite !forallb_app in Hb. simpl in Hb. bool_to_prop.
  set (e := DevJournal.new_effect _ _ _ _ _ _ _ _ _ _ _ _).
  rewrite insert_effect_new; simpl.
  - apply wp_ret. eapply (H _ (utc_now_str (w_ticks w))); [done..| |done].
    intros n Hn. simpl in Hn. simpl. rewrite !fmap_app. destruct (Hf n ltac:(lia)) as [H1' H2'].
    rewrite !not_elem_of_app. split_and!; try done; simpl.
    + rewrite list_elem_of_singleton. intros ?%uuid4_inj. lia.
    + destruct aid as [a|]; simpl; [|apply not_elem_of_nil].
      destruct (Haid a) as (m & Hm & -> & _); [done|].
      rewrite list_elem_of_singleton. intros ?%uuid4_inj. lia.
  - rewrite uuid4_text, now_text, bindable_tier by done.
    repeat match goal with H : bindable _ = true |- _ => rewrite H end. simpl. done.
  - apply Hf. lia.
  - done.
  - intros ap Hap. destruct aid as [a|]; [|done]. injection Hap as <-. simpl.
    destruct (Haid a) as (_ & _ & _ & ?); done.
Qed.

(** ** [POST /mcp/tool_call] *)

(** A request the server understands: its body decodes to a call, whose
    signature can be computed and whose texts can be stored. *)
Record intercept (c : conn) (sid tool : pystr) (args : json) (step : Z) (sig : pystr) := {
  ic_body : list (pystr * json);
  ic_conn : conn;
  ic_read : read_body float_of_text c = (inr ic_body, ic_conn);
  ic_params : tool_call_params ic_body = inr (sid, tool, args, step);
  ic_signature : tool_call_signature blake3_hexdigest exc_str sid step tool args = inr sig;
  ic_bind : forallb bindable [org_of ic_conn; sid; tool; tool_version_of py_str ic_body; sig] = true;
}.
Arguments ic_body {c sid tool args step sig} _.
Arguments ic_conn {c sid tool args step sig} _.

Lemma wp_tool_call c sid tool args step sig (I : intercept c sid tool args step sig) Q w :
  (∀ w', quiet w w' → w_uuids w' = w_uuids w →
     wpr (decide_call srv (org_of (ic_conn I)) sid tool step args sig
            (tool_version_of py_str (ic_body I))) Q w' (ic_conn I)) →
  wpr tool_call Q w c.
Proof.
  intros H. unfold handle_tool_call. apply wp_bind.
  eapply wp_read_body; [apply (ic_read _ _ _ _ _ _ I)|].
  apply wp_bind. eapply wp_of_res; [apply (ic_params _ _ _ _ _ _ I)|].
  apply wp_bind, wp_org_id. apply wp_bind.
  eapply wp_of_res; [apply (ic_signature _ _ _ _ _ _ I)|].
  apply wp_bind, wp_emit_event. intros w' Hq Hu. by apply H.
Qed.

(** The routes are reached through [dispatch]. *)
Lemma wp_dispatch_tool_call rounds (Q : response → world → conn → Prop) params w c :
  wpr tool_call Q w c →
  wpr (dispatch_ (Request $"POST" $"/mcp/tool_call" params) rounds)
    (λ rep w' c', ∃ r, rep = Reply r ∧ Q r w' c') w c.
Proof.
  intros H. apply wp_catch. unfold route. apply wp_bind, wp_ret. unfold replied.
  apply wp_bind. eapply wp_mono; [exact H|]. intros r w' c' HQ. apply wp_ret. eauto.
Qed.

(** A new call of a tool that needs no approval runs: it is journaled as
    executing and answered with its identifier. *)
Lemma tool_call_executes c sid tool args step sig (I : intercept c sid tool args step sig) w :
  journal_ok (w_db w) → fresh w →
  find_live_effect sig (w_db w) = None → requires_approval srv tool = false →
  wpr tool_call (λ r w' c',
    ∃ e, rs_status r = 200 ∧ rs_body r = executed_body (JStr (e_id e)) ∧
      w_db w' = Db (effects (w_db w) ++ [e]) (approvals (w_db w)) ∧
      e_id e = uuid4_str (w_uuids w) ∧ e_status e = Executing ∧ e_signature e = sig ∧
      e_session_id e = sid ∧ e_tool_name e = tool ∧ e_step_index e = step ∧ e_args e = args ∧
      find_live_effect sig (w_db w') = Some e ∧ fresh w') w c.
Proof.
  intros Hok Hf Hsig Hreq. apply (wp_tool_call _ _ _ _ _ _ I). intros w1 Hq1 Hu1.
  unfold decide_call. apply wp_bind, wp_find_live_effect. rewrite (quiet_db _ _ Hq1), Hsig, Hreq.
  apply wp_bind. unfold claim_call. rewrite Hreq. apply wp_bind, wp_ret.
  apply wp_bind. apply wp_create_effect.
  - by eapply fresh_quiet.
  - by rewrite (quiet_db _ _ Hq1).
  - pose proof (ic_bind _ _ _ _ _ _ I) as Hb. simpl in *. bool_to_prop.
    repeat match goal with H : bindable _ = true |- _ => rewrite H end. done.
  - done.
  - intros w2 now e Hdb Hhub Hf2 Hu2. apply wp_ret. cbv beta iota.
    apply wp_send_json. intros w3 c3 rid Hq3 _ _.
    assert (w_db w3 = Db (effects (w_db w) ++ [e]) (approvals (w_db w))) as Hdb3.
    { rewrite (quiet_db _ _ Hq3), Hdb, (quiet_db _ _ Hq1). simpl. by rewrite app_nil_r. }
    exists e. subst e. rewrite Hu1 in *. split_and!; try done.
    + rewrite Hdb3. unfold find_live_effect in *. simpl. rewrite first_where_app, Hsig. simpl.
      unfold holds_signature. simpl. by rewrite str_eqb_refl.
    + by eapply fresh_quiet.
Qed.

(** ** Calls the journal already holds *)

Lemma wp_decide_existing org sid tool step args sig ver e (Q : response → world → conn → Prop) w c :
  find_live_effect sig (w_db w) = Some e →
  wpr (respond_for_live_effect srv e org) Q w c →
  wpr (decide_call srv org sid tool step args sig ver) Q w c.
Proof.
  intros He H. unfold decide_call. apply wp_bind, wp_find_live_effect. rewrite He.
  by apply wp_bind, wp_ret.
Qed.

(** What answering for a live effect does, by its status. *)
Lemma wp_respond_committed e org (Q : response → world → conn → Prop) w c :
  e_status e = Committed →
  (∀ now w' c' b rid,
     w_db w' = (update_replay (e_id e) now (w_db w)).2 → (w_uuids w ≤ w_uuids w')%nat →
     Q (Response 200 (replayed_body e) b rid) w' c') →
  wpr (respond_for_live_effect srv e org) Q w c.
Proof.
  intros Hst H. unfold respond_for_live_effect. rewrite Hst.
  apply wp_bind, wp_record_replay. intros now b w1 E1 Hu1 _.
  apply wp_bind, wp_emit_event. intros w2 Hq2 _.
  apply wp_send_json. intros w3 c3 rid Hq3 _ _. apply (H now).
  - by rewrite (quiet_db _ _ Hq3), (quiet_db _ _ Hq2), E1.
  - pose proof (quiet_uuids _ _ Hq2). pose proof (quiet_uuids _ _ Hq3). lia.
Qed.

Lemma wp_respond_executing e org (Q : response → world → conn → Prop) w c :
  e_status e = Executing →
  (∀ w' c' b rid, quiet w w' → Q (Response 200 (executed_body (JStr (e_id e))) b rid) w' c') →
  wpr (respond_for_live_effect srv e org) Q w c.
Proof.
  intros Hst H. unfold respond_for_live_effect. rewrite Hst.
  apply wp_send_json. intros w1 c1 rid Hq _ _. by apply H.
Qed.

Lemma wp_respond_held e a org (Q : response → world → conn → Prop) w c :
  e_status e = AwaitingApproval → auto_approve srv = false →
  find_pending_approval (e_id e) (w_db w) = Some a →
  (∀ w' c' b rid, quiet w w' → Q (Response 202 (pending_body (a_id a)) b rid) w' c') →
  wpr (respond_for_live_effect srv e org) Q w c.
Proof.
  intros Hst Hauto Ha H. unfold respond_for_live_effect. rewrite Hst, Hauto.
  apply wp_bind, wp_find_pending_approval. rewrite Ha.
  apply wp_send_json. intros w1 c1 rid Hq _ _. by apply H.
Qed.

(** A held call whose approval is no longer pending is answered as free to run,
    whatever the decision was. *)
Lemma wp_respond_resolved e org (Q : response → world → conn → Prop) w c :
  e_status e = AwaitingApproval →
  find_pending_approval (e_id e) (w_db w) = None →
  (∀ w' c' b rid, quiet w w' → Q (Response 200 (executed_body (JStr (e_id e))) b rid) w' c') →
  wpr (respond_for_live_effect srv e org) Q w c.
Proof.
  intros Hst Ha H. unfold respond_for_live_effect. rewrite Hst.
  destruct (auto_approve srv); apply wp_bind, wp_find_pending_approval; rewrite Ha;
    [apply wp_bind, wp_ret|]; apply wp_send_json; intros w1 c1 rid Hq _ _; by apply H.
Qed.

Lemma wp_respond_auto e a org (Q : response → world → conn → Prop) w c :
  e_status e = AwaitingApproval → auto_approve srv = true →
  find_pending_approval (e_id e) (w_db w) = Some a →
  (∀ now w' c' b rid,
     w_db w' = (resolve_approval (a_id a) Approved now (w_db w)).2 → (w_uuids w ≤ w_uuids w')%nat →
     Q (Response 200 (executed_body (JStr (e_id e))) b rid) w' c') →
  wpr (respond_for_live_effect srv e org) Q w c.
Proof.
  intros Hst Hauto Ha H. unfold respond_for_live_effect. rewrite Hst, Hauto.
  apply wp_bind, wp_find_pending_approval. rewrite Ha.
  apply wp_bind, wp_bind, wp_resolve_approval. intros now b w1 E1 Hu1 _.
  apply wp_bind, wp_approval_payload. intros p. apply wp_emit_event. intros w2 Hq2 _.
  apply wp_send_json. intros w3 c3 rid Hq3 _ _. apply (H now).
  - by rewrite (quiet_db _ _ Hq3), (quiet_db _ _ Hq2), E1.
  - pose proof (quiet_uuids _ _ Hq2). pose proof (quiet_uuids _ _ Hq3). lia.
Qed.

(** ** New calls of gated tools *)

Definition awaits (e : effect) (a : approval) : Prop :=
  e_status e = AwaitingApproval ∧ e_approval_id e = Some (a_id a) ∧
  a_effect_id a = e_id e ∧ a_status a = Pending ∧
  a_tool_name a = e_tool_name e ∧ a_args a = e_args e ∧ a_session_id a = e_session_id e.

(** A new call of a gated tool waits: effect and approval are journaled
    together and the approval is reported. *)
Lemma tool_call_holds c sid tool args step sig (I : intercept c sid tool args step sig) w :
  journal_ok (w_db w) → fresh w →
  find_live_effect sig (w_db w) = None → requires_approval srv tool = true →
  auto_approve srv = false →
  wpr tool_call (λ r w' c',
    ∃ e a, rs_status r = 202 ∧ rs_body r = pending_body (a_id a) ∧
      w_db w' = Db (effects (w_db w) ++ [e]) (approvals (w_db w) ++ [a]) ∧
      e_id e = uuid4_str (S (w_uuids w)) ∧ awaits e a ∧ e_signature e = sig ∧ e_session_id e = sid ∧ e_tool_name e = tool ∧
      e_step_index e = step ∧ e_args e = args ∧
      find_live_effect sig (w_db w') = Some e ∧ fresh w') w c.
Proof.
  intros Hok Hf Hsig Hreq Hauto. apply (wp_tool_call _ _ _ _ _ _ I). intros w1 Hq1 Hu1.
  unfold decide_call. apply wp_bind, wp_find_live_effect. rewrite (quiet_db _ _ Hq1), Hsig, Hreq.
  apply wp_bind. unfold claim_call. rewrite Hreq, Hauto.
  apply wp_bind, wp_bind, wp_uuid4. intros w2 Hdb2 Hhub2 Hu2. apply wp_ret.
  apply wp_bind. apply wp_create_effect.
  - eapply fresh_db; [by eapply fresh_quiet|by rewrite Hdb2|by rewrite Hdb2|lia].
  - by rewrite Hdb2, (quiet_db _ _ Hq1).
  - pose proof (ic_bind _ _ _ _ _ _ I) as Hb. simpl in *. bool_to_prop.
    rewrite uuid4_text.
    repeat match goal with H : bindable _ = true |- _ => rewrite H end. done.
  - intros a [= <-]. exists (w_uuids w1). split_and!; [lia|done|].
    rewrite Hdb2, (quiet_db _ _ Hq1). apply Hf. lia.
  - intros w3 now e Hdb3 Hhub3 Hf3 Hu3. apply wp_ret. cbv beta iota.
    apply wp_bind, wp_emit_event. intros w4 Hq4 _.
    apply wp_send_json. intros w5 c5 rid Hq5 _ _.
    assert (w_db w5 = Db (effects (w_db w) ++ [e])
              (approvals (w_db w) ++ [approval_of e (uuid4_str (w_uuids w1))])) as Hdb5.
    { by rewrite (quiet_db _ _ Hq5), (quiet_db _ _ Hq4), Hdb3, Hdb2, (quiet_db _ _ Hq1). }
    exists e, (approval_of e (uuid4_str (w_uuids w1))). subst e. split_and!; try done.
    + simpl. by rewrite Hu2, Hu1.
    + rewrite Hdb5. unfold find_live_effect in *. simpl. rewrite first_where_app, Hsig. simpl.
      unfold holds_signature. simpl. by rewrite str_eqb_refl.
    + do 2 (eapply fresh_quiet; [|done]). done.
Qed.

(** Resolving an approval that was just recorded. *)
Lemma resolve_last d e aid st now :
  aid ∉ (a_id <$> approvals d) →
  resolve_approval aid st now (Db (effects d ++ [e]) (approvals d ++ [approval_of e aid])) =
    (inr true, Db (effects d ++ [e])
                  (approvals d ++ [set_resolution st now (approval_of e aid)])).
Proof.
  intros Hnew.
  assert (is_pending_approval aid (approval_of e aid) = true) as Hp.
  { unfold is_pending_approval. rewrite (proj2 (has_approval_id_iff _ _)) by done.
    by rewrite bool_decide_true. }
  unfold resolve_approval. simpl.
  rewrite (count_where_pos _ _ (approval_of e aid)); [|apply elem_of_snoc; by right|done].
  rewrite update_where_app, update_where_none.
  - do 3 f_equal. unfold update_where. simpl. by rewrite Hp.
  - intros a Ha. unfold is_pending_approval. apply andb_false_iff. left.
    apply not_true_iff_false. rewrite has_approval_id_iff. intros <-.
    apply Hnew. by apply list_elem_of_fmap_2.
Qed.

(** With auto-approval, a new call of a gated tool is journaled with an approval
    that is granted at once, and runs. *)
Lemma tool_call_auto c sid tool args step sig (I : intercept c sid tool args step sig) w :
  journal_ok (w_db w) → fresh w →
  find_live_effect sig (w_db w) = None → requires_approval srv tool = true →
  auto_approve srv = true →
  wpr tool_call (λ r w' c',
    ∃ e a, rs_status r = 200 ∧ rs_body r = executed_body (JStr (e_id e)) ∧
      w_db w' = Db (effects (w_db w) ++ [e]) (approvals (w_db w) ++ [a]) ∧
      e_id e = uuid4_str (S (w_uuids w)) ∧ e_status e = Executing ∧ e_signature e = sig ∧
      e_session_id e = sid ∧ e_tool_name e = tool ∧ e_step_index e = step ∧ e_args e = args ∧
      a_effect_id a = e_id e ∧ a_status a = Approved ∧
      e_approval_id e = Some (a_id a) ∧
      find_live_effect sig (w_db w') = Some e ∧ fresh w') w c.
Proof.
  intros Hok Hf Hsig Hreq Hauto. apply (wp_tool_call _ _ _ _ _ _ I). intros w1 Hq1 Hu1.
  unfold decide_call. apply wp_bind, wp_find_live_effect. rewrite (quiet_db _ _ Hq1), Hsig, Hreq.
  apply wp_bind. unfold claim_call. rewrite Hreq, Hauto.
  apply wp_bind, wp_bind. unfold auto_approve_call.
  apply wp_bind, wp_uuid4. intros w2 Hdb2 Hhub2 Hu2.
  assert (uuid4_str (w_uuids w1) ∉ a_id <$> approvals (w_db w)) as Hnew by (apply Hf; lia).
  apply wp_bind. apply wp_create_effect.
  - eapply fresh_db; [by eapply fresh_quiet|by rewrite Hdb2|by rewrite Hdb2|lia].
  - by rewrite Hdb2, (quiet_db _ _ Hq1).
  - pose proof (ic_bind _ _ _ _ _ _ I) as Hb. simpl in *. bool_to_prop.
    rewrite uuid4_text.
    repeat match goal with H : bindable _ = true |- _ => rewrite H end. done.
  - intros a [= <-]. exists (w_uuids w1). split_and!; [lia|done|].
    by rewrite Hdb2, (quiet_db _ _ Hq1).
  - intros w3 now e Hdb3 Hhub3 Hf3 Hu3. simpl in Hdb3.
    rewrite Hdb2, (quiet_db _ _ Hq1) in Hdb3.
    apply wp_bind, wp_resolve_approval. intros now' b w4 E4 Hu4 _.
    rewrite Hdb3, resolve_last in E4 by done. injection E4 as <- E4. symmetry in E4.
    apply wp_bind, wp_emit_event. intros w5 Hq5 _.
    apply wp_bind, wp_approval_payload. intros p.
    apply wp_bind, wp_emit_event. intros w6 Hq6 _. apply wp_ret. cbv beta iota.
    apply wp_ret. cbv beta iota. apply wp_bind, wp_ret. cbv beta iota.
    apply wp_ret. cbv beta iota. apply wp_send_json. intros w7 c7 rid Hq7 _ _.
    rewrite <-(quiet_db _ _ Hq5), <-(quiet_db _ _ Hq6), <-(quiet_db _ _ Hq7) in E4.
    exists e, (set_resolution Approved now' (approval_of e (uuid4_str (w_uuids w1)))).
    subst e. simpl. split_and!; try done.
    + by rewrite Hu2, Hu1.
    + rewrite E4. unfold find_live_effect in *. simpl. rewrite first_where_app, Hsig. simpl.
      unfold holds_signature. simpl. by rewrite str_eqb_refl.
    + eapply (fresh_db w3); [done|by rewrite E4, Hdb3|rewrite E4, Hdb3; simpl; by rewrite !fmap_app|].
      pose proof (quiet_uuids _ _ Hq5). pose proof (quiet_uuids _ _ Hq6).
      pose proof (quiet_uuids _ _ Hq7). lia.
Qed.
End spec.
