(* ===== verification/DevRoutes.v ===== *)
(** * Outcome reports, approval decisions and routing of the development server

    The routes that report the outcome of a call ([_handle_effect_action]),
    resolve a held one ([_handle_approval_decision]) and list approvals, and how
    [dispatch] reaches them. *)

From S2P Require Import Prelude Py Json Signature Journal Broadcaster Framing World Fnmatch.
From S2P Require Import DevHandler DevWp DevSpec.
Open Scope Z_scope.
Open Scope undolog_scope.

(** ** Paths *)

Lemma split_on_piece c s t : c ∉ s → split_on c (s ++ c :: t) = s :: split_on c t.
Proof.
  induction s as [|x s IH]; intros H; simpl; [by rewrite Z.eqb_refl|].
  apply not_elem_of_cons in H as [? ?]. rewrite (proj2 (Z.eqb_neq x c)) by congruence.
  by rewrite IH.
Qed.

Lemma split_on_last c s : c ∉ s → split_on c s = [s].
Proof.
  induction s as [|x s IH]; intros H; simpl; [done|].
  apply not_elem_of_cons in H as [? ?]. rewrite (proj2 (Z.eqb_neq x c)) by congruence.
  by rewrite IH.
Qed.

(** [/<kind>/<id>/<action>]. *)
Definition action_path (kind id action : pystr) : pystr :=
  47 :: kind ++ 47 :: id ++ 47 :: action.

Lemma is_segment_spec s : is_segment s = true → 47 ∉ s ∧ s ≠ [].
Proof.
  intros [H1 H2]%andb_prop. split; [|by destruct s].
  intros Hin. apply negb_true_iff in H1. rewrite existsb_false_iff in H1.
  by specialize (H1 _ Hin).
Qed.

Lemma split_action_path kind id action :
  is_segment kind = true → is_segment id = true → is_segment action = true →
  split_on 47 (action_path kind id action) = [[]; kind; id; action].
Proof.
  intros [? _]%is_segment_spec [? _]%is_segment_spec [? _]%is_segment_spec.
  unfold action_path. simpl. by rewrite !split_on_piece, split_on_last.
Qed.

Lemma match_action_some kind actions id action :
  is_segment kind = true → is_segment id = true → is_segment action = true →
  existsb (str_eqb action) actions = true →
  match_action kind actions (action_path kind id action) = Some (id, action).
Proof.
  intros H1 H2 H3 H4. unfold match_action. rewrite split_action_path by done.
  rewrite str_eqb_refl, H4. apply is_segment_spec in H2 as [_ ?]. by destruct id.
Qed.

Lemma match_action_none kind kind' actions id action :
  is_segment kind = true → is_segment id = true → is_segment action = true →
  str_eqb kind kind' && existsb (str_eqb action) actions = false →
  match_action kind' actions (action_path kind id action) = None.
Proof.
  intros H1 H2 H3 H4. unfold match_action. rewrite split_action_path by done.
  rewrite H4. apply is_segment_spec in H2 as [_ ?]. by destruct id.
Qed.

Section routes.
Variable float_of_text : pystr → pyfloat.
Variable blake3_hexdigest : bytes → pystr.
Variable exc_str : pyexc → pystr.
Variable py_str : json → pystr.
Variable srv : server.
Variable uuid4_str : nat → pystr.
Variable utc_now_str : nat → pystr.
Variable time_ns_at : nat → Z.
Context `{!id_laws uuid4_str utc_now_str}.

Abbreviation wpr := (wp uuid4_str utc_now_str time_ns_at).
Abbreviation dispatch_ := (dispatch float_of_text blake3_hexdigest exc_str py_str srv).
Abbreviation effect_action := (handle_effect_action float_of_text).
Abbreviation approval_decision := (handle_approval_decision float_of_text).
Abbreviation reads c body c1 := (read_body float_of_text c = (inr body, c1)).

(** A route that answers, seen from [dispatch]. *)
Definition answers (Q : response → world → conn → Prop) (rep : reply) (w : world) (c : conn) : Prop :=
  ∃ r, rep = Reply r ∧ Q r w c.

Lemma wp_replied p (Q : response → world → conn → Prop) w c :
  wpr p Q w c → wpr (replied p) (answers Q) w c.
Proof.
  intros H. unfold replied. apply wp_bind. eapply wp_mono; [exact H|].
  intros r w' c' HQ. apply wp_ret. exists r. done.
Qed.

Lemma wp_require_method command path params allowed (Q : () → world → conn → Prop) w c :
  str_eqb command allowed = true → Q () w c →
  wpr (require_method (Request command path params) allowed) Q w c.
Proof. intros H HQ. unfold require_method. simpl. rewrite H. by apply wp_ret. Qed.

Lemma other_route kind id action p :
  is_segment kind = true → is_segment id = true → is_segment action = true →
  (length (split_on 47 p) < 4)%nat → str_eqb (action_path kind id action) p = false.
Proof.
  intros H1 H2 H3 Hp. apply str_eqb_neq. intros <-.
  rewrite split_action_path in Hp by done. simpl in Hp. lia.
Qed.

Lemma route_action kind id action rq rounds :
  rq_path rq = action_path kind id action →
  is_segment kind = true → is_segment id = true → is_segment action = true →
  route float_of_text blake3_hexdigest exc_str py_str srv rq rounds =
    match match_action $"approvals" [$"approve"; $"reject"] (rq_path rq),
          match_action $"effects" [$"commit"; $"fail"] (rq_path rq) with
    | Some (id, action), _ =>
        _ ← require_method rq $"POST"; replied (approval_decision id action)
    | None, Some (id, action) =>
        _ ← require_method rq $"PUT"; replied (effect_action id action)
    | None, None => replied (send_error 404 $"not_found" $"unknown path")
    end.
Proof.
  intros Hp H1 H2 H3. unfold route. rewrite Hp.
  rewrite !(other_route kind id action) by (done || (vm_compute; lia)). done.
Qed.

Lemma wp_dispatch_effect id action rounds params (Q : response → world → conn → Prop) w c :
  is_segment id = true → action = $"commit" ∨ action = $"fail" →
  wpr (effect_action id action) Q w c →
  wpr (dispatch_ (Request $"PUT" (action_path $"effects" id action) params) rounds)
    (answers Q) w c.
Proof.
  intros Hid Ha H. apply wp_catch.
  assert (is_segment action = true) as Has by (destruct Ha as [-> | ->]; done).
  rewrite (route_action $"effects" id action) by done. cbn [rq_path].
  rewrite (match_action_none $"effects" $"approvals") by done.
  rewrite (match_action_some $"effects") by (done || by destruct Ha as [-> | ->]).
  apply wp_bind, wp_require_method; [done|]. by apply wp_replied.
Qed.

Lemma wp_dispatch_approval id action rounds params (Q : response → world → conn → Prop) w c :
  is_segment id = true → action = $"approve" ∨ action = $"reject" →
  wpr (approval_decision id action) Q w c →
  wpr (dispatch_ (Request $"POST" (action_path $"approvals" id action) params) rounds)
    (answers Q) w c.
Proof.
  intros Hid Ha H. apply wp_catch.
  assert (is_segment action = true) as Has by (destruct Ha as [-> | ->]; done).
  rewrite (route_action $"approvals" id action) by done. cbn [rq_path].
  rewrite (match_action_some $"approvals") by (done || by destruct Ha as [-> | ->]).
  apply wp_bind, wp_require_method; [done|]. by apply wp_replied.
Qed.

(** ** Reporting an outcome *)

(** The tables after one row's outcome is written. *)
Definition with_outcome id st r err (d : db) (now : pystr) : db :=
  Db (update_where (has_id id) (set_outcome st r err now) (effects d)) (approvals d).

(** The envelope of an error answer. *)
Definition error_body (code message rid t : pystr) : json :=
  JObj [($"request_id", JStr rid); ($"code", JStr code);
        ($"message", JStr message); ($"timestamp", JStr t)].

Definition is_error (status : Z) (code message : pystr) (r : response) : Prop :=
  rs_status r = status ∧ ∃ t, rs_body r = error_body code message (rs_request_id r) t.

(** The journal update both reports make, and their answer: [404] when no row
    has the identifier. *)
Lemma wp_report (id : pystr) st r err b d' ty org sess eid payload body
    (Q : response → world → conn → Prop) w c :
  updates id st r err (w_db w) b d' →
  (∀ now w' c' resp, w_db w' = d' now → (w_uuids w ≤ w_uuids w')%nat →
     (if b then rs_status resp = 200 ∧ rs_body resp = body
      else is_error 404 $"not_found" $"effect not found" resp) → Q resp w' c') →
  wpr (found ← (now ← perform OUtcNow; perform (OUpdateEffect id st r err now));
       if found : bool then
         _ ← emit_event ty org sess eid JNull payload; send_json 200 body
       else send_error 404 $"not_found" $"effect not found") Q w c.
Proof.
  intros Hup HQ. apply wp_bind. eapply wp_update_effect; [done|]. intros now w1 E1 Hu1 _.
  destruct b.
  - apply wp_bind, wp_emit_event. intros w2 Hq2 _. apply wp_send_json.
    intros w3 c3 rid Hq3 _ _. apply (HQ now); [|pose proof (quiet_uuids _ _ Hq2);
      pose proof (quiet_uuids _ _ Hq3); lia|done].
    by rewrite (quiet_db _ _ Hq3), (quiet_db _ _ Hq2).
  - apply wp_send_error. intros w3 c3 rid t Hq3 _ _. apply (HQ now);
      [|pose proof (quiet_uuids _ _ Hq3); lia|split; [done|by eexists]].
    by rewrite (quiet_db _ _ Hq3).
Qed.

Lemma wp_commit id body c1 result b d' (Q : response → world → conn → Prop) w c :
  reads c body c1 → default (JObj []) (dict_get $"result" body) = JObj result →
  updates id Committed (Some (JObj result)) None (w_db w) b d' →
  (∀ now w' c' resp, w_db w' = d' now → (w_uuids w ≤ w_uuids w')%nat →
     (if b then rs_status resp = 200 ∧ rs_body resp = outcome_body $"committed" id
      else is_error 404 $"not_found" $"effect not found" resp) → Q resp w' c') →
  wpr (effect_action id $"commit") Q w c.
Proof.
  intros Hread Hres Hup HQ. unfold handle_effect_action.
  apply wp_bind, wp_org_id. apply wp_bind. eapply wp_read_body; [done|].
  cbv beta iota zeta. change (str_eqb $"commit" $"commit") with true. rewrite Hres.
  by eapply wp_report.
Qed.

Lemma wp_fail id body c1 error b d' (Q : response → world → conn → Prop) w c :
  reads c body c1 → default (JStr []) (dict_get $"error" body) = JStr error →
  updates id Failed None (Some error) (w_db w) b d' →
  (∀ now w' c' resp, w_db w' = d' now → (w_uuids w ≤ w_uuids w')%nat →
     (if b then rs_status resp = 200 ∧ rs_body resp = outcome_body $"failed" id
      else is_error 404 $"not_found" $"effect not found" resp) → Q resp w' c') →
  wpr (effect_action id $"fail") Q w c.
Proof.
  intros Hread Hres Hup HQ. unfold handle_effect_action.
  apply wp_bind, wp_org_id. apply wp_bind. eapply wp_read_body; [done|].
  cbv beta iota zeta. change (str_eqb $"fail" $"commit") with false. rewrite Hres.
  by eapply wp_report.
Qed.

Lemma updates_row d e st r err :
  e ∈ effects d → bindable (e_id e) && forallb bindable (option_list err) = true →
  revives_taken_signature (e_id e) st d = false →
  updates (e_id e) st r err d true (with_outcome (e_id e) st r err d).
Proof. intros He Hb Hr now. by apply update_effect_row. Qed.

Lemma updates_missing d id st r err :
  id ∉ (e_id <$> effects d) → bindable id && forallb bindable (option_list err) = true →
  updates id st r err d false (λ _, d).
Proof. intros Hid Hb now. by apply update_effect_missing. Qed.

(** ** Approval decisions *)

(** The tables after an approval is resolved and its effect's outcome written. *)
Definition resolved aid eid ast est r (d : db) (now1 now2 : pystr) : db :=
  with_outcome eid est r None (resolve_approval aid ast now1 d).2 now2.

Definition approved_body (aid eid : pystr) (result : json) : json :=
  JObj [($"status", JStr $"approved"); ($"approval_id", JStr aid);
        ($"effect_id", JStr eid); ($"execution", JStr $"committed"); ($"result", result)].

Definition rejected_body (aid : pystr) : json :=
  JObj [($"status", JStr $"rejected"); ($"approval_id", JStr aid)].

Lemma resolve_pending d a st now :
  a ∈ approvals d → a_status a = Pending →
  resolve_approval (a_id a) st now d = (inr true, (resolve_approval (a_id a) st now d).2).
Proof.
  intros Ha Hp. pose proof (resolve_approval_pending d a st now Ha Hp) as E.
  destruct (resolve_approval _ _ _ _). simpl in *. by rewrite E.
Qed.

(** Resolving approvals leaves the effects alone. *)
Lemma resolve_effects id st now d : effects (resolve_approval id st now d).2 = effects d.
Proof. done. Qed.

Lemma revives_effects id st d d' :
  effects d' = effects d → revives_taken_signature id st d' = revives_taken_signature id st d.
Proof. unfold revives_taken_signature. by intros ->. Qed.

Lemma wp_approve a e body c1 (Q : response → world → conn → Prop) w c :
  journal_ok (w_db w) → a ∈ approvals (w_db w) → a_status a = Pending →
  e ∈ effects (w_db w) → e_id e = a_effect_id a → bindable (e_id e) = true →
  revives_taken_signature (e_id e) Committed (w_db w) = false →
  reads c body c1 →
  (∀ now1 now2 w' c' resp,
     w_db w' = resolved (a_id a) (e_id e) Approved Committed
       (Some (mock_tool_result (a_tool_name a) (a_args a))) (w_db w) now1 now2 →
     (w_uuids w ≤ w_uuids w')%nat → rs_status resp = 200 →
     rs_body resp = approved_body (a_id a) (e_id e) (mock_tool_result (a_tool_name a) (a_args a)) →
     Q resp w' c') →
  wpr (approval_decision (a_id a) $"approve") Q w c.
Proof.
  intros Hok Ha Hp He Hid Hb Hrev Hread HQ. unfold handle_approval_decision.
  apply wp_bind, wp_org_id. apply wp_bind, wp_get_approval.
  rewrite get_approval_elem by done. rewrite bool_decide_true by done. cbv beta iota delta [negb].
  apply wp_bind. eapply wp_read_body; [done|].
  change (str_eqb $"approve" $"reject") with false. cbv beta iota zeta.
  apply wp_bind, wp_resolve_approval. intros now1 b w1 E1 Hu1 _.
  rewrite resolve_pending in E1 by done. injection E1 as <- E1. cbv beta iota.
  apply wp_bind. eapply (wp_update_effect _ _ _ _ _ _ _ true).
  { rewrite <-Hid. apply updates_row; [by rewrite <-E1|by rewrite Hb|].
    erewrite revives_effects; [done|]. by rewrite <-E1. }
  intros now2 w2 E2 Hu2 _. apply wp_bind, wp_approval_payload. intros p.
  apply wp_bind, wp_emit_event. intros w3 Hq3 _. apply wp_send_json. intros w4 c4 rid Hq4 _ _.
  apply (HQ now1 now2); [|pose proof (quiet_uuids _ _ Hq3); pose proof (quiet_uuids _ _ Hq4); lia
    |done|by rewrite Hid].
  by rewrite (quiet_db _ _ Hq4), (quiet_db _ _ Hq3), E2, <-E1.
Qed.

Lemma wp_reject a e body c1 (Q : response → world → conn → Prop) w c :
  journal_ok (w_db w) → a ∈ approvals (w_db w) → a_status a = Pending →
  e ∈ effects (w_db w) → e_id e = a_effect_id a → bindable (e_id e) = true →
  reads c body c1 →
  (∀ now1 now2 w' c' resp,
     w_db w' = resolved (a_id a) (e_id e) Refused Rejected None (w_db w) now1 now2 →
     (w_uuids w ≤ w_uuids w')%nat → rs_status resp = 200 →
     rs_body resp = rejected_body (a_id a) → Q resp w' c') →
  wpr (approval_decision (a_id a) $"reject") Q w c.
Proof.
  intros Hok Ha Hp He Hid Hb Hread HQ. unfold handle_approval_decision.
  apply wp_bind, wp_org_id. apply wp_bind, wp_get_approval.
  rewrite get_approval_elem by done. rewrite bool_decide_true by done. cbv beta iota delta [negb].
  apply wp_bind. eapply wp_read_body; [done|].
  change (str_eqb $"reject" $"reject") with true. cbv beta iota zeta.
  apply wp_bind, wp_resolve_approval. intros now1 b w1 E1 Hu1 _.
  rewrite resolve_pending in E1 by done. injection E1 as <- E1. cbv beta iota.
  apply wp_bind. eapply (wp_update_effect _ _ _ _ _ _ _ true).
  { rewrite <-Hid. apply updates_row; [by rewrite <-E1|by rewrite Hb|done]. }
  intros now2 w2 E2 Hu2 _. apply wp_bind, wp_approval_payload. intros p.
  apply wp_bind, wp_emit_event. intros w3 Hq3 _. apply wp_send_json. intros w4 c4 rid Hq4 _ _.
  apply (HQ now1 now2); [|pose proof (quiet_uuids _ _ Hq3); pose proof (quiet_uuids _ _ Hq4); lia
    |done|done].
  by rewrite (quiet_db _ _ Hq4), (quiet_db _ _ Hq3), E2, <-E1.
Qed.

(** A decision on an unknown or a resolved approval is refused and changes
    nothing. *)
Lemma wp_decision_refused id action (Q : response → world → conn → Prop) w c :
  (∀ a, get_approval id (w_db w) = Some a → a_status a ≠ Pending) →
  (∀ w' c' resp, quiet w w' →
     (if get_approval id (w_db w) then is_error 409 $"conflict" $"approval already resolved" resp
      else is_error 404 $"not_found" $"approval not found" resp) → Q resp w' c') →
  wpr (approval_decision id action) Q w c.
Proof.
  intros Hno HQ. unfold handle_approval_decision.
  apply wp_bind, wp_org_id. apply wp_bind, wp_get_approval.
  destruct (get_approval id (w_db w)) as [a|].
  - rewrite bool_decide_false by (by apply Hno). cbv beta iota delta [negb].
    apply wp_send_error. intros w' c' rid t Hq _ _. apply HQ; [done|]. split; [done|by eexists].
  - apply wp_send_error. intros w' c' rid t Hq _ _. apply HQ; [done|]. split; [done|by eexists].
Qed.

(** ** Listing *)

Lemma wp_list rq state limit (Q : response → world → conn → Prop) w c :
  parse_state (param $"state" rq $"pending") = Some state →
  py_int 10 (param $"limit" rq (str_of_int DEFAULT_APPROVAL_LIMIT)) = Some limit →
  (∀ w' c' resp, quiet w w' → rs_status resp = 200 →
     rs_body resp = JArr (approval_to_dict <$> list_approvals state limit (w_db w)) →
     Q resp w' c') →
  wpr (handle_list_approvals rq) Q w c.
Proof.
  intros Hs Hl HQ. unfold handle_list_approvals. rewrite Hs, Hl.
  apply wp_bind, wp_list_approvals. apply wp_send_json. intros w' c' rid Hq _ _. by apply HQ.
Qed.
End routes.
