(* ===== verification/DevErrors.v ===== *)
(** * Refused requests

    [wpx] tracks both ways a handler ends, with a value or with an exception.
    Its rules give the error paths of [dispatch]: a request that is refused,
    whatever the reason, leaves the journal as it was. *)

From S2P Require Import Prelude Py Json Signature Journal Broadcaster Framing World Fnmatch.
From S2P Require Import DevHandler DevWp DevSpec DevRoutes.
Open Scope Z_scope.
Open Scope undolog_scope.

Section wpx.
Variable uuid4_str : nat → pystr.
Variable utc_now_str : nat → pystr.
Variable time_ns_at : nat → Z.

Abbreviation run := (exec uuid4_str utc_now_str time_ns_at).
Abbreviation op_run := (run_op uuid4_str utc_now_str time_ns_at).
Abbreviation wpr := (wp uuid4_str utc_now_str time_ns_at).

Definition wpx {A} (p : prog A) (Q : res A → world → conn → Prop) (w : world) (c : conn) : Prop :=
  let '(r, w', c') := run p w c in Q r w' c'.

Lemma wpx_mono {A} (p : prog A) (Q R : res A → world → conn → Prop) w c :
  wpx p Q w c → (∀ r w' c', Q r w' c' → R r w' c') → wpx p R w c.
Proof. unfold wpx. destruct (run p w c) as [[r w'] c']. auto. Qed.

Lemma wpx_ret {A} (a : A) (Q : res A → world → conn → Prop) w c :
  Q (inr a) w c → wpx (mret a) Q w c.
Proof. done. Qed.

Lemma wpx_raise {A} e (Q : res A → world → conn → Prop) w c :
  Q (inl e) w c → wpx (Raise e) Q w c.
Proof. done. Qed.

Lemma wpx_bind {A B} (p : prog A) (f : A → prog B) Q w c :
  wpx p (λ r w' c', match r with inr a => wpx (f a) Q w' c' | inl e => Q (inl e) w' c' end) w c →
  wpx (p ≫= f) Q w c.
Proof. unfold wpx. rewrite exec_bind. destruct (run p w c) as [[[e|a] w'] c']; auto. Qed.

Lemma wpx_perform {X} (o : op X) Q w c :
  (let '(r, w', c') := op_run o w c in Q r w' c') → wpx (perform o) Q w c.
Proof. unfold wpx. by rewrite exec_perform. Qed.

Lemma wpx_catch {A} (p : prog A) h Q w c :
  wpx p (λ r w' c', match r with inl e => wpx (h e) Q w' c' | inr _ => Q r w' c' end) w c →
  wpx (catch p h) Q w c.
Proof. unfold wpx. rewrite exec_catch. destruct (run p w c) as [[[e|a] w'] c']; auto. Qed.

Lemma wpx_of_wp {A} (p : prog A) (Q : res A → world → conn → Prop) w c :
  wpr p (λ a w' c', Q (inr a) w' c') w c → wpx p Q w c.
Proof. unfold wp, wpx. destruct (run p w c) as [[[e|a] w'] c']; [done|auto]. Qed.

Lemma wpx_of_res {A} (r : res A) (Q : res A → world → conn → Prop) w c :
  Q r w c → wpx (of_res r) Q w c.
Proof. by destruct r. Qed.

(** ** Outcomes of a route *)

(** Exceptions [dispatch] answers; the others drop the connection. *)
Definition answered (e : pyexc) : bool :=
  match e with ERequest _ _ _ => true | _ => is_ValueError e end.

(** A route that is refused leaves the journal as it was. *)
Definition refused_clean (d : db) (r : res response) (w' : world) (c' : conn) : Prop :=
  match r with
  | inr resp => rs_status resp < 400 ∨ w_db w' = d
  | inl e => answered e = true → w_db w' = d
  end.

Lemma clean_send_json d status payload w c :
  status < 400 ∨ w_db w = d → wpx (send_json status payload) (refused_clean d) w c.
Proof.
  intros H. apply wpx_of_wp, wp_send_json. intros w' c' rid Hq _ _. simpl.
  by rewrite (quiet_db _ _ Hq).
Qed.

Lemma clean_send_error d status code message w c :
  w_db w = d → wpx (send_error status code message) (refused_clean d) w c.
Proof.
  intros H. apply wpx_of_wp, wp_send_error. intros w' c' rid t Hq _ _. right.
  by rewrite (quiet_db _ _ Hq).
Qed.

Lemma clean_emit {A} d ty org s e a p (k : prog A) (Q : res A → world → conn → Prop) w c :
  (∀ w', quiet w w' → wpx k Q w' c) → w_db w = d →
  wpx (_ ← emit_event ty org s e a p; k) Q w c.
Proof.
  intros H Hd. apply wpx_bind, wpx_of_wp, wp_emit_event. intros w' Hq _. by apply H.
Qed.

Lemma wpx_stamped (o : pystr → op bool) (stmt : pystr → db → res bool * db)
    (Q : res bool → world → conn → Prop) w c :
  (∀ now w0 c0, op_run (o now) w0 c0 = lift_db (stmt now (w_db w0)) w0 c0) →
  (∀ now w', w_db w' = (stmt now (w_db w)).2 → Q (stmt now (w_db w)).1 w' c) →
  wpx (now ← perform OUtcNow; perform (o now)) Q w c.
Proof.
  intros Ho H. apply wpx_bind, wpx_perform. simpl. apply wpx_perform. rewrite Ho. simpl.
  by apply H.
Qed.

(** The update of a row either raises, and nothing changed, or not. *)
Lemma update_effect_cases id st r err now d :
  (∃ b d', update_effect id st r err now d = (inr b, d') ∧ (b = false → d' = d)) ∨
  (∃ e, update_effect id st r err now d = (inl e, d)).
Proof.
  unfold update_effect. case_match; [by right; eexists|]. case_match; [by right; eexists|].
  left. eexists _, _. split; [done|]. intros Hc. apply Nat.ltb_ge in Hc.
  rewrite update_where_none; [by destruct d|]. apply count_where_0. lia.
Qed.

Lemma update_effect_raises id st r err now d e d' :
  bindable id = true → forallb bindable (option_list err) = true →
  update_effect id st r err now d = (inl e, d') → answered e = false.
Proof.
  unfold update_effect. intros -> ->. simpl. case_match; intros [= <- <-]. done.
Qed.

Lemma clean_update d id st r err (k : bool → prog response) w c :
  w_db w = d →
  (∀ w', wpx (k true) (refused_clean d) w' c) →
  (∀ w', w_db w' = d → wpx (k false) (refused_clean d) w' c) →
  wpx (found ← (now ← perform OUtcNow; perform (OUpdateEffect id st r err now)); k found)
    (refused_clean d) w c.
Proof.
  intros <- Hyes Hno. apply wpx_bind.
  apply (wpx_stamped (OUpdateEffect id st r err) (update_effect id st r err)); [done|].
  intros now w' Hdb.
  destruct (update_effect_cases id st r err now (w_db w)) as [(b & d' & E & Hb)|[e E]];
    rewrite E in *; simpl in *; [|by intros _].
  destruct b; [apply Hyes|]. apply Hno. by rewrite Hdb, Hb.
Qed.

(** ** The routes *)

Variable float_of_text : pystr → pyfloat.
Variable blake3_hexdigest : bytes → pystr.
Variable exc_str : pyexc → pystr.
Variable py_str : json → pystr.
Variable srv : server.

Lemma wpx_org_id (Q : res pystr → world → conn → Prop) w c : Q (inr (org_of c)) w c → wpx org_id Q w c.
Proof. intros H. by apply wpx_of_wp, wp_org_id. Qed.

(** Reading the body touches the connection only. *)
Lemma wpx_read_body (Q : res (list (pystr * json)) → world → conn → Prop) w c :
  (∀ r c', Q r w c') → wpx (read_body_ float_of_text) Q w c.
Proof. intros H. apply wpx_perform. simpl. destruct (read_body float_of_text c). apply H. Qed.

(** A call that is not journaled left the tables alone. *)
Definition claims_clean {A} (d : db) (r : res (option A)) (w' : world) (c' : conn) : Prop :=
  match r with inr (Some _) => True | _ => w_db w' = d end.

Lemma create_effect_clean org sid tool step args sig status aid ver tier w c :
  wpx (DevJournal.create_effect org sid tool step args sig status aid ver tier)
    (claims_clean (w_db w)) w c.
Proof.
  unfold DevJournal.create_effect.
  apply wpx_bind, wpx_perform. simpl. apply wpx_bind, wpx_perform. simpl.
  apply wpx_bind, wpx_perform. simpl.
  destruct (insert_effect _ _ _) as [r d'] eqn:E. unfold lift_db. simpl.
  destruct r as [e|b]; simpl.
  - by apply insert_effect_inv in E as [[? _]|[_ ?]].
  - destruct b; apply wpx_ret; simpl; [done|]. by apply insert_effect_inv in E as [[? _]|[_ ?]].
Qed.

(** Every way of answering for a live effect succeeds. *)
Lemma respond_clean d e org w c :
  wpx (respond_for_live_effect srv e org) (refused_clean d) w c.
Proof.
  unfold respond_for_live_effect. destruct (e_status e).
  - apply clean_send_json; left; lia.
  - destruct (auto_approve srv).
    + apply wpx_bind, wpx_of_wp, wp_find_pending_approval.
      destruct (find_pending_approval _ _) as [a|]; apply wpx_bind.
      * apply wpx_of_wp, wp_bind, wp_resolve_approval. intros now b w1 _ _ _.
        apply wp_bind, wp_approval_payload. intros p. apply wp_emit_event. intros w2 _ _.
        apply clean_send_json; left; lia.
      * apply wpx_ret, clean_send_json; left; lia.
    + apply wpx_bind, wpx_of_wp, wp_find_pending_approval.
      destruct (find_pending_approval _ _) as [a|]; apply clean_send_json; left; lia.
  - apply wpx_bind, wpx_of_wp, wp_record_replay. intros now b w1 _ _ _.
    apply wpx_bind, wpx_of_wp, wp_emit_event. intros w2 _ _. apply clean_send_json; left; lia.
  - apply clean_send_json; left; lia.
  - apply clean_send_json; left; lia.
Qed.

Lemma auto_approve_clean org sid tool step args sig ver tier w c :
  wpx (auto_approve_call org sid tool step args sig ver tier)
    (λ r w' c', match r with
                | inr (Some _, _) => True
                | _ => w_db w' = w_db w
                end) w c.
Proof.
  unfold auto_approve_call. apply wpx_bind, wpx_of_wp, wp_uuid4. intros w1 Hdb1 _ _.
  apply wpx_bind. eapply wpx_mono; [apply create_effect_clean|].
  intros [e|[id|]] w2 c2 H2; simpl in H2; [by rewrite H2| |].
  - apply wpx_of_wp, wp_bind, wp_resolve_approval. intros now b w3 _ _ _.
    apply wp_bind, wp_emit_event. intros w4 _ _. apply wp_bind, wp_approval_payload. intros p.
    apply wp_bind, wp_emit_event. intros w5 _ _. by apply wp_ret.
  - apply wpx_ret. by rewrite H2.
Qed.

Lemma claim_call_clean org sid tool step args sig ver tier w c :
  wpx (claim_call srv org sid tool step args sig ver tier)
    (λ r w' c', match r with inl _ => w_db w' = w_db w | inr _ => True end) w c.
Proof.
  unfold claim_call. apply wpx_bind.
  apply (wpx_mono _ (λ r w' c', match r with
    | inr (_, Some _, _) => True | _ => w_db w' = w_db w end)).
  { destruct (requires_approval srv tool); [destruct (auto_approve srv)|by apply wpx_ret].
    - apply wpx_bind. eapply wpx_mono; [apply auto_approve_clean|].
      intros [e|[[id|] aid]] w1 c1 H1; [done|by apply wpx_ret..].
    - apply wpx_bind, wpx_of_wp, wp_uuid4. intros w1 Hdb1 _ _. by apply wpx_ret. }
  intros [e|[[st [id|]] aid]] w1 c1 H1; [done| |]; cbv beta iota; apply wpx_bind.
  - by apply wpx_ret, wpx_ret.
  - eapply wpx_mono; [apply create_effect_clean|].
    intros [e|[id|]] w2 c2 H2; simpl in H2; [by rewrite H2|by apply wpx_ret|].
    apply wpx_bind, wpx_of_wp, wp_find_live_effect. by apply wpx_ret.
Qed.

Lemma decide_call_clean org sid tool step args sig ver w c :
  wpx (decide_call srv org sid tool step args sig ver) (refused_clean (w_db w)) w c.
Proof.
  unfold decide_call. apply wpx_bind, wpx_of_wp, wp_find_live_effect. apply wpx_bind.
  destruct (find_live_effect sig (w_db w)) as [e|].
  - apply wpx_ret. cbv beta iota. apply respond_clean.
  - eapply wpx_mono; [apply claim_call_clean|].
    intros [e|[[id aid] [x|]]] w1 c1 H1; cbv beta iota; [by intros _|apply respond_clean|].
    destruct aid.
    + apply wpx_bind, wpx_of_wp, wp_emit_event. intros w2 _ _. apply clean_send_json; left; lia.
    + apply clean_send_json; left; lia.
Qed.

Lemma tool_call_clean w c :
  wpx (handle_tool_call float_of_text blake3_hexdigest exc_str py_str srv)
    (refused_clean (w_db w)) w c.
Proof.
  unfold handle_tool_call. apply wpx_bind, wpx_read_body. intros [e|body] c1; [done|].
  apply wpx_bind, wpx_of_res. destruct (tool_call_params body) as [e|[[[sid tool] args] step]]; [done|].
  apply wpx_bind, wpx_org_id. apply wpx_bind, wpx_of_res.
  destruct (tool_call_signature _ _ _ _ _ _) as [e|sig]; [done|].
  apply wpx_bind, wpx_of_wp, wp_emit_event. intros w1 Hq _. rewrite <-(quiet_db _ _ Hq).
  apply decide_call_clean.
Qed.

Lemma effect_action_clean id action w c :
  wpx (handle_effect_action float_of_text id action) (refused_clean (w_db w)) w c.
Proof.
  unfold handle_effect_action. apply wpx_bind, wpx_org_id. apply wpx_bind, wpx_read_body.
  intros [e|body] c1; [done|]. cbv zeta. destruct (str_eqb action _).
  - destruct (default _ (dict_get $"result" body)); try by apply wpx_raise.
    apply clean_update; [done| |].
    + intros w'. apply wpx_bind, wpx_of_wp, wp_emit_event. intros w2 _ _.
      apply clean_send_json; left; lia.
    + intros w' Hdb. by apply clean_send_error.
  - destruct (default _ (dict_get $"error" body)); try by apply wpx_raise.
    apply clean_update; [done| |].
    + intros w'. apply wpx_bind, wpx_of_wp, wp_emit_event. intros w2 _ _.
      apply clean_send_json; left; lia.
    + intros w' Hdb. by apply clean_send_error.
Qed.

(** The outcome of a decided call, whose identifier was read from the tables. *)
Lemma decided_clean d id st r (k : prog response) w c :
  bindable id = true → (∀ w', wpx k (refused_clean d) w' c) →
  wpx (_ ← (now ← perform OUtcNow; perform (OUpdateEffect id st r None now)); k)
    (refused_clean d) w c.
Proof.
  intros Hb Hk. apply wpx_bind.
  apply (wpx_stamped (OUpdateEffect id st r None) (update_effect id st r None)); [done|].
  intros now w' Hdb.
  destruct (update_effect id st r None now (w_db w)) as [[e|b] d'] eqn:E; simpl; [|apply Hk].
  intros Ha. apply update_effect_raises in E; [congruence|done..].
Qed.

Lemma resolve_none d id st now d' :
  resolve_approval id st now d = (inr false, d') → d' = d.
Proof.
  unfold resolve_approval. intros [= Hc%Nat.ltb_ge <-].
  rewrite update_where_none; [by destruct d|]. apply count_where_0. lia.
Qed.

Lemma approval_decision_clean id action w c :
  (∀ a, a ∈ approvals (w_db w) → bindable (a_effect_id a) = true) →
  wpx (handle_approval_decision float_of_text id action) (refused_clean (w_db w)) w c.
Proof.
  intros Htext. unfold handle_approval_decision. apply wpx_bind, wpx_org_id.
  apply wpx_bind, wpx_of_wp, wp_get_approval.
  destruct (get_approval id (w_db w)) as [a|] eqn:Ea; [|by apply clean_send_error].
  apply get_approval_Some in Ea as [Ha _]. specialize (Htext a Ha).
  case_match; [by apply clean_send_error|].
  apply wpx_bind, wpx_read_body. intros [e|body] c1; [done|].
  case_match; apply wpx_bind, wpx_of_wp, wp_resolve_approval; intros now b w1 E1 _ _; destruct b.
  2,4: apply resolve_none in E1; by apply clean_send_error.
  - apply decided_clean; [done|]. intros w2. apply wpx_bind, wpx_of_wp, wp_approval_payload. intros p.
    apply wpx_bind, wpx_of_wp, wp_emit_event. intros w3 _ _. apply clean_send_json; left; lia.
  - apply decided_clean; [done|]. intros w2. apply wpx_bind, wpx_of_wp, wp_approval_payload. intros p.
    apply wpx_bind, wpx_of_wp, wp_emit_event. intros w3 _ _. apply clean_send_json; left; lia.
Qed.

Lemma list_approvals_clean rq w c :
  wpx (handle_list_approvals rq) (refused_clean (w_db w)) w c.
Proof.
  unfold handle_list_approvals. case_match; [|by apply wpx_raise].
  case_match; [|by apply wpx_raise]. apply wpx_bind, wpx_of_wp, wp_list_approvals.
  apply clean_send_json. by right.
Qed.

(** ** The event stream *)

Definition keeps_db {A} (d : db) (r : res A) (w' : world) (c' : conn) : Prop :=
  w_db w' = d ∧ ∃ a, r = inr a.

Lemma events_loop_keeps rounds alias i w c :
  wpx (events_loop rounds alias i) (keeps_db (w_db w)) w c.
Proof.
  revert w. induction rounds as [|n IH]; intros w; simpl events_loop.
  - apply wpx_ret. split; eauto.
  - apply wpx_bind, wpx_perform. simpl. destruct (sub_get i (w_hub w)) as [x h].
    assert (∀ w1 (f : list stream_out → list stream_out), w_db w1 = w_db w →
      wpx (out ← events_loop n alias i; mret (f out)) (keeps_db (w_db w)) w1 c) as Hmore.
    { intros w1 f Hw1. apply wpx_bind. eapply wpx_mono; [apply IH|].
      intros r w2 c2 [Hdb [out ->]]. apply wpx_ret. split; [congruence|eauto]. }
    destruct x as [[env|]|]; [|by apply wpx_ret; split; eauto|by apply (Hmore (set_hub h w) (cons StreamPing))].
    destruct env; try (by apply wpx_ret; split; eauto).
    apply wpx_bind, wpx_perform. simpl. destruct (format_sse_frame _ _ _) as [f|].
    + by apply (Hmore _ (cons (StreamFrame f))).
    + apply wpx_ret. split; eauto.
Qed.

Lemma handle_events_keeps rq rounds w c :
  wpx (handle_events rq rounds) (keeps_db (w_db w)) w c.
Proof.
  unfold handle_events. apply wpx_bind, wpx_of_wp, wp_get_conn.
  apply wpx_bind, wpx_perform. simpl. destruct (subscribe (w_hub w)) as [i h].
  apply wpx_bind, wpx_of_wp, wp_request_id. intros rid w1 Hq1 _.
  apply wpx_bind, wpx_perform. simpl. apply wpx_bind.
  eapply wpx_mono; [apply events_loop_keeps|]. intros r w2 c2 [Hdb [out ->]].
  apply wpx_bind, wpx_perform. simpl. apply wpx_ret. split; [|eauto].
  simpl. rewrite Hdb. apply (quiet_db _ _ Hq1).
Qed.

(** ** [dispatch] *)

(** What a request leaves behind, however it ends. *)
Definition request_clean (d : db) (r : res reply) (w' : world) (c' : conn) : Prop :=
  match r with
  | inr (Reply resp) => rs_status resp < 400 ∨ w_db w' = d
  | inr (Streamed _) => w_db w' = d
  | inl e => e = EOverflow ∨ e = EStruct ∨ e = EIntegrity
  end.

Definition route_clean (d : db) (r : res reply) (w' : world) (c' : conn) : Prop :=
  match r with
  | inr (Reply resp) => rs_status resp < 400 ∨ w_db w' = d
  | inr (Streamed _) => w_db w' = d
  | inl e => answered e = true → w_db w' = d
  end.

Lemma replied_clean d p w c :
  wpx p (refused_clean d) w c → wpx (replied p) (route_clean d) w c.
Proof.
  intros H. unfold replied. apply wpx_bind. eapply wpx_mono; [exact H|].
  intros [e|resp] w' c' Hr; [done|]. by apply wpx_ret.
Qed.

Lemma require_clean rq allowed (k : prog reply) w c :
  wpx k (route_clean (w_db w)) w c →
  wpx (_ ← require_method rq allowed; k) (route_clean (w_db w)) w c.
Proof.
  intros H. apply wpx_bind. unfold require_method. case_match; [by apply wpx_ret|].
  by apply wpx_raise.
Qed.

Lemma route_is_clean rq rounds w c :
  (∀ a, a ∈ approvals (w_db w) → bindable (a_effect_id a) = true) →
  wpx (route float_of_text blake3_hexdigest exc_str py_str srv rq rounds)
    (route_clean (w_db w)) w c.
Proof.
  intros Htext. unfold route. cbv zeta.
  case_match; [apply require_clean, replied_clean, clean_send_json; by right|].
  case_match.
  { apply require_clean, wpx_bind. eapply wpx_mono; [apply handle_events_keeps|].
    intros r w' c' [Hdb [out ->]]. by apply wpx_ret. }
  case_match; [apply require_clean, replied_clean, list_approvals_clean|].
  case_match; [apply require_clean, replied_clean, tool_call_clean|].
  destruct (match_action _ _ _) as [[id action]|].
  { by apply require_clean, replied_clean, approval_decision_clean. }
  destruct (match_action _ _ _) as [[id action]|].
  { apply require_clean, replied_clean, effect_action_clean. }
  by apply replied_clean, clean_send_error.
Qed.

Lemma dispatch_clean rq rounds w c :
  (∀ a, a ∈ approvals (w_db w) → bindable (a_effect_id a) = true) →
  wpx (dispatch float_of_text blake3_hexdigest exc_str py_str srv rq rounds)
    (request_clean (w_db w)) w c.
Proof.
  intros Htext. apply wpx_catch. eapply wpx_mono; [by apply route_is_clean|].
  intros [e|[resp|out]] w' c' Hr; [|done|done].
  assert (∀ s code m, w_db w' = w_db w →
    wpx (replied (send_error s code m)) (request_clean (w_db w)) w' c') as Herr.
  { intros s code m Hdb. unfold replied. apply wpx_bind, wpx_of_wp, wp_send_error.
    intros w1 c1 rid t Hq _ _. apply wpx_ret. right. by rewrite (quiet_db _ _ Hq). }
  simpl in Hr. destruct e; simpl in *; try (apply Herr, Hr; done); apply wpx_raise; simpl; auto.
Qed.
End wpx.
