(* ===== verification/Protocol.v ===== *)
(** * The contract of the development server, abstractly

    What an agent can rely on: every call signature is in one of five states,
    and every request moves the signature it is about by the rules the
    docstrings of [_handle_tool_call], [_handle_effect_action] and
    [_handle_approval_decision] state. [Refinement] proves that the handlers
    implement these rules. *)

From S2P Require Import Prelude Py Json.
Open Scope Z_scope.

(** The state of one call signature. [Released] is a held call whose approval
    was granted without running anything. *)
Inductive call_state :=
| Free
| Running (id : pystr)
| Held (id aid : pystr)
| Released (id : pystr)
| Done (id : pystr) (result : option json).

Definition state_id (s : call_state) : option pystr :=
  match s with
  | Free => None
  | Running id | Held id _ | Released id | Done id _ => Some id
  end.

(** The requests that concern a call, and what the caller is told. [gated] says
    whether the tool of the call needs an approval. *)
Inductive label :=
| LCall (gated : bool) (sig : pystr)
| LCommit (id : pystr) (result : json)
| LFail (id : pystr)
| LApprove (aid : pystr) (result : json)
| LReject (aid : pystr).

Inductive answer :=
| ARun (id : pystr)
| APending (aid : pystr)
| AReplay (id : pystr) (result : option json)
| ADone.

Section machine.
(** The [auto_approve] switch of the server. *)
Variable auto : bool.

(** How a call is answered in a state, and the state it leaves. *)
Inductive call_rule (gated : bool) : call_state → answer → call_state → Prop :=
| rule_run id : gated && negb auto = false → call_rule gated Free (ARun id) (Running id)
| rule_hold id aid :
    gated && negb auto = true → call_rule gated Free (APending aid) (Held id aid)
| rule_again id : call_rule gated (Running id) (ARun id) (Running id)
| rule_wait id aid : auto = false → call_rule gated (Held id aid) (APending aid) (Held id aid)
| rule_release id aid : auto = true → call_rule gated (Held id aid) (ARun id) (Released id)
| rule_released id : call_rule gated (Released id) (ARun id) (Released id)
| rule_replay id r : call_rule gated (Done id r) (AReplay id r) (Done id r).

Abbreviation states := (pystr → call_state).

Definition elsewhere (sig : pystr) (s s' : states) : Prop := ∀ sig', sig' ≠ sig → s' sig' = s sig'.

(** One request, seen from outside: the signature it concerns moves by its
    rule, every other one stays. *)
Inductive machine_step : label → answer → states → states → Prop :=
| m_call gated sig ans s s' :
    call_rule gated (s sig) ans (s' sig) → elsewhere sig s s' →
    machine_step (LCall gated sig) ans s s'
| m_commit id result sig s s' :
    state_id (s sig) = Some id → s' sig = Done id (Some result) → elsewhere sig s s' →
    machine_step (LCommit id result) ADone s s'
| m_fail id sig s s' :
    state_id (s sig) = Some id → s' sig = Free → elsewhere sig s s' →
    machine_step (LFail id) ADone s s'
| m_approve aid id result sig s s' :
    s sig = Held id aid → s' sig = Done id (Some result) → elsewhere sig s s' →
    machine_step (LApprove aid result) ADone s s'
| m_reject aid id sig s s' :
    s sig = Held id aid → s' sig = Free → elsewhere sig s s' →
    machine_step (LReject aid) ADone s s'.

(** An identifier names the call of one signature. *)
Definition ids_distinct (s : states) : Prop :=
  ∀ sig sig' id, state_id (s sig) = Some id → state_id (s sig') = Some id → sig = sig'.

(** A sequence of requests with their answers. *)
Inductive machine_run : list (label * answer) → states → states → Prop :=
| run_nil s : machine_run [] s s
| run_cons l a tr s t u :
    ids_distinct s → machine_step l a s t → machine_run tr t u → machine_run ((l, a) :: tr) s u.

Lemma machine_run_app tr1 tr2 s t u :
  machine_run tr1 s t → machine_run tr2 t u → machine_run (tr1 ++ tr2) s u.
Proof. induction 1; simpl; eauto using machine_run. Qed.

(** ** Consequences of the rules *)

(** A call that may run names its effect, which the report will name again. *)
Lemma call_rule_runs gated st id st' : call_rule gated st (ARun id) st' → state_id st' = Some id.
Proof. by inversion 1. Qed.

(** A state test that every step of a trace keeps, given what the trace asks. *)
Lemma machine_run_invariant (ok : label → answer → Prop) (I : call_state → Prop) sig tr s s' :
  (∀ l a s s', machine_step l a s s' → ok l a → I (s sig) → I (s' sig)) →
  machine_run tr s s' → (∀ l a, (l, a) ∈ tr → ok l a) → I (s sig) → I (s' sig).
Proof.
  intros Hstep Hrun. induction Hrun as [|l a tr s t u Hd Hs Hr IH]; intros Hok HI; [done|].
  apply IH.
  - intros l' a' H. apply Hok. by right.
  - eapply Hstep; [done| |done]. apply Hok. left.
Qed.

(** Neither the report of another outcome nor a decision about the approval. *)
Definition leaves_done (id : pystr) (l : label) : Prop :=
  match l with
  | LCommit id' _ | LFail id' => id' ≠ id
  | _ => True
  end.

Lemma done_step id r sig l a s s' :
  machine_step l a s s' → leaves_done id l → s sig = Done id r → s' sig = Done id r.
Proof.
  intros Hstep Hl Hs.
  assert (∀ sg, elsewhere sg s s' → sg ≠ sig → s' sig = Done id r) as Helse.
  { intros sg He Hne. rewrite He by congruence. done. }
  destruct Hstep as [g sg ans s s' Hr He|id' res sg s s' Hid Hs' He|id' sg s s' Hid Hs' He
    |aid id' res sg s s' Hid Hs' He|aid id' sg s s' Hid Hs' He];
    destruct (decide (sg = sig)) as [->|Hne]; eauto; simpl in *.
  - rewrite Hs in Hr. by inversion Hr.
  - rewrite Hs in Hid. by injection Hid as ->.
  - rewrite Hs in Hid. by injection Hid as ->.
  - by rewrite Hs in Hid.
  - by rewrite Hs in Hid.
Qed.

(** Exactly once: after the commit of a call, every later identical call is
    answered with the committed result, until another outcome is reported for
    the same effect. *)
Lemma replay_forever id r sig tr l a tr' s s' :
  s sig = Done id r → machine_run (tr ++ (l, a) :: tr') s s' →
  (∀ l' a', (l', a') ∈ tr → leaves_done id l') →
  (∃ g, l = LCall g sig) → a = AReplay id r.
Proof.
  intros Hs Hrun Hok [g ->]. revert s Hs Hrun. induction tr as [|[l' a'] tr IH]; simpl;
    intros s Hs Hrun; inversion Hrun as [|l1 a1 tr1 s1 t u Hd Hstep Hrest]; subst.
  - inversion Hstep as [g1 sg ans s2 s3 Hr He| | | |]; subst. rewrite Hs in Hr. by inversion Hr.
  - apply (IH ltac:(intros l2 a2 H; eapply Hok; right; exact H) t); [|done].
    eapply done_step; [done| |done]. eapply Hok. left.
Qed.

(** The states of a signature that nothing has let run. *)
Definition not_running (s : call_state) : Prop :=
  match s with Free | Held _ _ | Done _ _ => True | Running _ | Released _ => False end.

(** The calls of a signature are gated calls. *)
Definition gated_calls (sig : pystr) (l : label) : Prop :=
  match l with LCall g sg => sg = sig → g = true | _ => True end.

Lemma gate_step sig l a s s' :
  auto = false → machine_step l a s s' → gated_calls sig l →
  not_running (s sig) → not_running (s' sig) ∧ (∀ g, l = LCall g sig → ∀ id, a ≠ ARun id).
Proof.
  intros Hauto Hstep Hl Hs.
  assert (∀ sg, elsewhere sg s s' → sg ≠ sig → not_running (s' sig)) as Helse.
  { intros sg He Hne. rewrite He by congruence. done. }
  destruct Hstep as [g sg ans s s' Hr He|id' res sg s s' Hid Hs' He|id' sg s s' Hid Hs' He
    |aid id' res sg s s' Hid Hs' He|aid id' sg s s' Hid Hs' He];
    (destruct (decide (sg = sig)) as [->|Hne];
     [|split; [eauto|]; intros ? [=]; by subst]); simpl in *.
  - specialize (Hl eq_refl) as ->.
    inversion Hr as [i Hg E1 E2 E3|i j Hg E1 E2 E3|i E1 E2 E3|i j Hg E1 E2 E3|i j Hg E1 E2 E3
      |i E1 E2 E3|i r E1 E2 E3]; subst ans; rewrite <-?E1, <-?E3 in *;
      rewrite ?Hauto in *; simpl in *; (done || congruence).
  - by rewrite Hs'.
  - by rewrite Hs'.
  - by rewrite Hs'.
  - by rewrite Hs'.
Qed.

(** The gate: without auto-approval, a gated call is never answered with
    permission to run. *)
Lemma gate_holds sig tr s s' l a :
  auto = false → machine_run tr s s' → (∀ l a, (l, a) ∈ tr → gated_calls sig l) →
  not_running (s sig) → (l, a) ∈ tr → (∃ g, l = LCall g sig) → ∀ id, a ≠ ARun id.
Proof.
  intros Hauto Hrun. induction Hrun as [|l1 a1 tr s t u Hd Hs Hr IH]; intros Hok Hn Hin [g ->] id.
  - by apply elem_of_nil in Hin.
  - destruct (gate_step sig _ _ _ _ Hauto Hs) as [Ht Ha]; [eapply Hok; left|done|].
    apply elem_of_cons in Hin as [[= <- <-]|Hin]; [by eapply Ha|].
    eapply IH; eauto. intros l' a' H. eapply Hok. right. exact H.
Qed.

(** A held call keeps waiting until it is decided: every identical call reports
    the same approval. *)
Definition leaves_held (id aid : pystr) (l : label) : Prop :=
  match l with
  | LCommit id' _ | LFail id' => id' ≠ id
  | LApprove aid' _ | LReject aid' => aid' ≠ aid
  | _ => True
  end.

Lemma held_step id aid sig l a s s' :
  auto = false → machine_step l a s s' → leaves_held id aid l →
  s sig = Held id aid → s' sig = Held id aid ∧ (∀ g, l = LCall g sig → a = APending aid).
Proof.
  intros Hauto Hstep Hl Hs.
  assert (∀ sg, elsewhere sg s s' → sg ≠ sig → s' sig = Held id aid) as Helse.
  { intros sg He Hne. rewrite He by congruence. done. }
  destruct Hstep as [g sg ans s s' Hr He|id' res sg s s' Hid Hs' He|id' sg s s' Hid Hs' He
    |aid' id' res sg s s' Hid Hs' He|aid' id' sg s s' Hid Hs' He];
    (destruct (decide (sg = sig)) as [->|Hne];
     [|split; [eauto|]; intros ? [=]; by subst]); simpl in *; rewrite Hs in *.
  - inversion Hr; subst; (done || congruence).
  - by injection Hid as ->.
  - by injection Hid as ->.
  - by injection Hid as -> ->.
  - by injection Hid as -> ->.
Qed.

Lemma held_until_decided id aid sig tr s s' l a :
  auto = false → machine_run tr s s' → (∀ l a, (l, a) ∈ tr → leaves_held id aid l) →
  s sig = Held id aid → (l, a) ∈ tr → (∃ g, l = LCall g sig) → a = APending aid.
Proof.
  intros Hauto Hrun. induction Hrun as [|l1 a1 tr s t u Hd Hs Hr IH]; intros Hok Hh Hin [g ->].
  - by apply elem_of_nil in Hin.
  - destruct (held_step id aid sig _ _ _ _ Hauto Hs) as [Ht Ha]; [eapply Hok; left|done|].
    apply elem_of_cons in Hin as [[= <- <-]|Hin]; [by eapply Ha|].
    eapply IH; eauto. intros l' a' H. eapply Hok. right. exact H.
Qed.
End machine.
