(* ===== verification/Refinement.v ===== *)
(** * The handlers implement the contract

    [state_of] reads the abstract state of a signature off the journal tables.
    Every request about a call, served by [dispatch] from any reachable
    journal, is answered as a step of the abstract machine of [Protocol] says,
    and leaves the tables in the state that step leads to. *)

From S2P Require Import Prelude Py Json Signature Journal Broadcaster Framing World Fnmatch.
From S2P Require Import DevHandler DevWp DevSpec DevRoutes Protocol.
Open Scope Z_scope.
Open Scope undolog_scope.

(** ** The abstraction *)

Definition effect_state (d : db) (e : effect) : call_state :=
  match e_status e with
  | Executing => Running (e_id e)
  | AwaitingApproval =>
      match find_pending_approval (e_id e) d with
      | Some a => Held (e_id e) (a_id a)
      | None => Released (e_id e)
      end
  | Committed => Done (e_id e) (e_result e)
  | Failed | Rejected => Free
  end.

Definition state_of (d : db) (sig : pystr) : call_state :=
  match find_live_effect sig d with
  | Some e => effect_state d e
  | None => Free
  end.

(** ** How the statements move the abstract state *)

Abbreviation pending_for id :=
  (λ a, str_eqb (a_effect_id a) id && bool_decide (a_status a = Pending)).

Lemma state_of_replay d id now sig : state_of (update_replay id now d).2 sig = state_of d sig.
Proof.
  unfold state_of, find_live_effect. simpl. rewrite first_where_update by done.
  destruct (first_where _ _) as [e|]; [|done]. simpl. by destruct (has_id id e).
Qed.

(** A new row occupies its own signature only. *)
Lemma state_of_insert d e a sig :
  journal_ok d → e_id e ∉ (e_id <$> effects d) → (∀ ap, a = Some ap → a_effect_id ap = e_id e) →
  sig ≠ e_signature e →
  state_of (Db (effects d ++ [e]) (approvals d ++ option_list a)) sig = state_of d sig.
Proof.
  intros Hok Hnew Ha Hsig. unfold state_of, find_live_effect. simpl.
  rewrite first_where_app. destruct (first_where _ (effects d)) as [x|] eqn:E.
  - unfold effect_state. assert (find_pending_approval (e_id x)
      (Db (effects d ++ [e]) (approvals d ++ option_list a)) = find_pending_approval (e_id x) d)
      as ->; [|done].
    unfold find_pending_approval. simpl. rewrite List.filter_app.
    destruct a as [ap|]; simpl; [|by rewrite app_nil_r].
    rewrite (proj2 (str_eqb_neq _ _)); simpl; [by rewrite app_nil_r|].
    rewrite Ha by done. intros Heq. apply Hnew. rewrite Heq.
    apply first_where_Some in E as [E _]. by apply list_elem_of_fmap_2.
  - simpl. unfold holds_signature. rewrite (proj2 (str_eqb_neq _ _)) by done.
    by rewrite andb_false_r.
Qed.

Lemma pending_for_approvals id d d' :
  approvals d' = approvals d → find_pending_approval id d' = find_pending_approval id d.
Proof. unfold find_pending_approval. by intros ->. Qed.

(** An outcome moves the signature of its row only. *)
Lemma state_of_outcome d e st r err now sig :
  journal_ok d → e ∈ effects d → sig ≠ e_signature e →
  state_of (with_outcome (e_id e) st r err d now) sig = state_of d sig.
Proof.
  intros Hok He Hsig. unfold state_of, find_live_effect, with_outcome. simpl.
  rewrite first_where_update_other; [done|].
  intros x Hx Hid%has_id_iff.
  assert (x = e) as -> by (eapply NoDup_fmap_inj_in; [apply Hok|done..]).
  unfold holds_signature. simpl. rewrite (proj2 (str_eqb_neq _ _)) by done.
  by rewrite !andb_false_r.
Qed.

(** Resolving an approval moves the call it was asked for only. *)
Lemma find_pending_resolved d a st now id :
  journal_ok d → a ∈ approvals d → id ≠ a_effect_id a →
  find_pending_approval id (resolve_approval (a_id a) st now d).2 = find_pending_approval id d.
Proof.
  intros Hok Ha Hid. unfold find_pending_approval. simpl.
  rewrite filter_update_other; [done|].
  intros x Hx [Hxid%has_approval_id_iff _]%andb_prop.
  assert (x = a) as ->.
  { eapply NoDup_fmap_inj_in; [|done|done|exact Hxid]. apply Hok. }
  simpl. by rewrite (proj2 (str_eqb_neq _ _)) by done.
Qed.

Lemma find_pending_decided d a st now :
  journal_ok d → a ∈ approvals d → st ≠ Pending →
  find_pending_approval (a_effect_id a) (resolve_approval (a_id a) st now d).2 = None.
Proof.
  intros Hok Ha Hst. unfold find_pending_approval. simpl.
  assert (List.filter (pending_for (a_effect_id a)) (update_where (is_pending_approval (a_id a))
    (set_resolution st now) (approvals d)) = []) as ->; [|done].
  destruct (List.filter _ _) as [|x l] eqn:E; [done|]. exfalso.
  assert (x ∈ List.filter (pending_for (a_effect_id a)) (update_where (is_pending_approval (a_id a))
    (set_resolution st now) (approvals d))) as Hx by (rewrite E; left).
  apply list_elem_of_In, List.filter_In in Hx as [Hx [Heff%str_eqb_eq Hp%bool_decide_eq_true]%andb_prop].
  apply list_elem_of_In, elem_of_update_where in Hx as (y & Hy & ->).
  assert (a_effect_id y = a_effect_id a) as Hya by (by destruct (is_pending_approval (a_id a) y)).
  assert (y = a) as ->.
  { eapply NoDup_fmap_inj_in; [|done|done|exact Hya]. apply Hok. }
  destruct (is_pending_approval (a_id a) a) eqn:Ep; simpl in *; [done|].
  unfold is_pending_approval in Ep. rewrite (proj2 (has_approval_id_iff _ _)) in Ep by done.
  simpl in Ep. by apply bool_decide_eq_false in Ep.
Qed.

Lemma state_of_resolve d a e st now sig :
  journal_ok d → a ∈ approvals d → e ∈ effects d → e_id e = a_effect_id a →
  sig ≠ e_signature e →
  state_of (resolve_approval (a_id a) st now d).2 sig = state_of d sig.
Proof.
  intros Hok Ha He Hid Hsig. unfold state_of.
  change (find_live_effect sig (resolve_approval (a_id a) st now d).2) with (find_live_effect sig d).
  destruct (find_live_effect sig d) as [x|] eqn:E; [|done]. unfold effect_state.
  rewrite find_pending_resolved; [done..|]. rewrite <-Hid. intros Heq.
  apply find_live_effect_Some in E as (Hx & _ & Hs).
  assert (x = e) as -> by (eapply NoDup_fmap_inj_in; [apply Hok|done..]). congruence.
Qed.

(** The row behind an abstract state. *)
Lemma state_of_row d sig id :
  state_id (state_of d sig) = Some id →
  ∃ e, find_live_effect sig d = Some e ∧ e_id e = id ∧ e ∈ effects d ∧
    is_live (e_status e) = true ∧ e_signature e = sig.
Proof.
  unfold state_of. destruct (find_live_effect sig d) as [e|] eqn:E; [|done].
  intros H. exists e. apply find_live_effect_Some in E as (? & ? & ?). split_and!; try done.
  unfold effect_state in H. destruct (e_status e); simpl in H; try case_match; simplify_eq/=; done.
Qed.

Lemma state_of_distinct d : journal_ok d → ids_distinct (state_of d).
Proof.
  intros Hok sig sig' id (e & _ & Hid & He & _ & <-)%state_of_row
    (e' & _ & Hid' & He' & _ & <-)%state_of_row.
  f_equal. eapply NoDup_fmap_inj_in; [apply Hok|done..|congruence].
Qed.

Lemma find_pending_Some d id a :
  find_pending_approval id d = Some a →
  a ∈ approvals d ∧ a_effect_id a = id ∧ a_status a = Pending.
Proof.
  unfold find_pending_approval. intros H.
  assert (a ∈ List.filter (pending_for id) (approvals d)) as Ha.
  { rewrite <-(merge_sort_Permutation created_later). destruct (merge_sort _ _); [done|].
    injection H as ->. left. }
  apply list_elem_of_In, List.filter_In in Ha
    as [Ha [?%str_eqb_eq ?%bool_decide_eq_true]%andb_prop].
  by apply list_elem_of_In in Ha.
Qed.

Lemma held_row d sig id aid :
  state_of d sig = Held id aid →
  ∃ e a, find_live_effect sig d = Some e ∧ e_id e = id ∧ e ∈ effects d ∧
    e_status e = AwaitingApproval ∧ e_signature e = sig ∧
    a ∈ approvals d ∧ a_id a = aid ∧ a_effect_id a = id ∧ a_status a = Pending ∧
    find_pending_approval id d = Some a.
Proof.
  intros H. destruct (state_of_row d sig id) as (e & He & Hid & Hin & Hl & Hs); [by rewrite H|].
  unfold state_of in H. rewrite He in H. unfold effect_state in H.
  destruct (e_status e) eqn:Est; try done.
  destruct (find_pending_approval (e_id e) d) as [a|] eqn:Ep; [|done].
  injection H as _ Haid. rewrite Hid in Ep. pose proof (find_pending_Some _ _ _ Ep) as (? & ? & ?).
  exists e, a. by split_and!.
Qed.

(** ** Requests, and the simulation *)

Section simulation.
Variable float_of_text : pystr → pyfloat.
Variable blake3_hexdigest : bytes → pystr.
Variable exc_str : pyexc → pystr.
Variable py_str : json → pystr.
Variable srv : server.
Variable uuid4_str : nat → pystr.
Variable utc_now_str : nat → pystr.
Variable time_ns_at : nat → Z.
Context `{!id_laws uuid4_str utc_now_str}.

Abbreviation wpr := (wp uuid4_str utc_now_str time_ns_at).
Abbreviation tool_call := (handle_tool_call float_of_text blake3_hexdigest exc_str py_str srv).
Abbreviation dispatch_ := (dispatch float_of_text blake3_hexdigest exc_str py_str srv).
Abbreviation reads c body c1 := (read_body float_of_text c = (inr body, c1)).
Abbreviation intercept_ := (intercept float_of_text blake3_hexdigest exc_str py_str).

(** What holds between requests: the tables are consistent, identifiers drawn
    later are new, and every stored identifier can be bound again and named in
    a path. *)
Record serving (w : world) : Prop := {
  serving_ok : world_ok w;
  serving_fresh : uuids_fresh uuid4_str w;
  serving_text : ∀ e, e ∈ effects (w_db w) → bindable (e_id e) = true;
  serving_segment : ∀ e, e ∈ effects (w_db w) → is_segment (e_id e) = true;
}.

(** The request that carries a label, on the connection it arrives on. *)
Inductive request_for (d : db) : label → request → conn → Prop :=
| rq_call c sid tool args step sig params (I : intercept_ c sid tool args step sig) :
    request_for d (LCall (requires_approval srv tool) sig)
      (Request $"POST" $"/mcp/tool_call" params) c
| rq_commit id sig body c c1 result params :
    state_id (state_of d sig) = Some id → is_segment id = true →
    reads c body c1 → default (JObj []) (dict_get $"result" body) = JObj result →
    request_for d (LCommit id (JObj result))
      (Request $"PUT" (action_path $"effects" id $"commit") params) c
| rq_fail id sig body c c1 error params :
    state_id (state_of d sig) = Some id → is_segment id = true →
    reads c body c1 → default (JStr []) (dict_get $"error" body) = JStr error →
    bindable error = true →
    request_for d (LFail id) (Request $"PUT" (action_path $"effects" id $"fail") params) c
| rq_approve a sig body c c1 params :
    state_of d sig = Held (a_effect_id a) (a_id a) → a ∈ approvals d →
    is_segment (a_id a) = true → reads c body c1 →
    request_for d (LApprove (a_id a) (mock_tool_result (a_tool_name a) (a_args a)))
      (Request $"POST" (action_path $"approvals" (a_id a) $"approve") params) c
| rq_reject a sig body c c1 params :
    state_of d sig = Held (a_effect_id a) (a_id a) → a ∈ approvals d →
    is_segment (a_id a) = true → reads c body c1 →
    request_for d (LReject (a_id a))
      (Request $"POST" (action_path $"approvals" (a_id a) $"reject") params) c.

(** The response that carries an answer. *)
Definition encodes (r : response) (a : answer) : Prop :=
  match a with
  | ARun id => rs_status r = 200 ∧ rs_body r = executed_body (JStr id)
  | APending aid => rs_status r = 202 ∧ rs_body r = pending_body aid
  | AReplay id result =>
      rs_status r = 200 ∧
      rs_body r = JObj [($"status", JStr $"replayed"); ($"effect_id", JStr id);
                        ($"result", default JNull result)]
  | ADone => rs_status r = 200
  end.

(** The outcome of a request that implements a step of the machine. *)
Definition implements (l : label) (w : world) (r : response) (w' : world) (c' : conn) : Prop :=
  serving w' ∧ ∃ ans, encodes r ans ∧
    machine_step (auto_approve srv) l ans (state_of (w_db w)) (state_of (w_db w')).

(** Every program keeps the invariant of the shared state. *)
Lemma wp_with_ok {A} (p : prog A) (Q : A → world → conn → Prop) w c :
  world_ok w → wpr p (λ a w' c', world_ok w' → Q a w' c') w c → wpr p Q w c.
Proof.
  intros Hok (a & w' & c' & E & HQ)%wp_exec. apply wp_exec. exists a, w', c'.
  eauto using exec_ok.
Qed.

Lemma serving_db w w' :
  serving w → world_ok w' → e_id <$> effects (w_db w') = e_id <$> effects (w_db w) →
  a_id <$> approvals (w_db w') = a_id <$> approvals (w_db w) →
  (w_uuids w ≤ w_uuids w')%nat → serving w'.
Proof.
  intros [Hok Hf Ht Hsg] Hok' He Ha Hu.
  assert (∀ e, e ∈ effects (w_db w') → ∃ x, x ∈ effects (w_db w) ∧ e_id e = e_id x) as Hrow.
  { intros e Hin. assert (e_id e ∈ e_id <$> effects (w_db w)) as (x & Hx & Hxin)%list_elem_of_fmap
      by (rewrite <-He; by apply list_elem_of_fmap_2). eauto. }
  split; [done|by eapply fresh_db|..]; intros e (x & Hx & ->)%Hrow; auto.
Qed.

Lemma serving_quiet w w' : serving w → world_ok w' → quiet w w' → serving w'.
Proof.
  intros Hs Hok Hq. eapply serving_db; [done..| | |apply Hq]; by rewrite (quiet_db _ _ Hq).
Qed.

Lemma with_outcome_ids id st r err d now :
  e_id <$> effects (with_outcome id st r err d now) = e_id <$> effects d.
Proof. by apply fmap_update_where. Qed.

Lemma resolve_ids id st now d :
  a_id <$> approvals (resolve_approval id st now d).2 = a_id <$> approvals d.
Proof. by apply fmap_update_where. Qed.

Lemma serving_outcome w w' id st r err now :
  serving w → world_ok w' → w_db w' = with_outcome id st r err (w_db w) now →
  (w_uuids w ≤ w_uuids w')%nat → serving w'.
Proof.
  intros Hs Hok Hdb Hu. eapply serving_db; [done..| | |done]; rewrite Hdb; [|done].
  apply with_outcome_ids.
Qed.

Lemma serving_resolved w w' aid id ast est r now1 now2 :
  serving w → world_ok w' → w_db w' = resolved aid id ast est r (w_db w) now1 now2 →
  (w_uuids w ≤ w_uuids w')%nat → serving w'.
Proof.
  intros Hs Hok Hdb Hu. eapply serving_db; [done..| | |done]; rewrite Hdb; unfold resolved.
  - by rewrite with_outcome_ids.
  - apply resolve_ids.
Qed.

(** *** Calls *)

(** A new row is a step from [Free]. *)
Lemma implements_insert l w w' c' r e a ans gated n :
  serving w → world_ok w' → uuids_fresh uuid4_str w' → e_id e = uuid4_str n →
  (∀ ap, a = Some ap → a_effect_id ap = e_id e) →
  w_db w' = Db (effects (w_db w) ++ [e]) (approvals (w_db w) ++ option_list a) →
  find_live_effect (e_signature e) (w_db w) = None →
  find_live_effect (e_signature e) (w_db w') = Some e →
  l = LCall gated (e_signature e) → encodes r ans →
  call_rule (auto_approve srv) gated Free ans (effect_state (w_db w') e) →
  implements l w r w' c'.
Proof.
  intros Hs Hok' Hf' Hid Ha Hdb Hnone Hsome -> Henc Hrule.
  assert (e_id e ∉ e_id <$> effects (w_db w)) as Hnew.
  { pose proof (ids_unique _ (world_journal _ Hok')) as Hnd. rewrite Hdb in Hnd. simpl in Hnd.
    rewrite fmap_app in Hnd. apply NoDup_app in Hnd as (_ & Hnd & _). intros Hin.
    apply (Hnd _ Hin). left. }
  split.
  - split; [done|done|..]; rewrite Hdb; simpl; intros x [Hx| ->]%elem_of_snoc;
      (by apply Hs) || (rewrite Hid; apply uuid4_text || apply uuid4_segment).
  - exists ans. split; [done|]. constructor.
    + unfold state_of. by rewrite Hnone, Hsome.
    + intros sig Hsig. rewrite Hdb. apply state_of_insert; try done. apply Hs.
Qed.

(** An answer that leaves the abstract state alone. *)
Lemma implements_same l gated sig w w' c' r ans :
  serving w' → (∀ sig, state_of (w_db w') sig = state_of (w_db w) sig) →
  l = LCall gated sig → encodes r ans →
  call_rule (auto_approve srv) gated (state_of (w_db w) sig) ans (state_of (w_db w) sig) →
  implements l w r w' c'.
Proof.
  intros Hs Hsame -> Henc Hrule. split; [done|]. exists ans. split; [done|].
  constructor; [by rewrite Hsame|]. intros sig' _. apply Hsame.
Qed.

Lemma free_call c sid tool args step sig (I : intercept_ c sid tool args step sig) w :
  serving w → find_live_effect sig (w_db w) = None →
  wpr tool_call (implements (LCall (requires_approval srv tool) sig) w) w c.
Proof.
  intros Hs Hnone. pose proof (serving_ok _ Hs) as Hok. apply wp_with_ok; [done|].
  destruct (requires_approval srv tool) eqn:Hreq; [destruct (auto_approve srv) eqn:Hauto|].
  - eapply wp_mono; [eapply tool_call_auto; (done || apply Hs || apply Hok)|].
    intros r w' c' (e & a & Hst & Hb & Hdb & Hid & Hest & <- & Hsess & Htool & Hstep & Hargs
      & Haeff & Hast & Haid & Hlive & Hf') Hok'.
    eapply (implements_insert _ _ _ _ _ e (Some a) (ARun (e_id e)) true); try done.
    + by intros ? [= <-].
    + unfold effect_state. rewrite Hest. constructor. by rewrite Hauto.
  - eapply wp_mono; [eapply tool_call_holds; (done || apply Hs || apply Hok)|].
    intros r w' c' (e & a & Hst & Hb & Hdb & Hid & (Hest & Haid & Haeff & Hast & _) & <-
      & Hsess & Htool & Hstep & Hargs & Hlive & Hf') Hok'.
    eapply (implements_insert _ _ _ _ _ e (Some a) (APending (a_id a)) true); try done.
    + by intros ? [= <-].
    + unfold effect_state. rewrite Hest, <-Haeff.
      rewrite (find_pending_approval_elem _ a); [|apply Hok'|rewrite Hdb; apply elem_of_snoc; by right|done].
      constructor. by rewrite Hauto.
  - eapply wp_mono; [eapply tool_call_executes; (done || apply Hs || apply Hok)|].
    intros r w' c' (e & Hst & Hb & Hdb & Hid & Hest & <- & Hsess & Htool & Hstep & Hargs
      & Hlive & Hf') Hok'.
    eapply (implements_insert _ _ _ _ _ e None (ARun (e_id e)) false); try done.
    + by rewrite Hdb, app_nil_r.
    + unfold effect_state. rewrite Hest. by constructor.
Qed.

Lemma state_of_live d sig e :
  find_live_effect sig d = Some e → state_of d sig = effect_state d e.
Proof. unfold state_of. by intros ->. Qed.

Lemma state_of_quiet w w' sig : quiet w w' → state_of (w_db w') sig = state_of (w_db w) sig.
Proof. intros Hq. by rewrite (quiet_db _ _ Hq). Qed.

(** An auto-approved repetition releases the held call. *)
Lemma implements_release w w' c' r gated sig e a now :
  serving w → serving w' → auto_approve srv = true →
  find_live_effect sig (w_db w) = Some e → e_status e = AwaitingApproval →
  find_pending_approval (e_id e) (w_db w) = Some a →
  w_db w' = (resolve_approval (a_id a) Approved now (w_db w)).2 →
  encodes r (ARun (e_id e)) → implements (LCall gated sig) w r w' c'.
Proof.
  intros Hs Hs' Hauto He Hest Ha Hdb Henc. split; [done|]. eexists. split; [exact Henc|].
  pose proof (world_journal _ (serving_ok _ Hs)) as Hok.
  pose proof (find_pending_Some _ _ _ Ha) as (Hain & Haeff & Hp).
  pose proof (find_live_effect_Some _ _ _ He) as (Hin & Hl & Hsig).
  constructor.
  - rewrite (state_of_live _ _ e He). unfold effect_state at 1. rewrite Hest, Ha.
    assert (state_of (w_db w') sig = Released (e_id e)) as ->; [|by constructor].
    rewrite (state_of_live _ _ e) by (by rewrite Hdb). unfold effect_state. rewrite Hest.
    by rewrite Hdb, <-Haeff, find_pending_decided.
  - intros sig' Hne. rewrite Hdb. eapply (state_of_resolve _ _ e); try done. by rewrite Hsig.
Qed.

Lemma live_call c sid tool args step sig (I : intercept_ c sid tool args step sig) w e :
  serving w → find_live_effect sig (w_db w) = Some e →
  wpr tool_call (implements (LCall (requires_approval srv tool) sig) w) w c.
Proof.
  intros Hs He. pose proof (serving_ok _ Hs) as Hok. apply wp_with_ok; [done|].
  apply (wp_tool_call _ _ _ _ _ _ _ _ _ _ _ _ _ _ I). intros w1 Hq1 Hu1.
  assert (find_live_effect sig (w_db w1) = Some e) as He1 by (by rewrite (quiet_db _ _ Hq1)).
  apply (wp_decide_existing _ _ _ _ _ _ _ _ _ _ _ e); [done|].
  pose proof (state_of_live _ _ _ He) as Hst. unfold effect_state in Hst.
  pose proof (find_live_effect_Some _ _ _ He) as (_ & Hl & _).
  destruct (e_status e) eqn:Est; try done.
  - eapply wp_respond_executing; [done|]. intros w' c' b rid Hq Hok'.
    assert (quiet w w') as Hqq by (by etrans).
    eapply (implements_same _ _ _ _ _ _ _ (ARun (e_id e))); try done.
    + by eapply serving_quiet.
    + intros sig'. by apply state_of_quiet.
    + rewrite Hst. constructor.
  - destruct (find_pending_approval (e_id e) (w_db w)) as [a|] eqn:Ea.
    + assert (find_pending_approval (e_id e) (w_db w1) = Some a) as Ea1
        by (by rewrite (quiet_db _ _ Hq1)).
      destruct (auto_approve srv) eqn:Hauto.
      * eapply wp_respond_auto; [done..|]. intros now w' c' b rid Hdb Hu Hok'.
        rewrite (quiet_db _ _ Hq1) in Hdb. eapply implements_release; try done.
        eapply serving_db; [done..| | |]; rewrite ?Hdb; [done|apply resolve_ids|lia].
      * eapply wp_respond_held; [done..|]. intros w' c' b rid Hq Hok'.
        assert (quiet w w') as Hqq by (by etrans).
        eapply (implements_same _ _ _ _ _ _ _ (APending (a_id a))); try done.
        -- by eapply serving_quiet.
        -- intros sig'. by apply state_of_quiet.
        -- rewrite Hst. by constructor.
    + eapply wp_respond_resolved; [done|by rewrite (quiet_db _ _ Hq1)|].
      intros w' c' b rid Hq Hok'. assert (quiet w w') as Hqq by (by etrans).
      eapply (implements_same _ _ _ _ _ _ _ (ARun (e_id e))); try done.
      * by eapply serving_quiet.
      * intros sig'. by apply state_of_quiet.
      * rewrite Hst. constructor.
  - eapply wp_respond_committed; [done|]. intros now w' c' b rid Hdb Hu Hok'.
    rewrite (quiet_db _ _ Hq1) in Hdb.
    eapply (implements_same _ _ _ _ _ _ _ (AReplay (e_id e) (e_result e))); try done.
    + eapply serving_db; [done..| | |lia]; rewrite Hdb; [by apply fmap_update_where|done].
    + intros sig'. rewrite Hdb. apply state_of_replay.
    + rewrite Hst. constructor.
Qed.

(** *** Outcomes and decisions *)

Lemma live_row w sig id :
  serving w → state_id (state_of (w_db w) sig) = Some id →
  ∃ e, e_id e = id ∧ e ∈ effects (w_db w) ∧ bindable id = true ∧ e_signature e = sig ∧
    is_live (e_status e) = true ∧ (∀ st, revives_taken_signature id st (w_db w) = false).
Proof.
  intros Hs (e & He & Hid & Hin & Hl & Hsig)%state_of_row. exists e. subst id.
  split_and!; try done; [by apply Hs|]. intros st. apply revives_live; [|done..].
  apply (world_journal _ (serving_ok _ Hs)).
Qed.

(** The abstract state of a row after its outcome is written. *)
Lemma state_of_committed d e r err now :
  journal_ok d → e ∈ effects d → is_live (e_status e) = true →
  state_of (with_outcome (e_id e) Committed r err d now) (e_signature e) = Done (e_id e) r.
Proof.
  intros Hok He Hl. unfold state_of, with_outcome. rewrite find_after_update by auto. done.
Qed.

Lemma state_of_freed d e st r err now :
  journal_ok d → e ∈ effects d → is_live (e_status e) = true → is_live st = false →
  state_of (with_outcome (e_id e) st r err d now) (e_signature e) = Free.
Proof.
  intros Hok He Hl Hst. unfold state_of, with_outcome. by rewrite free_after_update.
Qed.

Lemma commit_implements id sig body c c1 result w :
  serving w → state_id (state_of (w_db w) sig) = Some id → reads c body c1 →
  default (JObj []) (dict_get $"result" body) = JObj result →
  wpr (handle_effect_action float_of_text id $"commit") (implements (LCommit id (JObj result)) w) w c.
Proof.
  intros Hs Hst Hread Hres. pose proof (serving_ok _ Hs) as Hok. apply wp_with_ok; [done|].
  destruct (live_row _ _ _ Hs Hst) as (e & Hid & Hin & Hb & Hsig & Hl & Hrev). subst id.
  eapply wp_commit; [done..| |].
  { apply updates_row; [done|by rewrite Hb|done]. }
  intros now w' c' resp Hdb Hu [Hrs _] Hok'. split; [by eapply serving_outcome|].
  exists ADone. split; [done|]. apply (m_commit _ _ _ sig); [done|..].
  - rewrite Hdb, <-Hsig. apply state_of_committed; [apply Hok|done..].
  - intros sig' Hne. rewrite Hdb. apply state_of_outcome; [apply Hok|done|by rewrite Hsig].
Qed.

Lemma fail_implements id sig body c c1 error w :
  serving w → state_id (state_of (w_db w) sig) = Some id → reads c body c1 →
  default (JStr []) (dict_get $"error" body) = JStr error → bindable error = true →
  wpr (handle_effect_action float_of_text id $"fail") (implements (LFail id) w) w c.
Proof.
  intros Hs Hst Hread Hres Herr. pose proof (serving_ok _ Hs) as Hok. apply wp_with_ok; [done|].
  destruct (live_row _ _ _ Hs Hst) as (e & Hid & Hin & Hb & Hsig & Hl & Hrev). subst id.
  eapply wp_fail; [done..| |].
  { apply updates_row; [done|simpl; by rewrite Hb, Herr|done]. }
  intros now w' c' resp Hdb Hu [Hrs _] Hok'. split; [by eapply serving_outcome|].
  exists ADone. split; [done|]. apply (m_fail _ _ sig); [done|..].
  - rewrite Hdb, <-Hsig. apply state_of_freed; [apply Hok|done..].
  - intros sig' Hne. rewrite Hdb. apply state_of_outcome; [apply Hok|done|by rewrite Hsig].
Qed.

(** The row a pending approval holds. *)
Lemma decided_row w sig a :
  serving w → state_of (w_db w) sig = Held (a_effect_id a) (a_id a) → a ∈ approvals (w_db w) →
  a_status a = Pending ∧ ∃ e, e_id e = a_effect_id a ∧ e ∈ effects (w_db w) ∧
    bindable (e_id e) = true ∧ e_signature e = sig ∧ is_live (e_status e) = true ∧
    (∀ st, revives_taken_signature (e_id e) st (w_db w) = false).
Proof.
  intros Hs Hst Ha. split.
  - destruct (held_row _ _ _ _ Hst) as (e & b & _ & _ & _ & _ & _ & Hb & Hbid & _ & Hp & _).
    assert (a = b) as ->; [|done]. eapply NoDup_fmap_inj_in; [|done..].
    apply (world_journal _ (serving_ok _ Hs)).
  - destruct (live_row w sig (a_effect_id a)) as (e & Hid & ? & ? & ? & ? & ?); [done|by rewrite Hst|].
    exists e. by rewrite Hid.
Qed.

(** Both decisions: the approval is resolved and the row gets its outcome. *)
Lemma resolved_elsewhere d a e ast est r now1 now2 sig :
  journal_ok d → a ∈ approvals d → e ∈ effects d → e_id e = a_effect_id a → sig ≠ e_signature e →
  state_of (resolved (a_id a) (e_id e) ast est r d now1 now2) sig = state_of d sig.
Proof.
  intros Hok Ha He Hid Hsig. unfold resolved.
  rewrite state_of_outcome; [by eapply state_of_resolve| |done|done].
  eapply resolve_approval_ok; [done|]. apply surjective_pairing.
Qed.

Lemma resolve_ok d id st now : journal_ok d → journal_ok (resolve_approval id st now d).2.
Proof. intros Hok. eapply resolve_approval_ok; [done|]. apply surjective_pairing. Qed.

Lemma approve_implements a sig body c c1 w :
  serving w → state_of (w_db w) sig = Held (a_effect_id a) (a_id a) → a ∈ approvals (w_db w) →
  reads c body c1 →
  wpr (handle_approval_decision float_of_text (a_id a) $"approve")
    (implements (LApprove (a_id a) (mock_tool_result (a_tool_name a) (a_args a))) w) w c.
Proof.
  intros Hs Hst Ha Hread. pose proof (serving_ok _ Hs) as Hok. apply wp_with_ok; [done|].
  destruct (decided_row _ _ _ Hs Hst Ha) as (Hp & e & Hid & Hin & Hb & Hsig & Hl & Hrev).
  eapply (wp_approve _ _ _ _ a e); try done; [apply Hok|].
  intros now1 now2 w' c' resp Hdb Hu Hrs _ Hok'. split; [by eapply serving_resolved|].
  exists ADone. split; [done|]. apply (m_approve _ _ (e_id e) _ sig); [by rewrite Hid|..].
  - rewrite Hdb, <-Hsig. unfold resolved. apply state_of_committed; [|done..].
    apply resolve_ok, Hok.
  - intros sig' Hne. rewrite Hdb. apply resolved_elsewhere; try done; [apply Hok|by rewrite Hsig].
Qed.

Lemma reject_implements a sig body c c1 w :
  serving w → state_of (w_db w) sig = Held (a_effect_id a) (a_id a) → a ∈ approvals (w_db w) →
  reads c body c1 →
  wpr (handle_approval_decision float_of_text (a_id a) $"reject")
    (implements (LReject (a_id a)) w) w c.
Proof.
  intros Hs Hst Ha Hread. pose proof (serving_ok _ Hs) as Hok. apply wp_with_ok; [done|].
  destruct (decided_row _ _ _ Hs Hst Ha) as (Hp & e & Hid & Hin & Hb & Hsig & Hl & Hrev).
  eapply (wp_reject _ _ _ _ a e); try done; [apply Hok|].
  intros now1 now2 w' c' resp Hdb Hu Hrs _ Hok'. split; [by eapply serving_resolved|].
  exists ADone. split; [done|]. apply (m_reject _ _ (e_id e) sig); [by rewrite Hid|..].
  - rewrite Hdb, <-Hsig. unfold resolved. apply state_of_freed; [|done..].
    apply resolve_ok, Hok.
  - intros sig' Hne. rewrite Hdb. apply resolved_elsewhere; try done; [apply Hok|by rewrite Hsig].
Qed.

(** Every request about a call is answered as a step of the machine. *)
Lemma dispatch_implements l rq c w rounds :
  serving w → request_for (w_db w) l rq c →
  wpr (dispatch_ rq rounds) (answers (implements l w)) w c.
Proof.
  intros Hs Hrq. destruct Hrq as [c sid tool args step sig params I|id sig body c c1 result params
    Hst Hseg Hread Hres|id sig body c c1 error params Hst Hseg Hread Hres Herr
    |a sig body c c1 params Hst Ha Hseg Hread|a sig body c c1 params Hst Ha Hseg Hread].
  - apply wp_dispatch_tool_call. destruct (find_live_effect sig (w_db w)) as [e|] eqn:He.
    + by eapply live_call.
    + by eapply free_call.
  - apply wp_dispatch_effect; [done|by left|]. by eapply commit_implements.
  - apply wp_dispatch_effect; [done|by right|]. by eapply fail_implements.
  - apply wp_dispatch_approval; [done|by left|]. by eapply approve_implements.
  - apply wp_dispatch_approval; [done|by right|]. by eapply reject_implements.
Qed.

(** ** Sequences of requests *)

(** Requests served one after the other, with their responses. *)
Inductive served : world → list (label * response) → world → Prop :=
| served_nil w : served w [] w
| served_cons w l rq c rounds r w1 c1 tr w2 :
    request_for (w_db w) l rq c →
    exec uuid4_str utc_now_str time_ns_at (dispatch_ rq rounds) w c = (inr (Reply r), w1, c1) →
    served w1 tr w2 → served w ((l, r) :: tr) w2.

(** A concrete exchange and the abstract one it implements. *)
Definition exchange (x : label * response) (y : label * answer) : Prop :=
  x.1 = y.1 ∧ encodes x.2 y.2.

Lemma served_runs w tr w' :
  served w tr w' → serving w →
  serving w' ∧ ∃ tr', Forall2 exchange tr tr' ∧
    machine_run (auto_approve srv) tr' (state_of (w_db w)) (state_of (w_db w')).
Proof.
  induction 1 as [w|w l rq c rounds r w1 c1 tr w2 Hrq Hex Hrest IH]; intros Hs.
  - split; [done|]. exists []. split; constructor.
  - pose proof (dispatch_implements l rq c w rounds Hs Hrq) as Hd.
    apply wp_exec in Hd as (rep & w' & c' & Hex' & r' & -> & Hs' & ans & Henc & Hstep).
    rewrite Hex in Hex'. injection Hex' as <- <- <-.
    destruct (IH Hs') as (Hs2 & tr' & Htr & Hrun). split; [done|].
    exists ((l, ans) :: tr'). split; [by constructor|]. econstructor; [|done..].
    apply state_of_distinct, (world_journal _ (serving_ok _ Hs)).
Qed.

(** Requests can always be served. *)
Lemma served_total w l rq c rounds :
  serving w → request_for (w_db w) l rq c →
  ∃ r w' c', exec uuid4_str utc_now_str time_ns_at (dispatch_ rq rounds) w c
    = (inr (Reply r), w', c') ∧ serving w'.
Proof.
  intros Hs Hrq. pose proof (dispatch_implements l rq c w rounds Hs Hrq) as Hd.
  apply wp_exec in Hd as (rep & w' & c' & Hex & r & -> & Hs' & _). eauto.
Qed.

Lemma exchange_in tr tr' l r :
  Forall2 exchange tr tr' → (l, r) ∈ tr → ∃ a, (l, a) ∈ tr' ∧ encodes r a.
Proof.
  induction 1 as [|[l1 r1] [l2 a2] tr tr' [Hl Hr] Htr IH]; intros Hin; [by apply elem_of_nil in Hin|].
  simpl in *. subst l2. apply elem_of_cons in Hin as [[= -> ->]|Hin].
  - exists a2. split; [left|done].
  - destruct (IH Hin) as (a & ? & ?). exists a. split; [by right|done].
Qed.

Lemma exchange_labels (P : label → Prop) tr tr' :
  Forall2 exchange tr tr' → (∀ l r, (l, r) ∈ tr → P l) → ∀ l a, (l, a) ∈ tr' → P l.
Proof.
  induction 1 as [|[l1 r1] [l2 a2] tr tr' [Hl Hr] Htr IH]; intros HP l a Hin;
    [by apply elem_of_nil in Hin|].
  simpl in *. subst l2. apply elem_of_cons in Hin as [[= -> ->]|Hin].
  - eapply HP. left.
  - eapply IH; [|done]. intros l' r' H'. eapply HP. by right.
Qed.

(** A call is never answered as a report is. *)
Lemma call_answered tr s s' g sig :
  machine_run (auto_approve srv) tr s s' → (LCall g sig, ADone) ∉ tr.
Proof.
  induction 1 as [|l a tr s t u Hd Hs Hr IH]; [apply not_elem_of_nil|].
  intros [[= <- <-]|Hin]%elem_of_cons; [|done].
  inversion Hs as [g' sg ans s1 s2 Hrule He| | | |]; subst. inversion Hrule.
Qed.
End simulation.
