(* ===== verification/SchemaTheorems.v ===== *)
(** * The journal file: what holds of it

    A file the server wrote opens as it is. A file of an earlier version, which
    lacks some of the columns that were added since, opens if and only if its
    live signatures are distinct, and then holds the same effects with the
    defaults in the new columns. *)

From S2P Require Import Prelude Py Json Journal Schema.
Open Scope Z_scope.
Open Scope undolog_scope.

(** ** Records and rows *)

Lemma effect_of_row_of_effect e : effect_of_row (row_of_effect e) = Some e.
Proof. by destruct e as [? ? ? ? ? ? ? ? [] ? [] [] ? [] [] ? ?]. Qed.

Lemma approval_of_row_of_approval a : approval_of_row (row_of_approval a) = Some a.
Proof. by destruct a as [? ? ? ? ? ? [] ? []]. Qed.

Lemma mapM_fmap_Some {A B C} (f : A → B) (g : B → option C) (h : A → C) l :
  (∀ x, g (f x) = Some (h x)) → mapM g (f <$> l) = Some (h <$> l).
Proof. intros H. induction l as [|x l IH]; [done|]. rewrite fmap_cons. simpl. by rewrite H, IH. Qed.

(** ** The index on live signatures *)

Definition live_signatures (d : db) : list pystr :=
  e_signature <$> List.filter (λ e, is_live (e_status e)) (effects d).

(** A row that shows the status and the signature of an effect. *)
Definition shows (e : effect) (r : row) : Prop :=
  cell $"status" r = Some (SText (effect_status_text (e_status e))) ∧
  cell $"signature" r = Some (SText (e_signature e)).

Lemma indexed_live e r : shows e r → indexed LIVE_SIGNATURE r = is_live (e_status e).
Proof. intros [Hs _]. unfold indexed. cbn [ix_where LIVE_SIGNATURE existsb]. rewrite Hs. by destruct (e_status e). Qed.

Lemma same_key_signature e e' r r' :
  shows e r → shows e' r' → same_key LIVE_SIGNATURE r r' = str_eqb (e_signature e) (e_signature e').
Proof. intros [_ H] [_ H']. unfold same_key. cbn. rewrite H, H'. cbn. by rewrite andb_true_r. Qed.

(** The index is violated exactly when a signature has two live effects. *)
Lemma violates_live es rs :
  Forall2 shows es rs →
  violates LIVE_SIGNATURE rs = false ↔ NoDup (e_signature <$> List.filter (λ e, is_live (e_status e)) es).
Proof.
  induction 1 as [|e r es rs Hr Hall IH]; [split; [constructor|done]|].
  cbn [violates List.filter]. rewrite (indexed_live _ _ Hr), orb_false_iff, IH.
  destruct (is_live (e_status e)); [|naive_solver]. cbn [andb]. rewrite fmap_cons, NoDup_cons.
  enough (existsb (λ r', indexed LIVE_SIGNATURE r' && same_key LIVE_SIGNATURE r r') rs = false ↔
    e_signature e ∉ e_signature <$> List.filter (λ e, is_live (e_status e)) es) by tauto.
  clear IH. induction Hall as [|e' r' es rs Hr' Hall IH]; cbn [existsb List.filter].
  { split; [by intros _ ?%elem_of_nil|done]. }
  rewrite orb_false_iff, IH, (indexed_live _ _ Hr'), (same_key_signature _ _ _ _ Hr Hr').
  destruct (is_live (e_status e')); cbn [andb]; [|naive_solver].
  rewrite fmap_cons, not_elem_of_cons, str_eqb_neq. done.
Qed.

Lemma row_shows e : shows e (row_of_effect e).
Proof. done. Qed.

(** ** Earlier versions of the file *)

(** Which of the later columns a file has. *)
Record columns_had := Had {
  had_tool_version : bool;
  had_tier : bool;
  had_replay_count : bool;
  had_last_replayed_at : bool;
  had_approval_id : bool;
}.

Definition lacking (m : columns_had) : list column :=
  (if had_tool_version m then [] else [TOOL_VERSION]) ++ (if had_tier m then [] else [TIER]) ++
  (if had_replay_count m then [] else [REPLAY_COUNT]) ++
  (if had_last_replayed_at m then [] else [LAST_REPLAYED_AT]) ++
  (if had_approval_id m then [] else [APPROVAL_ID]).

Definition kept (m : columns_had) (n : pystr) : bool :=
  negb (existsb (λ c, str_eqb n (cl_name c)) (lacking m)).

Definition old_row (m : columns_had) (e : effect) : row := List.filter (λ c, kept m c.1) (row_of_effect e).

(** A file with the tables of an earlier version, and no index or view yet. *)
Definition old_file_of_rows (m : columns_had) (es aps : list row) : file :=
  File [($"effects", Table (List.filter (λ c, kept m (cl_name c)) EFFECTS) es);
        ($"approvals", Table APPROVALS aps)] [] [].
Definition old_file (m : columns_had) (d : db) : file :=
  old_file_of_rows m (old_row m <$> effects d) (row_of_approval <$> approvals d).

(** An effect whose missing columns have their defaults. *)
Definition upgraded (m : columns_had) (e : effect) : effect :=
  Effect (e_id e) (e_org_id e) (e_session_id e) (e_tool_name e)
    (if had_tool_version m then e_tool_version e else $"1.0.0")
    (if had_tier m then e_tier e else $"compensable")
    (e_step_index e) (e_signature e) (e_status e) (e_args e) (e_result e) (e_error e)
    (if had_replay_count m then e_replay_count e else 0)
    (if had_last_replayed_at m then e_last_replayed_at e else None)
    (if had_approval_id m then e_approval_id e else None)
    (e_created_at e) (e_updated_at e).

Definition new_cells (m : columns_had) : row := (λ c, (cl_name c, cl_default c)) <$> lacking m.

(** The file after the migration. *)
Definition migrated (m : columns_had) (es aps : list row) : file :=
  File [($"effects", Table (List.filter (λ c, kept m (cl_name c)) EFFECTS ++ lacking m)
                       ((λ r, r ++ new_cells m) <$> es));
        ($"approvals", Table APPROVALS aps)]
    (fl_indexes (file_of_rows [] [])) (fl_views (file_of_rows [] [])).

Ltac each_version m := destruct m as [[] [] [] [] []].

Lemma old_row_shows m e : shows e (old_row m e).
Proof. by each_version m. Qed.

Lemma upgraded_row m e : effect_of_row (old_row m e ++ new_cells m) = Some (upgraded m e).
Proof.
  destruct e as [? ? ? ? ? ? ? ? status ? result error ? last aid ? ?].
  each_version m; lazy -[status_of_text effect_status_text];
    destruct status, result, error, last, aid; reflexivity.
Qed.

(** ** The script *)

Lemma table_there n cols f : is_named n (fl_tables f) = true → run_stmt (CreateTable n cols) f = inr f.
Proof. intros H. cbn [run_stmt]. by rewrite H. Qed.

Lemma index_new n ix f t :
  named (ix_table ix) (fl_tables f) = Some t →
  is_named n (fl_tables f) || is_named n (fl_views f) || is_named n (fl_indexes f) = false →
  forallb (λ c, has_column c t)
    (ix_columns ix ++ match ix_where ix with Some (c, _) => [c] | None => [] end) = true →
  run_stmt (CreateIndex n ix) f =
    if ix_unique ix && violates ix (tb_rows t) then inl Integrity
    else inr (File (fl_tables f) (fl_indexes f ++ [(n, ix)]) (fl_views f)).
Proof.
  intros Ht Hn Hc. apply orb_false_iff in Hn as [Hn Hi]. cbn [run_stmt]. by rewrite Ht, Hn, Hi, Hc.
Qed.

Lemma view_new n v f :
  is_named n (fl_tables f) || is_named n (fl_views f) || is_named n (fl_indexes f) = false →
  run_stmt (CreateView n v) f = inr (File (fl_tables f) (fl_indexes f) (fl_views f ++ [(n, v)])).
Proof. intros Hn. apply orb_false_iff in Hn as [Hn Hi]. cbn [run_stmt]. by rewrite Hn, Hi. Qed.

(** The script on two tables without indexes or views: it only looks at the
    columns its indexes name. *)
Lemma script_on_tables te aps :
  forallb (λ c, has_column c te) [$"signature"; $"status"; $"session_id"; $"step_index"] = true →
  let ts := [($"effects", te); ($"approvals", Table APPROVALS aps)] in
  executescript SCRIPT (File ts [] []) =
    if violates LIVE_SIGNATURE (tb_rows te) then (inl Integrity, File ts [] [])
    else (inr (), File ts (fl_indexes (file_of_rows [] [])) (fl_views (file_of_rows [] []))).
Proof.
  intros Hc ts. cbn [forallb] in Hc. rewrite !andb_true_iff in Hc. destruct Hc as (H1 & H2 & H3 & H4 & _).
  unfold SCRIPT. cbn [executescript]. rewrite table_there by done.
  rewrite (index_new _ _ _ te) by (done || cbn; by rewrite H1, H2). cbn [ix_unique LIVE_SIGNATURE andb].
  destruct (violates LIVE_SIGNATURE (tb_rows te)); [done|].
  rewrite (index_new _ _ _ te) by (done || cbn; by rewrite H3, H4). cbn [ix_unique EFFECTS_SESSION andb].
  rewrite table_there by done. rewrite (index_new _ _ _ (Table APPROVALS aps)) by done.
  cbn [ix_unique APPROVALS_STATUS andb]. by rewrite !view_new by done.
Qed.

(** ** The migration *)

Fixpoint distinct_names (cs : list column) : bool :=
  match cs with
  | [] => true
  | c :: cs' => forallb (λ d, negb (same_name (cl_name d) (cl_name c))) cs' && distinct_names cs'
  end.

(** The migration adds the columns that are not listed, in order and with their
    defaults in every row, when their names are free. *)
Lemma migrate_adds columns cs cols rs rest ixs vs :
  columns ≠ [] → distinct_names cs = true →
  forallb (λ c, existsb (str_eqb (cl_name c)) columns
                || negb (existsb (λ d, same_name (cl_name c) (cl_name d)) cols)) cs = true →
  forallb (λ p, negb (same_name $"effects" p.1)) rest = true →
  let todo := List.filter (λ c, negb (existsb (str_eqb (cl_name c)) columns)) cs in
  migrate columns cs (File (($"effects", Table cols rs) :: rest) ixs vs) =
    (inr (), File (($"effects", Table (cols ++ todo)
                      ((λ r, r ++ ((λ c, (cl_name c, cl_default c)) <$> todo)) <$> rs)) :: rest) ixs vs).
Proof.
  intros Hne. revert cols rs. induction cs as [|c cs IH]; intros cols rs Hd Hfree Hrest; cbn [List.filter migrate].
  { assert ((λ r : row, r ++ ((λ c, (cl_name c, cl_default c)) <$> [])) <$> rs = rs) as ->;
      [|by rewrite app_nil_r].
    etrans; [|apply list_fmap_id]. apply list_fmap_ext. intros ? r _. apply app_nil_r. }
  cbn [distinct_names forallb] in Hd, Hfree. apply andb_true_iff in Hd as [Hc Hd], Hfree as [Hf Hfree].
  destruct columns as [|c0 columns]; [done|]. set (cn := c0 :: columns) in *.
  destruct (existsb (str_eqb (cl_name c)) cn) eqn:E; cbn [negb orb] in *; [by apply IH|].
  assert (add_column $"effects" c (File (($"effects", Table cols rs) :: rest) ixs vs) =
    inr (File (($"effects", Table (cols ++ [c]) ((λ r, r ++ [(cl_name c, cl_default c)]) <$> rs)) :: rest) ixs vs))
    as ->.
  { unfold add_column. cbn [fl_tables]. change (named $"effects" (($"effects", ?t) :: rest)) with (Some t).
    unfold has_column. cbn [tb_columns]. rewrite (proj1 (negb_true_iff _) Hf).
    unfold put_named. rewrite fmap_cons. cbn [fst]. change (same_name $"effects" $"effects") with true.
    assert ((λ p : pystr * table, if same_name $"effects" p.1
      then (p.1, Table (cols ++ [c]) ((λ r, r ++ [(cl_name c, cl_default c)]) <$> rs)) else p) <$> rest = rest)
      as Hid; [|cbn [tb_rows]; by rewrite Hid].
    etrans; [|apply list_fmap_id]. apply list_fmap_ext. intros i p Hp.
    rewrite forallb_forall in Hrest. specialize (Hrest p). rewrite <-list_elem_of_In in Hrest.
    by rewrite (proj1 (negb_true_iff _) (Hrest (list_elem_of_lookup_2 _ _ _ Hp))). }
  rewrite IH by first [done | apply forallb_forall; intros d Hin;
    rewrite forallb_forall in Hfree, Hc; specialize (Hfree d Hin); specialize (Hc d Hin);
    rewrite existsb_app; cbn [existsb]; apply orb_true_iff in Hfree as [->|Hfree]; [done|];
    apply negb_true_iff in Hfree, Hc; by rewrite Hfree, Hc, orb_true_r].
  rewrite <-app_assoc, <-list_fmap_compose. do 5 f_equal. apply list_fmap_ext.
  intros ? r _. simpl. by rewrite <-app_assoc.
Qed.

Lemma migrate_old m es aps :
  migrate (cl_name <$> List.filter (λ c, kept m (cl_name c)) EFFECTS) MIGRATIONS
    (File (fl_tables (old_file_of_rows m es aps)) (fl_indexes (file_of_rows [] []))
       (fl_views (file_of_rows [] []))) = (inr (), migrated m es aps).
Proof.
  unfold old_file_of_rows. cbn [fl_tables]. rewrite migrate_adds by (by each_version m).
  unfold migrated, new_cells. by replace (List.filter _ MIGRATIONS) with (lacking m) by (by each_version m).
Qed.

(** What a file of an earlier version becomes. *)
Lemma create_on_old m es aps :
  create_schema (old_file_of_rows m es aps) =
    if violates LIVE_SIGNATURE es then (inl Integrity, old_file_of_rows m es aps)
    else (inr (), migrated m es aps).
Proof.
  unfold create_schema. unfold old_file_of_rows at 1. rewrite script_on_tables by (by each_version m).
  cbn [tb_rows]. destruct (violates LIVE_SIGNATURE es); [done|]. apply migrate_old.
Qed.

(** A file that has everything is left as it is. *)
Lemma create_on_migrated m es aps : create_schema (migrated m es aps) = (inr (), migrated m es aps).
Proof. unfold migrated. set (rs := _ <$> es). clearbody rs. by each_version m. Qed.

Lemma create_on_current es aps : create_schema (file_of_rows es aps) = (inr (), file_of_rows es aps).
Proof. reflexivity. Qed.

Lemma migrated_log_row m e :
  is_Some (eval_columns (vw_columns EFFECT_LOG) (old_row m e ++ new_cells m)).
Proof. each_version m; eexists; reflexivity. Qed.

Lemma requests_row a : is_Some (eval_columns (vw_columns APPROVAL_REQUESTS) (row_of_approval a)).
Proof. destruct a as [? ? ? ? ? ? [] ? ?]; eexists; reflexivity. Qed.

Lemma views_readable m (es : list effect) (aps : list approval) rows :
  is_Some (select_view $"undolog_effect_log" (migrated m (old_row m <$> es) rows)) ∧
  is_Some (select_view $"undolog_approval_requests" (migrated m (old_row m <$> es) (row_of_approval <$> aps))).
Proof.
  split.
  - change (select_view _ _) with
      (mapM (eval_columns (vw_columns EFFECT_LOG)) ((λ r, r ++ new_cells m) <$> (old_row m <$> es))).
    rewrite <-list_fmap_compose. apply mapM_is_Some, Forall_fmap, Forall_true. intros e. apply migrated_log_row.
  - change (select_view _ _) with (mapM (eval_columns (vw_columns APPROVAL_REQUESTS)) (row_of_approval <$> aps)).
    apply mapM_is_Some, Forall_fmap, Forall_true. intros a. apply requests_row.
Qed.

Lemma db_of_tables cols rs ars ixs vs es aps :
  mapM effect_of_row rs = Some es → mapM approval_of_row ars = Some aps →
  db_of_file (File [($"effects", Table cols rs); ($"approvals", Table APPROVALS ars)] ixs vs) = Some (Db es aps).
Proof.
  intros He Ha. unfold db_of_file. cbn [fl_tables].
  change (named $"effects" _) with (Some (Table cols rs)).
  change (named $"approvals" _) with (Some (Table APPROVALS ars)). cbn [mbind option_bind tb_rows].
  by rewrite He, Ha.
Qed.

Lemma approvals_read aps : mapM approval_of_row (row_of_approval <$> aps) = Some aps.
Proof. rewrite (mapM_fmap_Some _ _ id); [by rewrite list_fmap_id|apply approval_of_row_of_approval]. Qed.

(** A journal survives a restart. The file that holds a journal's tables is
    read back as those tables, and the script that runs on every start leaves
    it exactly as it is; on an empty file it makes the file of the empty
    journal. *)
Theorem journal_files_reopen d :
  create_schema (file_of_db d) = (inr (), file_of_db d) ∧ db_of_file (file_of_db d) = Some d ∧
  create_schema empty_file = (inr (), file_of_db empty_db).
Proof.
  split_and!; [apply create_on_current| |reflexivity]. destruct d as [es aps].
  apply db_of_tables; [|apply approvals_read].
  rewrite (mapM_fmap_Some _ _ id); [by rewrite list_fmap_id|apply effect_of_row_of_effect].
Qed.

(** C28: journals of earlier versions are migrated. Take a file with the two
    tables, without any of the indexes and views, in which any of the later
    columns are missing. Opening it succeeds if and only if no two live effects
    share a signature. It then holds the same effects, with the defaults in the
    columns it lacked, and the same approvals; the reporting views can be read,
    and opening it again changes nothing. Otherwise the file is left as it was.
    *)
Theorem earlier_journals_are_migrated m d :
  let '(r, f) := create_schema (old_file m d) in
  (r = inr () ↔ NoDup (live_signatures d)) ∧
  match r with
  | inr _ =>
      db_of_file f = Some (Db (upgraded m <$> effects d) (approvals d)) ∧
      is_Some (select_view $"undolog_effect_log" f) ∧ is_Some (select_view $"undolog_approval_requests" f) ∧
      create_schema f = (inr (), f)
  | inl e => e = Integrity ∧ f = old_file m d
  end.
Proof.
  unfold old_file. rewrite create_on_old.
  pose proof (violates_live (effects d) (old_row m <$> effects d)) as Hv.
  rewrite Forall2_fmap_r in Hv. specialize (Hv (Forall_Forall2_diag _ _ (Forall_true _ _ (old_row_shows m)))).
  fold (live_signatures d) in Hv. destruct (violates LIVE_SIGNATURE _).
  { split; [|done]. split; [done|]. intros H. by apply Hv in H. }
  split; [tauto|]. split_and!.
  - unfold migrated. eapply db_of_tables; [|apply approvals_read]. rewrite <-list_fmap_compose.
    apply mapM_fmap_Some. intros e. apply upgraded_row.
  - exact (proj1 (views_readable m (effects d) (approvals d) _)).
  - exact (proj2 (views_readable m (effects d) (approvals d) [])).
  - apply create_on_migrated.
Qed.
