(* ===== verification/LifecycleTheorems.v ===== *)
(** * The life of a development server: what holds of it

    [stop] returns and releases everything however it interleaves with the
    thread that serves; an in-memory journal behaves as a file until it is
    closed; the command stops every server it made. *)

From S2P Require Import Prelude Py Json Journal Schema Broadcaster Lifecycle.
Open Scope Z_scope.
Open Scope undolog_scope.

(** ** Databases *)

Section ops.
Context {A : Type}.

(** A sequence of operations of the journal. *)
Fixpoint journal_ops (ops : list (file → A * file)) (s : store) : list A * store :=
  match ops with
  | [] => ([], s)
  | op :: ops' =>
      let '(a, s1) := journal_op op s in
      let '(rest, s2) := journal_ops ops' s1 in (a :: rest, s2)
  end.

Fixpoint file_ops (ops : list (file → A * file)) (f : file) : list A * file :=
  match ops with
  | [] => ([], f)
  | op :: ops' =>
      let '(a, f1) := op f in
      let '(rest, f2) := file_ops ops' f1 in (a :: rest, f2)
  end.
End ops.

(** A database that outlives the connections of requests. *)
Definition persistent (s : store) : Prop := so_in_memory s = true → so_anchor s = true.

Lemma journal_op_persistent {A} (op : file → A * file) m f an n :
  persistent (Store m (Some f) an n) →
  journal_op op (Store m (Some f) an n) = ((op f).1, Store m (Some (op f).2) an n).
Proof.
  intros Hp. unfold journal_op, connect. cbn. destruct (op f) as [a f']. cbn. unfold disconnect, forget_unused.
  cbn. unfold persistent in Hp. cbn in Hp. destruct m; [by rewrite Hp|done].
Qed.

Lemma journal_ops_persistent {A} (ops : list (file → A * file)) m f an n :
  persistent (Store m (Some f) an n) →
  journal_ops ops (Store m (Some f) an n) = ((file_ops ops f).1, Store m (Some (file_ops ops f).2) an n).
Proof.
  revert f. induction ops as [|op ops IH]; intros f Hp; [done|]. cbn [journal_ops file_ops].
  rewrite journal_op_persistent by done. destruct (op f) as [a f']. cbn [fst snd].
  rewrite IH by done. by destruct (file_ops ops f').
Qed.

(** An in-memory journal is a file until it is closed. Opened on nothing,
    both have the tables of the empty journal, and every sequence of operations
    gives the same answers and leaves the same contents, although each opens and
    closes a connection of its own. Closing the journal leaves a file with its
    contents and a memory database with none: an operation after that runs on an
    empty database. *)
Theorem memory_journal_is_a_file {A} (ops : list (file → A * file)) (op : file → A * file) :
  let '(r, mem) := open_journal (unopened true None) in
  let '(r', disk) := open_journal (unopened false None) in
  r = inr () ∧ r' = inr () ∧
  let '(answers, mem1) := journal_ops ops mem in
  let '(answers', disk1) := journal_ops ops disk in
  answers = answers' ∧ so_contents mem1 = so_contents disk1 ∧
  so_contents mem1 = Some (file_ops ops (file_of_db empty_db)).2 ∧
  so_contents (close_journal mem1) = None ∧ so_contents (close_journal disk1) = so_contents disk1 ∧
  (journal_op op (close_journal mem1)).1 = (op empty_file).1.
Proof.
  change (open_journal (unopened true None)) with
    (inr () : sql_error + (), Store true (Some (file_of_db empty_db)) true 0).
  change (open_journal (unopened false None)) with
    (inr () : sql_error + (), Store false (Some (file_of_db empty_db)) false 0).
  split; [done|]. split; [done|]. rewrite !journal_ops_persistent by done. cbn.
  split_and!; try done. unfold journal_op. cbn. by destruct (op empty_file).
Qed.

(** ** Stopping *)

(** Before the event that ends [shutdown] is set. *)
Definition early (pc : serve_pc) : Prop :=
  match pc with SEnter | SLoop | SLeave | SSignal => True | SReset | SDone => False end.
(** Before a loop that did not see the request. *)
Definition looping (pc : serve_pc) : Prop := match pc with SEnter | SLoop => True | _ => False end.

(** What holds when the server is started at most once. *)
Definition life_ok (l : lifecycle) : Prop :=
  match lc_threads l with
  | [] =>
      match lc_control l with
      | CServe pc => pc ≠ SDone
      | CRequest | CWait | CServing => False
      | _ => lc_serving l = false
      end
  | [pc] =>
      (∀ p, lc_control l ≠ CServe p) ∧
      (early pc → lc_is_shut_down l = false ∧ lc_serving l = true ∧
         match lc_control l with CElsewhere | CBroadcaster | CTest | CRequest | CWait => True | _ => False end) ∧
      (looping pc → lc_control l = CWait → lc_shutdown_request l = true) ∧
      (pc = SReset ∨ pc = SDone → lc_is_shut_down l = true) ∧
      (pc = SDone → lc_serving l = false)
  | _ => False
  end.

Ltac next_step :=
  repeat match goal with
  | H : _ ∈ [] |- _ => by apply elem_of_nil in H
  | H : _ ∈ _ :: _ |- _ => apply elem_of_cons in H as [H|H]
  | H : _ ∈ (if ?b then _ else _) |- _ => destruct b eqn:?
  end; simplify_eq/=.

Lemma insert_single (i : nat) (pc pc' : serve_pc) p ts :
  ts = [p] → ts !! i = Some pc → pc = p ∧ <[i := pc']> ts = [pc'].
Proof. intros -> H. by destruct i as [|[|?]]; simplify_eq/=. Qed.

Lemma life_ok_thread l i pc pc' l' :
  life_ok l → lc_threads l !! i = Some pc → (pc', l') ∈ serving_next pc l →
  life_ok (set_threads (<[i := pc']> (lc_threads l)) (lc_thread l) l').
Proof.
  unfold life_ok. destruct (lc_threads l) as [|p [|? ?]] eqn:Et; [by rewrite lookup_nil| |done].
  intros (Hc & He & Hl & Hd & Hs) Hi Hn. destruct (insert_single i pc pc' p _ eq_refl Hi) as [-> ->]. clear Hi.
  destruct p; cbn [serving_next] in Hn; next_step; cbn in *; split_and!; try done; try naive_solver;
    intros; destruct (lc_control l); naive_solver.
Qed.

Lemma life_ok_self l pc pc' l' :
  life_ok l → lc_control l = CServe pc → (pc', l') ∈ serving_next pc l →
  life_ok (set_control (match pc' with SDone => CElsewhere | _ => CServe pc' end) l').
Proof.
  unfold life_ok. destruct (lc_threads l) as [|p [|? ?]] eqn:Et; [| |done].
  - intros _ Hc Hn. destruct pc; cbn [serving_next] in Hn; next_step; by rewrite Et.
  - intros (Hc & _) Hc'. by destruct (Hc pc).
Qed.

Lemma life_ok_stop l l' : life_ok l → l' ∈ stop_next l → life_ok l'.
Proof.
  unfold life_ok, stop_next. intros Hok Hn.
  destruct (lc_control l) eqn:Ec; try (destruct (Broadcaster.close _)); next_step;
    destruct (lc_threads l) as [|p [|? ?]] eqn:Et; try done; cbn in *;
    try (destruct (lc_serving l) eqn:?); try done; destruct Hok as (Hc & He & Hl & Hd & Hs);
    destruct p; cbn in *; split_and!; try done; naive_solver.
Qed.

Lemma life_ok_runs l l' : life_ok l → runs_on l l' → life_ok l'.
Proof.
  intros Hok Hr. destruct Hr as [l i pc pc' l' Hi Hn|l pc pc' l' Hc Hn|l l' Hn].
  - by apply (life_ok_thread l i pc pc' l').
  - by apply (life_ok_self l pc pc' l').
  - by apply (life_ok_stop l l').
Qed.

Lemma life_ok_life l l' : life_ok l → life l l' → life_ok l'.
Proof.
  intros Hok Hstep. destruct Hstep as [l Hc Ht He|l Hc Ht He|l Hc|l A op h|l l' Hr].
  - unfold life_ok. cbn. rewrite Ht. cbn. rewrite Hc, He. by split_and!; try naive_solver.
  - unfold life_ok. cbn. by rewrite Ht.
  - unfold life_ok in *. cbn. rewrite Hc in Hok.
    destruct (lc_threads l) as [|pc [|? ?]]; [done| |done]. naive_solver.
  - exact Hok.
  - by eapply life_ok_runs.
Qed.

Lemma life_ok_reached s l : star life (DevServer s) l → life_ok l.
Proof. intros H. eapply (star_invariant life life_ok); [apply life_ok_life|exact H|done]. Qed.

(** *** Settling *)

(** A [stop] that asked for the shutdown, or found nothing serving, and what it
    has released so far. *)
Definition settling (l : lifecycle) : Prop :=
  life_ok l ∧ Forall (λ pc, looping pc → lc_shutdown_request l = true) (lc_threads l) ∧
  match lc_control l with
  | CWait | CServing => True
  | CTest | CServerClose => lc_serving l = false
  | CJournal => lc_serving l = false ∧ lc_socket l = false
  | CJoin => lc_serving l = false ∧ lc_socket l = false ∧ so_anchor (lc_store l) = false
  | CElsewhere =>
      lc_serving l = false ∧ lc_socket l = false ∧ so_anchor (lc_store l) = false ∧ lc_thread l = None
  | _ => False
  end.

(** The statements left. *)
Definition control_left (c : control_pc) : nat :=
  match c with CTest => 6 | CWait => 5 | CServing => 4 | CServerClose => 3 | CJournal => 2 | CJoin => 1 | _ => 0 end.
Definition serve_left (pc : serve_pc) : nat :=
  match pc with SEnter => 5 | SLoop => 4 | SLeave => 3 | SSignal => 2 | SReset => 1 | SDone => 0 end.
Definition statements_left (l : lifecycle) : nat :=
  control_left (lc_control l) + sum_list_with serve_left (lc_threads l).

Lemma close_journal_anchor s : so_anchor (close_journal s) = false.
Proof. unfold close_journal. destruct (so_anchor s) eqn:E; [|done]. unfold forget_unused. cbn. by case_match. Qed.

Lemma settling_thread l i pc pc' l' :
  settling l → lc_threads l !! i = Some pc → (pc', l') ∈ serving_next pc l →
  let l1 := set_threads (<[i := pc']> (lc_threads l)) (lc_thread l) l' in
  settling l1 ∧ (statements_left l1 < statements_left l)%nat.
Proof.
  intros (Hok & Hq & Hc) Hi Hn l1. assert (life_ok l1) as Hok1 by (by eapply life_ok_thread).
  unfold settling, statements_left. subst l1. unfold life_ok in Hok.
  destruct (lc_threads l) as [|p [|? ?]] eqn:Et; [by rewrite lookup_nil in Hi| |done].
  destruct (insert_single i pc pc' p _ eq_refl Hi) as [-> Hts]. cbn in *. rewrite Hts in *. clear Hi Hts.
  rewrite Forall_singleton in Hq. destruct Hok as (Hcs & He & Hl & Hd & Hs).
  destruct p; cbn [serving_next] in Hn; next_step; cbn in *; rewrite ?Forall_singleton;
    try (by specialize (Hq I); congruence); (split; [|cbn; lia]); (split; [exact Hok1|]); (split; [naive_solver|]);
    destruct (lc_control l); naive_solver.
Qed.

Lemma settling_stop l l' :
  settling l → l' ∈ stop_next l → settling l' ∧ (statements_left l' < statements_left l)%nat.
Proof.
  intros (Hok & Hq & Hc) Hn. assert (life_ok l') as Hok1 by (by eapply life_ok_stop).
  unfold settling, statements_left, stop_next in *.
  destruct (lc_control l) eqn:Ec; try done; next_step; cbn in *; try rewrite Hc in Hok1 |- *; cbn;
    (split; [|lia]); (split; [exact Hok1|]); (split; [done|]); naive_solver auto using close_journal_anchor.
Qed.

Lemma settling_runs l l' :
  settling l → runs_on l l' → settling l' ∧ (statements_left l' < statements_left l)%nat.
Proof.
  intros Hs Hr. destruct Hr as [l i pc pc' l' Hi Hn|l pc pc' l' Hc Hn|l l' Hn].
  - by eapply settling_thread.
  - destruct Hs as (_ & _ & Hc'). by rewrite Hc in Hc'.
  - by apply settling_stop.
Qed.

(** Everything is released and no thread is left. *)
Definition stopped (l : lifecycle) : Prop :=
  lc_control l = CElsewhere ∧ lc_serving l = false ∧ lc_socket l = false ∧
  so_anchor (lc_store l) = false ∧ lc_thread l = None ∧ Forall (λ pc, pc = SDone) (lc_threads l).

Lemma settling_moves l : settling l → (∃ l', runs_on l l') ∨ stopped l.
Proof.
  intros (Hok & Hq & Hc). unfold life_ok in Hok.
  assert (∀ pc, lc_threads l = [pc] → pc ≠ SDone → ∃ l', runs_on l l') as Hmove.
  { intros pc Ht Hne. assert (∃ x, x ∈ serving_next pc l) as [[pc' l'] Hx]
      by (destruct pc; try done; eexists; by apply list_elem_of_here).
    eexists. eapply (run_thread l 0); [by rewrite Ht|exact Hx]. }
  destruct (lc_threads l) as [|pc [|? ?]] eqn:Et; [| |done].
  - destruct (lc_control l) eqn:Ec; try done;
      try (left; eexists; apply run_stop; unfold stop_next; rewrite Ec; by apply list_elem_of_here).
    right. unfold stopped. rewrite Et, Ec. naive_solver.
  - destruct (decide (pc = SDone)) as [->|Hne]; [|left; by eapply Hmove].
    destruct Hok as (_ & _ & _ & Hd & _). destruct (lc_control l) eqn:Ec; try done;
      try (left; eexists; apply run_stop; unfold stop_next; rewrite Ec, ?Hd by auto; by apply list_elem_of_here).
    right. unfold stopped. rewrite Et, Ec. split_and!; try apply Hc; [done|]. by repeat constructor.
Qed.

Lemma settling_terminates l : settling l → Acc (λ l1 l2, runs_on l2 l1) l.
Proof.
  remember (statements_left l) as n eqn:En. revert l En.
  induction (lt_wf n) as [n _ IH]. intros l -> Hs. constructor. intros l' Hr.
  destruct (settling_runs _ _ Hs Hr) as [Hs' Hlt]. by eapply IH.
Qed.

Lemma settling_star l l' : settling l → star runs_on l l' → settling l'.
Proof. intros Hs Hr. eapply (star_invariant runs_on settling); [|exact Hr|exact Hs]. intros a b Ha Hb. by eapply settling_runs. Qed.

(** While [stop] waits for the event, it is set or a thread is on its way to set
    it. *)
Lemma waiting_moves l : life_ok l → lc_control l = CWait → ∃ l', runs_on l l'.
Proof.
  intros Hok Hc. unfold life_ok in Hok. rewrite Hc in Hok. destruct (lc_is_shut_down l) eqn:Ed.
  { eexists. apply run_stop. unfold stop_next. rewrite Hc, Ed. by apply list_elem_of_here. }
  destruct (lc_threads l) as [|pc [|? ?]] eqn:Et; [done| |done]. destruct Hok as (_ & _ & _ & Hd & _).
  assert (∃ x, x ∈ serving_next pc l) as [[pc' l'] Hx].
  { destruct pc; try (eexists; by apply list_elem_of_here). by specialize (Hd (or_intror eq_refl)). }
  eexists. eapply (run_thread l 0); [by rewrite Et|exact Hx].
Qed.

(** C29: [stop] returns and releases everything. In a life in which the server
    was started at most once, in the background or on the caller's thread, and
    served any requests, a [stop] that has closed the broadcaster is never
    blocked for good: some thread can always run. Once it has asked for the
    shutdown, or found that nothing serves, every run of the threads ends, and
    it ends with [stop] returned, nothing serving, the socket closed, the
    journal released and no serving thread left. *)
Theorem stop_releases_everything s l :
  star life (DevServer s) l →
  (match lc_control l with CElsewhere | CServe _ | CBroadcaster => False | _ => True end →
     ∃ l', runs_on l l') ∧
  (lc_control l = CWait ∨ (lc_control l = CTest ∧ lc_serving l = false) →
     Acc (λ l1 l2, runs_on l2 l1) l ∧
     ∀ l', star runs_on l l' → (∃ l'', runs_on l' l'') ∨ stopped l').
Proof.
  intros Hok%life_ok_reached. split.
  - intros Hc. destruct (lc_control l) eqn:Ec; try done;
      try (eexists; apply run_stop; unfold stop_next; rewrite Ec; by apply list_elem_of_here).
    by apply waiting_moves.
  - intros Hc. assert (settling l) as Hs.
    { split; [done|]. unfold life_ok in Hok. destruct (lc_threads l) as [|pc [|? ?]]; [| |done].
      - split; [constructor|]. by destruct Hc as [Hc|[Hc Hs]]; rewrite Hc in *.
      - rewrite Forall_singleton. destruct Hok as (_ & He & Hl & _).
        destruct Hc as [Hc|[Hc Hs]]; rewrite Hc in *; split; auto.
        intros Hp. destruct pc; try done; destruct (He I) as (_ & ? & _); congruence. }
    split; [by apply settling_terminates|]. intros l' Hr. by eapply settling_moves, settling_star.
Qed.

(** ** The command *)

Lemma raw_args_again argv : raw_args (raw_args argv) = raw_args argv.
Proof.
  destruct argv as [|a argv]; [done|]. unfold raw_args at 2.
  destruct (existsb (str_eqb a) _) eqn:E; [|by unfold raw_args at 2; rewrite E]. unfold raw_args. by rewrite !E.
Qed.

(** Every server the command made is stopped, however serving ended; without
    one the command exits with code 1 when the journal or the socket could not
    be opened. *)
Lemma main_stops_its_server {Options Server} parse_args make_server run_server (stop : Server → Server) argv :
  match main (Options := Options) parse_args make_server run_server stop argv with
  | (e, Some server) => ∃ args made, parse_args (raw_args argv) = Some args ∧ make_server args = inr made ∧
      server = stop (run_server made).2 ∧ (e = ExitCode 0 ↔ (run_server made).1 ≠ Raised)
  | (e, None) => e ≠ ExitCode 0 ∧ (e = ExitCode 1 ↔ ∃ args err,
      parse_args (raw_args argv) = Some args ∧ make_server args = inl err ∧ err ≠ OtherError)
  end.
Proof.
  unfold main. destruct (parse_args (raw_args argv)) as [args|]; [|naive_solver].
  destruct (make_server args) as [err|made] eqn:Em.
  { destruct err; (split; [done|]); (split; [intros|]); try done; [by eexists args, _..|].
    intros (? & ? & ? & ? & ?). congruence. }
  destruct (run_server made) as [r s] eqn:Er. exists args, made. rewrite Er. by destruct r.
Qed.

(** ** The theorem about stopping, on a concrete life *)

Definition demo_store : store := (open_journal (unopened true None)).2.

(** A server that is started, and stopped before its thread has run. *)
Definition asked : lifecycle :=
  set_control CWait (set_flags true true false
    (Lifecycle true false false true (Hub ∅ ∅ true 0) demo_store [SEnter] (Some 0%nat) CRequest)).

Lemma asked_reached : star life (DevServer demo_store) asked.
Proof.
  eapply star_step; [by apply life_start|]. eapply star_step; [by apply life_stop|].
  eapply star_step; [apply life_on, run_stop; vm_compute; left|].
  eapply star_step; [apply life_on, run_stop; vm_compute; left|].
  eapply star_step; [apply life_on, run_stop; vm_compute; left|]. apply star_refl.
Qed.

Lemma stop_releases_everything_witness :
  Acc (λ l1 l2, runs_on l2 l1) asked ∧
  ∀ l', star runs_on asked l' → (∃ l'', runs_on l' l'') ∨ stopped l'.
Proof.
  exact (proj2 (stop_releases_everything demo_store asked asked_reached) (or_introl eq_refl)).
Defined.
