(* ===== verification/DevTheorems.v ===== *)
(** * The development server: what holds of it

    The theorems about [dev.py] that its users rely on, stated about [dispatch]
    and about every interleaving of its handler threads. *)

From S2P Require Import Prelude Py Json Signature Journal Broadcaster Framing World Fnmatch.
From S2P Require Import DevHandler DevWp DevSpec DevRoutes DevErrors Protocol Refinement.
Open Scope Z_scope.
Open Scope undolog_scope.

Section theorems.
Variable float_of_text : pystr → pyfloat.
Variable blake3_hexdigest : bytes → pystr.
Variable exc_str : pyexc → pystr.
Variable py_str : json → pystr.
Variable srv : server.
Variable uuid4_str : nat → pystr.
Variable utc_now_str : nat → pystr.
Variable time_ns_at : nat → Z.
Context `{!id_laws uuid4_str utc_now_str}.

Abbreviation dispatch_ := (dispatch float_of_text blake3_hexdigest exc_str py_str srv).
Abbreviation wpr := (wp uuid4_str utc_now_str time_ns_at).
Abbreviation serving_ := (serving uuid4_str).
Abbreviation request_for_ := (request_for float_of_text blake3_hexdigest exc_str py_str srv).
Abbreviation served_ :=
  (served float_of_text blake3_hexdigest exc_str py_str srv uuid4_str utc_now_str time_ns_at).

(** C1: [_dispatch] implements the protocol. Served from any consistent state,
    every tool call, commit, failure report, approval and rejection of a call is
    answered with a response that carries an answer of the abstract machine of
    [Protocol], and takes the tables to the state the machine's step leads to;
    the next request is again served from a consistent state. *)
Theorem dispatch_refines_protocol l rq c w rounds :
  serving_ w → request_for_ (w_db w) l rq c →
  wpr (dispatch_ rq rounds) (λ rep w' c',
    serving_ w' ∧ ∃ r ans, rep = Reply r ∧ encodes r ans ∧
      machine_step (auto_approve srv) l ans (state_of (w_db w)) (state_of (w_db w'))) w c.
Proof.
  intros Hs Hrq. eapply wp_mono; [by eapply dispatch_implements|].
  intros rep w' c' (r & -> & Hs' & ans & Henc & Hstep). eauto 8.
Qed.

(** C2: exactly once. A call that was told to run and whose result was committed
    is replayed with that result by every later identical call, whatever other
    requests are served in between, as long as no other outcome is reported for
    that effect. *)
Theorem exactly_once w g sig id res r1 r2 tr g' r3 w' :
  serving_ w → state_of (w_db w) sig = Free →
  served_ w ((LCall g sig, r1) :: (LCommit id res, r2) :: tr ++ [(LCall g' sig, r3)]) w' →
  rs_body r1 = executed_body (JStr id) →
  (∀ l r, (l, r) ∈ tr → leaves_done id l) →
  rs_status r3 = 200 ∧
  rs_body r3 = JObj [($"status", JStr $"replayed"); ($"effect_id", JStr id); ($"result", res)].
Proof.
  intros Hs Hfree Hsv Hb1 Htr. apply served_runs in Hsv as (_ & tr' & Hex & Hrun); [|done..].
  inversion Hex as [|x1 [l1 a1] ? ? [Hl1 Hr1] Hex1]; subst; simpl in *. subst l1.
  inversion Hex1 as [|x2 [l2 a2] ? ? [Hl2 Hr2] Hex2]; subst; simpl in *. subst l2.
  apply Forall2_app_inv_l in Hex2 as (tr1 & tr2 & Hex2 & Hex3 & ->).
  inversion Hex3 as [|x3 [l3 a3] ? ? [Hl3 Hr3] Hnil]; subst; simpl in *. subst l3.
  inversion Hnil; subst.
  inversion Hrun as [|? ? ? ? t1 ? Hd1 Hstep1 Hrun1]; subst.
  inversion Hrun1 as [|? ? ? ? t2 ? Hd2 Hstep2 Hrun2]; subst.
  inversion Hstep1 as [? ? ? ? ? Hrule Helse| | | |]; subst. rewrite Hfree in Hrule.
  assert (t1 sig = Running id) as Ht1.
  { inversion Hrule as [i Hg E1 E2 E3|i j Hg E1 E2 E3| | | | |]; subst a1; simpl in Hr1;
      rewrite Hb1 in Hr1; destruct Hr1 as [_ Hr1]; [|discriminate].
    unfold executed_body in Hr1. by injection Hr1 as ->. }
  assert (t2 sig = Done id (Some res)) as Ht2.
  { inversion Hstep2 as [|? ? sg ? ? Hid Hdone Helse2| | |]; subst.
    assert (sg = sig) as ->; [|done]. eapply Hd2; [done|]. by rewrite Ht1. }
  assert (a3 = AReplay id (Some res)) as ->.
  { eapply replay_forever; [done|done| |by eexists].
    intros l' a'. revert l' a'. by eapply exchange_labels. }
  done.
Qed.

(** C3: the approval gate. Let auto-approval be off, and let requests be served
    one after the other from a journal that does not already let the call run:
    the signature has no live effect, one held with its approval pending, or one
    committed (a journal left with the effect executing, or with the effect
    waiting and its approval already resolved, is excluded). If every call made
    under that signature needs an approval, none of them is ever answered with
    permission to run, through any sequence of calls, reports, approvals and
    rejections of any effects. *)
Theorem gated_calls_never_run w tr w' sig g r id :
  auto_approve srv = false → serving_ w → served_ w tr w' →
  not_running (state_of (w_db w) sig) →
  (∀ l r, (l, r) ∈ tr → gated_calls sig l) →
  (LCall g sig, r) ∈ tr → rs_body r ≠ executed_body (JStr id).
Proof.
  intros Hauto Hs Hsv Hn Hg Hin Hb.
  apply served_runs in Hsv as (_ & tr' & Hex & Hrun); [|done..].
  destruct (exchange_in _ _ _ _ Hex Hin) as (a & Ha & Henc).
  assert (∀ i, a ≠ ARun i) as Hnot.
  { eapply gate_holds; [done|done| |done|done|by eexists]. by eapply exchange_labels. }
  destruct a as [i|aid|i res|]; simpl in Henc; [by eapply Hnot|..].
  - destruct Henc as [_ Henc]. rewrite Hb in Henc. discriminate.
  - destruct Henc as [_ Henc]. rewrite Hb in Henc. discriminate.
  - by eapply call_answered.
Qed.



(** [GET /approvals] lists the newest approvals of the state asked for,
    newest first, cut at the limit, which is never more than 500; a shorter
    list is the complete one. *)
Theorem listing_is_newest params state limit rounds w c :
  parse_state (param $"state" (Request $"GET" $"/approvals" params) $"pending") = Some state →
  py_int 10 (param $"limit" (Request $"GET" $"/approvals" params)
    (str_of_int DEFAULT_APPROVAL_LIMIT)) = Some limit →
  wpr (dispatch_ (Request $"GET" $"/approvals" params) rounds) (λ rep w' c',
    ∃ resp l rest, rep = Reply resp ∧ rs_status resp = 200 ∧
      rs_body resp = JArr (approval_to_dict <$> l) ∧ w_db w' = w_db w ∧
      l ++ rest ≡ₚ List.filter (listed state) (approvals (w_db w)) ∧
      StronglySorted newer (l ++ rest) ∧ (length l ≤ 500)%nat ∧
      (rest ≠ [] → Z.of_nat (length l) = effective_limit limit)) w c.
Proof.
  intros Hs Hl. apply wp_catch. unfold route. cbv zeta. cbn [rq_path].
  change (str_eqb $"/approvals" $"/health") with false.
  change (str_eqb $"/approvals" $"/events") with false.
  change (str_eqb $"/approvals" $"/approvals") with true. cbv iota.
  apply wp_bind, wp_require_method; [done|]. eapply wp_mono.
  { apply wp_replied. eapply (wp_list _ _ _ _ _ _ (λ resp w' c', w_db w' = w_db w ∧
      rs_status resp = 200 ∧ rs_body resp =
        JArr (approval_to_dict <$> list_approvals state limit (w_db w)))); [done..|].
    intros w' c' resp Hq H1 H2. split_and!; [apply Hq|done..]. }
  intros rep w' c' (resp & -> & Hdb & H1 & H2).
  destruct (list_approvals_newest state limit (w_db w)) as (rest & Hp & Hsort & Hlen).
  pose proof (effective_limit_bounds limit).
  exists resp, (list_approvals state limit (w_db w)), rest. split_and!; try done; [lia|].
  intros Hrest. apply Permutation_length in Hp. rewrite length_app in Hp.
  destruct rest; [done|]. simpl in Hp. lia.
Qed.

(** C37: an approval is decided once. Approving or rejecting one that is already
    resolved is answered 409, one that does not exist 404, and neither changes
    the journal. *)
Theorem resolved_approvals_are_final id action rounds params w c :
  is_segment id = true → action = $"approve" ∨ action = $"reject" →
  (∀ a, get_approval id (w_db w) = Some a → a_status a ≠ Pending) →
  wpr (dispatch_ (Request $"POST" (action_path $"approvals" id action) params) rounds)
    (λ rep w' c', w_db w' = w_db w ∧ ∃ resp, rep = Reply resp ∧
       match get_approval id (w_db w) with
       | Some _ => is_error 409 $"conflict" $"approval already resolved" resp
       | None => is_error 404 $"not_found" $"approval not found" resp
       end) w c.
Proof.
  intros Hid Ha Hno. eapply wp_mono.
  { apply wp_dispatch_approval; [done..|]. apply (wp_decision_refused _ _ _ _ _ _
      (λ resp w' c', w_db w' = w_db w ∧ if get_approval id (w_db w) is Some _
         then is_error 409 $"conflict" $"approval already resolved" resp
         else is_error 404 $"not_found" $"approval not found" resp)); [done|].
    intros w' c' resp Hq He. split; [apply Hq|]. by destruct (get_approval id (w_db w)). }
  intros rep w' c' (resp & -> & Hdb & He). split; [done|]. exists resp. split; [done|].
  by destruct (get_approval id (w_db w)).
Qed.

(** A commit or a failure report for an effect that was never journaled is
    answered 404 and changes nothing. *)
Theorem unknown_effects_are_not_found id action rounds params body c c1 w :
  is_segment id = true → bindable id = true → id ∉ (e_id <$> effects (w_db w)) →
  read_body float_of_text c = (inr body, c1) →
  (action = $"commit" ∧ (∃ r, default (JObj []) (dict_get $"result" body) = JObj r)) ∨
  (action = $"fail" ∧ (∃ e, default (JStr []) (dict_get $"error" body) = JStr e ∧ bindable e = true)) →
  wpr (dispatch_ (Request $"PUT" (action_path $"effects" id action) params) rounds)
    (λ rep w' c', w_db w' = w_db w ∧ ∃ resp, rep = Reply resp ∧
       is_error 404 $"not_found" $"effect not found" resp) w c.
Proof.
  intros Hid Hb Hnew Hread Hact.
  apply (wp_mono _ _ _ _ (answers (λ resp w' c', w_db w' = w_db w ∧
    is_error 404 $"not_found" $"effect not found" resp))).
  - destruct Hact as [[-> [r Hr]]|[-> (e & He & Hbe)]].
    + apply wp_dispatch_effect; [done|by left|]. eapply wp_commit; [done|done| |].
      * apply updates_missing; [done|]. by rewrite Hb.
      * intros now w' c' resp Hdb _ Herr. done.
    + apply wp_dispatch_effect; [done|by right|]. eapply wp_fail; [done|done| |].
      * apply updates_missing; [done|]. simpl. by rewrite Hb, Hbe.
      * intros now w' c' resp Hdb _ Herr. done.
  - intros rep w' c' (resp & -> & Hdb & He). eauto.
Qed.

(** ** Concurrent handlers *)

Abbreviation step_ := (step uuid4_str utc_now_str time_ns_at).

Lemma reachable_ok p q : star step_ p q → world_ok (p_world p) → world_ok (p_world q).
Proof. apply (star_invariant step_ (λ p, world_ok (p_world p))). intros; by eapply step_ok. Qed.

(** C9: under every interleaving of any number of requests, one statement at a
    time, at most one effect that is executing, held or committed holds a call
    signature. *)
Theorem one_live_effect_per_signature p q e e' :
  world_ok (p_world p) → star step_ p q →
  e ∈ effects (w_db (p_world q)) → e' ∈ effects (w_db (p_world q)) →
  is_live (e_status e) = true → is_live (e_status e') = true →
  e_signature e = e_signature e' → e = e'.
Proof.
  intros Hok Hst He He' Hl Hl' Hs. pose proof (reachable_ok _ _ Hst Hok) as [Hj _].
  eapply NoDup_fmap_inj_in; [apply Hj|done..|]. by eapply live_unique.
Qed.

(** Under every interleaving of requests, no subscriber of the event stream
    has more than [_SSE_QUEUE_SIZE] events queued. *)
Theorem subscriber_queues_bounded p q i items :
  world_ok (p_world p) → star step_ p q →
  hub_queues (w_hub (p_world q)) !! i = Some items → (length items ≤ SSE_QUEUE_SIZE)%nat.
Proof. intros Hok Hst Hi. pose proof (reachable_ok _ _ Hst Hok) as [_ Hh]. by eapply queues_bounded. Qed.
End theorems.
