(* ===== verification/WireTheorems.v ===== *)
(** * Signatures, request framing and the event stream: what holds of them

    The theorems about [signature.py] and about the parts of [dev.py] below the
    handlers: the readers of request bodies, the approval patterns and the
    event hub. *)

From S2P Require Import Prelude Py PyFacts Json Signature Es6Float Canonical JsonRead CanonicalParse.
From S2P Require Import Broadcaster Framing FramingFacts World Fnmatch DevHandler Sync.
Open Scope Z_scope.
Open Scope undolog_scope.

(** ** Signatures *)

(** A high surrogate followed by a low one is escaped like the supplementary
    character the two stand for: the strings differ and their canonical texts
    do not. This is why [plain] excludes such pairs. *)
Lemma surrogate_pair_text c :
  0x10000 ≤ c ≤ 0x10FFFF →
  canonical_json (JStr [0xD800 + Z.shiftr (c - 0x10000) 10; 0xDC00 + Z.land (c - 0x10000) 0x3FF]) =
    canonical_json (JStr [c]).
Proof.
  intros Hc. assert (0 ≤ Z.shiftr (c - 0x10000) 10 < 1024) as Hhi.
  { rewrite Z.shiftr_div_pow2 by lia. change (2 ^ 10) with 1024.
    split; [apply Z.div_pos; lia|]. apply Z.div_lt_upper_bound; lia. }
  assert (0 ≤ Z.land (c - 0x10000) 0x3FF < 1024) as Hlo.
  { change 0x3FF with (Z.ones 10). rewrite Z.land_ones by lia. by apply Z.mod_pos_bound. }
  assert (∀ x, 0xD800 ≤ x ≤ 0xFFFF → escape_char x = $"\u" ++ hex4 x) as Hsur.
  { intros x Hx. unfold escape_char. rewrite (proj2 (Z.leb_le x 0xFFFF)) by lia.
    repeat (rewrite (proj2 (Z.eqb_neq x _)) by lia). by rewrite !(proj2 (Z.ltb_ge x _)) by lia. }
  cbn [canonical_json]. unfold escape_json_string. do 3 f_equal. cbn [mbind list_bind]. rewrite !Hsur by lia.
  rewrite !app_nil_r, <-app_assoc. unfold escape_char at 1.
  repeat (rewrite (proj2 (Z.eqb_neq c _)) by lia). rewrite !(proj2 (Z.ltb_ge c _)) by lia.
  by rewrite (proj2 (Z.leb_gt c _)) by lia.
Qed.

(** C11: the byte stream a call signature hashes identifies the call. Take two
    calls whose arguments contain no float and no string (or key) in which a
    high surrogate stands directly before a low one; such a pair is escaped like
    the one supplementary character it stands for. If the two calls are hashed
    from the same bytes, they name the same session UUID, the same step and the
    same tool, and their arguments differ at most in the order of dictionary
    keys. *)
Theorem signature_identifies_the_call sid step name args sid' step' name' args' b :
  Forall code_point name → Forall code_point name' →
  plain args = true → plain args' = true → keys_unique args = true → keys_unique args' = true →
  signature_preimage sid step name args = inr b →
  signature_preimage sid' step' name' args' = inr b →
  uuid_int sid = uuid_int sid' ∧ step = step' ∧ name = name' ∧ norm args = norm args'.
Proof. apply preimage_inj. Qed.

(** C22: canonical JSON is JSON. Take a value that contains no float and no
    string (or key) in which a high surrogate stands directly before a low one,
    which [json.loads] would join to one character. The text [canonical_json]
    prints for it is ASCII, and [json.loads] reads it back as that value with the
    keys of its dictionaries sorted. *)
Theorem canonical_text_reads_back float_of_text v t :
  plain v = true → keys_unique v = true → canonical_json v = inr t →
  Forall ascii t ∧ loads float_of_text t = inr (norm v).
Proof. intros. split; [by eapply canonical_ascii|by eapply loads_canonical]. Qed.

(** Values that differ only in the order of the entries of their dictionaries,
    at any depth. *)
Inductive same_value : json → json → Prop :=
| same_refl v : same_value v v
| same_arr l m : Forall2 same_value l m → same_value (JArr l) (JArr m)
| same_obj d d' e :
    d ≡ₚ d' → Forall2 (λ p q, p.1 = q.1 ∧ same_value p.2 q.2) d' e →
    same_value (JObj d) (JObj e).

Lemma same_norm v w : same_value v w → keys_unique v = true → norm v = norm w ∧ keys_unique w = true.
Proof.
  revert w. induction v as [|b|n|f|s|l IH|d IH] using json_ind'; intros w H Hu;
    inversion H as [|? m Hlm|? d' e Hd He]; subst; try done; cbn [keys_unique norm] in *.
  - apply forallb_Forall in Hu. rewrite forallb_Forall.
    assert (map norm l = map norm m ∧ Forall (λ x, keys_unique x = true) m) as [-> Hm]; [|done].
    clear H. induction Hlm as [|x y l m Hxy Hlm IHl]; [done|].
    apply Forall_cons in IH as [Hx IH], Hu as [Hux Hu]. destruct (Hx y Hxy Hux) as [Ex Ey].
    destruct (IHl IH Hu) as [El Hm]. simpl. rewrite Ex, El. by split; [|constructor].
  - apply andb_prop in Hu as [Hnd%bool_decide_eq_true Hu]. apply forallb_Forall in Hu.
    rewrite Hd in IH, Hu. assert (NoDup d'.*1) as Hnd' by (by rewrite <-Hd).
    assert (map_values norm d' = map_values norm e ∧ d'.*1 = e.*1 ∧
      Forall (λ kv, keys_unique kv.2 = true) e) as (Em & Ek & Hue).
    { clear Hnd Hnd' Hd H. induction He as [|[k x] [k' y] d' e [Hk Hxy] He IHe]; [done|].
      apply Forall_cons in IH as [Hx IH], Hu as [Hux Hu]. simpl in *. subst k'.
      destruct (Hx y Hxy Hux) as [Ex Ey]. destruct (IHe IH Hu) as (E1 & E2 & E3).
      split_and!; [|by f_equal|by constructor].
      unfold map_values in *. simpl. by rewrite Ex, E1. }
    change (map _ d) with (map_values norm d). change (map _ e) with (map_values norm e).
    rewrite <-Em. split.
    + f_equal. apply sort_keys_unique; [by rewrite map_values_keys|]. unfold map_values. by rewrite Hd.
    + apply andb_true_iff. split; [|by apply forallb_Forall]. apply bool_decide_eq_true. by rewrite <-Ek.
Qed.

(** The canonical text of a value does not depend on the order of the
    entries of its dictionaries, at any depth; floats and failures included. *)
Theorem canonical_text_ignores_key_order v w :
  keys_unique v = true → same_value v w → canonical_json v = canonical_json w.
Proof.
  intros Hu H. destruct (same_norm v w H Hu) as [E Hw].
  by rewrite <-(canonical_norm v Hu), <-(canonical_norm w Hw), E.
Qed.

(** C23: [_es6_float], which rewrites the [repr] of a float, prints what
    ECMAScript's Number::toString prints: on the shortest digits of every
    finite double, zero without its sign, and an error for what JSON has no
    number for. *)
Theorem es6_float_is_ecmascript f :
  match f with FFin _ ds n => digits_ok ds = true ∧ decpt_ok n | _ => True end →
  es6_float f =
    match f with
    | FNan | FInf _ => inl (EInvalidNumber f)
    | FZero _ => inr $"0"
    | FFin neg ds n => inr (number_to_string neg ds n)
    end.
Proof. destruct f as [| | |neg ds n]; try done. intros [Hd Hn]. by apply es6_float_ecmascript. Qed.

(** ** Request bodies *)

(** C25: [_read_chunked] reads back what a chunked sender framed. Whatever
    follows on the connection is left for the next request; a body within the
    ceiling is its chunks joined, and one past the ceiling is reported as
    too large only after all of it has been consumed. *)
Theorem chunked_bodies_roundtrip chunks rest :
  Forall chunk_ok chunks →
  ∃ kept, read_chunked (encode_chunks chunks ++ rest) =
    (inr (kept, MAX_BODY_BYTES <? total_size chunks), rest) ∧
    (total_size chunks ≤ MAX_BODY_BYTES → kept = concat chunks).
Proof. apply read_chunked_encoded. Qed.

(** The loop of [_read_chunked] ends. Each round takes at least one byte
    of the stream, so more rounds than the stream has bytes change nothing,
    whatever the stream holds. *)
Theorem chunked_reading_terminates fuel parts total overflow r :
  (length r < fuel)%nat →
  read_chunked_go fuel parts total overflow r =
    read_chunked_go (S (length r)) parts total overflow r.
Proof. apply read_chunked_fuel. Qed.

(** C26: a body that is handed on never exceeds the ceiling, whichever framing
    it arrived with, as long as a Content-Length is not negative. *)
Theorem bodies_are_bounded c raw ov c' :
  is_chunked c = true ∨ (∃ n, py_int 10 (content_length_text c) = Some n ∧ 0 ≤ n) →
  read_raw c = (inr (raw, ov), c') → Z.of_nat (length raw) ≤ MAX_BODY_BYTES.
Proof. apply read_raw_bounded. Qed.

(** C24: responses keep a connection in step. For the first request with a body
    of a connection, every reply of [_dispatch], whatever the tables hold and
    whether the request was served or refused, leaves the stream exactly at the
    end of that request's body, or has marked the connection for closing. *)
Theorem responses_keep_the_stream_aligned
    float_of_text blake3_hexdigest exc_str py_str srv uuid4_str utc_now_str time_ns_at
    rq rounds w c rep w' c' :
  body_read c = false →
  (∀ n, py_int 10 (content_length_text c) = Some n → 0 ≤ n) →
  exec uuid4_str utc_now_str time_ns_at
    (dispatch float_of_text blake3_hexdigest exc_str py_str srv rq rounds) w c = (inr rep, w', c') →
  rfile c' = body_end c ∨ close_connection c' = true.
Proof.
  intros Hb Hn Hex.
  pose proof (dispatch_sync uuid4_str utc_now_str time_ns_at float_of_text blake3_hexdigest exc_str
    py_str srv c Hn rq rounds w c) as H.
  rewrite Hex in H. apply H. by repeat split.
Qed.

(** ** Events *)







(** ** Approval patterns *)

(** When a name matches the tokens of a pattern: a star takes any text, another
    token takes one character. *)
Inductive globs : list token → pystr → Prop :=
| globs_nil : globs [] []
| globs_star ts u s : globs ts s → globs (TStar :: ts) (u ++ s)
| globs_one t ts c s : t ≠ TStar → token_matches t c = true → globs ts s → globs (t :: ts) (c :: s).

Lemma glob_match_star_iff ts s :
  glob_match (TStar :: ts) s = true ↔ ∃ u v, s = u ++ v ∧ glob_match ts v = true.
Proof.
  induction s as [|c s IH].
  - simpl. rewrite orb_false_r. split; [by exists [], []|].
    intros (u & v & [-> ->]%eq_sym%app_eq_nil & H). done.
  - change (glob_match (TStar :: ts) (c :: s))
      with (glob_match ts (c :: s) || glob_match (TStar :: ts) s).
    rewrite orb_true_iff, IH. split.
    + intros [H|(u & v & -> & H)]; [by exists [], (c :: s)|]. by exists (c :: u), v.
    + intros ([|x u] & v & E & H); simplify_eq/=; [by left|]. right. eauto.
Qed.

Lemma glob_match_globs ts s : glob_match ts s = true ↔ globs ts s.
Proof.
  revert s. induction ts as [|t ts IH]; intros s.
  - destruct s; split; try done; [constructor|inversion 1].
  - destruct (decide (t = TStar)) as [->|Ht].
    + rewrite glob_match_star_iff. split.
      * intros (u & v & -> & H%IH). by constructor.
      * inversion 1 as [|? u v Hg|]; subst; [|done]. apply IH in Hg. eauto.
    + assert (glob_match (t :: ts) s =
        match s with [] => false | c :: s' => token_matches t c && glob_match ts s' end) as ->
        by (by destruct t).
      destruct s as [|c s]; split; try done.
      * inversion 1; subst; done.
      * intros [H1 H2%IH]%andb_prop. by constructor.
      * inversion 1 as [| |? ? ? ? ? ? Hg]; subst; [done|]. apply andb_true_iff. split; [done|].
        by apply IH.
Qed.

(** C38: a tool needs an approval exactly when its whole name matches one of the
    server's patterns, by the inductive meaning of shell globs; a pattern
    without wildcards matches its own name only, and one that ends in a star the
    names it is a prefix of. *)
Theorem approval_gate_is_the_glob srv tool_name :
  (requires_approval srv tool_name = true ↔
     ∃ pat, pat ∈ irreversible_patterns srv ∧ globs (translate pat) tool_name) ∧
  (∀ pat, forallb (λ c, negb (is_meta c)) pat = true →
     (globs (translate pat) tool_name ↔ tool_name = pat) ∧
     (globs (translate (pat ++ [42])) tool_name ↔ startswith tool_name pat = true)).
Proof.
  split.
  - unfold requires_approval, fnmatchcase. rewrite existsb_exists. setoid_rewrite glob_match_globs.
    by setoid_rewrite list_elem_of_In.
  - intros pat Hp. rewrite <-!glob_match_globs. split.
    + change (glob_match (translate pat) tool_name) with (fnmatchcase tool_name pat).
      rewrite fnmatchcase_exact by done. apply str_eqb_eq.
    + change (glob_match (translate (pat ++ [42])) tool_name) with (fnmatchcase tool_name (pat ++ [42])).
      by rewrite fnmatchcase_prefix_star.
Qed.
