(* ===== verification/Demo.v ===== *)
(** * A concrete server

    Instances of the parameters, for running the development on examples:
    counted identifiers and timestamps, an identity digest, and the requests of
    a small session. *)

From S2P Require Import Prelude Py PyFacts Json Signature Journal Broadcaster Framing World.
From S2P Require Import Fnmatch DevHandler DevWp DevSpec DevRoutes Protocol Refinement.
Open Scope Z_scope.
Open Scope undolog_scope.

Module Demo.

Definition float_of_text (s : pystr) : pyfloat := FZero false.
Definition blake3_hexdigest (b : bytes) : pystr := b.
Definition exc_str (e : pyexc) : pystr := [].
Definition py_str (v : json) : pystr := [].
Definition uuid4_str (n : nat) : pystr := 117 :: to_digits 10 (Z.of_nat n).
Definition utc_now_str (n : nat) : pystr := to_digits 10 (Z.of_nat n).
Definition time_ns_at (n : nat) : Z := Z.of_nat n.

Definition gated_server : server := Server [$"wire_*"] false.
Definition auto_server : server := Server [$"wire_*"] true.

(** A request body with its length. *)
Definition conn_of (v : json) : conn :=
  let raw := dumps v in
  Conn raw [($"Content-Length", str_of_int (Z.of_nat (length raw)))] false false None.

Definition call_body (tool : pystr) : json :=
  JObj [($"session_id", JStr $"00000000-0000-0000-0000-000000000001");
        ($"tool_name", JStr tool);
        ($"args", JObj [($"b", JInt 1); ($"a", JArr [JBool true])]);
        ($"step_index", JInt 3)].

Definition call_rq : request := Request $"POST" $"/mcp/tool_call" [].

Definition world0 : world := World empty_db empty_hub 0 0.

Abbreviation serve srv rq c w :=
  (exec uuid4_str utc_now_str time_ns_at
     (dispatch float_of_text blake3_hexdigest exc_str py_str srv rq 0) w c).

(** The state after a request, and its response. *)
Definition after {A} (x : res A * world * conn) : world := x.1.2.
Definition response_of (x : res reply * world * conn) : option response :=
  match x.1.1 with inr (Reply r) => Some r | _ => None end.

Definition held_world : world :=
  Eval vm_compute in after (serve gated_server call_rq (conn_of (call_body $"wire_money")) world0).


(** ** The laws of the identifiers *)

Lemma digits_chars n x : x ∈ to_digits 10 (Z.of_nat n) → 48 ≤ x ≤ 57.
Proof.
  intros Hx. destruct (to_digits_spec 10 (Z.of_nat n)) as (ds & E & Hds); [lia..|].
  rewrite E in Hx. apply list_elem_of_fmap in Hx as (d & -> & Hd). destruct Hds as [_ Hok _ _ _].
  rewrite Forall_forall in Hok. destruct (Hok d Hd). unfold digit_char.
  rewrite (proj2 (Z.ltb_lt d 10)) by lia. lia.
Qed.

Lemma digits_bindable n : bindable (to_digits 10 (Z.of_nat n)) = true.
Proof.
  unfold bindable. apply negb_true_iff, existsb_false_iff. intros x Hx%digits_chars.
  unfold is_surrogate. apply andb_false_iff. rewrite !Z.leb_gt. lia.
Qed.

#[export] Instance demo_ids : id_laws uuid4_str utc_now_str.
Proof.
  split.
  - intros n m H. injection H as H. apply to_digits_inj in H; lia.
  - intros n. pose proof (digits_bindable n) as H. unfold bindable, uuid4_str in *. exact H.
  - intros n. unfold is_segment, uuid4_str. apply andb_true_iff. split; [|done].
    apply negb_true_iff, existsb_false_iff. intros x [->|Hx%digits_chars]%elem_of_cons; [done|].
    apply Z.eqb_neq. lia.
  - apply digits_bindable.
Qed.

(** ** A served session *)

Definition default_response : response := Response 0 JNull false [].
Definition the_response (x : res reply * world * conn) : response :=
  default default_response (response_of x).

Definition signature_of (tool : pystr) : pystr :=
  match tool_call_signature blake3_hexdigest exc_str $"00000000-0000-0000-0000-000000000001" 3 tool
          (JObj [($"b", JInt 1); ($"a", JArr [JBool true])]) with
  | inr s => s
  | inl _ => []
  end.

Definition outcome : json := JObj [($"ok", JBool true)].
Definition commit_rq : request := Request $"PUT" (action_path $"effects" (uuid4_str 0) $"commit") [].
Definition commit_conn : conn := conn_of (JObj [($"result", outcome)]).
Definition fail_rq : request := Request $"PUT" (action_path $"effects" (uuid4_str 0) $"fail") [].
Definition fail_conn : conn := conn_of (JObj [($"error", JStr $"boom")]).
Definition mail_conn : conn := conn_of (call_body $"send_mail").
Definition wire_conn : conn := conn_of (call_body $"wire_money").

(** A call that runs and its commit. *)
Definition ran_world : world :=
  Eval vm_compute in after (serve gated_server call_rq mail_conn world0).
Definition committed_world : world :=
  Eval vm_compute in after (serve gated_server commit_rq commit_conn ran_world).

Definition mail_intercept :
  intercept float_of_text blake3_hexdigest exc_str py_str mail_conn
    $"00000000-0000-0000-0000-000000000001" $"send_mail"
    (JObj [($"b", JInt 1); ($"a", JArr [JBool true])]) 3 (signature_of $"send_mail").
Proof. eapply Build_intercept; vm_compute; reflexivity. Defined.

Definition wire_intercept :
  intercept float_of_text blake3_hexdigest exc_str py_str wire_conn
    $"00000000-0000-0000-0000-000000000001" $"wire_money"
    (JObj [($"b", JInt 1); ($"a", JArr [JBool true])]) 3 (signature_of $"wire_money").
Proof. eapply Build_intercept; vm_compute; reflexivity. Defined.

Abbreviation request_for_ := (request_for float_of_text blake3_hexdigest exc_str py_str).

Lemma mail_request d : request_for_ gated_server d (LCall false (signature_of $"send_mail")) call_rq mail_conn.
Proof. exact (rq_call _ _ _ _ gated_server d mail_conn _ _ _ _ _ [] mail_intercept). Qed.

Lemma wire_request d : request_for_ gated_server d (LCall true (signature_of $"wire_money")) call_rq wire_conn.
Proof. exact (rq_call _ _ _ _ gated_server d wire_conn _ _ _ _ _ [] wire_intercept). Qed.

Lemma commit_request w :
  state_id (state_of (w_db w) (signature_of $"send_mail")) = Some (uuid4_str 0) →
  request_for_ gated_server (w_db w) (LCommit (uuid4_str 0) outcome) commit_rq commit_conn.
Proof. intros H. eapply rq_commit; [exact H|reflexivity|vm_compute; reflexivity|reflexivity]. Qed.

Lemma fail_request w :
  state_id (state_of (w_db w) (signature_of $"send_mail")) = Some (uuid4_str 0) →
  request_for_ gated_server (w_db w) (LFail (uuid4_str 0)) fail_rq fail_conn.
Proof. intros H. eapply rq_fail; [exact H|reflexivity|vm_compute; reflexivity|reflexivity..]. Qed.

Lemma serving_world0 : serving uuid4_str world0.
Proof.
  split; [split; [apply journal_ok_empty|apply hub_ok_empty]|..].
  - intros n _. split; apply not_elem_of_nil.
  - by intros e He%elem_of_nil.
  - by intros e He%elem_of_nil.
Qed.

(** Serving a request leaves a state that serves requests. *)
Lemma serving_after srv l rq c w w' c' r :
  serving uuid4_str w → request_for_ srv (w_db w) l rq c → serve srv rq c w = (r, w', c') →
  serving uuid4_str w'.
Proof.
  intros Hs Hrq E. destruct (served_total float_of_text blake3_hexdigest exc_str py_str srv
    uuid4_str utc_now_str time_ns_at w l rq c 0 Hs Hrq) as (r1 & w1 & c1 & E1 & H1).
  rewrite E in E1. by injection E1 as _ <- _.
Qed.

Lemma serving_held : serving uuid4_str held_world.
Proof. eapply serving_after; [apply serving_world0|apply wire_request|vm_compute; reflexivity]. Qed.

Lemma serving_ran : serving uuid4_str ran_world.
Proof. eapply serving_after; [apply serving_world0|apply mail_request|vm_compute; reflexivity]. Qed.

Lemma serving_committed : serving uuid4_str committed_world.
Proof.
  eapply serving_after; [apply serving_ran|apply (commit_request ran_world); vm_compute; reflexivity|].
  vm_compute. reflexivity.
Qed.

Abbreviation served_ :=
  (served float_of_text blake3_hexdigest exc_str py_str gated_server uuid4_str utc_now_str time_ns_at).

(** One more request at the front of a session. *)
Lemma serve_next w l rq c tr w1 w2 c1 r :
  request_for_ gated_server (w_db w) l rq c → serve gated_server rq c w = (inr (Reply r), w1, c1) →
  served_ w1 tr w2 → served_ w ((l, r) :: tr) w2.
Proof. intros H1 H2 H3. by eapply served_cons. Qed.

End Demo.
