(* ===== verification/DevFindings.v ===== *)
(** * Behaviours of the development server to be aware of

    Theorems about what [dev.py] does where its comments, or the guarantees the
    other files prove, suggest something else: an interleaving that lets a
    rejected call run, reports that arrive late, and requests that leave the
    connection or the memory bound behind. *)

From S2P Require Import Prelude Py PyFacts Json Signature Journal Broadcaster Framing FramingFacts.
From S2P Require Import World Fnmatch DevHandler DevWp DevSpec DevRoutes Protocol Refinement Demo.
Open Scope Z_scope.
Open Scope undolog_scope.

(** ** Two requests about one held call *)

Abbreviation demo_step := (step Demo.uuid4_str Demo.utc_now_str Demo.time_ns_at).
Abbreviation demo_dispatch rq :=
  (dispatch Demo.float_of_text Demo.blake3_hexdigest Demo.exc_str Demo.py_str Demo.gated_server rq 0).

(** A held call whose rejection and whose repetition arrive together. *)
Definition race : pool :=
  Pool Demo.held_world
    [Thread reply
       (demo_dispatch (Request $"POST" (action_path $"approvals" (Demo.uuid4_str 0) $"reject") []))
       (Demo.conn_of (JObj []));
     Thread reply (demo_dispatch Demo.call_rq) (Demo.conn_of (Demo.call_body $"wire_money"))].

Lemma star_to {A} (R : A → A → Prop) x y z : star R x y → y = z → star R x z.
Proof. by intros ? <-. Qed.

(** One interleaving, step by step. A held call is rejected while the
    identical call is being answered: between the approval's resolution and the
    effect's own status, [_respond_for_live_effect] finds no pending approval
    and answers that the call may run, although the approver is told that it
    was rejected. *)
Theorem rejected_call_can_run :
  ∃ w r1 c1 r2 c2,
    star demo_step race (Pool w [Thread reply (Ret (Reply r1)) c1; Thread reply (Ret (Reply r2)) c2]) ∧
    rs_body r1 = JObj [($"status", JStr $"rejected"); ($"approval_id", JStr (Demo.uuid4_str 0))] ∧
    rs_status r2 = 200 ∧ rs_body r2 = executed_body (JStr (Demo.uuid4_str 1)) ∧
    (a_status <$> approvals (w_db w)) = [Refused].
Proof.
  eexists _, _, _, _, _. split.
  - eapply star_to; [apply (run_schedule_steps _ _ _ race
      (replicate 5 0%nat ++ replicate 30 1%nat ++ replicate 30 0%nat))|]. vm_compute. reflexivity.
  - by vm_compute.
Qed.

(** ** Late reports *)

(** A commit that arrives after its effect was reported failed, once a
    retry has claimed the signature, is not refused: the live-signature index
    raises [sqlite3.IntegrityError], for which [_dispatch] has no handler, and
    nothing is recorded. *)
Theorem late_commit_raises d e e' result now :
  e ∈ effects d → e' ∈ effects d → bindable (e_id e) = true →
  is_live (e_status e) = false → is_live (e_status e') = true →
  e_signature e = e_signature e' → NoDup (e_id <$> effects d) →
  update_effect (e_id e) Committed (Some result) None now d = (inl EIntegrity, d) ∧
  is_ValueError EIntegrity = false.
Proof.
  intros He He' Hb Hdead Hlive Hs Hnd. split; [|done]. unfold update_effect. rewrite Hb. simpl.
  assert (revives_taken_signature (e_id e) Committed d = true) as ->; [|done].
  unfold revives_taken_signature. simpl. apply existsb_exists. exists e.
  split; [by apply list_elem_of_In|]. rewrite (proj2 (has_id_iff _ _)) by done. simpl.
  apply existsb_exists. exists e'. split; [by apply list_elem_of_In|].
  apply andb_true_iff. split; [|by apply holds_signature_iff].
  apply negb_true_iff, not_true_iff_false. rewrite has_id_iff. intros Heq.
  assert (e' = e) as -> by (by eapply NoDup_fmap_inj_in). congruence.
Qed.

Section reports.
Variable float_of_text : pystr → pyfloat.
Variable blake3_hexdigest : bytes → pystr.
Variable exc_str : pyexc → pystr.
Variable py_str : json → pystr.
Variable srv : server.
Variable uuid4_str : nat → pystr.
Variable utc_now_str : nat → pystr.
Variable time_ns_at : nat → Z.
Context `{!id_laws uuid4_str utc_now_str}.

(** The approval gate has a window. A rejection first resolves the approval and
    then the effect. In every state between the two statements, whatever the
    server, the identical call is answered that it may run, with the effect still
    open for the rejection to complete. *)
Theorem half_rejected_calls_run w sig id aid now params rounds c sid tool args step :
  intercept float_of_text blake3_hexdigest exc_str py_str c sid tool args step sig →
  serving uuid4_str w → state_of (w_db w) sig = Held id aid →
  let w1 := set_db (resolve_approval aid Refused now (w_db w)).2 w in
  ∃ r w2 c2,
    exec uuid4_str utc_now_str time_ns_at
      (dispatch float_of_text blake3_hexdigest exc_str py_str srv (Request $"POST" $"/mcp/tool_call" params) rounds)
      w1 c = (inr (Reply r), w2, c2) ∧
    rs_status r = 200 ∧ rs_body r = executed_body (JStr id) ∧ w_db w2 = w_db w1.
Proof.
  intros I Hs Hheld w1. pose proof (world_journal _ (serving_ok _ _ Hs)) as Hok.
  destruct (held_row _ _ _ _ Hheld) as (e & b & He & <- & _ & Hst & _ & Hb & <- & Hbe & _).
  assert (find_live_effect sig (w_db w1) = Some e) as He1 by exact He.
  assert (find_pending_approval (e_id e) (w_db w1) = None) as Hnone.
  { rewrite <-Hbe. by apply find_pending_decided. }
  assert (wp uuid4_str utc_now_str time_ns_at
    (dispatch float_of_text blake3_hexdigest exc_str py_str srv (Request $"POST" $"/mcp/tool_call" params) rounds)
    (λ rep w2 c2, ∃ r, rep = Reply r ∧ rs_status r = 200 ∧ rs_body r = executed_body (JStr (e_id e)) ∧
       w_db w2 = w_db w1) w1 c) as Hwp.
  { apply wp_dispatch_tool_call. apply (wp_tool_call _ _ _ _ _ _ _ _ _ _ _ _ _ _ I). intros w' Hq _.
    eapply wp_decide_existing; [by rewrite (quiet_db _ _ Hq)|].
    apply wp_respond_resolved; [done|by rewrite (quiet_db _ _ Hq)|]. intros w2 c2 bt rid Hq2.
    split_and!; [done..|]. by rewrite (quiet_db _ _ Hq2), (quiet_db _ _ Hq). }
  unfold wp in Hwp. destruct (exec _ _ _ _ w1 c) as [[[x|rep] w2] c2]; [done|].
  destruct Hwp as (r & -> & Hr). eauto.
Qed.

(** A failure report for a committed effect is accepted. It drops the
    journaled result and frees the signature, so the next identical call of an
    ungated tool is told to run again instead of being replayed. *)
Theorem failure_report_undoes_a_commit w id res sig r1 r2 w' :
  serving uuid4_str w → state_of (w_db w) sig = Done id res →
  served float_of_text blake3_hexdigest exc_str py_str srv uuid4_str utc_now_str time_ns_at
    w [(LFail id, r1); (LCall false sig, r2)] w' →
  rs_status r1 = 200 ∧
  ∃ id', rs_body r2 = executed_body (JStr id') ∧ state_of (w_db w') sig = Running id'.
Proof.
  intros Hs Hdone Hsv. apply served_runs in Hsv as (_ & tr' & Hex & Hrun); [|done..].
  inversion Hex as [|x1 [l1 a1] ? ? [Hl1 Hr1] Hex1]; subst; simpl in *. subst l1.
  inversion Hex1 as [|x2 [l2 a2] ? ? [Hl2 Hr2] Hnil]; subst; simpl in *. subst l2.
  inversion Hnil; subst.
  inversion Hrun as [|? ? ? ? t1 ? Hd1 Hstep1 Hrun1]; subst.
  inversion Hrun1 as [|? ? ? ? t2 ? Hd2 Hstep2 Hrun2]; subst. inversion Hrun2; subst.
  inversion Hstep1 as [| |? sg ? ? Hid Hfree Helse| |]; subst. split; [exact Hr1|].
  assert (sg = sig) as -> by (eapply Hd1; [exact Hid|by rewrite Hdone]).
  inversion Hstep2 as [? ? ? ? ? Hrule Helse2| | | |]; subst. rewrite Hfree in Hrule.
  inversion Hrule as [i Hg E1 E2 E3|i j Hg E1 E2 E3| | | | |]; [|done]. subst a2.
  exists i. split; [apply Hr2|done].
Qed.

(** ** One handler object, several requests *)

(** What a handler object keeps is not reset between the requests of a
    kept-alive connection. Once one body has been read on it, a later request
    that is refused before its own body is read leaves every byte of that body
    on the stream, does not close the connection, and is answered under the
    identifier of the earlier request. *)
Theorem later_refusals_leave_their_body method params rounds w c rid :
  body_read c = true → request_id c = Some rid → close_connection c = false →
  ∃ resp w',
    exec uuid4_str utc_now_str time_ns_at
      (dispatch float_of_text blake3_hexdigest exc_str py_str srv
         (Request method $"/unknown" params) rounds) w c = (inr (Reply resp), w', c) ∧
    rs_status resp = 404 ∧ rs_close resp = false ∧ rs_request_id resp = rid.
Proof.
  intros Hb Hid Hc. destruct c as [rf hs b cl ri]. simpl in *. subst.
  eexists _, _. split; [reflexivity|]. done.
Qed.
End reports.

(** ** Requests that are not refused cleanly *)

(** A step number that does not fit 32 bits passes the checks of
    [_handle_tool_call] and then fails in [struct.pack], whose [struct.error]
    is neither a refused request nor a [ValueError]: no response is sent. *)
Theorem wide_step_escapes
    float_of_text blake3_hexdigest exc_str py_str srv uuid4_str utc_now_str time_ns_at
    params rounds w c c' body sid tool args step u canon nb ab :
  read_body float_of_text c = (inr body, c') →
  tool_call_params body = inr (sid, tool, args, step) → 2 ^ 32 ≤ step →
  uuid_int sid = Some u → canonical_json args = inr canon →
  utf8_encode tool = inr nb → utf8_encode canon = inr ab →
  exec uuid4_str utc_now_str time_ns_at
    (dispatch float_of_text blake3_hexdigest exc_str py_str srv
       (Request $"POST" $"/mcp/tool_call" params) rounds) w c = (inl EStruct, w, c').
Proof.
  intros Hread Hparams Hstep Hu Hc Hn Ha. unfold dispatch. rewrite exec_catch.
  assert (exec uuid4_str utc_now_str time_ns_at
    (handle_tool_call float_of_text blake3_hexdigest exc_str py_str srv) w c = (inl EStruct, w, c')) as E.
  { unfold handle_tool_call. rewrite exec_bind. unfold read_body_. rewrite exec_perform.
    cbn [run_op]. rewrite Hread, exec_bind, Hparams. cbn [of_res]. rewrite exec_ret.
    rewrite exec_bind. assert (tool_call_signature blake3_hexdigest exc_str sid step tool args = inl EStruct) as ->.
    { unfold tool_call_signature, call_signature, signature_preimage.
      rewrite Hu, Hc. cbn [mbind res_bind]. rewrite Hn, Ha. cbn [mbind res_bind]. unfold pack_le32.
      by rewrite (proj2 (Z.ltb_ge step (2 ^ 32))), andb_false_r by lia. }
    done. }
  unfold route. cbv zeta. cbn [rq_path].
  change (str_eqb $"/mcp/tool_call" $"/health") with false.
  change (str_eqb $"/mcp/tool_call" $"/events") with false.
  change (str_eqb $"/mcp/tool_call" $"/approvals") with false.
  change (str_eqb $"/mcp/tool_call" $"/mcp/tool_call") with true. cbv iota.
  rewrite exec_bind. change (require_method (Request $"POST" $"/mcp/tool_call" params) $"POST")
    with (mret () : prog ()). rewrite exec_ret.
  unfold replied. by rewrite exec_bind, E.
Qed.

(** A Content-Length of [-1] is under the ceiling, and reading [-1] bytes
    takes everything the client sends until it closes the connection: the body
    that is kept is as long as the stream. *)
Theorem negative_length_is_unbounded c :
  is_chunked c = false → py_int 10 (content_length_text c) = Some (-1) →
  read_raw c = (inr (rfile c, false), set_body_read true (set_rfile [] c)).
Proof. intros Hc Hn. unfold read_raw. by rewrite Hc, Hn. Qed.

(** ** Shutdown *)

(** [_EventBroadcaster.close] returns only when every registered subscriber
    has room for the shutdown mark; one whose queue is full, because its client
    stopped reading, holds the call, and with it [DevServer.stop], up. When it
    does return, every subscriber ends its stream after what it had queued, and
    one that subscribes later ends at once. *)
Theorem close_waits_for_room h :
  hub_ok h →
  match close h with
  | None => ∃ i q, i ∈ hub_subs h ∧ hub_queues h !! i = Some q ∧ length q = SSE_QUEUE_SIZE
  | Some h' =>
      (∀ i q, i ∈ hub_subs h → hub_queues h !! i = Some q → hub_queues h' !! i = Some (q ++ [None])) ∧
      (∀ env, emit env h' = h') ∧
      hub_queues (subscribe h').2 !! (subscribe h').1 = Some [None]
  end.
Proof.
  intros Hok. unfold close. case_decide as Hroom.
  - split_and!.
    + intros i q Hi Hq. simpl. rewrite map_lookup_imap, Hq. simpl. by rewrite decide_True.
    + intros env. unfold emit. simpl. f_equal. apply map_eq. intros i.
      rewrite map_lookup_imap. destruct (map_imap _ _ !! i); [|done]. simpl.
      by rewrite decide_False by set_solver.
    + simpl. apply lookup_insert_eq.
  - apply map_not_Forall in Hroom as (i & q & Hq & Hn); [|apply _]. exists i, q.
    destruct (decide (i ∈ hub_subs h)) as [Hi|Hi]; [|by exfalso; apply Hn].
    split_and!; [done..|]. pose proof (queues_bounded _ Hok _ _ Hq).
    assert (¬ (length q < SSE_QUEUE_SIZE)%nat) by tauto. lia.
Qed.
