(* ===== verification/DevWitnesses.v ===== *)
(** * The theorems about the server, on concrete sessions

    Each lemma applies a theorem of [DevTheorems] or [DevFindings] to the
    server of [Demo]: its hypotheses hold there. *)

From S2P Require Import Prelude Py PyFacts Json Signature Journal Broadcaster Framing World.
From S2P Require Import Fnmatch DevHandler DevWp DevSpec DevRoutes DevErrors Protocol Refinement.
From S2P Require Import DevTheorems Demo DevFindings.
Open Scope Z_scope.
Open Scope undolog_scope.
Import Demo.

Definition mail_sig : pystr := signature_of $"send_mail".
Definition wire_sig : pystr := signature_of $"wire_money".

(** The session of one call: it runs, its result is committed, and the same
    call is answered again. *)
Definition run_reply : response :=
  Eval vm_compute in the_response (serve gated_server call_rq mail_conn world0).
Definition commit_reply : response :=
  Eval vm_compute in the_response (serve gated_server commit_rq commit_conn ran_world).
Definition replay_reply : response :=
  Eval vm_compute in the_response (serve gated_server call_rq mail_conn committed_world).
Definition replayed_world : world :=
  Eval vm_compute in after (serve gated_server call_rq mail_conn committed_world).

Lemma session_served :
  served_ world0 [(LCall false mail_sig, run_reply); (LCommit (uuid4_str 0) outcome, commit_reply);
                  (LCall false mail_sig, replay_reply)] replayed_world.
Proof.
  eapply serve_next; [apply mail_request|vm_compute; reflexivity|].
  eapply serve_next; [eapply commit_request; vm_compute; reflexivity|vm_compute; reflexivity|].
  eapply serve_next; [apply mail_request|vm_compute; reflexivity|]. constructor.
Qed.

(** The session of a held call that is asked for twice. *)
Definition held_reply : response :=
  Eval vm_compute in the_response (serve gated_server call_rq wire_conn world0).
Definition held_again : response :=
  Eval vm_compute in the_response (serve gated_server call_rq wire_conn held_world).
Definition held_world2 : world :=
  Eval vm_compute in after (serve gated_server call_rq wire_conn held_world).

Lemma held_served : served_ held_world [(LCall true wire_sig, held_again)] held_world2.
Proof. eapply serve_next; [apply wire_request|vm_compute; reflexivity|]. constructor. Qed.

Lemma gate_served :
  served_ world0 [(LCall true wire_sig, held_reply); (LCall true wire_sig, held_again)] held_world2.
Proof. eapply serve_next; [apply wire_request|vm_compute; reflexivity|]. apply held_served. Qed.

Lemma dispatch_refines_protocol_witness :
  wp uuid4_str utc_now_str time_ns_at
    (dispatch float_of_text blake3_hexdigest exc_str py_str gated_server call_rq 0) (λ rep w' c',
    serving uuid4_str w' ∧ ∃ r ans, rep = Reply r ∧ encodes r ans ∧
      machine_step false (LCall false mail_sig) ans (state_of (w_db committed_world))
        (state_of (w_db w'))) committed_world mail_conn.
Proof.
  exact (dispatch_refines_protocol float_of_text blake3_hexdigest exc_str py_str gated_server
    uuid4_str utc_now_str time_ns_at (LCall false mail_sig) call_rq mail_conn committed_world 0
    serving_committed (mail_request _)).
Defined.

Lemma exactly_once_witness :
  rs_status replay_reply = 200 ∧
  rs_body replay_reply =
    JObj [($"status", JStr $"replayed"); ($"effect_id", JStr (uuid4_str 0)); ($"result", outcome)].
Proof.
  eapply (exactly_once float_of_text blake3_hexdigest exc_str py_str gated_server
    uuid4_str utc_now_str time_ns_at world0 false mail_sig (uuid4_str 0) outcome run_reply commit_reply
    [] false replay_reply replayed_world serving_world0).
  - reflexivity.
  - exact session_served.
  - vm_compute. reflexivity.
  - by intros l r H%elem_of_nil.
Defined.

Lemma gated_calls_never_run_witness :
  rs_body held_again ≠ executed_body (JStr (uuid4_str 1)).
Proof.
  eapply (gated_calls_never_run float_of_text blake3_hexdigest exc_str py_str gated_server
    uuid4_str utc_now_str time_ns_at world0 _ _ wire_sig true held_again (uuid4_str 1)
    eq_refl serving_world0 gate_served).
  - vm_compute. exact I.
  - intros l r H. rewrite !elem_of_cons in H. destruct H as [[= -> _]|[[= -> _]|H%elem_of_nil]]; done.
  - right. left.
Defined.


(** Two identical calls, arriving together. *)
Definition twins : pool :=
  Pool world0 [Thread reply (demo_dispatch call_rq) mail_conn; Thread reply (demo_dispatch call_rq) mail_conn].
Definition twins_done : pool :=
  run_schedule uuid4_str utc_now_str time_ns_at twins (replicate 40 0%nat ++ replicate 40 1%nat).

Lemma world0_ok : world_ok world0.
Proof. apply serving_world0. Qed.

Definition mail_effect : effect :=
  Eval vm_compute in default (Effect [] [] [] [] [] [] 0 [] Failed JNull None None 0 None None [] [])
    (find_live_effect mail_sig (w_db (p_world twins_done))).

Lemma one_live_effect_per_signature_witness :
  mail_effect ∈ effects (w_db (p_world twins_done)) ∧ mail_effect = mail_effect.
Proof.
  assert (mail_effect ∈ effects (w_db (p_world twins_done))) as H by (vm_compute; left).
  split; [exact H|].
  exact (one_live_effect_per_signature uuid4_str utc_now_str time_ns_at twins twins_done
    mail_effect mail_effect world0_ok (run_schedule_steps _ _ _ _ _) H H eq_refl eq_refl eq_refl).
Defined.


Lemma listing_is_newest_witness :
  wp uuid4_str utc_now_str time_ns_at
    (dispatch float_of_text blake3_hexdigest exc_str py_str gated_server
       (Request $"GET" $"/approvals" [($"limit", [$"7"])]) 0)
    (λ rep w' c', ∃ resp l rest, rep = Reply resp ∧ rs_status resp = 200 ∧
      rs_body resp = JArr (approval_to_dict <$> l) ∧ w_db w' = w_db held_world ∧
      l ++ rest ≡ₚ List.filter (listed (Some Pending)) (approvals (w_db held_world)) ∧
      StronglySorted newer (l ++ rest) ∧ (length l ≤ 500)%nat ∧
      (rest ≠ [] → Z.of_nat (length l) = effective_limit 7)) held_world mail_conn.
Proof.
  exact (listing_is_newest float_of_text blake3_hexdigest exc_str py_str gated_server
    uuid4_str utc_now_str time_ns_at [($"limit", [$"7"])] (Some Pending) 7 0 held_world mail_conn
    eq_refl eq_refl).
Defined.

(** The held call, rejected. *)
Definition rejected_world : world :=
  Eval vm_compute in after (serve gated_server
    (Request $"POST" (action_path $"approvals" (uuid4_str 0) $"reject") []) (conn_of (JObj [])) held_world).

Lemma resolved_approvals_are_final_witness :
  wp uuid4_str utc_now_str time_ns_at
    (dispatch float_of_text blake3_hexdigest exc_str py_str gated_server
       (Request $"POST" (action_path $"approvals" (uuid4_str 0) $"approve") []) 0)
    (λ rep w' c', w_db w' = w_db rejected_world ∧ ∃ resp, rep = Reply resp ∧
       match get_approval (uuid4_str 0) (w_db rejected_world) with
       | Some _ => is_error 409 $"conflict" $"approval already resolved" resp
       | None => is_error 404 $"not_found" $"approval not found" resp
       end) rejected_world mail_conn.
Proof.
  refine (resolved_approvals_are_final float_of_text blake3_hexdigest exc_str py_str gated_server
    uuid4_str utc_now_str time_ns_at (uuid4_str 0) $"approve" 0 [] rejected_world mail_conn
    eq_refl (or_introl eq_refl) _).
  vm_compute. intros a Ha. injection Ha as <-. discriminate.
Defined.

Lemma unknown_effects_are_not_found_witness :
  wp uuid4_str utc_now_str time_ns_at
    (dispatch float_of_text blake3_hexdigest exc_str py_str gated_server
       (Request $"PUT" (action_path $"effects" $"nope" $"commit") []) 0)
    (λ rep w' c', w_db w' = w_db held_world ∧ ∃ resp, rep = Reply resp ∧
       is_error 404 $"not_found" $"effect not found" resp) held_world commit_conn.
Proof.
  refine (unknown_effects_are_not_found float_of_text blake3_hexdigest exc_str py_str gated_server
    uuid4_str utc_now_str time_ns_at $"nope" $"commit" 0 [] [($"result", outcome)] commit_conn
    _ held_world eq_refl eq_refl _ _ _).
  - vm_compute. intros H. inversion H as [|? ? ? H']. inversion H'.
  - vm_compute. reflexivity.
  - left. split; [reflexivity|]. by eexists.
Defined.

(** A client of the event stream beside a call. *)
Definition watched : pool :=
  Pool world0
    [Thread reply (demo_dispatch (Request $"GET" $"/events" [])) (Conn [] [] false false None);
     Thread reply (demo_dispatch call_rq) mail_conn].
Definition watched_done : pool :=
  run_schedule uuid4_str utc_now_str time_ns_at watched (replicate 2 0%nat ++ replicate 40 1%nat).

Lemma subscriber_queues_bounded_witness :
  ∃ items, hub_queues (w_hub (p_world watched_done)) !! 0%nat = Some items ∧
    length items = 1%nat ∧ (length items ≤ SSE_QUEUE_SIZE)%nat.
Proof.
  eexists. split; [vm_compute; reflexivity|]. split; [reflexivity|].
  eapply (subscriber_queues_bounded uuid4_str utc_now_str time_ns_at watched watched_done 0
    _ world0_ok (run_schedule_steps _ _ _ _ _)). vm_compute. reflexivity.
Defined.

(** ** Findings *)

(** A failed effect whose signature a retry has claimed. *)
Definition failed_world : world :=
  Eval vm_compute in after (serve gated_server fail_rq fail_conn ran_world).
Definition retried_db : db :=
  Eval vm_compute in w_db (after (serve gated_server call_rq mail_conn failed_world)).

Lemma late_commit_raises_witness :
  match effects retried_db with
  | [e; e'] => update_effect (e_id e) Committed (Some outcome) None $"now" retried_db = (inl EIntegrity, retried_db)
  | _ => False
  end.
Proof.
  unfold retried_db at 1. cbv beta iota delta [effects].
  eapply (late_commit_raises retried_db _ _ outcome $"now");
    [left|right; left|reflexivity|reflexivity|reflexivity|reflexivity|].
  vm_compute. repeat constructor; intros H; inversion H as [|? ? ? H']; inversion H'.
Defined.

Definition undone_reply : response :=
  Eval vm_compute in the_response (serve gated_server fail_rq fail_conn committed_world).
Definition undone_world : world :=
  Eval vm_compute in after (serve gated_server fail_rq fail_conn committed_world).
Definition rerun_reply : response :=
  Eval vm_compute in the_response (serve gated_server call_rq mail_conn undone_world).
Definition rerun_world : world :=
  Eval vm_compute in after (serve gated_server call_rq mail_conn undone_world).

Lemma failure_report_undoes_a_commit_witness :
  rs_status undone_reply = 200 ∧
  ∃ id', rs_body rerun_reply = executed_body (JStr id') ∧ state_of (w_db rerun_world) mail_sig = Running id'.
Proof.
  eapply (failure_report_undoes_a_commit float_of_text blake3_hexdigest exc_str py_str gated_server
    uuid4_str utc_now_str time_ns_at committed_world (uuid4_str 0) (Some outcome) mail_sig
    undone_reply rerun_reply rerun_world serving_committed).
  - vm_compute. reflexivity.
  - eapply serve_next; [eapply fail_request; vm_compute; reflexivity|vm_compute; reflexivity|].
    eapply serve_next; [apply mail_request|vm_compute; reflexivity|]. constructor.
Defined.

(** The second request of a connection: its body is still to be read. *)
Definition second_conn : conn :=
  Conn $"GET /health" [($"Content-Length", $"11")] true false (Some $"first").

Lemma later_refusals_leave_their_body_witness :
  ∃ resp w',
    serve gated_server (Request $"POST" $"/unknown" []) second_conn world0
      = (inr (Reply resp), w', second_conn) ∧
    rs_status resp = 404 ∧ rs_close resp = false ∧ rs_request_id resp = $"first".
Proof.
  exact (later_refusals_leave_their_body float_of_text blake3_hexdigest exc_str py_str gated_server
    uuid4_str utc_now_str time_ns_at $"POST" [] 0 world0 second_conn $"first" eq_refl eq_refl eq_refl).
Defined.

Definition wide_body : json :=
  JObj [($"session_id", JStr $"00000000-0000-0000-0000-000000000001");
        ($"tool_name", JStr $"send_mail"); ($"step_index", JInt (2 ^ 32))].

Lemma wide_step_escapes_witness :
  ∃ c', serve gated_server call_rq (conn_of wide_body) world0 = (inl EStruct, world0, c').
Proof.
  eexists. eapply (wide_step_escapes float_of_text blake3_hexdigest exc_str py_str gated_server
    uuid4_str utc_now_str time_ns_at [] 0 world0 (conn_of wide_body));
    [vm_compute; reflexivity|vm_compute; reflexivity|lia|vm_compute; reflexivity..].
Defined.

Definition slurping_conn : conn := Conn $"everything" [($"content-length", $"-1")] false false None.

Lemma negative_length_is_unbounded_witness :
  read_raw slurping_conn
    = (inr ($"everything", false), set_body_read true (set_rfile [] slurping_conn)).
Proof. exact (negative_length_is_unbounded slurping_conn eq_refl eq_refl). Defined.

Lemma close_waits_for_room_witness :
  hub_ok empty_hub ∧ ∃ h', close (subscribe empty_hub).2 = Some h' ∧
    hub_queues h' !! 0%nat = Some [None].
Proof.
  split; [apply hub_ok_empty|].
  pose proof (close_waits_for_room (subscribe empty_hub).2 (subscribe_ok _ hub_ok_empty)) as H.
  destruct (close (subscribe empty_hub).2) as [h'|] eqn:E; [|by vm_compute in E].
  exists h'. split; [reflexivity|]. destruct H as [H _]. exact (H 0%nat [] ltac:(vm_compute; reflexivity) eq_refl).
Defined.
