(* ===== verification/WireWitnesses.v ===== *)
(** * The theorems about signatures and the wire, on concrete inputs *)

From S2P Require Import Prelude Py PyFacts Json Signature Es6Float Canonical JsonRead CanonicalParse.
From S2P Require Import Broadcaster Framing FramingFacts World Fnmatch DevHandler Sync.
From S2P Require Import WireTheorems Demo.
Open Scope Z_scope.
Open Scope undolog_scope.

Definition demo_sid : pystr := $"00000000-0000-0000-0000-000000000001".
(** The same UUID, written differently. *)
Definition demo_sid' : pystr := $"urn:uuid:{00000000000000000000000000000001}".

(** Nested arguments, and the same with their keys in another order. *)
Definition demo_args : json :=
  JObj [($"to", JStr [233; 0x1F600]); ($"meta", JObj [($"y", JInt (-12)); ($"x", JNull)]);
        ($"cc", JArr [JBool true; JStr [34; 92; 10]])].
Definition demo_args' : json :=
  JObj [($"cc", JArr [JBool true; JStr [34; 92; 10]]); ($"to", JStr [233; 0x1F600]);
        ($"meta", JObj [($"x", JNull); ($"y", JInt (-12))])].

Definition demo_stream : bytes :=
  Eval vm_compute in match signature_preimage demo_sid 3 $"send_mail" demo_args with
                     | inr b => b | inl _ => [] end.

Lemma signature_identifies_the_call_witness :
  uuid_int demo_sid = uuid_int demo_sid' ∧ 3 = 3 ∧ $"send_mail" = $"send_mail" ∧
  norm demo_args = norm demo_args'.
Proof.
  eapply (signature_identifies_the_call demo_sid 3 $"send_mail" demo_args demo_sid' 3 $"send_mail"
    demo_args' demo_stream); [| |vm_compute; reflexivity..].
  - repeat constructor; discriminate.
  - repeat constructor; discriminate.
Defined.

Lemma canonical_text_reads_back_witness :
  ∃ t, canonical_json demo_args = inr t ∧ Forall ascii t ∧
    loads Demo.float_of_text t = inr (norm demo_args).
Proof.
  eexists. split; [vm_compute; reflexivity|].
  eapply (canonical_text_reads_back Demo.float_of_text demo_args); vm_compute; reflexivity.
Defined.

Lemma canonical_text_ignores_key_order_witness : canonical_json demo_args = canonical_json demo_args'.
Proof.
  eapply (canonical_text_ignores_key_order demo_args demo_args'); [vm_compute; reflexivity|].
  eapply (same_obj _ [($"cc", JArr [JBool true; JStr [34; 92; 10]]); ($"to", JStr [233; 0x1F600]);
    ($"meta", JObj [($"y", JInt (-12)); ($"x", JNull)])]).
  - symmetry. apply (Permutation_middle [_; _] [] _).
  - repeat constructor. eapply same_obj; [apply perm_swap|]. repeat constructor.
Defined.

(** [1.5e-06], whose [repr] ECMAScript does not use. *)
Lemma es6_float_is_ecmascript_witness :
  es6_float (FFin false [1; 5] (-5)) = inr $"0.0000015".
Proof.
  rewrite (es6_float_is_ecmascript (FFin false [1; 5] (-5))); [reflexivity|].
  split; [reflexivity|unfold decpt_ok; lia].
Defined.

Lemma chunked_bodies_roundtrip_witness :
  ∃ kept, read_chunked (encode_chunks [$"hello "; $"world"] ++ $"GET /health") =
    (inr (kept, false), $"GET /health") ∧ kept = $"hello world".
Proof.
  destruct (chunked_bodies_roundtrip [$"hello "; $"world"] $"GET /health") as (kept & E & H).
  - repeat constructor; try discriminate; vm_compute; reflexivity.
  - exists kept. split; [exact E|]. apply H. vm_compute. discriminate.
Defined.

Lemma chunked_reading_terminates_witness :
  read_chunked_go 1000 [] 0 false $"5" = (inl truncated_body, []).
Proof.
  rewrite (chunked_reading_terminates 1000 [] 0 false $"5"); [vm_compute; reflexivity|].
  vm_compute. repeat constructor.
Defined.

Lemma bodies_are_bounded_witness :
  Z.of_nat (length (dumps (Demo.call_body $"send_mail"))) ≤ MAX_BODY_BYTES.
Proof.
  eapply (bodies_are_bounded Demo.mail_conn _ false); [|vm_compute; reflexivity].
  right. eexists. split; [vm_compute; reflexivity|lia].
Defined.

(** A refused request whose body nobody reads, with the next request behind it. *)
Definition pipelined : conn :=
  Conn ($"{}GET /health") [($"Content-Length", $"2")] false false None.

Lemma responses_keep_the_stream_aligned_witness :
  match Demo.serve Demo.gated_server (Request $"POST" $"/unknown" []) pipelined Demo.world0 with
  | (inr _, _, c') => rfile c' = $"GET /health" ∨ close_connection c' = true
  | _ => False
  end.
Proof.
  exact (responses_keep_the_stream_aligned Demo.float_of_text Demo.blake3_hexdigest Demo.exc_str
    Demo.py_str Demo.gated_server Demo.uuid4_str Demo.utc_now_str Demo.time_ns_at
    (Request $"POST" $"/unknown" []) 0 Demo.world0 pipelined _ _ _ eq_refl
    ltac:(vm_compute; intros n H; injection H as <-; discriminate) eq_refl).
Defined.

