(* ===== verification/Errors.v ===== *)
(** * The error hierarchy ([undolog_sdk/errors.py])

    Every exception of the SDK is an [undolog_error]: its class, the attributes
    its constructor assigns, and the fields of the base class. The constructors
    are the functions of [Module Errors], one per class, composed with
    [UndoLogError] as [super().__init__] composes them. *)

From S2P Require Import Prelude Py Json.
Open Scope Z_scope.
Open Scope undolog_scope.

(** [bool(value)]. *)
Definition truthy (v : json) : bool :=
  match v with
  | JNull => false
  | JBool b => b
  | JInt n => negb (n =? 0)
  | JFloat (FZero _) => false
  | JFloat _ => true
  | JStr s => match s with [] => false | _ => true end
  | JArr l => match l with [] => false | _ => true end
  | JObj d => match d with [] => false | _ => true end
  end.

(** [a or b] on texts. *)
Definition or_else (a b : pystr) : pystr := match a with [] => b | _ => a end.

Module Errors.

Definition ERROR_DOCS_BASE_URL : pystr := $"https://undolog.dev/docs/troubleshooting/errors".

(** [str.lower]. Beyond ASCII, only the Kelvin sign and the dotted capital I
    have lower-case texts with ASCII characters; every other such character
    stays outside ASCII, whatever its case. *)
Definition lower_text (c : Z) : pystr :=
  if c =? 0x212A then [107]
  else if c =? 0x130 then [105; 0x307]
  else [lower_char c].

Definition is_separator (c : Z) : bool := (c =? 95) || is_uspace c.

(** [re.sub(r"[_\s]+", "-", slug)]; [run] says that a separator was just
    replaced. *)
Fixpoint collapse (run : bool) (s : pystr) : pystr :=
  match s with
  | [] => []
  | c :: s' =>
      if is_separator c then (if run then collapse true s' else 45 :: collapse true s')
      else c :: collapse false s'
  end.

(** [[a-z0-9-]]. *)
Definition is_slug_char (c : Z) : bool :=
  ((97 <=? c) && (c <=? 122)) || ((48 <=? c) && (c <=? 57)) || (c =? 45).

Definition slug_of (code : pystr) : pystr :=
  List.filter is_slug_char (collapse false (strip_by is_uspace code ≫= lower_text)).

(** [format_runbook_url]. *)
Definition format_runbook_url (code : pystr) : pystr :=
  match code with
  | [] => ERROR_DOCS_BASE_URL
  | _ =>
      match slug_of code with
      | [] => ERROR_DOCS_BASE_URL
      | clean_slug => ERROR_DOCS_BASE_URL ++ [35] ++ clean_slug
      end
  end.

(** [ErrorCodes]. *)
Definition AUTHENTICATION_FAILED := $"AUTHENTICATION_FAILED".
Definition AWAITING_APPROVAL := $"AWAITING_APPROVAL".
Definition COMPENSATION_FAILED := $"COMPENSATION_FAILED".
Definition CONFIGURATION_INVALID := $"CONFIGURATION_INVALID".
Definition CONNECTION_FAILED := $"CONNECTION_FAILED".
Definition EFFECT_LOG_CONCURRENCY := $"EFFECT_LOG_CONCURRENCY".
Definition EFFECT_LOG_FAILED := $"EFFECT_LOG_FAILED".
Definition MISSING_SESSION := $"MISSING_SESSION".
Definition NOT_FOUND := $"NOT_FOUND".
Definition PERMISSION_DENIED := $"PERMISSION_DENIED".
Definition RATE_LIMITED := $"RATE_LIMITED".
Definition SERIALIZATION_FAILED := $"SERIALIZATION_FAILED".
Definition SERVER_ERROR := $"SERVER_ERROR".
Definition TIMEOUT := $"TIMEOUT".
Definition TOOL_NOT_REGISTERED := $"TOOL_NOT_REGISTERED".
Definition TOOL_REGISTRATION_FAILED := $"TOOL_REGISTRATION_FAILED".
Definition INVALID_STATE_TRANSITION := $"INVALID_STATE_TRANSITION".
Definition APPROVAL_NOT_FOUND := $"APPROVAL_NOT_FOUND".
Definition VALIDATION_FAILED := $"VALIDATION_FAILED".

(** [class ErrorCodes]. *)
Definition ErrorCodes : list pystr :=
  [AUTHENTICATION_FAILED; AWAITING_APPROVAL; COMPENSATION_FAILED; CONFIGURATION_INVALID;
   CONNECTION_FAILED; EFFECT_LOG_CONCURRENCY; EFFECT_LOG_FAILED; MISSING_SESSION; NOT_FOUND;
   PERMISSION_DENIED; RATE_LIMITED; SERIALIZATION_FAILED; SERVER_ERROR; TIMEOUT;
   TOOL_NOT_REGISTERED; TOOL_REGISTRATION_FAILED; INVALID_STATE_TRANSITION;
   APPROVAL_NOT_FOUND; VALIDATION_FAILED].

Abbreviation dict := (list (pystr * json)).

(** An exception instance. *)
Record undolog_error := Error {
  err_class : pystr;
  err_attrs : dict;
  err_message : pystr;
  err_code : pystr;
  err_details : dict;
  err_runbook_url : pystr;
}.

(** The keyword arguments every constructor takes. *)
Record common := Common { opt_details : dict; opt_runbook_url : pystr }.
Definition no_options : common := Common [] [].

(** [UndoLogError.__init__]. *)
Definition UndoLogError (cls : pystr) (attrs : dict) (message code : pystr) (details : dict)
    (runbook_url : pystr) : undolog_error :=
  {| err_class := cls; err_attrs := attrs; err_message := message; err_code := code;
     err_details := details;
     err_runbook_url := or_else runbook_url (format_runbook_url code) |}.

(** [merged_details = dict(details or {})], then [setdefault] of every field
    that is set. *)
Definition merge_details (details fields : dict) : dict :=
  foldl (λ d kv, if truthy kv.2 then dict_setdefault kv.1 kv.2 d else d) details fields.

(** The shape most constructors share: the fields become attributes and, when
    set, details. *)
Definition simple_error (cls message code : pystr) (fields : dict) (o : common) : undolog_error :=
  UndoLogError cls fields message code (merge_details (opt_details o) fields) (opt_runbook_url o).

Definition AuthenticationError message (status_code : Z) (reason : pystr) (o : common) :=
  simple_error $"AuthenticationError" message AUTHENTICATION_FAILED
    [($"status_code", JInt status_code); ($"reason", JStr reason)] o.

(** The approval identifier and the message are recovered from whichever
    arguments carry them; [message] is [None] when not given. *)
Definition AwaitingApprovalError (message_or_approval_id tool_name : pystr) (step_index : Z)
    (message : option pystr) (approval_id call_id : pystr) (o : common) : undolog_error :=
  let '(resolved_approval_id, resolved_message) :=
    match approval_id with
    | _ :: _ => (approval_id, or_else (default [] message) message_or_approval_id)
    | [] =>
        if (match message with Some _ => true | None => false end)
           || truthy (JStr tool_name) || truthy (JInt step_index)
        then (message_or_approval_id, default [] message)
        else ([], message_or_approval_id)
    end in
  let msg := or_else resolved_message
    ($"Tool '" ++ tool_name ++ $"' (step " ++ str_of_int step_index
     ++ $") requires approval. approval_id=" ++ resolved_approval_id) in
  let fields := [($"approval_id", JStr resolved_approval_id); ($"tool_name", JStr tool_name);
                 ($"step_index", JInt step_index); ($"call_id", JStr call_id)] in
  simple_error $"AwaitingApprovalError" msg AWAITING_APPROVAL fields o.

Definition CompensationError message effect_id (step_index : Z) fn_name (retries : Z) o :=
  simple_error $"CompensationError" message COMPENSATION_FAILED
    [($"effect_id", JStr effect_id); ($"step_index", JInt step_index);
     ($"fn_name", JStr fn_name); ($"retries", JInt retries)] o.

Definition ConfigurationError message key setting o :=
  simple_error $"ConfigurationError" message CONFIGURATION_INVALID
    [($"key", JStr (or_else key setting)); ($"setting", JStr (or_else setting key))] o.

Definition ConnectionError message url o :=
  simple_error $"ConnectionError" message CONNECTION_FAILED [($"url", JStr url)] o.

Definition EffectLogError_ (cls : pystr) (attrs : dict) message effect_id session_id operation code o :=
  let fields := [($"effect_id", JStr effect_id); ($"session_id", JStr session_id);
                 ($"operation", JStr operation)] in
  UndoLogError cls (dict_of_pairs (attrs ++ fields)) message code
    (merge_details (opt_details o) fields) (opt_runbook_url o).
Definition EffectLogError := EffectLogError_ $"EffectLogError" [].

Definition EffectLogConcurrencyError message session_id (step_index : Z) operation
    (expected_version actual_version : Z) o :=
  let fields := [($"session_id", JStr session_id); ($"step_index", JInt step_index);
                 ($"expected_version", JInt expected_version);
                 ($"actual_version", JInt actual_version)] in
  EffectLogError_ $"EffectLogConcurrencyError" fields message [] session_id operation
    EFFECT_LOG_CONCURRENCY (Common (merge_details (opt_details o) fields) (opt_runbook_url o)).

Definition MissingSessionError message tool_name o :=
  simple_error $"MissingSessionError" message MISSING_SESSION [($"tool_name", JStr tool_name)] o.

Definition NotFoundError message resource_type resource_id o :=
  simple_error $"NotFoundError" message NOT_FOUND
    [($"resource_type", JStr resource_type); ($"resource_id", JStr resource_id)] o.

Definition PermissionError message permission required_scope o :=
  simple_error $"PermissionError" message PERMISSION_DENIED
    [($"permission", JStr (or_else permission required_scope));
     ($"required_scope", JStr (or_else required_scope permission))] o.

Definition SerializationError message format o :=
  simple_error $"SerializationError" message SERIALIZATION_FAILED [($"format", JStr format)] o.

Definition ServerError message (status_code : Z) url o :=
  simple_error $"ServerError" message SERVER_ERROR
    [($"status_code", JInt status_code); ($"url", JStr url)] o.

Definition TimeoutError message url (timeout : pyfloat) operation o :=
  simple_error $"TimeoutError" message TIMEOUT
    [($"url", JStr url); ($"timeout", JFloat timeout); ($"operation", JStr operation)] o.

Definition ToolNotRegisteredError message tool_name o :=
  simple_error $"ToolNotRegisteredError" message TOOL_NOT_REGISTERED
    [($"tool_name", JStr tool_name)] o.

Definition ToolRegistrationError message tool_name reason o :=
  simple_error $"ToolRegistrationError" message TOOL_REGISTRATION_FAILED
    [($"tool_name", JStr tool_name); ($"reason", JStr reason)] o.

Definition InvalidStateTransitionError message current_state target_state o :=
  simple_error $"InvalidStateTransitionError" message INVALID_STATE_TRANSITION
    [($"current_state", JStr current_state); ($"target_state", JStr target_state)] o.

Definition ApprovalNotFoundError message approval_id o :=
  simple_error $"ApprovalNotFoundError" message APPROVAL_NOT_FOUND
    [($"approval_id", JStr approval_id)] o.

Definition ValidationError message field constraint o :=
  simple_error $"ValidationError" message VALIDATION_FAILED
    [($"field", JStr field); ($"constraint", JStr constraint)] o.

Section rate_limit.
(** [n / 1000.0] and [int(x * 1000)]; [None] when the conversion raises. *)
Variable seconds_of_ms : Z → option pyfloat.
Variable ms_of_seconds : pyfloat → option Z.

Definition scaled_ms (secs : json) : option Z :=
  match secs with JInt n => Some (n * 1000) | JFloat x => ms_of_seconds x | _ => None end.

(** The delay in seconds and in milliseconds: each is computed from the other
    when only that one was given; 1000 is the default of [retry_after_ms]. *)
Definition retry_delay (retry_after retry_after_seconds : json) (retry_after_ms : Z) : option (json * Z) :=
  let secs := if truthy retry_after then retry_after else retry_after_seconds in
  if negb (retry_after_ms =? 0) && negb (truthy secs) then
    x ← seconds_of_ms retry_after_ms; Some (JFloat x, retry_after_ms)
  else if truthy secs && (retry_after_ms =? 1000) then ms ← scaled_ms secs; Some (secs, ms)
  else Some (secs, retry_after_ms).

(** A detail that is added when it is given, zero included. *)
Definition given_detail (k : pystr) (n : option Z) (d : dict) : dict :=
  match n with Some n => dict_setdefault k (JInt n) d | None => d end.

(** [RateLimitError]; [None] when computing the delay raises. *)
Definition RateLimitError (message : pystr) (retry_after retry_after_seconds : json) (retry_after_ms : Z)
    (limit remaining : option Z) (o : common) : option undolog_error :=
  '(secs, ms) ← retry_delay retry_after retry_after_seconds retry_after_ms;
  let details := merge_details (opt_details o)
    [($"retry_after", secs); ($"retry_after_seconds", secs); ($"retry_after_ms", JInt ms)] in
  let details := given_detail $"remaining" remaining (given_detail $"limit" limit details) in
  Some (UndoLogError $"RateLimitError"
    [($"retry_after", secs); ($"retry_after_seconds", secs); ($"retry_after_ms", JInt ms);
     ($"limit", JInt (default 0 limit)); ($"remaining", JInt (default 0 remaining))]
    message RATE_LIMITED details (opt_runbook_url o)).
End rate_limit.

(** [format_for_log], with [str] of the details. *)
Definition format_for_log (str_dict : dict → pystr) (e : undolog_error) : pystr :=
  let parts := [$"[" ++ err_code e ++ $"] " ++ err_message e; $"(Runbook: " ++ err_runbook_url e ++ $")"] in
  join [32] (parts ++ match err_details e with [] => [] | d => [$"(Details: " ++ str_dict d ++ $")"] end).

(** [to_dict]. *)
Definition to_dict (e : undolog_error) : json :=
  JObj [($"name", JStr (err_class e)); ($"code", JStr (err_code e));
        ($"error", JStr (err_code e)); ($"message", JStr (err_message e));
        ($"details", JObj (err_details e)); ($"runbook_url", JStr (err_runbook_url e))].

End Errors.

(** ** Details *)

Lemma dict_get_setdefault {A} k k' (v : A) d :
  dict_get k (dict_setdefault k' v d) =
    match dict_get k d with
    | Some x => Some x
    | None => if str_eqb k k' then Some v else None
    end.
Proof.
  unfold dict_setdefault. destruct (str_eqb k k') eqn:E.
  - apply str_eqb_eq in E as ->. destruct (dict_get k' d) eqn:Ed; [by rewrite Ed|].
    apply dict_get_set_eq.
  - apply str_eqb_neq in E. destruct (dict_get k' d) eqn:Ed; [by destruct (dict_get k d)|].
    rewrite dict_get_set_ne by congruence. by destruct (dict_get k d).
Qed.

(** What ends up under a key: the caller's detail, or else the first field of
    that name that is set. *)
Lemma merge_details_get k details fields :
  dict_get k (Errors.merge_details details fields) =
    match dict_get k details with
    | Some v => Some v
    | None => dict_get k (List.filter (λ kv, truthy kv.2) fields)
    end.
Proof.
  unfold Errors.merge_details. revert details.
  induction fields as [|[k' v] fields IH]; intros details; simpl; [by destruct (dict_get k details)|].
  rewrite IH. destruct (truthy v); simpl; [|done]. rewrite dict_get_setdefault.
  destruct (dict_get k details); [done|]. by destruct (str_eqb k k').
Qed.

(** ** Runbook links *)

Lemma slug_chars code c : c ∈ Errors.slug_of code → Errors.is_slug_char c = true.
Proof.
  unfold Errors.slug_of. rewrite list_elem_of_In, List.filter_In. by intros [_ ?].
Qed.

Lemma format_runbook_url_cases code :
  Errors.format_runbook_url code = Errors.ERROR_DOCS_BASE_URL ∨
  ∃ slug, slug ≠ [] ∧ (∀ c, c ∈ slug → Errors.is_slug_char c = true) ∧
    Errors.format_runbook_url code = Errors.ERROR_DOCS_BASE_URL ++ [35] ++ slug.
Proof.
  unfold Errors.format_runbook_url. destruct code as [|x code]; [by left|].
  destruct (Errors.slug_of (x :: code)) as [|c s] eqn:E; [by left|]. right.
  exists (c :: s). split_and!; [done| |done]. intros y Hy. apply (slug_chars (x :: code)).
  by rewrite E.
Qed.
