(* ===== verification/Client.v ===== *)
(** * The HTTP client ([undolog_sdk/client.py])

    [httpx] is a third-party package: what a request to the proxy comes to is
    the argument [http], a function on the state [S] of the world outside the
    process, and which statuses [Response.raise_for_status] accepts is the
    argument [is_success]. Every method of [UndoLogClient] is a function of the
    state that returns or raises; the exceptions are the SDK's errors and those
    the library and the interpreter raise. *)

From S2P Require Import Prelude Py Json Errors.
Open Scope Z_scope.
Open Scope undolog_scope.

(** What the methods of the client and the tool wrappers raise. [ETool] is the
    exception of a tool's own body, [EInterrupt] the [GraphInterrupt] of the
    LangGraph wrapper. *)
Inductive sdk_exc :=
| ESdk (e : Errors.undolog_error)
| EHttpStatus (status : Z)
| EValue (message : pystr)
| EType
| EAttribute
| EBadJson
| EInterrupt (event : json)
| ETool (exc : pystr).

(** State passing with exceptions. *)
Definition M (S A : Type) : Type := S → (sdk_exc + A) * S.

#[export] Instance M_ret {S} : MRet (M S) := λ A a s, (inr a, s).
#[export] Instance M_bind {S} : MBind (M S) := λ A B f m s,
  match m s with
  | (inl e, s') => (inl e, s')
  | (inr a, s') => f a s'
  end.

Definition raise {S A} (e : sdk_exc) : M S A := λ s, (inl e, s).

(** [try: m except: h]. *)
Definition attempt {S A} (m : M S A) (h : sdk_exc → M S A) : M S A := λ s,
  match m s with
  | (inl e, s') => h e s'
  | x => x
  end.

Record http_request := HttpRequest {
  hr_method : pystr;
  hr_url : pystr;
  hr_headers : list (pystr * pystr);
  hr_json : json;
}.

(** The outcome of a request: one of the exceptions of [httpx] the client
    catches, with its text and the URL of its request, or a response with its
    status, URL and the value [Response.json] decodes ([None] when the body is
    not JSON). *)
Inductive http_outcome :=
| HTimeout (text url : pystr)
| HConnectError (text url : pystr)
| HHttpError (text url : pystr)
| HResponse (status : Z) (url : pystr) (body : option json).

(** [InterceptResponse]. *)
Record intercept_response := InterceptResponse {
  ir_outcome : pystr;
  ir_effect_id : json;
  ir_approval_id : json;
  ir_cached_result : json;
}.

(** [status_code in (401, 403)]. *)
Definition is_auth_status (status : Z) : bool := (status =? 401) || (status =? 403).

(** The outcome of a status the proxy reports; [None] is the [ValueError]. *)
Definition outcome_map : list (pystr * pystr) :=
  [($"executed", $"Execute"); ($"replayed", $"Replay");
   ($"pending_approval", $"AwaitingApproval")].

Section client.
Context {S : Type}.
Variable http : http_request → S → http_outcome * S.
Variable is_success : Z → bool.
(** [repr(value)] of a status that is not one of the known texts. *)
Variable repr_status : json → pystr.

(** The client's configuration. *)
Variable api_key : pystr.

Abbreviation io := (M S).

(** [_headers]. *)
Definition headers_ (org_id session_id : pystr) : list (pystr * pystr) :=
  [($"X-UndoLog-Org-Id", org_id); ($"X-UndoLog-Session-Id", session_id)]
  ++ match api_key with [] => [] | _ => [($"X-Api-Key", api_key)] end.

(** The [try] every method starts with: the request, and the mapping of the
    library's exceptions; [what] names the method in the messages. *)
Definition send (what_timeout what_error : pystr) (rq : http_request)
    : io (Z * pystr * option json) := λ s,
  match http rq s with
  | (HTimeout text url, s') =>
      (inl (ESdk (Errors.TimeoutError (what_timeout ++ $" request timed out: " ++ text) url
                    (FZero false) [] Errors.no_options)), s')
  | (HConnectError text url, s') =>
      (inl (ESdk (Errors.ConnectionError ($"Cannot connect to proxy: " ++ text) url
                    Errors.no_options)), s')
  | (HHttpError text url, s') =>
      (inl (ESdk (Errors.ConnectionError ($"HTTP error during " ++ what_error ++ $": " ++ text) url
                    Errors.no_options)), s')
  | (HResponse status url body, s') => (inr (status, url, body), s')
  end.

(** The status checks every method makes, in their order. *)
Definition check_status (status : Z) (url : pystr) : io () :=
  if is_auth_status status then
    raise (ESdk (Errors.AuthenticationError
      ($"Authentication failed: " ++ str_of_int status) status [] Errors.no_options))
  else if 500 <=? status then
    raise (ESdk (Errors.ServerError ($"Proxy server error: " ++ str_of_int status) status url
      Errors.no_options))
  else if is_success status then mret ()
  else raise (EHttpStatus status).

(** [resp.json()]. *)
Definition response_json (body : option json) : io json :=
  match body with Some v => mret v | None => raise EBadJson end.

(** [UndoLogClient.intercept]. *)
Definition intercept_call (org_id session_id tool_name : pystr) (step_index : Z) (args : json)
    : io intercept_response :=
  '(status, url, raw) ← send $"Intercept" $"intercept"
    (HttpRequest $"POST" $"/mcp/tool_call" (headers_ org_id session_id)
      (JObj [($"session_id", JStr session_id); ($"tool_name", JStr tool_name);
             ($"tool_version", JStr $"1.0.0"); ($"step_index", JInt step_index);
             ($"args", args)]));
  _ ← check_status status url;
  body ← response_json raw;
  match body with
  | JObj d =>
      match default (JStr $"executed") (dict_get $"status" d) with
      | JArr _ | JObj _ => raise EType
      | st =>
          match (match st with JStr t => dict_get t outcome_map | _ => None end) with
          | None => raise (EValue ($"Unexpected proxy status: " ++ repr_status st))
          | Some outcome =>
              mret {| ir_outcome := outcome;
                      ir_effect_id := default JNull (dict_get $"effect_id" d);
                      ir_approval_id := default JNull (dict_get $"approval_id" d);
                      ir_cached_result :=
                        match dict_get $"cached_result" d with
                        | Some v => v
                        | None => default JNull (dict_get $"result" d)
                        end |}
          end
      end
  | _ => raise EAttribute
  end.

(** The rest of [commit] and [fail]: an unknown effect is not an error. *)
Definition report (what_timeout what_error : pystr) (rq : http_request) : io json :=
  '(status, url, raw) ← send what_timeout what_error rq;
  if status =? 404 then mret (JObj [])
  else
    _ ← check_status status url;
    response_json raw.

Definition effect_url (effect_id action : pystr) : pystr :=
  $"/effects/" ++ effect_id ++ $"/" ++ action.
Definition approval_url (approval_id action : pystr) : pystr :=
  $"/approvals/" ++ approval_id ++ $"/" ++ action.

(** [UndoLogClient.commit]. *)
Definition commit_call (org_id session_id effect_id : pystr) (result : json) : io json :=
  report $"Commit" $"commit"
    (HttpRequest $"PUT" (effect_url effect_id $"commit") (headers_ org_id session_id)
       (JObj [($"session_id", JStr session_id); ($"result", result)])).

(** [UndoLogClient.fail]. *)
Definition fail_call (org_id session_id effect_id error : pystr) : io json :=
  report $"Fail" $"fail"
    (HttpRequest $"PUT" (effect_url effect_id $"fail") (headers_ org_id session_id)
       (JObj [($"session_id", JStr session_id); ($"error", JStr error)])).

Definition decide (what_timeout what_error : pystr) (rq : http_request) : io json :=
  '(status, url, raw) ← send what_timeout what_error rq;
  _ ← check_status status url;
  response_json raw.

(** [UndoLogClient.approve]. *)
Definition approve_call (org_id approval_id : pystr) : io json :=
  decide $"Approve" $"approve"
    (HttpRequest $"POST" (approval_url approval_id $"approve") (headers_ org_id []) (JObj [])).

(** [UndoLogClient.reject]. *)
Definition reject_call (org_id approval_id : pystr) : io json :=
  decide $"Reject" $"reject"
    (HttpRequest $"POST" (approval_url approval_id $"reject") (headers_ org_id []) (JObj [])).
End client.
