(* ===== verification/Tool.v ===== *)
(** * Sessions, the context variable and the tool wrapper
    ([session.py], [tier.py], [context.py], [decorators.py], the default client
    of [client.py])

    Sessions are objects shared by reference: [agent] keeps them in a store, so
    that the context variable and an explicit argument can name the same one.
    The wrapped tool is the caller's function: it is an argument of the wrapper,
    with the state it may change. *)

From S2P Require Import Prelude Py Json Errors Client.
Open Scope Z_scope.
Open Scope undolog_scope.

(** ** Tiers ([tier.py]) *)

Inductive ToolTier := SAFE | COMPENSABLE | IRREVERSIBLE.

#[export] Instance ToolTier_eq_dec : EqDecision ToolTier.
Proof. solve_decision. Defined.

Definition is_safe (t : ToolTier) : bool := bool_decide (t = SAFE).
Definition is_compensable (t : ToolTier) : bool := bool_decide (t = COMPENSABLE).
Definition requires_approval_tier (t : ToolTier) : bool := bool_decide (t = IRREVERSIBLE).

Definition TIER_LABELS (t : ToolTier) : pystr :=
  match t with
  | SAFE => $"safe"
  | COMPENSABLE => $"compensable"
  | IRREVERSIBLE => $"irreversible"
  end.

Record CompensationDescriptor := Compensation {
  fn_name : pystr;
  fn_version : pystr;
  cd_args : list (pystr * json);
  max_retries : Z;
  retry_backoff_ms : Z;
}.

(** [CompensationDescriptor.new]. *)
Definition new_compensation (fn : pystr) (args : option (list (pystr * json)))
    : CompensationDescriptor :=
  Compensation fn $"1.0.0" (default [] args) 3 1000.

(** ** Sessions ([session.py]) and the process's state *)

Record session := Session { org_id : pystr; session_id : pystr; step_index : Z }.

(** The configuration of an [UndoLogClient]. *)
Record client_config := ClientConfig { base_url : pystr; api_key : pystr }.

Record agent (E : Type) := Agent {
  ag_sessions : gmap nat session;
  ag_context : option nat;
  ag_default_client : option client_config;
  ag_ext : E;
}.
Arguments Agent {E}.
Arguments ag_sessions {E}.
Arguments ag_context {E}.
Arguments ag_default_client {E}.
Arguments ag_ext {E}.

Section process.
Context {E : Type}.
(** [UNDOLOG_PROXY_URL] and [UNDOLOG_API_KEY], when set. *)
Variable env_proxy_url : option pystr.
Variable env_api_key : option pystr.

Abbreviation act := (M (agent E)).

(** A computation on the outside world alone. *)
Definition lift_ext {A} (m : M E A) : act A := λ a,
  let '(r, e) := m (ag_ext a) in
  (r, Agent (ag_sessions a) (ag_context a) (ag_default_client a) e).

Definition get_agent : act (agent E) := λ a, (inr a, a).

(** [session.next_step()]: the lock makes the increment atomic. *)
Definition next_step (l : nat) : act Z := λ a,
  match ag_sessions a !! l with
  | Some s =>
      let n := step_index s + 1 in
      (inr n, Agent (<[l := Session (org_id s) (session_id s) n]> (ag_sessions a))
                    (ag_context a) (ag_default_client a) (ag_ext a))
  | None => (inl EAttribute, a)
  end.

(** ** The default client ([client.py]) *)

(** [_default_proxy_url]. *)
Definition default_proxy_url : pystr := default $"http://localhost:8080" env_proxy_url.

(** [text.rstrip("/")]. *)
Definition rstrip_slash (s : pystr) : pystr := reverse (lstrip_by (λ c, c =? 47) (reverse s)).

(** [UndoLogClient.__init__]. *)
Definition UndoLogClient (proxy_url key : option pystr) : client_config :=
  ClientConfig (rstrip_slash (or_else (default [] proxy_url) default_proxy_url))
               (or_else (default [] key) (default [] env_api_key)).

(** [_get_default_client]. *)
Definition get_default_client : act client_config := λ a,
  match ag_default_client a with
  | Some c => (inr c, a)
  | None =>
      let c := UndoLogClient None None in
      (inr c, Agent (ag_sessions a) (ag_context a) (Some c) (ag_ext a))
  end.

(** [_close_default_client]: the global is cleared; closing the pool happens in
    the background. *)
Definition close_default_client : act () := λ a,
  (inr (), Agent (ag_sessions a) (ag_context a) None (ag_ext a)).

(** ** The context variable ([context.py]) *)

Definition set_context (v : option nat) : act () := λ a,
  (inr (), Agent (ag_sessions a) v (ag_default_client a) (ag_ext a)).

(** [get_current_session]. *)
Definition get_current_session : act (option nat) := λ a, (inr (ag_context a), a).

Definition missing_session_message : pystr :=
  $"No UndoLog session in context; requires a session. Wrap your code with `async with run_with_session(session):` or pass _session=session explicitly.".

(** [require_current_session]. *)
Definition require_current_session : act nat :=
  s ← get_current_session;
  match s with
  | Some l => mret l
  | None => raise (ESdk (Errors.MissingSessionError missing_session_message [] Errors.no_options))
  end.

(** [async with run_with_session(session): body]: the variable is set on entry,
    and reset to what it was on exit, whether the body returns or raises; the
    default client is closed. *)
Definition run_with_session {A} (l : nat) (body : act A) : act A := λ a,
  let token := ag_context a in
  let '(_, a0) := set_context (Some l) a in
  let '(r, a1) := body a0 in
  let '(_, a2) := set_context token a1 in
  let '(_, a3) := close_default_client a2 in
  (r, a3).

(** ** The wrapper ([decorators.py]) *)

Variable http : client_config → http_request → E → http_outcome * E.
Variable is_success : Z → bool.
Variable repr_status : json → pystr.
(** [str(value)] of an identifier that is not a string. *)
Variable py_str : json → pystr.
(** The wrapped function: its name, its bound arguments without a session
    ([inspect.signature(func).bind(...)] with the defaults, or a [TypeError])
    and its body, which returns a JSON value or raises. *)
Variable Args : Type.
Variable tool_name : pystr.
Variable bind_args : Args → option (list (pystr * json)).
Variable func : Args → E → (pystr + json) * E.
Variable session_param : pystr.

(** [_unwrap_replay_result]. *)
Definition unwrap_replay_result (cached : json) : json :=
  match cached with
  | JObj d => match dict_get $"output" d with Some v => v | None => cached end
  | _ => cached
  end.

(** The text of an identifier in a URL, when it is set. *)
Definition id_text (v : json) : option pystr :=
  if truthy v then Some (match v with JStr s => s | _ => py_str v end) else None.

(** [await func(args, kwargs)]. *)
Definition call_func (x : Args) : act json := lift_ext (λ e,
  match func x e with
  | (inl exc, e') => (inl (ETool exc), e')
  | (inr v, e') => (inr v, e')
  end).

Definition no_session_message : pystr :=
  $"Tool '" ++ tool_name ++ $"' was called without an active UndoLogSession; requires a session. Pass "
  ++ session_param ++ $"=session to the call or wrap with run_with_session(session).".

(** The approval error of the package: [__init__.py] rebinds the name the
    wrapper raises to the structured class of [errors.py]. *)
Definition awaiting_approval (approval_id : json) (step : Z) : sdk_exc :=
  ESdk (Errors.AwaitingApprovalError [] tool_name step None
          (default [] (id_text approval_id)) [] Errors.no_options).

(** The message of the class [decorators.py] declares under the same name; the
    package replaces that class by the structured one ([__init__.py]). *)
Definition decorator_approval_text (approval_id : pystr) (step : Z) : pystr :=
  $"Tool '" ++ tool_name ++ $"' (step " ++ str_of_int step ++ $") requires approval. " ++
  $"approval_id=" ++ approval_id.

(** Both classes say the same, and the structured one is what the wrapper
    raises. *)
Lemma approval_text_agrees approval_id step :
  ∃ e, awaiting_approval approval_id step = ESdk e ∧ Errors.err_class e = $"AwaitingApprovalError" ∧
    Errors.err_message e = decorator_approval_text (default [] (id_text approval_id)) step.
Proof.
  eexists. split; [reflexivity|]. unfold Errors.AwaitingApprovalError, decorator_approval_text.
  destruct (default [] (id_text approval_id)) as [|c id]; [|done].
  by destruct (_ || truthy (JStr tool_name) || truthy (JInt step)).
Qed.

(** The [Execute] outcome: the body runs, its failure or its result is reported
    when the call has an effect, and a failed report never hides the tool's own
    exception. *)
Definition execute_tool (cl : client_config) (s : session) (effect_id : json) (x : Args) : act json :=
  result ← attempt (call_func x) (λ exc,
    match id_text effect_id, exc with
    | Some id, ETool text =>
        _ ← attempt (lift_ext (fail_call (http cl) is_success (api_key cl)
                       (org_id s) (session_id s) id text))
              (λ _, raise exc);
        raise exc
    | _, _ => raise exc
    end);
  _ ← match id_text effect_id with
      | Some id =>
          lift_ext (commit_call (http cl) is_success (api_key cl) (org_id s) (session_id s) id
            (JObj [($"success", JBool true); ($"output", result)]))
      | None => mret JNull
      end;
  mret result.

(** [wrapper]: [explicit] is the value popped from the session keyword. *)
Definition wrapper (tier : ToolTier) (client : option client_config) (explicit : option nat)
    (x : Args) : act json :=
  current ← match explicit with Some l => mret (Some l) | None => get_current_session end;
  match current with
  | None => raise (ESdk (Errors.MissingSessionError no_session_message tool_name Errors.no_options))
  | Some l =>
      cl ← match client with Some c => mret c | None => get_default_client end;
      if is_safe tier then call_func x
      else
        step ← next_step l;
        match bind_args x with
        | None => raise EType
        | Some bound =>
            let call_args := JObj (dict_del session_param bound) in
            a ← get_agent;
            match ag_sessions a !! l with
            | None => raise EAttribute
            | Some s =>
                resp ← lift_ext (intercept_call (http cl) is_success repr_status (api_key cl)
                          (org_id s) (session_id s) tool_name step call_args);
                if str_eqb (ir_outcome resp) $"Replay" then
                  mret (unwrap_replay_result (ir_cached_result resp))
                else if str_eqb (ir_outcome resp) $"AwaitingApproval" then
                  raise (awaiting_approval (ir_approval_id resp) step)
                else execute_tool cl s (ir_effect_id resp) x
            end
        end
  end.

(** [undolog_tool]: the decorator refuses a compensable tool without its
    compensation. *)
Definition compensation_required : pystr :=
  $"Compensable tools require a compensation descriptor. Pass compensation=CompensationDescriptor.new(...)".

Definition undolog_tool (tier : ToolTier) (compensation : option CompensationDescriptor)
    (client : option client_config) : sdk_exc + (option nat → Args → act json) :=
  if is_compensable tier && match compensation with None => true | Some _ => false end
  then inl (EValue compensation_required)
  else inr (wrapper tier client).
End process.
