(* ===== verification/EndToEnd.v ===== *)
(** * A decorated tool against the development server

    The wrapper of [decorators.py], through the client of [client.py], served
    by the handler of [dev.py]: the outside world of the process is the
    server's state and the record of the times the tool's body ran. *)

From S2P Require Import Prelude Py PyFacts Json Signature Journal Broadcaster Framing FramingFacts.
From S2P Require Import World Fnmatch DevHandler DevWp DevSpec DevRoutes Protocol Refinement.
From S2P Require Import Errors Client Tool.
Open Scope Z_scope.
Open Scope undolog_scope.

Section end_to_end.
Variable float_of_text : pystr → pyfloat.
Variable blake3_hexdigest : bytes → pystr.
Variable exc_str : pyexc → pystr.
Variable py_str : json → pystr.
Variable srv : server.
Variable uuid4_str : nat → pystr.
Variable utc_now_str : nat → pystr.
Variable time_ns_at : nat → Z.
Context `{!id_laws uuid4_str utc_now_str}.

(** The body [httpx] sends for [json=...]. *)
Variable encode : json → bytes.

(** The tool: its arguments, their binding and what its body does. *)
Variable Args : Type.
Variable tool_name : pystr.
Variable bind_args : Args → option (list (pystr * json)).
Variable body : Args → pystr + json.
Variable session_param : pystr.

Variable env_proxy_url env_api_key : option pystr.
Variable is_success : Z → bool.
Variable repr_status : json → pystr.

(** The server's state, and the calls the body was run with. *)
Definition outside : Type := world * list Args.

Definition run_body (x : Args) (o : outside) : (pystr + json) * outside :=
  (body x, (o.1, o.2 ++ [x])).

(** A request on a fresh connection. *)
Definition conn_for (rq : http_request) : conn :=
  let raw := encode (hr_json rq) in
  Conn raw (hr_headers rq ++ [($"Content-Length", str_of_int (Z.of_nat (length raw)))])
    false false None.

(** The transport: the server's answer is what the client receives. *)
Definition server_http (cl : client_config) (rq : http_request) (o : outside)
    : http_outcome * outside :=
  match exec uuid4_str utc_now_str time_ns_at
          (dispatch float_of_text blake3_hexdigest exc_str py_str srv
             (Request (hr_method rq) (hr_url rq) []) 0) o.1 (conn_for rq) with
  | (inr (Reply r), w', _) =>
      (HResponse (rs_status r) (base_url cl ++ hr_url rq) (Some (rs_body r)), (w', o.2))
  | (_, w', _) => (HHttpError [] [], (w', o.2))
  end.

Abbreviation call_tool :=
  (wrapper env_proxy_url env_api_key server_http is_success repr_status py_str Args tool_name
     bind_args run_body session_param).
Abbreviation serving_ := (serving uuid4_str).
Abbreviation dispatch_ := (dispatch float_of_text blake3_hexdigest exc_str py_str srv).
Abbreviation wpr := (wp uuid4_str utc_now_str time_ns_at).

(** ** Requests on the wire *)

(** A body that arrives: within the ceiling, and decoded to what was sent. *)
Definition arrives (d : list (pystr * json)) : Prop :=
  loads_bytes float_of_text (encode (JObj d)) = inr (JObj d) ∧
  0 < Z.of_nat (length (encode (JObj d))) ≤ MAX_BODY_BYTES.

Lemma decode_arrived raw d :
  loads_bytes float_of_text raw = inr (JObj d) → 0 < Z.of_nat (length raw) →
  decode_body float_of_text raw = inr d.
Proof. intros Hl Hn. destruct raw; [simpl in Hn; lia|]. unfold decode_body. by rewrite Hl. Qed.

(** The connection after its body was read. *)
Definition after_read (c : conn) : conn := set_body_read true (set_rfile [] c).

Lemma conn_for_reads method url org sid key d :
  arrives d →
  let c := conn_for (HttpRequest method url (headers_ key org sid) (JObj d)) in
  read_body float_of_text c = (inr d, after_read c) ∧ org_of (after_read c) = or_else org $"local".
Proof.
  intros [Hl Hn] c. set (raw := encode (JObj d)) in *.
  assert (is_chunked c = false ∧ content_length_text c = str_of_int (Z.of_nat (length raw)) ∧
    org_of c = or_else org $"local") as (Hc & Hct & Ho).
  { unfold is_chunked, content_length_text, org_of, c, conn_for, headers_. cbn [hr_json hr_headers headers].
    fold raw. generalize (str_of_int (Z.of_nat (length raw))). intros n.
    destruct key, org; split_and!; reflexivity. }
  split; [|exact Ho]. unfold read_body, read_raw. rewrite Hc, Hct, py_int_str_of_int by (unfold MAX_BODY_BYTES in *; lia).
  rewrite (proj2 (Z.eqb_neq _ 0)), (proj2 (Z.leb_le _ _)) by lia.
  change (rfile c) with raw. rewrite read_nonneg by lia.
  rewrite Nat2Z.id, take_ge, drop_ge by done. simpl.
  by rewrite (decode_arrived raw d) by (done || lia).
Qed.

(** ** The call *)

(** The body of the intercept request. *)
Definition call_json (s : session) (step : Z) (args : list (pystr * json)) : list (pystr * json) :=
  [($"session_id", JStr (session_id s)); ($"tool_name", JStr tool_name);
   ($"tool_version", JStr $"1.0.0"); ($"step_index", JInt step); ($"args", JObj args)].

Definition call_rq (cl : client_config) (s : session) (step : Z) (args : list (pystr * json))
    : http_request :=
  HttpRequest $"POST" $"/mcp/tool_call" (headers_ (api_key cl) (org_id s) (session_id s))
    (JObj (call_json s step args)).

(** A call of the tool in a session: its arguments bind, its request arrives
    and is understood, and its signature is [sig]. *)
Record callable (s : session) (step : Z) (x : Args) (sig : pystr) (args : list (pystr * json)) : Prop := {
  ca_bound : ∃ bound, bind_args x = Some bound ∧ args = dict_del session_param bound;
  ca_arrives : arrives (call_json s step args);
  ca_session : session_id s ≠ [];
  ca_tool : tool_name ≠ [];
  ca_step : 0 ≤ step;
  ca_signature : tool_call_signature blake3_hexdigest exc_str (session_id s) step tool_name (JObj args)
    = inr sig;
  ca_text : forallb bindable [or_else (org_id s) $"local"; session_id s; tool_name; sig] = true;
}.

Lemma call_params s step args :
  session_id s ≠ [] → tool_name ≠ [] → 0 ≤ step →
  tool_call_params (call_json s step args) = inr (session_id s, tool_name, JObj args, step).
Proof.
  intros Hs Ht Hn. unfold tool_call_params, call_json.
  cbn [dict_get]. change (str_eqb $"session_id" $"session_id") with true.
  change (str_eqb $"tool_name" $"session_id") with false.
  change (str_eqb $"tool_name" $"tool_name") with true.
  change (dict_get $"args" _) with (Some (JObj args)).
  change (dict_get $"step_index" _) with (Some (JInt step)).
  destruct (session_id s) as [|c1 t1]; [done|]. destruct tool_name as [|c2 t2]; [done|].
  simpl. by rewrite (proj2 (Z.ltb_ge step 0)) by lia.
Qed.

Lemma call_intercept cl s step x sig args :
  callable s step x sig args →
  intercept float_of_text blake3_hexdigest exc_str py_str (conn_for (call_rq cl s step args))
    (session_id s) tool_name (JObj args) step sig.
Proof.
  intros H. destruct (conn_for_reads $"POST" $"/mcp/tool_call" (org_id s) (session_id s) (api_key cl)
    (call_json s step args) (ca_arrives _ _ _ _ _ H)) as [Hread Horg].
  refine (Build_intercept _ _ _ _ _ _ _ _ _ _ (call_json s step args) _ Hread _ _ _).
  - apply call_params; apply H.
  - apply H.
  - rewrite Horg. pose proof (ca_text _ _ _ _ _ H) as Ht. simpl in Ht |- *. bool_to_prop.
    repeat match goal with H : bindable _ = true |- _ => rewrite H end. done.
Qed.

(** What the client makes of the server's answer. *)
Definition understood (ans : answer) : intercept_response :=
  match ans with
  | ARun id => InterceptResponse $"Execute" (JStr id) JNull JNull
  | APending aid => InterceptResponse $"AwaitingApproval" JNull (JStr aid) JNull
  | AReplay id r => InterceptResponse $"Replay" (JStr id) JNull (default JNull r)
  | ADone => InterceptResponse [] JNull JNull JNull
  end.

Hypothesis success_2xx : ∀ st, 200 ≤ st < 300 → is_success st = true.

Lemma check_status_2xx {S} st url (s : S) :
  200 ≤ st < 300 → check_status is_success st url s = (inr (), s).
Proof.
  intros Hst. unfold check_status, is_auth_status.
  rewrite (proj2 (Z.eqb_neq st 401)), (proj2 (Z.eqb_neq st 403)), (proj2 (Z.leb_gt 500 st)) by lia.
  simpl. by rewrite success_2xx.
Qed.

Lemma check_status_state {S} st url (s : S) r s' :
  check_status is_success st url s = (r, s') → s' = s.
Proof. unfold check_status. repeat case_match; by intros [= _ <-]. Qed.

Lemma intercept_understood cl s step args w log r w' c' ans :
  exec uuid4_str utc_now_str time_ns_at (dispatch_ (Request $"POST" $"/mcp/tool_call" []) 0) w
    (conn_for (call_rq cl s step args)) = (inr (Reply r), w', c') →
  encodes r ans → ans ≠ ADone →
  intercept_call (server_http cl) is_success repr_status (api_key cl) (org_id s) (session_id s)
    tool_name step (JObj args) (w, log) = (inr (understood ans), (w', log)).
Proof.
  intros Hex Henc Hans.
  assert (200 ≤ rs_status r < 300 ∧ ∃ d, rs_body r = JObj d ∧
    match default (JStr $"executed") (dict_get $"status" d) with
    | JArr _ | JObj _ => raise EType
    | st =>
        match (match st with JStr t => dict_get t outcome_map | _ => None end) with
        | None => raise (EValue ($"Unexpected proxy status: " ++ repr_status st))
        | Some outcome =>
            mret {| ir_outcome := outcome;
                    ir_effect_id := default JNull (dict_get $"effect_id" d);
                    ir_approval_id := default JNull (dict_get $"approval_id" d);
                    ir_cached_result :=
                      match dict_get $"cached_result" d with
                      | Some v => v
                      | None => default JNull (dict_get $"result" d)
                      end |}
        end
    end (w', log) = (inr (understood ans), (w', log))) as (Hst & d & Hb & Hd).
  { destruct ans as [id|aid|id res|]; [..|done]; destruct Henc as [-> ->];
      (split; [lia|]; eexists; split; [reflexivity|reflexivity]). }
  unfold intercept_call, mbind, M_bind, send, server_http. cbn [hr_method hr_url].
  fold (call_json s step args). fold (call_rq cl s step args). cbn [fst snd]. rewrite Hex.
  rewrite check_status_2xx by done. unfold response_json. rewrite Hb. exact Hd.
Qed.

(** ** The wrapper around the call *)

(** The process after the step counter moved and the outside changed. *)
Definition stepped (a : agent outside) (l : nat) (s : session) (o : outside) : agent outside :=
  Agent (<[l := Session (org_id s) (session_id s) (step_index s + 1)]> (ag_sessions a))
    (ag_context a) (ag_default_client a) o.

Lemma wrapper_intercepts tier cl l x a s sig args r o :
  is_safe tier = false → ag_sessions a !! l = Some s → callable s (step_index s + 1) x sig args →
  intercept_call (server_http cl) is_success repr_status (api_key cl) (org_id s) (session_id s)
    tool_name (step_index s + 1) (JObj args) (ag_ext a) = (inr r, o) →
  call_tool tier (Some cl) (Some l) x a =
    (if str_eqb (ir_outcome r) $"Replay" then mret (unwrap_replay_result (ir_cached_result r))
     else if str_eqb (ir_outcome r) $"AwaitingApproval" then
       raise (awaiting_approval py_str tool_name (ir_approval_id r) (step_index s + 1))
     else execute_tool server_http is_success py_str Args run_body cl
            (Session (org_id s) (session_id s) (step_index s + 1)) (ir_effect_id r) x)
      (stepped a l s o).
Proof.
  intros Ht Hl Hc Hi. destruct (ca_bound _ _ _ _ _ Hc) as (bound & Hb & ->).
  unfold wrapper, mbind, M_bind. cbn [mret M_ret]. rewrite Ht.
  unfold next_step. rewrite Hl, Hb. unfold get_agent. cbn [ag_sessions].
  rewrite lookup_insert_eq. unfold lift_ext. cbn [ag_ext org_id session_id]. by rewrite Hi.
Qed.

(** The requests that report the outcome of a body, on the wire. *)
Lemma commit_sent cl s id out w log r w' c' :
  exec uuid4_str utc_now_str time_ns_at
    (dispatch_ (Request $"PUT" (action_path $"effects" id $"commit") []) 0) w
    (conn_for (HttpRequest $"PUT" (action_path $"effects" id $"commit")
       (headers_ (api_key cl) (org_id s) (session_id s))
       (JObj [($"session_id", JStr (session_id s));
              ($"result", JObj [($"success", JBool true); ($"output", out)])]))) =
    (inr (Reply r), w', c') →
  rs_status r = 200 →
  commit_call (server_http cl) is_success (api_key cl) (org_id s) (session_id s) id
    (JObj [($"success", JBool true); ($"output", out)]) (w, log) = (inr (rs_body r), (w', log)).
Proof.
  intros Hex Hst. unfold commit_call, report, send, mbind, M_bind, server_http, effect_url.
  change ($"/effects/" ++ id ++ $"/" ++ $"commit") with (action_path $"effects" id $"commit").
  cbn [hr_method hr_url fst snd]. rewrite Hex, Hst.
  change (200 =? 404) with false. cbv beta iota. by rewrite check_status_2xx by lia.
Qed.

Lemma fail_sent cl s id exc w log r w' c' :
  exec uuid4_str utc_now_str time_ns_at
    (dispatch_ (Request $"PUT" (action_path $"effects" id $"fail") []) 0) w
    (conn_for (HttpRequest $"PUT" (action_path $"effects" id $"fail")
       (headers_ (api_key cl) (org_id s) (session_id s))
       (JObj [($"session_id", JStr (session_id s)); ($"error", JStr exc)]))) =
    (inr (Reply r), w', c') →
  ∃ o, fail_call (server_http cl) is_success (api_key cl) (org_id s) (session_id s) id exc (w, log) =
    (o, (w', log)).
Proof.
  intros Hex. unfold fail_call, report, send, mbind, M_bind, server_http, effect_url.
  change ($"/effects/" ++ id ++ $"/" ++ $"fail") with (action_path $"effects" id $"fail").
  cbn [hr_method hr_url fst snd]. rewrite Hex.
  destruct (rs_status r =? 404); [by eexists|]. cbv beta iota.
  destruct (check_status is_success (rs_status r) _ _) as [[e|[]] o] eqn:Ec;
    apply check_status_state in Ec as ->; by eexists.
Qed.

Lemma id_text_id id : id ≠ [] → id_text py_str (JStr id) = Some id.
Proof. by destruct id. Qed.

Lemma execute_commits cl s id x out w log (a : agent outside) v w' :
  body x = inr out → id ≠ [] → ag_ext a = (w, log) →
  commit_call (server_http cl) is_success (api_key cl) (org_id s) (session_id s) id
    (JObj [($"success", JBool true); ($"output", out)]) (w, log ++ [x]) = (inr v, (w', log ++ [x])) →
  execute_tool server_http is_success py_str Args run_body cl s (JStr id) x a =
    (inr out, Agent (ag_sessions a) (ag_context a) (ag_default_client a) (w', log ++ [x])).
Proof.
  intros Hb Hid Ha Hc. unfold execute_tool, mbind, M_bind, attempt, call_func, lift_ext.
  rewrite Ha. unfold run_body. rewrite Hb. cbn [fst snd ag_ext]. rewrite id_text_id by done.
  cbn [ag_ext]. by rewrite Hc.
Qed.

Lemma execute_fails cl s id x exc w log (a : agent outside) o w' :
  body x = inl exc → id ≠ [] → ag_ext a = (w, log) →
  fail_call (server_http cl) is_success (api_key cl) (org_id s) (session_id s) id exc (w, log ++ [x]) =
    (o, (w', log ++ [x])) →
  execute_tool server_http is_success py_str Args run_body cl s (JStr id) x a =
    (inl (ETool exc), Agent (ag_sessions a) (ag_context a) (ag_default_client a) (w', log ++ [x])).
Proof.
  intros Hb Hid Ha Hf. unfold execute_tool, mbind, M_bind, attempt, call_func, lift_ext.
  rewrite Ha. unfold run_body. rewrite Hb. cbn [fst snd ag_ext]. rewrite id_text_id by done.
  cbn [ag_ext]. rewrite Hf. by destruct o.
Qed.

(** ** Calls, by the state of their signature *)

(** The intercept of a call is a step of the protocol. *)
Lemma call_step cl s step x sig args w log :
  serving_ w → callable s step x sig args →
  ∃ ans w', intercept_call (server_http cl) is_success repr_status (api_key cl) (org_id s)
      (session_id s) tool_name step (JObj args) (w, log) = (inr (understood ans), (w', log)) ∧
    serving_ w' ∧
    machine_step (auto_approve srv) (LCall (requires_approval srv tool_name) sig) ans
      (state_of (w_db w)) (state_of (w_db w')).
Proof.
  intros Hs Hc.
  destruct (proj1 (wp_exec _ _ _ _ _ _ _) (dispatch_implements float_of_text blake3_hexdigest exc_str
    py_str srv uuid4_str utc_now_str time_ns_at
    (LCall (requires_approval srv tool_name) sig) (Request $"POST" $"/mcp/tool_call" [])
    (conn_for (call_rq cl s step args)) w 0 Hs
    (rq_call _ _ _ _ _ _ _ _ _ _ _ _ _ (call_intercept cl s step x sig args Hc))))
    as (rep & w' & c' & Hex & r & -> & Hs' & ans & Henc & Hstep).
  exists ans, w'. split_and!; try done. eapply intercept_understood; [exact Hex|exact Henc|].
  inversion Hstep as [g sg an s1 s2 Hrule He| | | |]; subst. by inversion Hrule.
Qed.

Lemma state_segment w sig id :
  serving_ w → state_id (state_of (w_db w) sig) = Some id → is_segment id = true.
Proof.
  intros Hs (e & _ & <- & He & _)%state_of_row. by eapply serving_segment.
Qed.

Definition result_envelope (out : json) : json :=
  JObj [($"success", JBool true); ($"output", out)].

Definition commit_json (s : session) (out : json) : list (pystr * json) :=
  [($"session_id", JStr (session_id s)); ($"result", result_envelope out)].

(** The report of a result is a step of the protocol. *)
Lemma commit_step cl s id sig out w log :
  serving_ w → state_id (state_of (w_db w) sig) = Some id →
  arrives (commit_json s out) →
  ∃ v w', commit_call (server_http cl) is_success (api_key cl) (org_id s) (session_id s) id
      (result_envelope out) (w, log) = (inr v, (w', log)) ∧ serving_ w' ∧
    state_of (w_db w') sig = Done id (Some (result_envelope out)) ∧
    elsewhere sig (state_of (w_db w)) (state_of (w_db w')).
Proof.
  intros Hs Hst Ha. pose proof (state_segment _ _ _ Hs Hst) as Hseg.
  destruct (conn_for_reads $"PUT" (action_path $"effects" id $"commit") (org_id s) (session_id s)
    (api_key cl) _ Ha) as [Hread _].
  destruct (proj1 (wp_exec _ _ _ _ _ _ _) (dispatch_implements float_of_text blake3_hexdigest exc_str
    py_str srv uuid4_str utc_now_str time_ns_at _ _ _ w 0 Hs
    (rq_commit _ _ _ _ _ _ id sig _ _ _ _ [] Hst Hseg Hread eq_refl)))
    as (rep & w' & c' & Hex & r & -> & Hs' & ans & Henc & Hstep).
  inversion Hstep as [|i res sg s1 s2 Hid Hdone He| | |]; subst.
  exists (rs_body r), w'. split; [by apply (commit_sent cl s id out w log r w' c')|].
  assert (sg = sig) as ->; [|done].
  eapply (state_of_distinct (w_db w)); [apply Hs|exact Hid|exact Hst].
Qed.

Definition fail_json (s : session) (exc : pystr) : list (pystr * json) :=
  [($"session_id", JStr (session_id s)); ($"error", JStr exc)].

Lemma fail_step cl s id sig exc w log :
  serving_ w → state_id (state_of (w_db w) sig) = Some id →
  arrives (fail_json s exc) → bindable exc = true →
  ∃ o w', fail_call (server_http cl) is_success (api_key cl) (org_id s) (session_id s) id exc (w, log) =
      (o, (w', log)) ∧ serving_ w' ∧
    state_of (w_db w') sig = Free ∧ elsewhere sig (state_of (w_db w)) (state_of (w_db w')).
Proof.
  intros Hs Hst Ha Hb. pose proof (state_segment _ _ _ Hs Hst) as Hseg.
  destruct (conn_for_reads $"PUT" (action_path $"effects" id $"fail") (org_id s) (session_id s)
    (api_key cl) _ Ha) as [Hread _].
  destruct (proj1 (wp_exec _ _ _ _ _ _ _) (dispatch_implements float_of_text blake3_hexdigest exc_str
    py_str srv uuid4_str utc_now_str time_ns_at _ _ _ w 0 Hs
    (rq_fail _ _ _ _ _ _ id sig _ _ _ exc [] Hst Hseg Hread eq_refl Hb)))
    as (rep & w' & c' & Hex & r & -> & Hs' & ans & Henc & Hstep).
  inversion Hstep as [| |i sg s1 s2 Hid Hfree He| |]; subst.
  destruct (fail_sent cl s id exc w log r w' c' Hex) as (o & Ho). exists o, w'. split; [done|].
  assert (sg = sig) as ->; [|done].
  eapply (state_of_distinct (w_db w)); [apply Hs|exact Hid|exact Hst].
Qed.

(** A call without an explicit session is made in the one of the context. *)
Lemma wrapper_in_context tier cl l x (a : agent outside) :
  ag_context a = Some l → call_tool tier cl None x a = call_tool tier cl (Some l) x a.
Proof. intros Ha. unfold wrapper, mbind, M_bind, get_current_session. by rewrite Ha. Qed.

(** ** One call of the tool *)

(** What a call of a tool comes to: a result, a failure of the tool's body, or
    the approval it waits for. *)
Inductive tool_result :=
| Returns (v : json)
| Raises (exc : pystr)
| Suspends (aid : pystr).

(** How a call moves its signature, whether the tool's body ran, and what the
    caller gets. *)
Inductive tool_step (gated : bool) (b : pystr + json) : call_state → tool_result → bool → call_state → Prop :=
| ts_run st id st1 out :
    call_rule (auto_approve srv) gated st (ARun id) st1 → b = inr out →
    tool_step gated b st (Returns out) true (Done id (Some (result_envelope out)))
| ts_fail st id st1 exc :
    call_rule (auto_approve srv) gated st (ARun id) st1 → b = inl exc →
    tool_step gated b st (Raises exc) true Free
| ts_wait st aid st1 :
    call_rule (auto_approve srv) gated st (APending aid) st1 → tool_step gated b st (Suspends aid) false st1
| ts_replay id r : tool_step gated b (Done id r) (Returns (unwrap_replay_result (default JNull r))) false (Done id r).

(** What the wrapper returns or raises for it. *)
Definition result_of (step : Z) (r : tool_result) : sdk_exc + json :=
  match r with
  | Returns v => inr v
  | Raises exc => inl (ETool exc)
  | Suspends aid => inl (awaiting_approval py_str tool_name (JStr aid) step)
  end.

(** The outcome of the body can be reported. *)
Definition reportable (s : session) (b : pystr + json) : Prop :=
  match b with
  | inr out => arrives (commit_json s out)
  | inl exc => arrives (fail_json s exc) ∧ bindable exc = true
  end.

Section one_call.
Context (tier : ToolTier) (cl : client_config) (l : nat) (x : Args) (a : agent outside) (s : session).
Context (sig : pystr) (args : list (pystr * json)) (w : world) (log : list Args).
Hypothesis not_safe : is_safe tier = false.
Hypothesis in_session : ag_sessions a !! l = Some s.
Hypothesis is_callable : callable s (step_index s + 1) x sig args.
Hypothesis server_state : ag_ext a = (w, log).
Hypothesis server_ok : serving_ w.

(** The outcome of a body that was let run. *)
Lemma body_reported id w1 :
  serving_ w1 → state_id (state_of (w_db w1) sig) = Some id → reportable s (body x) →
  ∃ w', execute_tool server_http is_success py_str Args run_body cl
      (Session (org_id s) (session_id s) (step_index s + 1)) (JStr id) x (stepped a l s (w1, log)) =
    (match body x with inr out => inr out | inl exc => inl (ETool exc) end,
     stepped a l s (w', log ++ [x])) ∧ serving_ w' ∧
    state_of (w_db w') sig =
      (match body x with inr out => Done id (Some (result_envelope out)) | inl _ => Free end) ∧
    elsewhere sig (state_of (w_db w1)) (state_of (w_db w')).
Proof.
  intros Hs1 Hid Hrep.
  assert (id ≠ []) as Hne by apply (proj2 (is_segment_spec id (state_segment w1 sig id Hs1 Hid))).
  destruct (body x) as [exc|out] eqn:Hb; simpl in Hrep.
  - destruct Hrep as [Harr Hbind].
    destruct (fail_step cl (Session (org_id s) (session_id s) (step_index s + 1)) id sig exc w1 (log ++ [x]))
      as (o & w2 & Hf & Hs2 & Hfree & He); [done..|].
    exists w2. split_and!; [|done..].
    by apply (execute_fails cl _ id x exc w1 log (stepped a l s (w1, log)) o w2).
  - destruct (commit_step cl (Session (org_id s) (session_id s) (step_index s + 1)) id sig out w1 (log ++ [x]))
      as (v & w2 & Hc & Hs2 & Hdone & He); [done..|].
    exists w2. split_and!; [|done..].
    by apply (execute_commits cl _ id x out w1 log (stepped a l s (w1, log)) v w2).
Qed.

(** A call in any state of its signature. *)
Lemma call_behaves :
  reportable s (body x) →
  ∃ res ran st' w', call_tool tier (Some cl) (Some l) x a =
      (result_of (step_index s + 1) res,
       stepped a l s (w', log ++ if ran : bool then [x] else [])) ∧ serving_ w' ∧
    tool_step (requires_approval srv tool_name) (body x) (state_of (w_db w) sig) res ran st' ∧
    state_of (w_db w') sig = st' ∧ elsewhere sig (state_of (w_db w)) (state_of (w_db w')).
Proof.
  intros Hrep. destruct (call_step cl s (step_index s + 1) x sig args w log server_ok is_callable)
    as (ans & w1 & Hi & Hs1 & Hstep).
  rewrite <-server_state in Hi.
  rewrite (wrapper_intercepts tier cl l x a s sig args _ _ not_safe in_session is_callable Hi).
  inversion Hstep as [g sg an s1 s2 Hrule He| | | |]; subst. clear Hstep.
  destruct ans as [id|aid|id r|]; [| | |by inversion Hrule]; cbn [understood ir_outcome ir_effect_id].
  - change (str_eqb $"Execute" $"Replay") with false.
    change (str_eqb $"Execute" $"AwaitingApproval") with false. cbv iota.
    assert (state_id (state_of (w_db w1) sig) = Some id) as Hid
      by (by eapply call_rule_runs).
    destruct (body_reported id w1 Hs1 Hid Hrep) as (w2 & -> & Hs2 & Hst & He2).
    assert (elsewhere sig (state_of (w_db w)) (state_of (w_db w2))) as He'.
    { intros sg Hne. rewrite He2 by done. by apply He. }
    destruct (body x) as [exc|out] eqn:Hb.
    + exists (Raises exc), true, Free, w2. split_and!; try done. by eapply ts_fail.
    + exists (Returns out), true, (Done id (Some (result_envelope out))), w2.
      split_and!; try done. by eapply ts_run.
  - exists (Suspends aid), false, (state_of (w_db w1) sig), w1. rewrite app_nil_r.
    split_and!; try done. by eapply ts_wait.
  - inversion Hrule as [| | | | | |id' r' E1 E2 E3]; subst.
    eexists (Returns _), false, (Done id r), w1. rewrite app_nil_r. split_and!; try done. apply ts_replay.
Qed.

(** A call whose signature is free, of a tool the server does not gate: the
    body runs once and its result is committed. *)
Lemma call_runs out :
  state_of (w_db w) sig = Free → requires_approval srv tool_name = false →
  body x = inr out → arrives (commit_json s out) →
  ∃ w' id, call_tool tier (Some cl) (Some l) x a = (inr out, stepped a l s (w', log ++ [x])) ∧
    serving_ w' ∧ state_of (w_db w') sig = Done id (Some (result_envelope out)).
Proof.
  intros Hfree Hgate Hb Harr. destruct call_behaves as (res & ran & st' & w' & E & Hs & Hstep & Hst & _).
  { by rewrite Hb. }
  rewrite Hfree, Hgate, Hb in Hstep.
  inversion Hstep as [st id st1 o Hr Ho|st id st1 e Hr Ho|st aid st1 Hr|]; simplify_eq; [eauto|by inversion Hr].
Qed.

(** A call whose signature is committed: the body does not run, the caller gets
    the committed output. *)
Lemma call_replays id result :
  state_of (w_db w) sig = Done id (Some result) →
  ∃ w', call_tool tier (Some cl) (Some l) x a
      = (inr (unwrap_replay_result result), stepped a l s (w', log)) ∧
    serving_ w' ∧ state_of (w_db w') sig = Done id (Some result).
Proof.
  intros Hdone.
  destruct (call_step cl s (step_index s + 1) x sig args w log server_ok is_callable)
    as (ans & w1 & Hi & Hs1 & Hstep).
  rewrite <-server_state in Hi.
  rewrite (wrapper_intercepts tier cl l x a s sig args _ _ not_safe in_session is_callable Hi).
  inversion Hstep as [g sg an s1 s2 Hrule He| | | |]; subst. rewrite Hdone in Hrule.
  inversion Hrule as [| | | | | |id' r E1 E2 E3]; subst.
  exists w1. split_and!; [|done|congruence]. done.
Qed.

(** A call that needs an approval: the body does not run, and the error names
    the approval the server recorded. *)
Lemma call_waits :
  state_of (w_db w) sig = Free → requires_approval srv tool_name = true → auto_approve srv = false →
  ∃ w' id aid, call_tool tier (Some cl) (Some l) x a =
      (inl (awaiting_approval py_str tool_name (JStr aid) (step_index s + 1)),
       stepped a l s (w', log)) ∧
    serving_ w' ∧ state_of (w_db w') sig = Held id aid.
Proof.
  intros Hfree Hgate Hauto.
  destruct (call_step cl s (step_index s + 1) x sig args w log server_ok is_callable)
    as (ans & w1 & Hi & Hs1 & Hstep).
  rewrite <-server_state in Hi.
  rewrite (wrapper_intercepts tier cl l x a s sig args _ _ not_safe in_session is_callable Hi).
  inversion Hstep as [g sg an s1 s2 Hrule He| | | |]; subst. rewrite Hfree, Hgate in Hrule.
  inversion Hrule as [id Hg E1 E2 E3|id aid Hg E1 E2 E3| | | | |]; subst ans;
    [by rewrite Hauto in Hg|].
  exists w1, id, aid. split_and!; done.
Qed.

(** A body that raises: the failure is reported, the signature is free again,
    and the caller sees the tool's exception. *)
Lemma call_fails exc :
  state_of (w_db w) sig = Free → requires_approval srv tool_name = false →
  body x = inl exc → arrives (fail_json s exc) → bindable exc = true →
  ∃ w', call_tool tier (Some cl) (Some l) x a =
      (inl (ETool exc), stepped a l s (w', log ++ [x])) ∧
    serving_ w' ∧ state_of (w_db w') sig = Free.
Proof.
  intros Hfree Hgate Hb Harr Hbind. destruct call_behaves as (res & ran & st' & w' & E & Hs & Hstep & Hst & _).
  { by rewrite Hb. }
  rewrite Hfree, Hgate, Hb in Hstep.
  inversion Hstep as [st id st1 o Hr Ho|st id st1 e Hr Ho|st aid st1 Hr|]; simplify_eq; [eauto|by inversion Hr].
Qed.
End one_call.
End end_to_end.
