(* ===== verification/Instrument.v ===== *)
(** * Tools as the framework integrations see them
    ([undolog_sdk/integrations/_instrument.py])

    The integrations look at tools through attributes: a name, a callable and
    what [undolog_tool] leaves on a function it wraps. [require_async_tool] is
    the rule they share. *)

From S2P Require Import Prelude Py Json Errors Client Tool.
Open Scope Z_scope.
Open Scope undolog_scope.

(** What [undolog_tool] leaves on a function it wraps: [_undolog_tool_name],
    [_undolog_tier], [_undolog_compensation] and the client it closes over. *)
Record instrumentation := Instrumentation {
  in_tool_name : pystr;
  in_tier : ToolTier;
  in_compensation : option CompensationDescriptor;
  in_client : option client_config;
}.

(** An object that may be called: its [__name__] when it has one, its
    instrumentation, whether it is a coroutine function, and what its body does
    when it is callable. *)
Record target (B : Type) := Target {
  tg_dunder_name : option pystr;
  tg_undolog : option instrumentation;
  tg_async : bool;
  tg_body : option B;
}.
Arguments Target {B}.
Arguments tg_dunder_name {B}.
Arguments tg_undolog {B}.
Arguments tg_async {B}.
Arguments tg_body {B}.

(** A tool object: its [name] attribute (empty when missing), itself as a
    callable, and its [coroutine] and [function] attributes ([None] when
    missing or false). *)
Record pytool (B : Type) := PyTool {
  pt_name : pystr;
  pt_self : target B;
  pt_coroutine : option (target B);
  pt_function : option (target B);
}.
Arguments PyTool {B}.
Arguments pt_name {B}.
Arguments pt_self {B}.
Arguments pt_coroutine {B}.
Arguments pt_function {B}.

Section instrument.
Context {B : Type}.
(** [repr] of a name, or of a tool that has none. *)
Variable repr_name : option pystr → pystr.

(** [getattr(tool, "name", None) or getattr(tool, "__name__", None)]. *)
Definition tool_name_of (t : pytool B) : option pystr :=
  match pt_name t with
  | [] => tg_dunder_name (pt_self t)
  | n => Some n
  end.

(** [callable(target)]. *)
Definition is_callable_target (t : target B) : bool :=
  match tg_body t with Some _ => true | None => false end.

(** The callable of a tool, and whether it is held in a container. *)
Definition tool_target (t : pytool B) : target B * bool :=
  match pt_coroutine t with
  | Some inner => match tg_body inner with Some _ => (inner, true) | None => (pt_self t, false) end
  | None => (pt_self t, false)
  end.

Definition async_message (wrapper : pystr) (name : option pystr) (container : option pystr) : pystr :=
  wrapper ++ $" cannot instrument " ++ repr_name name
  ++ $": UndoLog awaits the wrapped callable, so the tool must be async."
  ++ match container with
     | Some ((_ :: _) as c) =>
         $" Use an async function, or a " ++ c ++ $" exposing an async 'coroutine'."
     | _ => $" Use an async function."
     end.

(** [require_async_tool]. *)
Definition require_async_tool (t : pytool B) (wrapper : pystr) (container : option pystr)
    : sdk_exc + () :=
  let tgt := (tool_target t).1 in
  if negb (is_callable_target tgt) || tg_async tgt then inr ()
  else inl (EValue (async_message wrapper (tool_name_of t) container)).

(** [undolog_tool(tier, compensation=descriptor, client=client)(tool)]. *)
Definition decorate (t : target B) (tier : ToolTier) (descriptor : option CompensationDescriptor)
    (client : option client_config) : sdk_exc + target B :=
  if is_compensable tier && match descriptor with None => true | Some _ => false end
  then inl (EValue compensation_required)
  else match tg_dunder_name t with
       | None => inl EAttribute
       | Some n =>
           inr (Target (Some n) (Some (Instrumentation n tier descriptor client)) true (tg_body t))
       end.

(** The tool around another callable; a container is copied. *)
Definition put_target (t : pytool B) (contained : bool) (w : target B) : pytool B :=
  if contained then PyTool (pt_name t) (pt_self t) (Some w) (pt_function t)
  else PyTool (pt_name t) w (pt_coroutine t) (pt_function t).

(** Instrumenting one tool, which [wrap_tools], [_instrument_agent_tool] and
    [_instrument_index_tool] do alike: a tool without a named callable is
    refused, one that is instrumented comes back as it is, and the callable of
    any other one is wrapped. *)
Definition instrument_tool (message : option pystr → pystr)
    (wrap : pystr → target B → bool → sdk_exc + target B) (t : pytool B) : sdk_exc + pytool B :=
  let name := tool_name_of t in
  let '(tgt, contained) := tool_target t in
  match tg_body tgt, tg_dunder_name tgt, name with
  | Some _, Some _, Some ((_ :: _) as n) =>
      match tg_undolog tgt with
      | Some _ => inr t
      | None =>
          match wrap n tgt contained with
          | inl e => inl e
          | inr w => inr (put_target t contained w)
          end
      end
  | _, _, _ => inl (EValue (message name))
  end.
End instrument.
