(* ===== verification/LangGraph.v ===== *)
(** * The LangGraph integration ([undolog_sdk/integrations/langgraph.py])

    [wrap_tools] instruments the tools a graph is built from, and
    [WrappedGraph.ainvoke] runs a compiled graph inside a session whose identity
    and starting step travel through the graph's state. The graph is the
    framework's: it is an argument of [ainvoke], a computation on the process's
    state that is handed its input and its config. *)

From S2P Require Import Prelude Py Json Errors Client Tool Instrument.
Open Scope Z_scope.
Open Scope undolog_scope.

Module LangGraph.

(** ** Tools *)

Definition SAFE_PREFIXES : list pystr :=
  [$"get_"; $"read_"; $"fetch_"; $"list_"; $"search_"; $"lookup_"; $"query_"; $"check_";
   $"describe_"; $"view_"; $"find_"; $"calculate_"; $"is_"; $"has_"; $"show_"].

Definition IRREVERSIBLE_PREFIXES : list pystr :=
  [$"delete_"; $"drop_"; $"destroy_"; $"remove_"; $"purge_"; $"terminate_"; $"publish_";
   $"execute_"; $"kill_"; $"wipe_"; $"charge_"; $"pay_"; $"transfer_"; $"send_"].

Section tools.
Context {B : Type}.
(** [repr] of a tool that has no name, and the text of a name in a message. *)
Variable repr_name : option pystr → pystr.

(** The prefix rules of [classify_tool] on a lower-case name. *)
Definition classify_name (lower_name : pystr) : ToolTier :=
  if existsb (startswith lower_name) SAFE_PREFIXES then SAFE
  else if existsb (startswith lower_name) IRREVERSIBLE_PREFIXES then IRREVERSIBLE
  else SAFE.

(** [classify_tool]. *)
Definition classify_tool (t : pytool B) : ToolTier :=
  match tg_undolog (pt_self t) with
  | Some i => in_tier i
  | None => classify_name (default [] (tool_name_of t) ≫= Errors.lower_text)
  end.

Definition no_compensation_message (t : target B) : pystr :=
  $"Compensable tool " ++ repr_name (tg_dunder_name t)
  ++ $" has no compensation name. Pass compensation_name=..., or classify the tool with tier=ToolTier.SAFE or ToolTier.IRREVERSIBLE.".

(** [wrap_tool]; the warning the [is_unannotated] variant logs before every
    call is not modelled, its behaviour and attributes are those of the wrapped
    function. *)
Definition wrap_tool (t : target B) (tier : ToolTier) (compensation_name : option pystr)
    (client : option client_config) : sdk_exc + target B :=
  match tg_undolog t with
  | Some _ => inr t
  | None =>
      let name := default [] compensation_name in
      if is_compensable tier && negb (truthy (JStr name))
      then inl (EValue (no_compensation_message t))
      else decorate t tier (match name with [] => None | _ => Some (new_compensation name None) end)
             client
  end.

(** [audit_tool]. *)
Definition audit_tool (t : pytool B) (tier : option ToolTier) (compensation_name : option pystr)
    (client : option client_config) : sdk_exc + target B :=
  wrap_tool (pt_self t) (default (classify_tool t) tier) compensation_name client.

Definition cannot_instrument_message (name : option pystr) : pystr :=
  $"wrap_tools cannot instrument " ++ repr_name name
  ++ $": UndoLog needs an async callable with a name, or an object exposing an async 'coroutine' attribute.".

(** One round of [wrap_tools]. *)
Definition wrap_one (tiers : list (pystr * ToolTier)) (compensations : list (pystr * pystr))
    (client : option client_config) : pytool B → sdk_exc + pytool B :=
  instrument_tool cannot_instrument_message (λ name tgt _,
    wrap_tool tgt (default COMPENSABLE (dict_get name tiers)) (dict_get name compensations) client).

(** [wrap_tools]. *)
Fixpoint wrap_tools (tiers : list (pystr * ToolTier)) (compensations : list (pystr * pystr))
    (client : option client_config) (tools : list (pytool B)) : sdk_exc + list (pytool B) :=
  match tools with
  | [] => inr []
  | t :: ts =>
      match wrap_one tiers compensations client t with
      | inl e => inl e
      | inr w =>
          match wrap_tools tiers compensations client ts with
          | inl e => inl e
          | inr ws => inr (w :: ws)
          end
      end
  end.
End tools.

(** ** The graph facade *)

Definition STATE_SESSION_KEY : pystr := $"session_id".
Definition STATE_STEP_KEY : pystr := $"undolog_step_index".
Definition STATE_AWAITING_KEY : pystr := $"awaiting_approval".
Definition STATE_APPROVAL_KEY : pystr := $"approval_request".
Definition STATE_INTERRUPT_KEY : pystr := $"__interrupt__".
Definition CONFIG_SESSION_KEY : pystr := $"undolog_session".

Abbreviation dict := (list (pystr * json)).

(** A value of a [RunnableConfig]'s [configurable] dictionary; the wrapper puts
    the session object there. *)
Inductive cfg_value := CfgJson (v : json) | CfgSession (l : nat).
Record run_config := RunConfig {
  rc_other : dict;
  rc_configurable : option (list (pystr * cfg_value));
}.

(** The config the graph is run with. *)
Definition effective_config (config : option run_config) (l : nat) : run_config :=
  let c := default (RunConfig [] None) config in
  RunConfig (rc_other c)
    (Some (dict_set CONFIG_SESSION_KEY (CfgSession l) (default [] (rc_configurable c)))).

Section graph.
Context {E : Type}.
(** [str(uuid.uuid4())] of a new session. *)
Variable fresh_uuid : E → pystr * E.
(** [str(value)] of a session identifier that is not a string. *)
Variable py_str : json → pystr.
(** [int(value)] of a float, and the message of its failure on a value. *)
Variable int_of_float : pyfloat → option Z.
Variable int_error : json → pystr.

Abbreviation act := (M (agent E)).

(** [int(value)]. *)
Definition py_int_of (v : json) : sdk_exc + Z :=
  match v with
  | JInt n => inr n
  | JBool b => inr (if b then 1 else 0)
  | JFloat f => match int_of_float f with Some n => inr n | None => inl (EValue (int_error v)) end
  | JStr s => match py_int 10 s with Some n => inr n | None => inl (EValue (int_error v)) end
  | _ => inl EType
  end.

(** [int(input.get(STATE_STEP_KEY, 0) or 0)]. *)
Definition start_step_of (v : option json) : sdk_exc + Z :=
  match v with
  | None => inr 0
  | Some v => if truthy v then py_int_of v else inr 0
  end.

(** The identifier a run resumes, or the one it was created with. *)
Definition resumed_id (v : option json) (created : pystr) : pystr :=
  match v with
  | Some v => if truthy v then match v with JStr s => s | _ => py_str v end else created
  | None => created
  end.

(** [UndoLogSession(org_id=...)] with the identity and step of the input. *)
Definition open_session (org : pystr) (session_id : option json) (start_step : Z) : act nat := λ a,
  let '(created, e) := fresh_uuid (ag_ext a) in
  let l := fresh (dom (ag_sessions a)) in
  (inr l, Agent (<[l := Session org (resumed_id session_id created) start_step]> (ag_sessions a))
            (ag_context a) (ag_default_client a) e).

(** The fields of an [AwaitingApprovalError]. *)
Definition awaiting_of (e : sdk_exc) : option dict :=
  match e with
  | ESdk err =>
      if str_eqb (Errors.err_class err) $"AwaitingApprovalError" then Some (Errors.err_attrs err)
      else None
  | _ => None
  end.

Definition attr (k : pystr) (attrs : dict) : json := default JNull (dict_get k attrs).

Definition approval_request (attrs : dict) : dict :=
  [($"approval_id", attr $"approval_id" attrs); ($"tool_name", attr $"tool_name" attrs);
   ($"step_index", attr $"step_index" attrs)].
Definition interrupt_event (attrs : dict) : json :=
  JObj (approval_request attrs ++ [($"type", JStr $"approval_required")]).

(** Write the UndoLog keys over a state, in the order of the source. *)
Definition with_keys (session_id : pystr) (start_step : Z) (awaiting : bool) (request interrupt : json)
    (state : dict) : dict :=
  dict_set STATE_INTERRUPT_KEY interrupt
    (dict_set STATE_APPROVAL_KEY request
      (dict_set STATE_AWAITING_KEY (JBool awaiting)
        (dict_set STATE_STEP_KEY (JInt start_step)
          (dict_set STATE_SESSION_KEY (JStr session_id) state)))).

(** The state a suspended run returns; the tuple is a one-element list. *)
Definition suspended_state (session_id : pystr) (start_step : Z) (attrs : dict) (input : dict) : dict :=
  with_keys session_id start_step true (JObj (approval_request attrs))
    (JArr [JObj [($"value", interrupt_event attrs); ($"resumable", JBool true)]]) input.

Definition session_at (l : nat) : act session := λ a,
  match ag_sessions a !! l with Some s => (inr s, a) | None => (inl EAttribute, a) end.

(** [WrappedGraph.ainvoke]. *)
Definition ainvoke (org : pystr) (raise_interrupt : bool) (graph : dict → run_config → dict → act json)
    (input : dict) (config : option run_config) (kwargs : dict) : act json :=
  match start_step_of (dict_get STATE_STEP_KEY input) with
  | inl e => raise e
  | inr start_step =>
      l ← open_session org (dict_get STATE_SESSION_KEY input) start_step;
      outcome ← attempt
        (result ← run_with_session l (graph input (effective_config config l) kwargs); mret (inr result))
        (λ e,
          match awaiting_of e with
          | None => raise e
          | Some attrs =>
              if raise_interrupt then raise (EInterrupt (interrupt_event attrs))
              else mret (inl attrs)
          end);
      s ← session_at l;
      match outcome with
      | inl attrs => mret (JObj (suspended_state (session_id s) start_step attrs input))
      | inr (JObj d) => mret (JObj (with_keys (session_id s) start_step false JNull JNull d))
      | inr v => mret v
      end
  end.

(** The organisation [wrap_langgraph] binds the facade to. *)
Definition resolve_org (org_id env_org_id : option pystr) : pystr :=
  or_else (default [] org_id) (default $"org_demo" env_org_id).
End graph.
End LangGraph.
