(* ===== verification/InstrumentFacts.v ===== *)
(** * Instrumented tools

    What instrumenting a tool guarantees, for any way of wrapping its callable. *)

From S2P Require Import Prelude Py Json Errors Client Tool Instrument LangGraph.
Open Scope Z_scope.
Open Scope undolog_scope.

Section facts.
Context {B : Type}.
Implicit Types (t w : pytool B) (tgt : target B).

(** The callable a framework would run is an instrumented one. *)
Definition instrumented t : Prop :=
  is_Some (tg_undolog (tool_target t).1) ∧ is_Some (tg_body (tool_target t).1).

(** [tgt'] is [tgt] behind the interceptor, with a tier; a compensable one names
    its compensation. *)
Definition intercepts (tier : ToolTier) (client : option client_config) tgt tgt' : Prop :=
  tg_body tgt' = tg_body tgt ∧ tg_dunder_name tgt' = tg_dunder_name tgt ∧ tg_async tgt' = true ∧
  ∃ i, tg_undolog tgt' = Some i ∧ in_tier i = tier ∧ in_client i = client ∧
    (tier = COMPENSABLE → is_Some (in_compensation i)).

Lemma wrap_tool_instruments repr_name tgt tier comp client tgt' :
  tg_undolog tgt = None → LangGraph.wrap_tool repr_name tgt tier comp client = inr tgt' →
  intercepts tier client tgt tgt'.
Proof.
  intros Hu. unfold LangGraph.wrap_tool. rewrite Hu. case_match eqn:Ec; [done|]. unfold decorate.
  case_match eqn:Ed; [done|]. destruct (tg_dunder_name tgt) as [n|] eqn:En; [|done]. intros [= <-].
  split_and!; [done..|]. eexists. split_and!; [done..|]. intros ->. simpl in Ed. simpl.
  destruct (default [] comp); [done|]. eauto.
Qed.

(** Replacing the callable of a tool. *)
Lemma put_target_spec t tgt contained tgt' :
  tool_target t = (tgt, contained) → is_Some (tg_body tgt) →
  tg_body tgt' = tg_body tgt → tg_dunder_name tgt' = tg_dunder_name tgt →
  tool_target (put_target t contained tgt') = (tgt', contained) ∧
  tool_name_of (put_target t contained tgt') = tool_name_of t.
Proof.
  intros Et [b Eb] Hb Hn. revert Et. unfold tool_target, tool_name_of, put_target.
  destruct (pt_coroutine t) as [inner|] eqn:Ei; [destruct (tg_body inner) eqn:Ebi|];
    intros [= <- <-]; simpl; rewrite ?Hb, ?Ei, ?Ebi, ?Eb; (split; [done|]); try done;
    destruct (pt_name t); by rewrite ?Hn.
Qed.

Section one.
Variable message : option pystr → pystr.
Variable wrap : pystr → target B → bool → sdk_exc + target B.
(** The tier the wrapper chooses. *)
Variable tier_of : pystr → target B → bool → ToolTier.
Variable client : option client_config.

(** Wrapping the callable of a tool puts it behind the interceptor. *)
Definition wrap_intercepts t : Prop := ∀ n tgt c tgt',
  tool_target t = (tgt, c) → tg_undolog tgt = None → wrap n tgt c = inr tgt' →
  intercepts (tier_of n tgt c) client tgt tgt'.

(** What one tool becomes: itself when it was instrumented already, and
    otherwise the same tool around an instrumented callable of the chosen
    tier. *)
Definition becomes t w : Prop :=
  instrumented w ∧ tool_name_of w = tool_name_of t ∧
  (is_Some (tg_undolog (tool_target t).1) → w = t) ∧
  (tg_undolog (tool_target t).1 = None → tg_async (tool_target w).1 = true ∧ ∃ name i,
     tool_name_of t = Some name ∧ tg_undolog (tool_target w).1 = Some i ∧
     in_tier i = tier_of name (tool_target t).1 (tool_target t).2 ∧
     (in_tier i = COMPENSABLE → is_Some (in_compensation i)) ∧
     tg_body (tool_target w).1 = tg_body (tool_target t).1).

Lemma instrument_tool_cases t w :
  wrap_intercepts t → instrument_tool message wrap t = inr w → becomes t w.
Proof.
  intros Hwrap. unfold instrument_tool, becomes. destruct (tool_target t) as [tgt contained] eqn:Et.
  destruct (tg_body tgt) as [b|] eqn:Eb; [|done].
  destruct (tg_dunder_name tgt) as [dn|] eqn:En; [|done].
  destruct (tool_name_of t) as [[|c name]|] eqn:Ename; try done. cbn [fst snd].
  destruct (tg_undolog tgt) as [i|] eqn:Eu.
  { intros [= <-]. split_and!; try done. split; rewrite Et; simpl; rewrite ?Eu, ?Eb; eauto. }
  destruct (wrap (c :: name) tgt contained) as [e|tgt'] eqn:Ew; [done|]. intros [= <-].
  destruct (Hwrap _ _ _ _ Et Eu Ew) as (Hb & Hn & Ha & i & Hi & Htier & _ & Hcomp).
  destruct (put_target_spec t tgt contained tgt' Et) as [Hw Hname]; [by rewrite Eb|done..|].
  rewrite Hname, Ename, Hw. cbn [fst]. split_and!; try done.
  - split; rewrite Hw; simpl; rewrite ?Hi, ?Hb, ?Eb; eauto.
  - intros _. split; [done|]. exists (c :: name), i. split_and!; try done.
    intros Ht. apply Hcomp. by rewrite <-Htier.
Qed.

Lemma instrument_tool_again message' wrap' t w :
  wrap_intercepts t → instrument_tool message wrap t = inr w → instrument_tool message' wrap' w = inr w.
Proof.
  intros Hwrap H. destruct (instrument_tool_cases _ _ Hwrap H) as ([[i Hi] [b' Hb]] & Hname & _ & _).
  revert H. unfold instrument_tool at 1. destruct (tool_target t) as [tgt contained] eqn:Et.
  destruct (tg_body tgt) as [b|] eqn:Eb; [|done].
  destruct (tg_dunder_name tgt) as [dn|] eqn:En; [|done].
  destruct (tool_name_of t) as [[|c name]|] eqn:Ename; try done.
  intros H. assert (is_Some (tg_dunder_name (tool_target w).1)) as [d Hd].
  { destruct (tg_undolog tgt) as [j|] eqn:Eu.
    - injection H as <-. rewrite Et. simpl. by rewrite En.
    - destruct (wrap _ _ _) as [e|tgt'] eqn:Ew; [done|]. injection H as <-.
      destruct (Hwrap _ _ _ _ Et Eu Ew) as (Hb' & Hn' & _).
      destruct (put_target_spec t tgt contained tgt' Et) as [-> _]; [by rewrite Eb|done..|].
      simpl. by rewrite Hn', En. }
  unfold instrument_tool. destruct (tool_target w) as [tgt' contained'] eqn:Ew. simpl in *.
  by rewrite Hi, Hb, Hd, Hname.
Qed.
End one.
End facts.
