(* ===== verification/LangGraphTheorems.v ===== *)
(** * The LangGraph integration: what holds of it

    Instrumented tool lists, and runs that are suspended for an approval or
    repeated: invoking a graph again with the state it returned reproduces its
    steps, so what completed is replayed and what waited is matched again. *)

From S2P Require Import Prelude Py PyFacts Json Signature Journal Broadcaster Framing FramingFacts.
From S2P Require Import World Fnmatch DevHandler DevWp DevSpec DevRoutes Protocol Refinement.
From S2P Require Import Errors Client Tool EndToEnd Instrument LangGraph InstrumentFacts.
Open Scope Z_scope.
Open Scope undolog_scope.
Import LangGraph.

(** ** Tools *)

Section tool_lists.
Context {B : Type}.
Variable repr_name : option pystr → pystr.
Implicit Types t w : pytool B.

Lemma wrap_one_intercepts tiers comps client t :
  wrap_intercepts (λ n tgt _, wrap_tool repr_name tgt (default COMPENSABLE (dict_get n tiers))
    (dict_get n comps) client) (λ n _ _, default COMPENSABLE (dict_get n tiers)) client t.
Proof. intros n tgt c tgt' _. apply wrap_tool_instruments. Qed.

Lemma wrap_one_cases tiers comps client t w :
  wrap_one repr_name tiers comps client t = inr w →
  becomes (λ n _ _, default COMPENSABLE (dict_get n tiers)) t w.
Proof. apply instrument_tool_cases with client, wrap_one_intercepts. Qed.

Lemma wrap_one_again tiers comps client t w :
  wrap_one repr_name tiers comps client t = inr w →
  wrap_one repr_name tiers comps client w = inr w.
Proof.
  apply (instrument_tool_again _ _ (λ n _ _, default COMPENSABLE (dict_get n tiers)) client),
    wrap_one_intercepts.
Qed.
End tool_lists.

Section claims.
Context {B : Type}.
Variable repr_name : option pystr → pystr.

Lemma wrap_tools_pointwise tiers comps client (ts ws : list (pytool B)) :
  wrap_tools repr_name tiers comps client ts = inr ws ↔
  Forall2 (λ t w, wrap_one repr_name tiers comps client t = inr w) ts ws.
Proof.
  revert ws. induction ts as [|t ts IH]; intros ws; simpl.
  - split; [intros [= <-]; constructor|]. by inversion 1.
  - destruct (wrap_one repr_name tiers comps client t) as [e|w] eqn:Ew.
    + split; [done|]. inversion 1; congruence.
    + destruct (wrap_tools repr_name tiers comps client ts) as [e|ws'] eqn:Ews.
      * split; [done|]. inversion 1 as [|? ? ? ? Hw Hws]; subst.
        apply IH in Hws. done.
      * split.
        -- intros [= <-]. constructor; [done|]. by apply IH.
        -- inversion 1 as [|? w' ? ws'' Hw Hws]; subst. apply IH in Hws.
           congruence.
Qed.

(** [wrap_tools] leaves no tool ungated by omission. When it accepts a
    list, the result has one tool per tool, in order and under the same names;
    each one runs through the interceptor, with the tier it is mapped to,
    compensable unless it is mapped, and every compensable one names its
    compensation. A tool that was instrumented before comes back as it was, and
    wrapping the result again changes nothing. *)
Theorem wrapped_tools_are_instrumented tiers comps client (ts ws : list (pytool B)) :
  wrap_tools repr_name tiers comps client ts = inr ws →
  Forall2 (becomes (λ name _ _, default COMPENSABLE (dict_get name tiers))) ts ws ∧
  wrap_tools repr_name tiers comps client ws = inr ws.
Proof.
  intros H%wrap_tools_pointwise. split.
  - eapply Forall2_impl; [exact H|]. intros t w. apply wrap_one_cases.
  - apply wrap_tools_pointwise. induction H as [|t w ts ws Hw Hws IH]; constructor; [|done].
    by eapply wrap_one_again.
Qed.
End claims.

(** ** Runs *)

Section runs.
Context {E : Type}.
Variable fresh_uuid : E → pystr * E.
Variable py_str : json → pystr.
Variable int_of_float : pyfloat → option Z.
Variable int_error : json → pystr.

Abbreviation run := (ainvoke fresh_uuid py_str int_of_float int_error).
Abbreviation start_of input := (start_step_of int_of_float int_error (dict_get STATE_STEP_KEY input)).

(** The session a run opens, and the state the graph starts in. *)
Definition run_session (org : pystr) (input : list (pystr * json)) (start : Z) (a : agent E) : session :=
  Session org (resumed_id py_str (dict_get STATE_SESSION_KEY input) (fresh_uuid (ag_ext a)).1) start.
Definition run_loc (a : agent E) : nat := fresh (dom (ag_sessions a)).
Definition run_agent (org : pystr) (input : list (pystr * json)) (start : Z) (a : agent E) : agent E :=
  Agent (<[run_loc a := run_session org input start a]> (ag_sessions a)) (Some (run_loc a))
    (ag_default_client a) (fresh_uuid (ag_ext a)).2.

(** What [ainvoke] makes of what the graph comes to. *)
Definition run_result (rz : bool) (sid : pystr) (start : Z) (input : list (pystr * json))
    (r : sdk_exc + json) : sdk_exc + json :=
  match r with
  | inr (JObj d) => inr (JObj (with_keys sid start false JNull JNull d))
  | inr v => inr v
  | inl e =>
      match awaiting_of e with
      | None => inl e
      | Some attrs =>
          if rz then inl (EInterrupt (interrupt_event attrs))
          else inr (JObj (suspended_state sid start attrs input))
      end
  end.

Lemma ainvoke_eq org rz graph input config kwargs a start r a1 s1 :
  start_of input = inr start →
  graph input (effective_config config (run_loc a)) kwargs (run_agent org input start a) = (r, a1) →
  ag_sessions a1 !! run_loc a = Some s1 →
  run org rz graph input config kwargs a =
    (run_result rz (session_id s1) start input r,
     Agent (ag_sessions a1) (ag_context a) None (ag_ext a1)).
Proof.
  intros Hst Hg Hs. unfold ainvoke. rewrite Hst. unfold mbind, M_bind, open_session at 1.
  unfold run_agent, run_session in Hg. unfold run_loc in *.
  destruct (fresh_uuid (ag_ext a)) as [created e]. cbn [fst snd] in *.
  unfold attempt, run_with_session, set_context, close_default_client. cbn [ag_context ag_sessions ag_default_client ag_ext].
  rewrite Hg. destruct r as [ex|v]; cbn [run_result].
  - destruct (awaiting_of ex) as [attrs|]; [|done]. destruct rz; [done|].
    unfold mret, M_ret, session_at. cbn [ag_sessions]. by rewrite Hs.
  - unfold mret, M_ret, session_at. cbn [ag_sessions]. rewrite Hs. by destruct v.
Qed.

(** What the UndoLog keys of a state say. *)
Lemma with_keys_get sid start aw rq it d :
  dict_get STATE_SESSION_KEY (with_keys sid start aw rq it d) = Some (JStr sid) ∧
  dict_get STATE_STEP_KEY (with_keys sid start aw rq it d) = Some (JInt start) ∧
  dict_get STATE_AWAITING_KEY (with_keys sid start aw rq it d) = Some (JBool aw) ∧
  dict_get STATE_APPROVAL_KEY (with_keys sid start aw rq it d) = Some rq ∧
  (∀ k, k ∉ [STATE_SESSION_KEY; STATE_STEP_KEY; STATE_AWAITING_KEY; STATE_APPROVAL_KEY;
             STATE_INTERRUPT_KEY] → dict_get k (with_keys sid start aw rq it d) = dict_get k d).
Proof.
  unfold with_keys. split_and!.
  1-4: repeat (rewrite dict_get_set_eq || rewrite dict_get_set_ne by done); done.
  intros k Hk. rewrite !not_elem_of_cons in Hk. destruct Hk as (?&?&?&?&?&_).
  rewrite !dict_get_set_ne by congruence. done.
Qed.

(** A returned state resumes the run it came from. *)
Lemma resumes org start sid aw rq it d a :
  let st := with_keys sid start aw rq it d in
  sid ≠ [] →
  start_of st = inr start ∧ run_session org st start a = Session org sid start.
Proof.
  intros st Hsid. destruct (with_keys_get sid start aw rq it d) as (H1 & H2 & _).
  unfold run_session. fold st in H1, H2. rewrite H1, H2. split.
  - simpl. destruct (Z.eqb_spec start 0) as [->|]; done.
  - simpl. by destruct sid.
Qed.
End runs.

(** ** A graph that calls one tool, against the development server *)

Section served_graph.
Variable float_of_text : pystr → pyfloat.
Variable blake3_hexdigest : bytes → pystr.
Variable exc_str : pyexc → pystr.
Variable py_str : json → pystr.
Variable srv : server.
Variable uuid4_str : nat → pystr.
Variable utc_now_str : nat → pystr.
Variable time_ns_at : nat → Z.
Context `{!id_laws uuid4_str utc_now_str}.
Variable encode : json → bytes.
Variable Args : Type.
Variable tool_name : pystr.
Variable bind_args : Args → option (list (pystr * json)).
Variable body : Args → pystr + json.
Variable session_param : pystr.
Variable env_proxy_url env_api_key : option pystr.
Variable is_success : Z → bool.
Variable repr_status : json → pystr.
Hypothesis success_2xx : ∀ st, 200 ≤ st < 300 → is_success st = true.
Variable int_of_float : pyfloat → option Z.
Variable int_error : json → pystr.
(** The UUID a new session draws. *)
Variable new_sid : outside Args → pystr.

Abbreviation call_tool :=
  (wrapper env_proxy_url env_api_key
     (server_http float_of_text blake3_hexdigest exc_str py_str srv uuid4_str utc_now_str time_ns_at
        encode Args)
     is_success repr_status py_str Args tool_name bind_args (run_body Args body) session_param).
Abbreviation callable_ :=
  (callable float_of_text blake3_hexdigest exc_str encode Args tool_name bind_args session_param).
Abbreviation run :=
  (ainvoke (λ o : outside Args, (new_sid o, o)) py_str int_of_float int_error).
Abbreviation session_of org input start a :=
  (run_session (λ o : outside Args, (new_sid o, o)) py_str org input start a).

(** The graph: one node that calls the tool, in the session of the context. *)
Definition one_tool_graph (tier : ToolTier) (cl : client_config) (x : Args)
    (input : list (pystr * json)) (config : run_config) (kwargs : dict) : M (agent (outside Args)) json :=
  v ← call_tool tier (Some cl) None x; mret (JObj [($"answer", v)]).

(** A run of the graph, from what its tool call comes to. *)
Lemma one_tool_run org rz tier cl x input config kwargs a start r o :
  let s := session_of org input start a in
  let a0 := run_agent (λ o : outside Args, (new_sid o, o)) py_str org input start a in
  start_step_of int_of_float int_error (dict_get STATE_STEP_KEY input) = inr start →
  call_tool tier (Some cl) (Some (run_loc a)) x a0 = (r, stepped Args a0 (run_loc a) s o) →
  ∃ a1, run org rz (one_tool_graph tier cl x) input config kwargs a =
    (run_result rz (session_id s) start input
       (match r with inl e => inl e | inr v => inr (JObj [($"answer", v)]) end), a1) ∧ ag_ext a1 = o.
Proof.
  intros s a0 Hst Hcall. eexists. split.
  - eapply (ainvoke_eq _ _ _ _ org rz _ input config kwargs a start _ _
      (Session (org_id s) (session_id s) (step_index s + 1))); [exact Hst| |].
    + unfold one_tool_graph, mbind, M_bind. fold a0. erewrite wrapper_in_context by done.
      rewrite Hcall. destruct r; reflexivity.
    + destruct r; apply lookup_insert_eq.
  - by destruct r.
Qed.



Lemma answer_not_key :
  $"answer" ∉ [STATE_SESSION_KEY; STATE_STEP_KEY; STATE_AWAITING_KEY; STATE_APPROVAL_KEY;
               STATE_INTERRUPT_KEY].
Proof. rewrite !not_elem_of_cons. split_and!; try done. apply not_elem_of_nil. Qed.

Section flows.
Context (org : pystr) (tier : ToolTier) (cl : client_config) (x : Args).
Context (input : list (pystr * json)) (config : option run_config) (kwargs : dict) (a : agent (outside Args)).
Context (start : Z) (sig : pystr) (args : list (pystr * json)) (w : world) (log : list Args).
Let s : session := session_of org input start a.
Hypothesis not_safe : is_safe tier = false.
Hypothesis input_step : start_step_of int_of_float int_error (dict_get STATE_STEP_KEY input) = inr start.
Hypothesis is_callable : callable_ s (start + 1) x sig args.
Hypothesis server_state : ag_ext a = (w, log).
Hypothesis server_ok : serving uuid4_str w.
Hypothesis sig_free : state_of (w_db w) sig = Free.

(** A graph run again with the state it returned does not repeat its
    effects. The first run calls its tool and returns the result under the
    UndoLog keys; every later run that is given that state, in this process or
    in another one, returns the same answer without running the tool. *)
Theorem repeated_runs_replay out :
  requires_approval srv tool_name = false → body x = inr out →
  arrives float_of_text encode (commit_json s out) →
  ∃ st w1 a1,
    run org false (one_tool_graph tier cl x) input config kwargs a = (inr (JObj st), a1) ∧
    ag_ext a1 = (w1, log ++ [x]) ∧ dict_get $"answer" st = Some out ∧
    ∀ config' kwargs' a', ag_ext a' = (w1, log ++ [x]) →
    ∃ st' w2 a2,
      run org false (one_tool_graph tier cl x) st config' kwargs' a' = (inr (JObj st'), a2) ∧
      dict_get $"answer" st' = Some out ∧ ag_ext a2 = (w2, log ++ [x]).
Proof.
  intros Hgate Hbody Harr.
  destruct (call_runs float_of_text blake3_hexdigest exc_str py_str srv uuid4_str utc_now_str
    time_ns_at encode Args tool_name bind_args body session_param env_proxy_url env_api_key
    is_success repr_status success_2xx tier cl (run_loc a) x
    (run_agent (λ o : outside Args, (new_sid o, o)) py_str org input start a) s sig args w log)
    with (out := out) as (w1 & id & Hcall & Hs1 & Hdone); try done.
  { apply lookup_insert_eq. }
  destruct (one_tool_run org false tier cl x input config kwargs a start _ _ input_step Hcall) as (a1 & E1 & Ha1).
  eexists _, w1, a1. split; [exact E1|]. split; [done|].
  pose proof (ca_session _ _ _ _ _ _ _ _ _ _ _ _ _ is_callable) as Hsid.
  destruct (with_keys_get (session_id s) start false JNull JNull [($"answer", out)])
    as (_ & _ & _ & _ & Hother).
  split; [etrans; [exact (Hother _ answer_not_key)|done]|]. intros config' kwargs' a' Ha'.
  destruct (resumes (λ o : outside Args, (new_sid o, o)) py_str int_of_float int_error org start
    (session_id s) false JNull JNull [($"answer", out)] a' Hsid) as [Hstart Hses].
  destruct (call_replays float_of_text blake3_hexdigest exc_str py_str srv uuid4_str utc_now_str
    time_ns_at encode Args tool_name bind_args body session_param env_proxy_url env_api_key
    is_success repr_status success_2xx tier cl (run_loc a') x
    (run_agent (λ o : outside Args, (new_sid o, o)) py_str org
       (with_keys (session_id s) start false JNull JNull [($"answer", out)]) start a')
    (Session org (session_id s) start) sig args w1 (log ++ [x]))
    with (id := id) (result := result_envelope out) as (w2 & Hcall2 & _); try done.
  { etrans; [apply lookup_insert_eq|]. f_equal. exact Hses. }
  rewrite <-Hses in Hcall2.
  destruct (one_tool_run org false tier cl x _ config' kwargs' a' start _ _ Hstart Hcall2) as (a2 & E2 & Ha2).
  eexists _, w2, a2. split; [exact E2|]. split; [|done].
  match goal with |- dict_get _ (with_keys ?sid _ _ _ _ ?d) = _ =>
    destruct (with_keys_get sid start false JNull JNull d) as (_ & _ & _ & _ & Hother2) end.
  etrans; [exact (Hother2 _ answer_not_key)|done].
Qed.

End flows.
End served_graph.
