(* ===== verification/SdkTheorems.v ===== *)
(** * The SDK: what holds of it

    The theorems about the tool wrapper, the client, the sessions and the error
    classes that the callers of the SDK rely on. *)

From S2P Require Import Prelude Py PyFacts Json Signature Journal Broadcaster Framing World.
From S2P Require Import Fnmatch DevHandler DevWp DevSpec DevRoutes Protocol Refinement Errors.
From S2P Require Import Client Tool EndToEnd.
Open Scope Z_scope.
Open Scope undolog_scope.

(** ** Against the development server *)

Section served_tool.
Variable float_of_text : pystr → pyfloat.
Variable blake3_hexdigest : bytes → pystr.
Variable exc_str : pyexc → pystr.
Variable py_str : json → pystr.
Variable srv : server.
Variable uuid4_str : nat → pystr.
Variable utc_now_str : nat → pystr.
Variable time_ns_at : nat → Z.
Context `{!id_laws uuid4_str utc_now_str}.
Variable encode : json → bytes.
Variable Args : Type.
Variable tool_name : pystr.
Variable bind_args : Args → option (list (pystr * json)).
Variable body : Args → pystr + json.
Variable session_param : pystr.
Variable env_proxy_url env_api_key : option pystr.
Variable is_success : Z → bool.
Variable repr_status : json → pystr.
Hypothesis success_2xx : ∀ st, 200 ≤ st < 300 → is_success st = true.

Abbreviation call_tool :=
  (wrapper env_proxy_url env_api_key
     (server_http float_of_text blake3_hexdigest exc_str py_str srv uuid4_str utc_now_str time_ns_at
        encode Args)
     is_success repr_status py_str Args tool_name bind_args (run_body Args body) session_param).
Abbreviation callable_ :=
  (callable float_of_text blake3_hexdigest exc_str encode Args tool_name bind_args session_param).
Abbreviation arrives_ := (arrives float_of_text encode).

(** C10: the decorator runs a tool once. Take a tool that is not of the tier
    SAFE, needs no approval and returns, and a signature unused in the journal.
    The first call in a session runs the body and returns its result; the same
    call made again from the same step of the session, by this process or by one
    that resumes the session, returns the journaled result without running the
    body. *)
Theorem decorated_tool_runs_once tier cl l x a s sig args w log out :
  is_safe tier = false → ag_sessions a !! l = Some s →
  callable_ s (step_index s + 1) x sig args → ag_ext a = (w, log) → serving uuid4_str w →
  state_of (w_db w) sig = Free → requires_approval srv tool_name = false →
  body x = inr out → arrives_ (commit_json s out) →
  ∃ w1, call_tool tier (Some cl) (Some l) x a = (inr out, stepped Args a l s (w1, log ++ [x])) ∧
    ∀ a' l', ag_sessions a' !! l' = Some s → ag_ext a' = (w1, log ++ [x]) →
    ∃ w2, call_tool tier (Some cl) (Some l') x a' = (inr out, stepped Args a' l' s (w2, log ++ [x])).
Proof.
  intros Ht Hl Hc Ha Hs Hfree Hgate Hb Harr.
  edestruct (call_runs float_of_text blake3_hexdigest exc_str py_str srv uuid4_str utc_now_str
    time_ns_at encode Args tool_name bind_args body session_param env_proxy_url env_api_key
    is_success repr_status success_2xx tier cl l x a s sig args w log)
    as (w1 & id & Hcall & Hs1 & Hdone); [done..|].
  exists w1. split; [exact Hcall|]. intros a' l' Hl' Ha'.
  edestruct (call_replays float_of_text blake3_hexdigest exc_str py_str srv uuid4_str utc_now_str
    time_ns_at encode Args tool_name bind_args body session_param env_proxy_url env_api_key
    is_success repr_status success_2xx tier cl l' x a' s sig args w1 (log ++ [x]))
    as (w2 & Hcall2 & _); [done..|].
  eauto.
Qed.

(** C16: the body of a tool that needs an approval does not run. Let the tool
    not be of the tier SAFE (the proxy is not asked about those), auto-approval
    be off and the signature be unused. The call raises [AwaitingApprovalError]
    with the identifier of the approval, the body has not run, and the server
    holds the call under that approval. *)
Theorem gated_tool_body_waits tier cl l x a s sig args w log :
  is_safe tier = false → ag_sessions a !! l = Some s →
  callable_ s (step_index s + 1) x sig args → ag_ext a = (w, log) → serving uuid4_str w →
  state_of (w_db w) sig = Free → requires_approval srv tool_name = true → auto_approve srv = false →
  ∃ w1 id aid, call_tool tier (Some cl) (Some l) x a =
      (inl (awaiting_approval py_str tool_name (JStr aid) (step_index s + 1)),
       stepped Args a l s (w1, log)) ∧
    serving uuid4_str w1 ∧ state_of (w_db w1) sig = Held id aid.
Proof. intros. by eapply call_waits. Qed.

(** C20: a failure leaves nothing behind. When the body of a tool that is not of
    the tier SAFE and needs no approval raises, on a first call and with a
    message the database can store (no surrogates), the exception reaches the
    caller unchanged, and the signature is free again for a retry. *)
Theorem failed_tool_frees_its_signature tier cl l x a s sig args w log exc :
  is_safe tier = false → ag_sessions a !! l = Some s →
  callable_ s (step_index s + 1) x sig args → ag_ext a = (w, log) → serving uuid4_str w →
  state_of (w_db w) sig = Free → requires_approval srv tool_name = false →
  body x = inl exc → arrives_ (fail_json s exc) → bindable exc = true →
  ∃ w1, call_tool tier (Some cl) (Some l) x a =
      (inl (ETool exc), stepped Args a l s (w1, log ++ [x])) ∧
    serving uuid4_str w1 ∧ state_of (w_db w1) sig = Free.
Proof. intros. by eapply call_fails. Qed.
End served_tool.

(** ** Whatever the proxy is *)

Section any_proxy.
Context {E : Type}.
Variable env_proxy_url env_api_key : option pystr.
Variable http : client_config → http_request → E → http_outcome * E.
Variable is_success : Z → bool.
Variable repr_status : json → pystr.
Variable py_str : json → pystr.
Variable Args : Type.
Variable tool_name : pystr.
Variable bind_args : Args → option (list (pystr * json)).
Variable func : Args → E → (pystr + json) * E.
Variable session_param : pystr.

Abbreviation call_tool :=
  (wrapper env_proxy_url env_api_key http is_success repr_status py_str Args tool_name bind_args
     func session_param).

(** What an answer of the proxy, or its absence, comes to in [intercept]. *)
Definition intercept_verdict (o : http_outcome) : sdk_exc + intercept_response :=
  match o with
  | HTimeout text url =>
      inl (ESdk (Errors.TimeoutError ($"Intercept request timed out: " ++ text) url (FZero false) []
                   Errors.no_options))
  | HConnectError text url =>
      inl (ESdk (Errors.ConnectionError ($"Cannot connect to proxy: " ++ text) url Errors.no_options))
  | HHttpError text url =>
      inl (ESdk (Errors.ConnectionError ($"HTTP error during intercept: " ++ text) url
                   Errors.no_options))
  | HResponse status url raw =>
      if (status =? 401) || (status =? 403) then
        inl (ESdk (Errors.AuthenticationError ($"Authentication failed: " ++ str_of_int status)
                     status [] Errors.no_options))
      else if 500 <=? status then
        inl (ESdk (Errors.ServerError ($"Proxy server error: " ++ str_of_int status) status url
                     Errors.no_options))
      else if negb (is_success status) then inl (EHttpStatus status)
      else match raw with
           | Some (JObj d) =>
               let field k := default JNull (dict_get k d) in
               let ok outcome :=
                 inr (InterceptResponse outcome (field $"effect_id") (field $"approval_id")
                        (match dict_get $"cached_result" d with
                         | Some v => v | None => field $"result" end)) in
               match default (JStr $"executed") (dict_get $"status" d) with
               | JStr t =>
                   if str_eqb t $"executed" then ok $"Execute"
                   else if str_eqb t $"replayed" then ok $"Replay"
                   else if str_eqb t $"pending_approval" then ok $"AwaitingApproval"
                   else inl (EValue ($"Unexpected proxy status: " ++ repr_status (JStr t)))
               | JArr _ | JObj _ => inl EType
               | v => inl (EValue ($"Unexpected proxy status: " ++ repr_status v))
               end
           | Some _ => inl EAttribute
           | None => inl EBadJson
           end
  end.

(** [intercept] sends one request and turns what comes back, a response of
    any status and shape or a transport error, into the matching verdict or SDK
    error. *)
Theorem intercept_follows_the_verdict cl org sid tool step args (e : E) :
  let rq := HttpRequest $"POST" $"/mcp/tool_call" (headers_ (api_key cl) org sid)
    (JObj [($"session_id", JStr sid); ($"tool_name", JStr tool); ($"tool_version", JStr $"1.0.0");
           ($"step_index", JInt step); ($"args", args)]) in
  intercept_call (http cl) is_success repr_status (api_key cl) org sid tool step args e =
    (intercept_verdict (http cl rq e).1, (http cl rq e).2).
Proof.
  intros rq. unfold intercept_call, mbind, M_bind, send. fold rq.
  destruct (http cl rq e) as [o e']. destruct o as [| | |status url raw]; try done.
  cbn [fst snd intercept_verdict]. unfold check_status, is_auth_status.
  destruct ((status =? 401) || (status =? 403)); [done|]. destruct (500 <=? status); [done|].
  destruct (is_success status); [|done]. simpl negb. unfold response_json.
  destruct raw as [v|]; [|done]. destruct v as [| | | | | |d]; try done. cbn [mret M_ret].
  destruct (default _ (dict_get $"status" d)) as [| | | |t| |]; try done.
  unfold outcome_map. cbn [dict_get].
  destruct (str_eqb t $"executed"); [done|]. destruct (str_eqb t $"replayed"); [done|].
  by destruct (str_eqb t $"pending_approval").
Qed.

(** A safe tool runs its body at once: no request is made, no step is
    taken from the session, and the body's result or exception is the call's. *)
Theorem safe_tools_bypass_the_proxy client l x a :
  call_tool SAFE client (Some l) x a =
    let a' := match client, ag_default_client a with
              | None, None => Agent (ag_sessions a) (ag_context a)
                                (Some (UndoLogClient env_proxy_url env_api_key None None)) (ag_ext a)
              | _, _ => a
              end in
    (match (func x (ag_ext a)).1 with inl exc => inl (ETool exc) | inr v => inr v end,
     Agent (ag_sessions a) (ag_context a) (ag_default_client a') (func x (ag_ext a)).2).
Proof.
  unfold wrapper, mbind, M_bind. cbn [mret M_ret]. destruct client as [c|].
  - unfold call_func, lift_ext. simpl. destruct (func x (ag_ext a)) as [[exc|v] e']; by destruct a.
  - unfold get_default_client. destruct (ag_default_client a) eqn:Ed; unfold call_func, lift_ext; simpl;
      rewrite ?Ed; by destruct (func x (ag_ext a)) as [[exc|v] e'].
Qed.

(** A call without a session, in an argument or in the context, raises
    [MissingSessionError] and changes nothing, whatever the tier. *)
Theorem missing_session_has_no_effect tier client x a :
  ag_context a = None →
  call_tool tier client None x a =
    (inl (ESdk (Errors.MissingSessionError (no_session_message tool_name session_param) tool_name
                  Errors.no_options)), a).
Proof. intros Ha. unfold wrapper, mbind, M_bind, get_current_session. by rewrite Ha. Qed.

(** ** The context variable *)

(** [run_with_session] runs the body with the session as the current one
    and restores the previous one afterwards, whether the body returns or
    raises. *)
Theorem run_with_session_restores_context {A} l (m : M (agent E) A) a :
  ag_context (run_with_session l m a).2 = ag_context a ∧
  (run_with_session l m a).1 =
    (m (Agent (ag_sessions a) (Some l) (ag_default_client a) (ag_ext a))).1.
Proof.
  unfold run_with_session. simpl.
  by destruct (m (Agent (ag_sessions a) (Some l) (ag_default_client a) (ag_ext a))) as [r a1].
Qed.

(** ** Step numbers *)

(** [n] calls of [next_step] on one session, by whichever tasks hold it. *)
Fixpoint steps (n : nat) (l : nat) : M (agent E) (list Z) :=
  match n with
  | O => mret []
  | S n => k ← next_step l; ks ← steps n l; mret (k :: ks)
  end.

Lemma steps_count n l a s :
  ag_sessions a !! l = Some s →
  ∃ a', steps n l a = (inr (seqZ (step_index s + 1) (Z.of_nat n)), a') ∧
    ag_sessions a' !! l =
      Some (Session (org_id s) (session_id s) (step_index s + Z.of_nat n)).
Proof.
  revert a s. induction n as [|n IH]; intros a s Hl.
  - exists a. split; [done|]. rewrite Hl. destruct s; simpl. by rewrite Z.add_0_r.
  - cbn [steps]. unfold mbind, M_bind, next_step at 1. rewrite Hl.
    edestruct (IH (Agent (<[l:=Session (org_id s) (session_id s) (step_index s + 1)]> (ag_sessions a))
      (ag_context a) (ag_default_client a) (ag_ext a))) as (a' & E1 & E2);
      [apply lookup_insert_eq|].
    rewrite E1. exists a'. cbn [step_index org_id session_id] in *. split.
    + unfold mret, M_ret. do 2 f_equal. rewrite (seqZ_cons (step_index s + 1)) by lia.
      f_equal. f_equal; lia.
    + rewrite E2. do 2 f_equal. lia.
Qed.

(** [next_step] numbers the calls of a session: the [i]-th of any sequence
    of calls gets the [i]-th number after the current step, so no two are equal. *)
Theorem step_numbers_are_distinct n l a s :
  ag_sessions a !! l = Some s →
  ∃ ks a', steps n l a = (inr ks, a') ∧ length ks = n ∧ NoDup ks ∧
    (∀ i k, ks !! i = Some k → k = step_index s + 1 + Z.of_nat i).
Proof.
  intros Hl. destruct (steps_count n l a s Hl) as (a' & Hst & _).
  exists (seqZ (step_index s + 1) (Z.of_nat n)), a'. split; [exact Hst|]. split_and!.
  - rewrite length_seqZ. lia.
  - apply NoDup_seqZ.
  - intros i k Hi. apply lookup_seqZ in Hi as [? ?]. done.
Qed.
End any_proxy.

(** ** Errors *)

(** The details of an error keep what the caller passed; the class adds
    its own fields under the keys that are still free, and only when they carry
    a value. *)
Theorem caller_details_win k details fields :
  dict_get k (Errors.merge_details details fields) =
    match dict_get k details with
    | Some v => Some v
    | None => dict_get k (List.filter (λ kv, truthy kv.2) fields)
    end.
Proof. apply merge_details_get. Qed.

(** The documentation link of an error is the base page, or the base page
    with a non-empty anchor made of slug characters, whatever the code holds. *)
Theorem runbook_links_are_anchored code :
  Errors.format_runbook_url code = Errors.ERROR_DOCS_BASE_URL ∨
  ∃ slug, slug ≠ [] ∧ (∀ c, c ∈ slug → Errors.is_slug_char c = true) ∧
    Errors.format_runbook_url code = Errors.ERROR_DOCS_BASE_URL ++ [35] ++ slug.
Proof. apply format_runbook_url_cases. Qed.
