(* ===== verification/SdkWitnesses.v ===== *)
(** * The theorems about the SDK, on a concrete tool *)

From S2P Require Import Prelude Py PyFacts Json Signature Journal Broadcaster Framing World.
From S2P Require Import Fnmatch DevHandler DevWp DevSpec DevRoutes Protocol Refinement Errors.
From S2P Require Import Client Tool EndToEnd SdkTheorems Demo.
Open Scope Z_scope.
Open Scope undolog_scope.
Import Demo.

(** A tool of one integer argument that fails on negative ones. *)
Definition tool_args (n : Z) : option (list (pystr * json)) := Some [($"amount", JInt n)].
Definition tool_body (n : Z) : pystr + json :=
  if n <? 0 then inl $"negative" else inr (JInt (n * 2)).
Definition is_2xx (st : Z) : bool := (200 <=? st) && (st <? 300).

Lemma success_2xx st : 200 ≤ st < 300 → is_2xx st = true.
Proof. intros H. unfold is_2xx. rewrite andb_true_iff, Z.leb_le, Z.ltb_lt. lia. Qed.

Definition tool_session : session := Session $"acme" $"00000000-0000-0000-0000-000000000002" 6.
Definition tool_client : client_config := ClientConfig $"http://localhost:8080" $"key".
Definition process : agent (outside Z) := Agent {[0%nat := tool_session]} None None (world0, []).

Definition tool_signature (tool : pystr) (n : Z) : pystr :=
  match tool_call_signature blake3_hexdigest exc_str (session_id tool_session) 7 tool
          (JObj [($"amount", JInt n)]) with
  | inr s => s | inl _ => []
  end.

Abbreviation call_demo tool tier x a :=
  (wrapper None None
     (server_http float_of_text blake3_hexdigest exc_str py_str gated_server uuid4_str utc_now_str
        time_ns_at dumps Z)
     is_2xx py_str py_str Z tool tool_args (run_body Z tool_body) $"session"
     tier (Some tool_client) (Some 0%nat) x a).

Abbreviation callable_demo tool :=
  (callable float_of_text blake3_hexdigest exc_str dumps Z tool tool_args $"session").

(** A concrete body arrives; a concrete call is callable. *)
Ltac arrives_tac := split; [vm_compute; reflexivity|vm_compute; split; [reflexivity|discriminate]].
Ltac callable_tac :=
  split; try (vm_compute; (reflexivity || discriminate)); [by eexists|arrives_tac].

Lemma mail_callable :
  callable_demo $"send_mail" tool_session 7 21 (tool_signature $"send_mail" 21) [($"amount", JInt 21)].
Proof. callable_tac. Qed.

Lemma failing_callable :
  callable_demo $"send_mail" tool_session 7 (-1) (tool_signature $"send_mail" (-1)) [($"amount", JInt (-1))].
Proof. callable_tac. Qed.

Lemma wire_callable :
  callable_demo $"wire_money" tool_session 7 21 (tool_signature $"wire_money" 21) [($"amount", JInt 21)].
Proof. callable_tac. Qed.

Lemma decorated_tool_runs_once_witness :
  ∃ w1, call_demo $"send_mail" COMPENSABLE 21 process =
      (inr (JInt 42), stepped Z process 0 tool_session (w1, [21])) ∧
    ∃ w2, call_demo $"send_mail" COMPENSABLE 21 (Agent {[0%nat := tool_session]} None None (w1, [21])) =
      (inr (JInt 42), stepped Z (Agent {[0%nat := tool_session]} None None (w1, [21])) 0 tool_session
                        (w2, [21])).
Proof.
  destruct (decorated_tool_runs_once float_of_text blake3_hexdigest exc_str py_str gated_server
    uuid4_str utc_now_str time_ns_at dumps Z $"send_mail" tool_args tool_body $"session" None None
    is_2xx py_str success_2xx COMPENSABLE tool_client 0 21 process tool_session
    (tool_signature $"send_mail" 21) [($"amount", JInt 21)] world0 [] (JInt 42)
    eq_refl eq_refl mail_callable eq_refl serving_world0 eq_refl eq_refl eq_refl) as (w1 & E1 & E2).
  - arrives_tac.
  - exists w1. split; [exact E1|].
    exact (E2 (Agent {[0%nat := tool_session]} None None (w1, [21])) 0%nat eq_refl eq_refl).
Defined.

Lemma gated_tool_body_waits_witness :
  ∃ w1 id aid, call_demo $"wire_money" IRREVERSIBLE 21 process =
      (inl (awaiting_approval py_str $"wire_money" (JStr aid) 7),
       stepped Z process 0 tool_session (w1, [])) ∧
    serving uuid4_str w1 ∧ state_of (w_db w1) (tool_signature $"wire_money" 21) = Held id aid.
Proof.
  exact (gated_tool_body_waits float_of_text blake3_hexdigest exc_str py_str gated_server
    uuid4_str utc_now_str time_ns_at dumps Z $"wire_money" tool_args tool_body $"session" None None
    is_2xx py_str success_2xx IRREVERSIBLE tool_client 0 21 process tool_session
    (tool_signature $"wire_money" 21) [($"amount", JInt 21)] world0 []
    eq_refl eq_refl wire_callable eq_refl serving_world0 eq_refl eq_refl eq_refl).
Defined.

Lemma failed_tool_frees_its_signature_witness :
  ∃ w1, call_demo $"send_mail" COMPENSABLE (-1) process =
      (inl (ETool $"negative"), stepped Z process 0 tool_session (w1, [-1])) ∧
    serving uuid4_str w1 ∧ state_of (w_db w1) (tool_signature $"send_mail" (-1)) = Free.
Proof.
  eapply (failed_tool_frees_its_signature float_of_text blake3_hexdigest exc_str py_str gated_server
    uuid4_str utc_now_str time_ns_at dumps Z $"send_mail" tool_args tool_body $"session" None None
    is_2xx py_str success_2xx COMPENSABLE tool_client 0 (-1) process tool_session
    (tool_signature $"send_mail" (-1)) [($"amount", JInt (-1))] world0 [] $"negative"
    eq_refl eq_refl failing_callable eq_refl serving_world0 eq_refl eq_refl eq_refl); [|reflexivity].
  arrives_tac.
Defined.

(** A proxy that answers every request with the same response. *)
Definition constant_http (cl : client_config) (rq : http_request) (n : nat) : http_outcome * nat :=
  (HResponse 200 [] (Some (JObj [])), S n).
Definition plain_tool (x : Z) (n : nat) : (pystr + json) * nat := (inr (JInt x), n).

Lemma missing_session_has_no_effect_witness :
  wrapper None None constant_http is_2xx py_str py_str Z $"send_mail" tool_args plain_tool $"session"
    COMPENSABLE None None 21 (Agent ∅ None None 0%nat) =
    (inl (ESdk (Errors.MissingSessionError (no_session_message $"send_mail" $"session") $"send_mail"
                  Errors.no_options)), Agent ∅ None None 0%nat).
Proof.
  exact (missing_session_has_no_effect None None constant_http is_2xx py_str py_str Z $"send_mail"
    tool_args plain_tool $"session" COMPENSABLE None 21 (Agent ∅ None None 0%nat) eq_refl).
Defined.

Lemma step_numbers_are_distinct_witness :
  ∃ ks a', steps 3 0 process = (inr ks, a') ∧ length ks = 3%nat ∧ NoDup ks ∧
    (∀ i k, ks !! i = Some k → k = 7 + Z.of_nat i).
Proof. exact (step_numbers_are_distinct 3 0 process tool_session eq_refl). Defined.
