(* ===== verification/LangGraphWitnesses.v ===== *)
(** * The theorems about the LangGraph integration, on concrete graphs *)

From S2P Require Import Prelude Py PyFacts Json Signature Journal Broadcaster Framing World Fnmatch.
From S2P Require Import DevHandler DevWp DevSpec DevRoutes Protocol Refinement Errors Client Tool.
From S2P Require Import EndToEnd Instrument LangGraph LangGraphTheorems Demo SdkWitnesses.
Open Scope Z_scope.
Open Scope undolog_scope.
Import Demo.
Import LangGraph.

Definition no_repr (o : option pystr) : pystr := default $"?" o.

(** A plain function, a container, and a function that is already decorated. *)
Definition plain_fn : pytool nat := PyTool [] (Target (Some $"refund") None true (Some 1%nat)) None None.
Definition structured : pytool nat :=
  PyTool $"wire" (Target None None false None) (Some (Target (Some $"wire_impl") None true (Some 2%nat))) None.
Definition decorated : pytool nat :=
  PyTool [] (Target (Some $"look") (Some (Instrumentation $"look" SAFE None None)) true (Some 3%nat)) None None.

Lemma wrapped_tools_are_instrumented_witness :
  ∃ ws, wrap_tools no_repr [($"wire", IRREVERSIBLE)] [($"refund", $"undo_refund")] None
      [plain_fn; structured; decorated] = inr ws ∧
    length ws = 3%nat ∧
    wrap_tools no_repr [($"wire", IRREVERSIBLE)] [($"refund", $"undo_refund")] None ws = inr ws.
Proof.
  eexists. split; [vm_compute; reflexivity|]. split; [reflexivity|].
  eapply (wrapped_tools_are_instrumented no_repr [($"wire", IRREVERSIBLE)]
    [($"refund", $"undo_refund")] None [plain_fn; structured; decorated]).
  vm_compute. reflexivity.
Defined.

Definition graph_sid (o : outside Z) : pystr := $"00000000-0000-0000-0000-000000000002".
Definition trunc (f : pyfloat) : option Z := None.
Definition int_message (v : json) : pystr := $"invalid literal for int()".
Definition graph_input : list (pystr * json) := [($"query", JStr $"hi"); ($"undolog_step_index", JInt 6)].

Abbreviation run_demo tool tier x input a :=
  (ainvoke (λ o : outside Z, (graph_sid o, o)) py_str trunc int_message $"acme" false
     (one_tool_graph float_of_text blake3_hexdigest exc_str py_str gated_server uuid4_str utc_now_str
        time_ns_at dumps Z tool tool_args tool_body $"session" None None is_2xx py_str tier tool_client x)
     input None [] a).

Lemma repeated_runs_replay_witness :
  ∃ st w1 a1,
    run_demo $"send_mail" COMPENSABLE 21 graph_input process = (inr (JObj st), a1) ∧
    ag_ext a1 = (w1, [21]) ∧ dict_get $"answer" st = Some (JInt 42) ∧
    ∃ st' w2 a2, run_demo $"send_mail" COMPENSABLE 21 st a1 = (inr (JObj st'), a2) ∧
      dict_get $"answer" st' = Some (JInt 42) ∧ ag_ext a2 = (w2, [21]).
Proof.
  destruct (repeated_runs_replay float_of_text blake3_hexdigest exc_str py_str gated_server
    uuid4_str utc_now_str time_ns_at dumps Z $"send_mail" tool_args tool_body $"session" None None
    is_2xx py_str success_2xx trunc int_message graph_sid $"acme" COMPENSABLE tool_client 21
    graph_input None [] process 6 (tool_signature $"send_mail" 21) [($"amount", JInt 21)] world0 []
    eq_refl eq_refl mail_callable eq_refl serving_world0 eq_refl (JInt 42) eq_refl eq_refl)
    as (st & w1 & a1 & E1 & Ha1 & Hans & Hagain).
  - arrives_tac.
  - exists st, w1, a1. split; [exact E1|]. split; [exact Ha1|]. split; [exact Hans|].
    exact (Hagain None [] a1 Ha1).
Defined.

