(* ===== verification/Harness.v ===== *)
(** * The compensation test harness ([undolog_sdk/test_harness.py])

    [CompensationTestHarness] records the invocations of one compensation
    function, [test_compensation] runs one through retries and an idempotency
    check, and [SagaTestHarness] replays the rollback of a session. The
    compensation functions are the caller's: computations on a state [W] that
    return a value or raise. Sleeping for a backoff interval does not change
    what is reported and is left out, as are the log lines. *)

From S2P Require Import Prelude Py Json.
Open Scope Z_scope.
Open Scope undolog_scope.

(** ** Values

    The harness looks inside tuples, lists and dictionaries; any other object
    is an atom that is compared with its own [==]. *)
Inductive value (atom : Type) :=
| VAtom (a : atom)
| VTuple (l : list (value atom))
| VList (l : list (value atom))
| VDict (d : list (pystr * value atom)).
Arguments VAtom {atom}.
Arguments VTuple {atom}.
Arguments VList {atom}.
Arguments VDict {atom}.

(** Why an assertion of the harness failed, with the values its message
    prints. *)
Inductive assertion (atom : Type) :=
| LastExcIsNone
| CalledTimes (n : Z)
| NeverCalled
| ArgsMismatch
| KwargsMismatch
| NotIdempotent (first second : value atom)
| PayloadMismatch (idx : nat) (tool : pystr) (expected : value atom) (got : list (pystr * value atom))
| NotAReport
| NotCompensated (session_result : pystr)
| HasDeadLetters (tools : list pystr)
| StepCount (expected got : nat) (names : list pystr)
| LifoViolation (idx : nat) (position preceding : Z)
| UnsupportedExpectation
| OrderMismatch (idx : nat) (expected got : pystr)
| StepFailed (idx : nat) (tool : pystr) (error : option pystr).
Arguments LastExcIsNone {atom}.
Arguments CalledTimes {atom}.
Arguments NeverCalled {atom}.
Arguments ArgsMismatch {atom}.
Arguments KwargsMismatch {atom}.
Arguments NotIdempotent {atom}.
Arguments PayloadMismatch {atom}.
Arguments NotAReport {atom}.
Arguments NotCompensated {atom}.
Arguments HasDeadLetters {atom}.
Arguments StepCount {atom}.
Arguments LifoViolation {atom}.
Arguments UnsupportedExpectation {atom}.
Arguments OrderMismatch {atom}.
Arguments StepFailed {atom}.

(** What is raised: an [Exception] of the code under test, with its text, or a
    [BaseException] such as a cancellation, which [except Exception] lets
    through; then what the harness raises itself. *)
Inductive failure (atom : Type) :=
| Exc (text : pystr)
| BaseExc (text : pystr)
| AssertionError (why : assertion atom)
| ValueError (message : pystr)
| RuntimeError (message : pystr)
| UnboundLocalError.
Arguments Exc {atom}.
Arguments BaseExc {atom}.
Arguments AssertionError {atom}.
Arguments ValueError {atom}.
Arguments RuntimeError {atom}.
Arguments UnboundLocalError {atom}.

(** [except Exception] catches everything but a [BaseException]. *)
Definition is_exception {atom} (e : failure atom) : bool :=
  match e with BaseExc _ => false | _ => true end.

(** [str(exc)] of what the code under test raises. *)
Definition exc_text {atom} (e : failure atom) : pystr :=
  match e with
  | Exc t | BaseExc t | ValueError t | RuntimeError t => t
  | AssertionError _ | UnboundLocalError => []
  end.

Section harness.
Context {atom W F : Type}.
(** [==] of two atoms, [repr] of a value. *)
Variable atom_eqb : atom → atom → bool.
Variable repr_value : value atom → pystr.
(** [int(base * multiplier ** attempt)] in floating point, or the text of the
    [OverflowError] it raises. *)
Variable scale : Z → F → Z → pystr + Z.

Abbreviation val := (value atom).
Abbreviation kwargs_t := (list (pystr * val)).
Abbreviation err := (failure atom).

(** A compensation function. *)
Definition comp : Type := list val → kwargs_t → W → (err + val) * W.

(** [==]. *)
Fixpoint val_eqb (u v : val) : bool :=
  match u, v with
  | VAtom a, VAtom b => atom_eqb a b
  | VTuple l, VTuple k | VList l, VList k =>
      (fix go l k := match l, k with
                     | [], [] => true
                     | x :: l', y :: k' => val_eqb x y && go l' k'
                     | _, _ => false
                     end) l k
  | VDict d, VDict e =>
      Nat.eqb (length d) (length e) &&
      (fix go d := match d with
                   | [] => true
                   | (k, x) :: d' =>
                       match dict_get k e with Some y => val_eqb x y | None => false end && go d'
                   end) d
  | _, _ => false
  end.

(** ** [calculate_backoff] *)

Definition calculate_backoff (attempt base_backoff_ms : Z) (multiplier : F) (max_backoff_ms : Z)
    : err + Z :=
  if (base_backoff_ms <=? 0) || (attempt <? 0) then inr 0
  else match scale base_backoff_ms multiplier attempt with
       | inl text => inl (Exc text)
       | inr calculated => inr (Z.min calculated max_backoff_ms)
       end.

(** ** [CompensationTestHarness] *)

Record harness := Harness {
  h_fn : comp;
  h_max_retries : Z;
  h_call_count : Z;
  h_calls : list (list val * kwargs_t);
  h_results : list val;
  h_errors : list (nat * err);
}.

(** The constructor. *)
Definition CompensationTestHarness (fn : comp) (max_retries : Z) : harness :=
  Harness fn max_retries 0 [] [] [].

(** A method: it changes the harness and the state of the code under test, and
    returns or raises. *)
Definition HM (A : Type) : Type := harness * W → (err + A) * (harness * W).

(** [execute]. *)
Definition execute (args : list val) (kwargs : kwargs_t) : HM val := λ '(h, w),
  let call_index := length (h_calls h) in
  let calls := h_calls h ++ [(args, kwargs)] in
  match h_fn h args kwargs w with
  | (inl exc, w') =>
      let errors := if is_exception exc then h_errors h ++ [(call_index, exc)] else h_errors h in
      (inl exc, (Harness (h_fn h) (h_max_retries h) (h_call_count h) calls (h_results h) errors, w'))
  | (inr result, w') =>
      (inr result, (Harness (h_fn h) (h_max_retries h) (h_call_count h + 1) calls
                      (h_results h ++ [result]) (h_errors h), w'))
  end.

(** The loop of [execute_with_retry], with the attempts left. *)
Fixpoint retry_loop (n : nat) (last_exc : option err) (args : list val) (kwargs : kwargs_t)
    : HM val := λ s,
  match n with
  | O => match last_exc with
         | None => (inl (AssertionError LastExcIsNone), s)
         | Some e => (inl e, s)
         end
  | S n' =>
      match execute args kwargs s with
      | (inl exc, s') =>
          if is_exception exc then retry_loop n' (Some exc) args kwargs s' else (inl exc, s')
      | r => r
      end
  end.

(** [execute_with_retry]. *)
Definition execute_with_retry (args : list val) (kwargs : kwargs_t) : HM val := λ s,
  retry_loop (Z.to_nat (h_max_retries s.1)) None args kwargs s.

(** [assert_called_once]. *)
Definition assert_called_once (h : harness) : err + () :=
  if h_call_count h =? 1 then inr () else inl (AssertionError (CalledTimes (h_call_count h))).

(** [assert_called_with]. *)
Definition assert_called_with (args : list val) (kwargs : kwargs_t) (h : harness) : err + () :=
  match last (h_calls h) with
  | None => inl (AssertionError NeverCalled)
  | Some (actual_args, actual_kwargs) =>
      if negb (val_eqb (VTuple actual_args) (VTuple args)) then inl (AssertionError ArgsMismatch)
      else if negb (val_eqb (VDict actual_kwargs) (VDict kwargs))
      then inl (AssertionError KwargsMismatch)
      else inr ()
  end.

(** [assert_idempotent]. *)
Definition assert_idempotent (args : list val) (kwargs : kwargs_t) : HM () := λ s,
  match execute args kwargs s with
  | (inl e, s1) => (inl e, s1)
  | (inr r1, s1) =>
      match execute args kwargs s1 with
      | (inl e, s2) => (inl e, s2)
      | (inr r2, s2) =>
          if val_eqb r1 r2 then (inr (), s2) else (inl (AssertionError (NotIdempotent r1 r2)), s2)
      end
  end.

(** [reset]. *)
Definition reset_harness (h : harness) : harness :=
  Harness (h_fn h) (h_max_retries h) 0 [] [] [].

(** ** [test_compensation] *)

(** The report, without the name of the function. *)
Record CompensationReport := MkCompensationReport {
  cr_execution_count : Z;
  cr_retry_count : Z;
  cr_final_state : pystr;
  cr_result : option val;
  cr_error : option pystr;
  cr_dead_letter : bool;
  cr_backoff_intervals_ms : list Z;
}.

(** The keyword arguments of [test_compensation]. *)
Record test_options := TestOptions {
  to_retries : option Z;
  to_fail_count : Z;
  to_backoff_ms : Z;
  to_multiplier : F;
  to_max_backoff_ms : Z;
  to_failure_exception : option pystr;
}.

Definition effective_retries (o : test_options) : Z :=
  match to_retries o with None => Z.max 1 (to_fail_count o) | Some r => r end.

(** The text of an injected failure. *)
Definition injected_text (o : test_options) (attempts max_attempts : Z) : pystr :=
  match to_failure_exception o with
  | Some t => t
  | None => $"Simulated transient network failure (attempt " ++ str_of_int attempts ++ $"/"
            ++ str_of_int max_attempts ++ $")"
  end.

(** The local variables of the loop. *)
Record test_state := TestState {
  ts_attempts : Z;
  ts_injected : Z;
  ts_error : option pystr;
  ts_intervals : list Z;
  ts_result : option val;
}.

(** The end of a failed attempt: the interval before the next one. *)
Definition note_interval (o : test_options) (max_attempts : Z) (st : test_state) : err + test_state :=
  if ts_attempts st <? max_attempts then
    match calculate_backoff (ts_attempts st - 1) (to_backoff_ms o) (to_multiplier o)
            (to_max_backoff_ms o) with
    | inl e => inl e
    | inr interval => inr (TestState (ts_attempts st) (ts_injected st) (ts_error st)
                             (ts_intervals st ++ [interval]) (ts_result st))
    end
  else inr st.

(** The attempts left; the boolean says that one of them returned. *)
Fixpoint test_loop (o : test_options) (max_attempts : Z) (args : list val) (kwargs : kwargs_t)
    (n : nat) (st : test_state) : HM (test_state * bool) := λ s,
  match n with
  | O => (inr (st, false), s)
  | S n' =>
      let attempts := ts_attempts st + 1 in
      if ts_injected st <? to_fail_count o then
        match note_interval o max_attempts
                (TestState attempts (ts_injected st + 1)
                   (Some (injected_text o attempts max_attempts)) (ts_intervals st) (ts_result st)) with
        | inl e => (inl e, s)
        | inr st' => test_loop o max_attempts args kwargs n' st' s
        end
      else
        match execute args kwargs s with
        | (inr result, s') =>
            (inr (TestState attempts (ts_injected st) (ts_error st) (ts_intervals st) (Some result),
                  true), s')
        | (inl exc, s') =>
            if is_exception exc then
              match note_interval o max_attempts
                      (TestState attempts (ts_injected st) (Some (exc_text exc)) (ts_intervals st)
                         (ts_result st)) with
              | inl e => (inl e, s')
              | inr st' => test_loop o max_attempts args kwargs n' st' s'
              end
            else (inl exc, s')
        end
  end.

Definition idempotency_violation (first second : val) : pystr :=
  $"idempotency violation: first=" ++ repr_value first ++ $", second=" ++ repr_value second.

(** The second execution: the final state, and the error it sets. *)
Definition second_execution (args : list val) (kwargs : kwargs_t) (result : val)
    (error : option pystr) : HM (pystr * option pystr * bool) := λ s,
  match execute args kwargs s with
  | (inl exc, s') =>
      if is_exception exc then (inr ($"failed", Some (exc_text exc), true), s') else (inl exc, s')
  | (inr second, s') =>
      if val_eqb second result then (inr ($"compensated", error, false), s')
      else (inr ($"failed", Some (idempotency_violation result second), true), s')
  end.

(** [test_compensation]. *)
Definition test_compensation (fn : comp) (o : test_options) (args : list val) (kwargs : kwargs_t)
    (w : W) : (err + CompensationReport) * W :=
  let max_attempts := effective_retries o + 1 in
  match test_loop o max_attempts args kwargs (Z.to_nat max_attempts)
          (TestState 0 0 None [] None) (CompensationTestHarness fn 3, w) with
  | (inl e, s) => (inl e, s.2)
  | (inr (st, returned), s) =>
      let retry_count := Z.max (ts_attempts st - 1) 0 in
      let report h state error dead :=
        MkCompensationReport (h_call_count h) retry_count state (ts_result st) error dead
          (ts_intervals st) in
      match ts_result st with
      | Some result =>
          if returned && (0 <? effective_retries o) then
            match second_execution args kwargs result (ts_error st) s with
            | (inl e, s') => (inl e, s'.2)
            | (inr (state, error, dead), s') => (inr (report s'.1 state error dead), s'.2)
            end
          else (inr (report s.1 $"compensated" (ts_error st) false), s.2)
      | None => (inr (report s.1 $"failed" (ts_error st) true), s.2)
      end
  end.
End harness.
