(* ===== verification/Saga.v ===== *)
(** * The saga test harness ([undolog_sdk/test_harness.py])

    [SagaTestHarness] rolls the recorded effects of a session back in LIFO
    order, and [assert_saga_rolled_back] checks a report against what a test
    expects. *)

From S2P Require Import Prelude Py Json Harness.
Open Scope Z_scope.
Open Scope undolog_scope.

Section saga.
Context {atom W : Type}.
Variable atom_eqb : atom → atom → bool.
(** [None]. *)
Variable none : atom.

Abbreviation val := (value atom).
Abbreviation kwargs_t := (list (pystr * val)).
Abbreviation err := (failure atom).
Abbreviation comp := (@comp atom W).
Abbreviation val_eqb := (val_eqb atom_eqb).

Definition DEFAULT_MAX_RETRIES : Z := 3.
Definition DEFAULT_SESSION_RESULT : pystr := $"compensated".
Definition HALTED_SESSION_RESULT : pystr := $"halted".

(** ** Effects and reports *)

Record effect_descriptor := MkEffect {
  ed_tool_name : pystr;
  ed_compensation : comp;
  ed_stack_position : Z;
  ed_max_retries : Z;
  ed_args : list val;
  ed_kwargs : kwargs_t;
}.

(** The constructor of [EffectDescriptor] with its [__post_init__]. *)
Definition EffectDescriptor (tool_name : pystr) (compensation : comp) (stack_position max_retries : Z)
    (args : list val) (kwargs : option kwargs_t) : err + effect_descriptor :=
  if stack_position <? 0
  then inl (ValueError ($"stack_position must be non-negative, got " ++ str_of_int stack_position))
  else inr (MkEffect tool_name compensation stack_position max_retries args (default [] kwargs)).

Record StepResult := MkStep {
  sr_tool_name : pystr;
  sr_stack_position : Z;
  sr_attempts : Z;
  sr_state : pystr;
  sr_error : option pystr;
  sr_args : kwargs_t;
  sr_dead_letter : bool;
}.

Record SagaReport := MkReport {
  rp_session_result : pystr;
  rp_steps : list StepResult;
  rp_compensation_order : list pystr;
  rp_dead_letters : list StepResult;
}.

Record saga_harness := MkSaga {
  sg_effects : list effect_descriptor;
  sg_last_report : option SagaReport;
}.

(** [sorted({p for p in positions if positions.count(p) > 1})]. *)
Definition duplicated (positions : list Z) : list Z :=
  merge_sort Z.le (remove_dups
    (List.filter (λ p, (1 <? count_where (Z.eqb p) positions)%nat) positions)).

(** [SagaTestHarness.__init__]. *)
Definition SagaTestHarness (session_effects : list effect_descriptor) : err + saga_harness :=
  match session_effects with
  | [] => inl (ValueError $"session_effects must not be empty")
  | _ =>
      let positions := ed_stack_position <$> session_effects in
      if negb (Nat.eqb (length (remove_dups positions)) (length positions))
      then inl (ValueError ($"duplicate stack_position values: [" ++
                  join $", " (str_of_int <$> duplicated positions) ++ $"]"))
      else inr (MkSaga session_effects None)
  end.

(** ** The rollback *)

(** The retry budget of an entry. *)
Definition budget (e : effect_descriptor) : Z :=
  if 0 <? ed_max_retries e then ed_max_retries e else DEFAULT_MAX_RETRIES.

Definition is_nil {A} (l : list A) : bool := match l with [] => true | _ => false end.

(** [d.update(e)]. *)
Definition dict_update (d e : kwargs_t) : kwargs_t :=
  foldl (λ acc kv, dict_set kv.1 kv.2 acc) d e.

(** The [args] a step reports. *)
Definition step_args (e : effect_descriptor) : kwargs_t :=
  match ed_args e with
  | [] => ed_kwargs e
  | [VDict d] => dict_update (ed_kwargs e) d
  | args =>
      if is_nil (ed_kwargs e) then dict_set $"args" (VTuple args) []
      else dict_set $"_args" (VTuple args) (ed_kwargs e)
  end.

(** The [while] loop of one entry, with [n] attempts left: the attempts made,
    the last error and whether the compensation returned. *)
Fixpoint attempt_loop (e : effect_descriptor) (n : nat) (attempts : Z) (error : option pystr) (w : W)
    : (err + (Z * option pystr * bool)) * W :=
  match n with
  | O => (inr (attempts, error, false), w)
  | S n' =>
      match ed_compensation e (ed_args e) (ed_kwargs e) w with
      | (inr _, w') => (inr (attempts + 1, error, true), w')
      | (inl exc, w') =>
          if is_exception exc
          then attempt_loop e n' (attempts + 1) (Some (exc_text exc)) w'
          else (inl exc, w')
      end
  end.

Definition compensated_step (e : effect_descriptor) (attempts : Z) : StepResult :=
  MkStep (ed_tool_name e) (ed_stack_position e) attempts $"compensated" None (step_args e) false.
Definition failed_step (e : effect_descriptor) (attempts : Z) (error : option pystr) : StepResult :=
  MkStep (ed_tool_name e) (ed_stack_position e) attempts $"failed" error (step_args e) true.

(** The [for] loop of [rollback]: the steps and the order so far are
    accumulated, and the pass stops at the first entry that fails. *)
Fixpoint rollback_loop (ordered : list effect_descriptor) (steps : list StepResult)
    (order : list pystr) (w : W) : (err + (list StepResult * list pystr * bool)) * W :=
  match ordered with
  | [] => (inr (steps, order, false), w)
  | e :: rest =>
      match attempt_loop e (Z.to_nat (budget e)) 0 None w with
      | (inl exc, w') => (inl exc, w')
      | (inr (attempts, error, compensated), w') =>
          if (compensated : bool)
          then rollback_loop rest (steps ++ [compensated_step e attempts])
                 (order ++ [ed_tool_name e]) w'
          else (inr (steps ++ [failed_step e attempts error], order, true), w')
      end
  end.

(** Descending positions. *)
Definition later (e f : effect_descriptor) : Prop := ed_stack_position f ≤ ed_stack_position e.
#[export] Instance later_dec e f : Decision (later e f).
Proof. unfold later. apply _. Defined.

(** [sorted(effects, key=..., reverse=True)]. *)
Definition lifo (effects : list effect_descriptor) : list effect_descriptor :=
  merge_sort later effects.

(** [rollback]. *)
Definition rollback (h : saga_harness) (w : W) : (err + SagaReport) * (saga_harness * W) :=
  match rollback_loop (lifo (sg_effects h)) [] [] w with
  | (inl exc, w') => (inl exc, (h, w'))
  | (inr (steps, order, halted), w') =>
      let report :=
        MkReport (if (halted : bool) then HALTED_SESSION_RESULT else DEFAULT_SESSION_RESULT)
          steps order (List.filter sr_dead_letter steps) in
      (inr report, (MkSaga (sg_effects h) (Some report), w'))
  end.

(** [report]. *)
Definition report (h : saga_harness) : err + SagaReport :=
  match sg_last_report h with
  | None => inl (RuntimeError $"rollback() has not run; no report available")
  | Some r => inr r
  end.

(** [test_saga]. *)
Definition test_saga (session_effects : list effect_descriptor) (w : W) : (err + SagaReport) * W :=
  match SagaTestHarness session_effects with
  | inl e => (inl e, w)
  | inr h => let '(r, (_, w')) := rollback h w in (r, w')
  end.

(** ** [assert_saga_rolled_back] *)

(** [actual.get(key) == v]. *)
Definition get_equals (k : pystr) (d : kwargs_t) (v : val) : bool :=
  val_eqb (default (VAtom none) (dict_get k d)) v.

(** [_assert_payload_parity]. *)
Definition assert_payload_parity (idx : nat) (tool_name : pystr) (actual : kwargs_t) (expected : val)
    : err + () :=
  let matches :=
    match expected with
    | VDict d =>
        val_eqb (VDict actual) (VDict d)
        || forallb (λ kv, get_equals kv.1 actual kv.2) d
    | VTuple l | VList l =>
        get_equals $"args" actual (VTuple l) || get_equals $"_args" actual (VTuple l)
        || val_eqb (VTuple actual.*2) (VTuple l)
        || match l with [x] => val_eqb x (VDict actual) | _ => false end
    | VAtom _ =>
        match actual with [(_, x)] => val_eqb x expected | _ => false end
        || get_equals $"args" actual (VTuple [expected])
    end in
  if matches then inr ()
  else inl (AssertionError (PayloadMismatch idx tool_name expected actual)).

(** An expected compensation: a name; a tuple or list with the text of its
    first element and its second one; a dictionary with its [tool_name], [name]
    and [args] entries; an object with a [tool_name], and [args] when it has
    them; or anything else. *)
Inductive expectation :=
| ExpStr (name : pystr)
| ExpSeq (first : option pystr) (payload : option val)
| ExpDict (tool_name name : option pystr) (args : option val)
| ExpObj (tool_name : pystr) (args : option val)
| ExpOther.

(** An [EffectDescriptor] or a [StepResult] as an expectation. *)
Definition expect_effect (e : effect_descriptor) : expectation :=
  ExpObj (ed_tool_name e) (Some (VTuple (ed_args e))).
Definition expect_step (s : StepResult) : expectation :=
  ExpObj (sr_tool_name s) (Some (VDict (sr_args s))).

(** [a or b] on optional text. *)
Definition or_text (a b : option pystr) : option pystr :=
  match a with Some (_ :: _) => a | _ => b end.

(** The tool and payload an expectation asks for. [expected_tool] is assigned
    in the loop and keeps the value of the previous round when an expectation
    is an empty sequence. *)
Definition expected_of (x : expectation) (expected_tool : option pystr)
    : err + (option pystr * option val) :=
  match x with
  | ExpStr n => inr (Some n, None)
  | ExpSeq (Some n) p => inr (Some n, p)
  | ExpSeq None _ => inr (expected_tool, None)
  | ExpDict t n a => inr (Some (default [] (or_text t (or_text n (Some [])))), a)
  | ExpObj t a => inr (Some t, a)
  | ExpOther => inl (AssertionError UnsupportedExpectation)
  end.

(** One round of the loop; it returns [expected_tool]. *)
Definition check_step (idx : nat) (preceding : option Z) (step : StepResult) (x : expectation)
    (expected_tool : option pystr) : err + option pystr :=
  match preceding with
  | Some p =>
      if p <=? sr_stack_position step
      then inl (AssertionError (LifoViolation idx (sr_stack_position step) p))
      else inr ()
  | None => inr ()
  end ≫= λ _,
  expected_of x expected_tool ≫= λ '(tool, payload),
  match tool with
  | None => inl UnboundLocalError
  | Some tool =>
      if negb (str_eqb (sr_tool_name step) tool)
      then inl (AssertionError (OrderMismatch idx tool (sr_tool_name step)))
      else if negb (str_eqb (sr_state step) $"compensated")
      then inl (AssertionError (StepFailed idx (sr_tool_name step) (sr_error step)))
      else match payload with
           | Some p => assert_payload_parity idx (sr_tool_name step) (sr_args step) p
           | None => inr ()
           end ≫= λ _, inr (Some tool)
  end.

(** The [for] loop over the steps and the expectations. *)
Fixpoint check_steps (idx : nat) (preceding : option Z) (steps : list StepResult)
    (expected : list expectation) (expected_tool : option pystr) : err + () :=
  match steps, expected with
  | s :: steps', x :: expected' =>
      check_step idx preceding s x expected_tool ≫= λ tool,
      check_steps (S idx) (Some (sr_stack_position s)) steps' expected' tool
  | _, _ => inr ()
  end.

(** What [assert_saga_rolled_back] accepts as a session; [SReport] is a report
    or an object that looks like one. *)
Inductive session_like :=
| SReport (r : SagaReport)
| SHarness (h : saga_harness)
| SReportMethod (call : err + SagaReport)
| SReportAttr (r : SagaReport)
| SOther.

Definition session_report (s : session_like) : err + SagaReport :=
  match s with
  | SReport r | SReportAttr r => inr r
  | SHarness h => report h
  | SReportMethod r => r
  | SOther => inl (AssertionError NotAReport)
  end.

(** [assert_saga_rolled_back]. *)
Definition assert_saga_rolled_back (session : session_like) (expected : list expectation) : err + () :=
  session_report session ≫= λ r,
  if negb (str_eqb (rp_session_result r) $"compensated")
  then inl (AssertionError (NotCompensated (rp_session_result r)))
  else if negb (is_nil (rp_dead_letters r))
  then inl (AssertionError (HasDeadLetters (sr_tool_name <$> rp_dead_letters r)))
  else if negb (Nat.eqb (length (rp_steps r)) (length expected))
  then inl (AssertionError (StepCount (length expected) (length (rp_steps r))
                              (sr_tool_name <$> rp_steps r)))
  else check_steps 0 None (rp_steps r) expected None.
End saga.
