(* ===== verification/HarnessTheorems.v ===== *)
(** * The test harness: what holds of it

    The bookkeeping of [CompensationTestHarness], the reports of
    [test_compensation], the order and extent of a rollback, and what
    [assert_saga_rolled_back] accepts. *)

From S2P Require Import Prelude Py PyFacts Json Harness Saga.
Open Scope Z_scope.
Open Scope undolog_scope.

(** ** The recorder *)

Section recorder.
Context {atom W : Type}.
Variable atom_eqb : atom → atom → bool.
Implicit Types (h : @harness atom W) (w : W).

(** A function that raises [Exception]s only. *)
Definition raises_exceptions (fn : @comp atom W) : Prop :=
  ∀ args kwargs w, match (fn args kwargs w).1 with inl e => is_exception e = true | inr _ => True end.

(** The counters of a harness agree with its records. *)
Record harness_ok h : Prop := {
  ok_results : h_call_count h = Z.of_nat (length (h_results h));
  ok_calls : length (h_calls h) = (length (h_results h) + length (h_errors h))%nat;
  ok_errors : Forall (λ ie, (ie.1 < length (h_calls h))%nat ∧ is_exception ie.2 = true) (h_errors h);
  ok_order : StronglySorted lt (h_errors h).*1;
}.

(** What a test can do with a harness. *)
Inductive harness_step : harness * W → harness * W → Prop :=
| step_execute s args kwargs r s' : execute args kwargs s = (r, s') → harness_step s s'
| step_retry s args kwargs r s' : execute_with_retry args kwargs s = (r, s') → harness_step s s'
| step_idempotent s args kwargs r s' :
    assert_idempotent atom_eqb args kwargs s = (r, s') → harness_step s s'
| step_reset h w : harness_step (h, w) (reset_harness h, w).

Lemma fresh_harness_ok fn n : harness_ok (CompensationTestHarness fn n).
Proof. by split; simpl; [..|constructor]. Qed.

Lemma StronglySorted_snoc (l : list nat) x :
  StronglySorted lt l → Forall (λ y, y < x)%nat l → StronglySorted lt (l ++ [x]).
Proof.
  induction 1 as [|y l Hs IH Hy]; intros Hl; [repeat constructor|].
  apply Forall_cons in Hl as [Hyx Hl]. simpl. constructor; [auto|].
  apply Forall_app. auto.
Qed.

(** One execution: it appends one call, and one result or one error. *)
Lemma execute_ok args kwargs h w r s' :
  raises_exceptions (h_fn h) → harness_ok h → execute args kwargs (h, w) = (r, s') →
  harness_ok s'.1 ∧ h_fn s'.1 = h_fn h ∧ h_max_retries s'.1 = h_max_retries h.
Proof.
  intros Hfn [Hr Hc He Ho]. simpl. specialize (Hfn args kwargs w).
  destruct (h_fn h args kwargs w) as [[e|v] w'] eqn:E; simpl in Hfn; intros [= <- <-]; simpl.
  - rewrite Hfn. split; [|done]. split; simpl; rewrite ?length_app; simpl; [done|lia| |].
    + apply Forall_app; split; [|repeat constructor; simpl; [lia|done]].
      eapply Forall_impl; [exact He|]. simpl. intros ? [? ?]; split; [lia|done].
    + rewrite fmap_app. apply StronglySorted_snoc; [done|].
      apply Forall_fmap. eapply Forall_impl; [exact He|]. simpl. by intros ? [? _].
  - split; [|done]. split; simpl; rewrite ?length_app; simpl; [lia|lia| |done].
    eapply Forall_impl; [exact He|]. simpl. intros ? [? ?]; split; [lia|done].
Qed.

Lemma retry_loop_ok args kwargs n last h w r s' :
  raises_exceptions (h_fn h) → harness_ok h → retry_loop n last args kwargs (h, w) = (r, s') →
  harness_ok s'.1 ∧ h_fn s'.1 = h_fn h.
Proof.
  revert last h w r s'. induction n as [|n IH]; intros last h w r s' Hfn Hok; cbn [retry_loop].
  - destruct last; by intros [= <- <-].
  - destruct (execute args kwargs (h, w)) as [[e|v] [h1 w1]] eqn:E;
      pose proof (execute_ok _ _ _ _ _ _ Hfn Hok E) as (Hok1 & Hfn1 & _); simpl in *.
    + destruct (is_exception e); [|by intros [= <- <-]]. intros Hl.
      destruct (IH _ h1 w1 _ _ ltac:(by rewrite Hfn1) Hok1 Hl) as [? ->]. by rewrite Hfn1.
    + by intros [= <- <-].
Qed.

Lemma idempotent_ok args kwargs h w r s' :
  raises_exceptions (h_fn h) → harness_ok h →
  assert_idempotent atom_eqb args kwargs (h, w) = (r, s') →
  harness_ok s'.1 ∧ h_fn s'.1 = h_fn h.
Proof.
  intros Hfn Hok. unfold assert_idempotent.
  destruct (execute args kwargs (h, w)) as [[e|v] [h1 w1]] eqn:E1;
    destruct (execute_ok _ _ _ _ _ _ Hfn Hok E1) as (Hok1 & Hf1 & _); cbn [fst] in *;
    [by intros [= <- <-]|].
  destruct (execute args kwargs (h1, w1)) as [[e|v2] [h2 w2]] eqn:E2;
    destruct (execute_ok _ _ _ _ _ _ ltac:(by rewrite Hf1) Hok1 E2) as (Hok2 & Hf2 & _);
    cbn [fst] in *; rewrite <-Hf1; [by intros [= <- <-]|].
  destruct (val_eqb _ _ _); by intros [= <- <-].
Qed.

(** The counters of a harness agree with its records after any sequence of
    executions, retried executions, idempotency checks and resets: there is one
    result per successful invocation, every invocation is a success or an
    error, and the recorded indices name invocations in order. *)
Theorem harness_records_agree fn n w s :
  raises_exceptions fn → star harness_step (CompensationTestHarness fn n, w) s → harness_ok s.1.
Proof.
  intros Hfn Hst. enough (harness_ok s.1 ∧ h_fn s.1 = fn) by tauto.
  eapply (star_invariant _ (λ s, harness_ok s.1 ∧ h_fn s.1 = fn)); [|exact Hst|];
    [|split; [apply fresh_harness_ok|done]].
  clear s Hst. intros s s' [Hok Hf] Hstep. destruct Hstep as [[h w1] args kw r s' E|[h w1] args kw r s' E|[h w1] args kw r s' E|h w1]; simpl in *.
  - destruct (execute_ok args kw h w1 r s') as (? & -> & _); by subst.
  - apply retry_loop_ok in E as [? ->]; by subst.
  - apply idempotent_ok in E as [? ->]; by subst.
  - subst. split; [apply (fresh_harness_ok _ (h_max_retries h))|done].
Qed.

(** The outcomes of [n] invocations one after the other. *)
Fixpoint outcomes (n : nat) (call : W → (failure atom + value atom) * W) (w : W)
    : list (failure atom + value atom) :=
  match n with
  | O => []
  | S n' => let '(r, w') := call w in r :: outcomes n' call w'
  end.
Definition returned (r : failure atom + value atom) : Prop :=
  match r with inr _ => True | inl _ => False end.
#[local] Instance returned_dec r : Decision (returned r).
Proof. destruct r; simpl; apply _. Defined.

Lemma retry_loop_settles args kwargs n last h w :
  raises_exceptions (h_fn h) →
  let outs := outcomes n (h_fn h args kwargs) w in
  let '(r, s') := retry_loop n last args kwargs (h, w) in
  match list_find returned outs with
  | Some (k, o) =>
      r = o ∧ length (h_calls s'.1) = (length (h_calls h) + S k)%nat ∧
      h_call_count s'.1 = h_call_count h + 1
  | None =>
      (r = match list.last outs with
           | Some o => o
           | None => inl (default (AssertionError LastExcIsNone) last)
           end) ∧
      length (h_calls s'.1) = (length (h_calls h) + n)%nat ∧ h_call_count s'.1 = h_call_count h
  end.
Proof.
  revert last h w. induction n as [|n IH]; intros last h w Hfn.
  { simpl. destruct last; simpl; split_and!; try done; lia. }
  cbn [retry_loop outcomes execute]. pose proof (Hfn args kwargs w) as Hw.
  destruct (h_fn h args kwargs w) as [[e|v] w'] eqn:E; cbn [fst] in Hw.
  2:{ cbn [list_find]. destruct (decide (returned (inr v))) as [_|[]]; [|done]. cbn [fst h_calls].
      rewrite length_app. split_and!; [done|simpl; lia|done]. }
  rewrite Hw. set (h1 := Harness _ _ _ _ _ _).
  specialize (IH (Some e) h1 w' Hfn). cbn zeta in *. change (h_fn h1) with (h_fn h) in IH.
  destruct (retry_loop n (Some e) args kwargs (h1, w')) as [r s'].
  cbn [list_find]. destruct (decide (returned (inl e))) as [[]|_].
  assert (length (h_calls h1) = S (length (h_calls h))) as Hlen
    by (subst h1; cbn [h_calls]; rewrite length_app; simpl; lia).
  destruct (list_find returned (outcomes n (h_fn h args kwargs) w')) as [[k o]|] eqn:Ef.
  - simpl. destruct IH as (-> & -> & ->).
    split_and!; [done|rewrite Hlen; lia|done].
  - simpl. destruct IH as (-> & -> & ->). rewrite Hlen. split_and!; [|lia|done].
    by destruct (outcomes n (h_fn h args kwargs) w') as [|o l] using rev_ind;
      [|rewrite app_comm_cons, !last_snoc].
Qed.

(** [execute_with_retry] returns the first success among [max_retries]
    invocations and makes no invocation after it; when there is none it raises
    the exception of the last one, or fails its own assertion when
    [max_retries] allows no invocation at all. *)
Theorem retry_returns_first_success args kwargs h w :
  raises_exceptions (h_fn h) →
  let outs := outcomes (Z.to_nat (h_max_retries h)) (h_fn h args kwargs) w in
  let '(r, s') := execute_with_retry args kwargs (h, w) in
  match list_find returned outs with
  | Some (k, o) =>
      r = o ∧ length (h_calls s'.1) = (length (h_calls h) + S k)%nat ∧
      h_call_count s'.1 = h_call_count h + 1
  | None =>
      (r = match list.last outs with Some o => o | None => inl (AssertionError LastExcIsNone) end) ∧
      length (h_calls s'.1) = (length (h_calls h) + Z.to_nat (h_max_retries h))%nat ∧
      h_call_count s'.1 = h_call_count h
  end.
Proof. intros Hfn. exact (retry_loop_settles args kwargs _ None h w Hfn). Qed.
End recorder.

(** ** Reports of one compensation *)

Section compensation.
Context {atom W F : Type}.
Variable atom_eqb : atom → atom → bool.
Variable repr_value : value atom → pystr.
Variable scale : Z → F → Z → pystr + Z.
Implicit Types (h : @harness atom W) (w : W) (o : @test_options F) (st : @test_state atom).

(** An interval is noted after every attempt but the last. *)
Lemma note_interval_spec o max st st' :
  note_interval scale o max st = inr st' →
  ts_attempts st' = ts_attempts st ∧ ts_injected st' = ts_injected st ∧
  ts_error st' = ts_error st ∧ ts_result st' = ts_result st ∧
  length (ts_intervals st') = (length (ts_intervals st) + if (ts_attempts st <? max)%Z then 1 else 0)%nat ∧
  (0 ≤ to_max_backoff_ms o → Forall (λ i, i ≤ to_max_backoff_ms o) (ts_intervals st) →
   Forall (λ i, i ≤ to_max_backoff_ms o) (ts_intervals st')).
Proof.
  unfold note_interval. destruct (ts_attempts st <? max); [|intros [= <-]; split_and!; auto; lia].
  destruct (calculate_backoff _ _ _ _ _) as [e|i] eqn:Eb; [done|]. intros [= <-]; simpl.
  rewrite length_app. split_and!; auto. intros Hmax Hall. apply Forall_app; split; [done|].
  repeat constructor. unfold calculate_backoff in Eb. split_matches; lia.
Qed.

(** What at most [n] rounds of the loop of [test_compensation] leave. *)
Definition rounds_leave o (n : Z) st (s : @harness atom W * W) st' (ret : bool)
    (s' : @harness atom W * W) : Prop :=
  Z.of_nat (length (ts_intervals st')) = Z.max (ts_attempts st' - 1) 0 ∧
  ts_attempts st ≤ ts_attempts st' ≤ ts_attempts st + n ∧
  h_call_count s'.1 = h_call_count s.1 + (if ret then 1 else 0) ∧
  (if ret then is_Some (ts_result st') else ts_result st' = None) ∧
  (0 ≤ to_max_backoff_ms o → Forall (λ i, i ≤ to_max_backoff_ms o) (ts_intervals st) →
   Forall (λ i, i ≤ to_max_backoff_ms o) (ts_intervals st')).

(** The intervals noted when [n] rounds are left. *)
Definition intervals_noted (n : Z) st : Prop :=
  Z.of_nat (length (ts_intervals st)) =
    if decide (n = 0) then Z.max (ts_attempts st - 1) 0 else ts_attempts st.

Lemma failed_round o n st st1 st2 s s1 st' ret s' :
  0 ≤ n → 0 ≤ ts_attempts st → intervals_noted (Z.succ n) st →
  ts_attempts st1 = ts_attempts st + 1 → ts_intervals st1 = ts_intervals st →
  h_call_count s1.1 = h_call_count s.1 →
  note_interval scale o (ts_attempts st + Z.succ n) st1 = inr st2 →
  (intervals_noted n st2 → rounds_leave o n st2 s1 st' ret s') →
  rounds_leave o (Z.succ n) st s st' ret s'.
Proof.
  intros Hn Ha Hlen H1 H2 Hc Hnote IH. unfold intervals_noted in *.
  destruct (note_interval_spec _ _ _ _ Hnote) as (E1 & _ & _ & _ & E5 & E6). rewrite H1, H2 in *.
  destruct (decide (Z.succ n = 0)) as [?|_]; [lia|].
  destruct IH as (G1 & G2 & G3 & G4 & G5).
  { rewrite E5, E1. destruct (decide (n = 0)) as [->|?].
    - rewrite (proj2 (Z.ltb_ge _ _)) by lia. lia.
    - rewrite (proj2 (Z.ltb_lt _ _)) by lia. lia. }
  rewrite Hc in G3. split_and!; auto; lia.
Qed.

Lemma test_loop_spec o max args kwargs n st s st' ret s' :
  0 ≤ n → (0 < n → max = ts_attempts st + n) → 0 ≤ ts_attempts st → intervals_noted n st →
  ts_result st = None →
  test_loop scale o max args kwargs (Z.to_nat n) st s = (inr (st', ret), s') →
  rounds_leave o n st s st' ret s'.
Proof.
  intros Hn. revert st s. pattern n. apply natlike_ind; [| |exact Hn]; clear n Hn.
  { intros st s _ Ha Hlen Hres. simpl. intros [= <- <- <-]. unfold intervals_noted in Hlen. simpl in Hlen.
    unfold rounds_leave. split_and!; auto; lia. }
  intros n Hn IH st [h w] Hmax Ha Hlen Hres. rewrite Z2Nat.inj_succ by lia. cbn [test_loop].
  specialize (Hmax ltac:(lia)). subst max.
  destruct (ts_injected st <? to_fail_count o).
  - destruct (note_interval _ _ _ _) as [e|st2] eqn:En; [done|]. intros Hloop.
    destruct (note_interval_spec _ _ _ _ En) as (E1 & _ & _ & E4 & _). cbn in E1, E4.
    refine (failed_round _ _ _ _ _ _ (h, w) _ _ _ Hn Ha Hlen _ _ _ En _); [done..|]. intros Hi.
    apply IH; [lia|lia|done|congruence|done].
  - cbn [execute]. destruct (h_fn h args kwargs w) as [[e|v] w'] eqn:Ef.
    + destruct (is_exception e); [|done].
      destruct (note_interval _ _ _ _) as [e'|st2] eqn:En; [done|]. intros Hloop.
      destruct (note_interval_spec _ _ _ _ En) as (E1 & _ & _ & E4 & _). cbn in E1, E4.
      refine (failed_round _ _ _ _ _ _ _ _ _ _ Hn Ha Hlen _ _ _ En (λ Hi, IH _ _ _ _ Hi _ Hloop));
        [done..|lia|lia|congruence].
    + intros [= <- <- <-]. unfold intervals_noted in Hlen.
      destruct (decide (Z.succ n = 0)) as [?|_]; [lia|]. unfold rounds_leave. simpl.
      split_and!; eauto; lia.
Qed.

(** C40: a report of [test_compensation] is consistent. It counts one backoff
    interval per retry, no more retries than were allowed, at most two
    executions, and no interval above a ceiling that is not negative; a dead
    letter is recorded exactly when the final state is a failure, and a
    compensated report was executed twice unless no retries were allowed. *)
Theorem compensation_reports_are_consistent fn o args kwargs w rep w' :
  test_compensation atom_eqb repr_value scale fn o args kwargs w = (inr rep, w') →
  Z.of_nat (length (cr_backoff_intervals_ms rep)) = cr_retry_count rep ∧
  0 ≤ cr_retry_count rep ≤ Z.max 0 (effective_retries o) ∧
  (0 ≤ to_max_backoff_ms o →
     Forall (λ i, i ≤ to_max_backoff_ms o) (cr_backoff_intervals_ms rep)) ∧
  ((cr_final_state rep = $"compensated" ∧ cr_dead_letter rep = false ∧ is_Some (cr_result rep) ∧
      cr_execution_count rep = if 0 <? effective_retries o then 2 else 1)
   ∨ (cr_final_state rep = $"failed" ∧ cr_dead_letter rep = true ∧ 0 ≤ cr_execution_count rep ≤ 2)).
Proof.
  unfold test_compensation. set (m := effective_retries o + 1).
  destruct (test_loop _ _ _ _ _ _ _ _) as [[e|[st ret]] s] eqn:El; [done|].
  assert (Z.to_nat m = Z.to_nat (Z.max 0 m)) as Hm by lia. rewrite Hm in El.
  eapply test_loop_spec in El as (E1 & E2 & E3 & E4 & E5);
    [|lia|simpl; lia|done|by unfold intervals_noted; simpl; case_decide|done].
  cbn [ts_attempts ts_intervals fst h_call_count CompensationTestHarness] in *.
  match goal with |- _ = _ → ?G => enough (∀ n state error dead,
    rep = MkCompensationReport n (Z.max (ts_attempts st - 1) 0) state (ts_result st)
            error dead (ts_intervals st) →
    ((state = $"compensated" ∧ dead = false ∧ is_Some (ts_result st) ∧
        n = if 0 <? effective_retries o then 2 else 1)
     ∨ (state = $"failed" ∧ dead = true ∧ 0 ≤ n ≤ 2)) → G) as Hrep end.
  2:{ intros n state error dead -> Hcase; simpl. split_and!; auto; lia. }
  destruct (ts_result st) as [v|] eqn:Hres; destruct ret; try done; try (by destruct E4); cbn [andb].
  - unfold second_execution. destruct s as [h w1]. cbn [execute fst snd] in *.
    destruct (0 <? effective_retries o); [|intros [= <- <-]; eapply Hrep; [done|left; split_and!; auto; lia]].
    destruct (h_fn h args kwargs w1) as [[e|v2] w2] eqn:Ef.
    + destruct (is_exception e); [|done]. intros [= <- <-].
      eapply Hrep; [done|right; simpl; split_and!; auto; lia].
    + destruct (val_eqb _ _ _); intros [= <- <-]; (eapply Hrep; [done|]); [left|right];
        simpl; split_and!; auto; lia.
  - intros [= <- <-]. eapply Hrep; [done|right; split_and!; auto; lia].
Qed.

(** Without retries the idempotency check is skipped. The docstring of
    [test_compensation] says that the first and second executions must both
    succeed and agree; with [retries=0] the function is reported compensated
    after one execution, whatever a second one would do. *)
Theorem no_retries_no_idempotency_check fn o args kwargs v w w' :
  to_retries o = Some 0 → to_fail_count o ≤ 0 → fn args kwargs w = (inr v, w') →
  test_compensation atom_eqb repr_value scale fn o args kwargs w =
    (inr (MkCompensationReport 1 0 $"compensated" (Some v) None false []), w').
Proof.
  intros Hr Hf Hv. unfold test_compensation, effective_retries. rewrite Hr. simpl.
  rewrite (proj2 (Z.ltb_ge _ _)) by lia. by rewrite Hv.
Qed.

(** A compensated report can carry an error. [CompensationReport] documents
    [error] as the last message of a failed run; the message of an attempt that
    failed stays in the report of a run that succeeded afterwards. *)
Theorem success_keeps_stale_error fn o args kwargs text v v2 interval w w1 w2 w3 :
  to_retries o = Some 1 → to_fail_count o ≤ 0 →
  calculate_backoff (atom := atom) scale 0 (to_backoff_ms o) (to_multiplier o) (to_max_backoff_ms o) = inr interval →
  fn args kwargs w = (inl (Exc text), w1) → fn args kwargs w1 = (inr v, w2) →
  fn args kwargs w2 = (inr v2, w3) → val_eqb atom_eqb v2 v = true →
  test_compensation atom_eqb repr_value scale fn o args kwargs w =
    (inr (MkCompensationReport 2 1 $"compensated" (Some v) (Some text) false [interval]), w3).
Proof.
  intros Hr Hf Hb H1 H2 H3 Heq. unfold test_compensation, effective_retries. rewrite Hr.
  change (Z.to_nat (1 + 1)) with 2%nat. cbn [test_loop ts_injected ts_attempts ts_intervals ts_result].
  rewrite (proj2 (Z.ltb_ge _ _)) by lia. cbn [execute h_fn CompensationTestHarness]. rewrite H1.
  unfold note_interval. cbn [is_exception ts_attempts]. change (0 + 1 <? 1 + 1) with true.
  change (0 + 1 - 1) with 0. rewrite Hb. cbn [ts_injected].
  rewrite (proj2 (Z.ltb_ge _ _)) by lia. cbn [execute h_fn]. rewrite H2.
  unfold second_execution. cbn. by rewrite H3, Heq.
Qed.
End compensation.
