(* ===== verification/SagaTheorems.v ===== *)
(** * The saga harness: what holds of it

    A rollback runs the compensations of a session in LIFO order, gives each
    its retry budget and stops at the first that fails for good;
    [assert_saga_rolled_back] accepts the complete ones. *)

From S2P Require Import Prelude Py PyFacts Json Harness Saga HarnessTheorems.
Open Scope Z_scope.
Open Scope undolog_scope.

Section saga_facts.
Context {atom W : Type}.
Variable atom_eqb : atom → atom → bool.
Variable none : atom.
Abbreviation descriptor := (@effect_descriptor atom W).
Abbreviation step_result := (@StepResult atom).
Implicit Types (e : descriptor) (s : step_result) (w : W) (es : list descriptor).

(** ** One entry *)

Lemma budget_pos e : 0 < budget e.
Proof. unfold budget, DEFAULT_MAX_RETRIES. case_match; bool_to_prop; lia. Qed.

Lemma attempt_loop_ends e n attempts error w :
  raises_exceptions (ed_compensation e) →
  ∃ k error' ok w', attempt_loop e n attempts error w = (inr (attempts + Z.of_nat k, error', ok), w') ∧
    (k ≤ n)%nat ∧ (ok = true → 0 < k)%nat ∧ (ok = false → k = n).
Proof.
  intros He. revert attempts error w. induction n as [|n IH]; intros attempts error w; cbn [attempt_loop].
  { exists 0%nat. rewrite Z.add_0_r. eauto 10 with lia. }
  pose proof (He (ed_args e) (ed_kwargs e) w) as Hw.
  destruct (ed_compensation e (ed_args e) (ed_kwargs e) w) as [[x|v] w1]; cbn [fst] in Hw.
  - rewrite Hw. destruct (IH (attempts + 1) (Some (exc_text x)) w1) as (k & er & ok & w2 & -> & ? & ? & Hf).
    exists (S k), er, ok, w2. split_and!; [do 4 f_equal; lia|lia|intros _; lia|]. intros E. f_equal. auto.
  - exists 1%nat, error, true, w1. split_and!; [done|lia|intros _; lia|done].
Qed.

(** What a step says of the entry it reports. *)
Definition reports e s : Prop :=
  sr_tool_name s = ed_tool_name e ∧ sr_stack_position s = ed_stack_position e ∧
  sr_args s = step_args e ∧ 1 ≤ sr_attempts s ≤ budget e.
Definition compensated_as e s : Prop :=
  reports e s ∧ sr_state s = $"compensated" ∧ sr_dead_letter s = false.
Definition failed_as e s : Prop :=
  reports e s ∧ sr_state s = $"failed" ∧ sr_dead_letter s = true ∧ sr_attempts s = budget e.

(** The state after running entries in order, each up to its budget. *)
Fixpoint undo_all (es : list descriptor) (w : W) : W :=
  match es with
  | [] => w
  | e :: es' => undo_all es' (attempt_loop e (Z.to_nat (budget e)) 0 None w).2
  end.

(** ** The pass *)

(** A pass over [ordered] ran [done], whose steps it reports, and left [rest]:
    everything was compensated, or the last entry it ran failed. *)
Inductive pass (ordered : list descriptor) : list step_result → list pystr → bool →
    list descriptor → Prop :=
| pass_complete steps :
    Forall2 compensated_as ordered steps →
    pass ordered steps (ed_tool_name <$> ordered) false []
| pass_halted done e rest steps s :
    ordered = done ++ e :: rest → Forall2 compensated_as done steps → failed_as e s →
    pass ordered (steps ++ [s]) (ed_tool_name <$> done) true rest.

Lemma pass_cons e ordered s steps order halted rest :
  compensated_as e s → pass ordered steps order halted rest →
  pass (e :: ordered) (s :: steps) (ed_tool_name e :: order) halted rest.
Proof.
  intros Hs [steps' H|done f rest' steps' s' -> H Hf].
  - apply (pass_complete (e :: ordered)). by constructor.
  - apply (pass_halted _ (e :: done) f rest' (s :: steps') s'); [done|by constructor|done].
Qed.

Lemma rollback_loop_passes ordered steps order w :
  Forall (λ e, raises_exceptions (ed_compensation e)) ordered →
  ∃ steps' order' halted rest,
    rollback_loop ordered steps order w =
      (inr (steps ++ steps', order ++ order', halted),
       undo_all (take (length ordered - length rest) ordered) w) ∧
    pass ordered steps' order' halted rest ∧ (length rest ≤ length ordered)%nat ∧
    drop (length ordered - length rest) ordered = rest.
Proof.
  intros Hall. revert steps order w. induction Hall as [|e ordered He Hall IH]; intros steps order w.
  { exists [], [], false, []. rewrite !app_nil_r. split_and!; [done|by apply (pass_complete [])|done|done]. }
  cbn [rollback_loop].
  destruct (attempt_loop_ends e (Z.to_nat (budget e)) 0 None w He) as (k & er & ok & w1 & E & Hk & Hok & Hf).
  pose proof (budget_pos e) as Hb. rewrite E. destruct ok.
  - assert (compensated_as e (compensated_step e (0 + Z.of_nat k))) as Hs.
    { split; [|done]. split_and!; try done; simpl; specialize (Hok eq_refl); lia. }
    destruct (IH (steps ++ [compensated_step e (0 + Z.of_nat k)]) (order ++ [ed_tool_name e]) w1)
      as (steps' & order' & halted & rest & -> & Hp & Hl & Hd).
    eexists (_ :: steps'), (_ :: order'), halted, rest. rewrite <-!app_assoc.
    cbn [length app]. rewrite Nat.sub_succ_l by done. cbn [take drop undo_all]. rewrite E.
    split_and!; [done|by apply pass_cons|lia|done].
  - specialize (Hf eq_refl).
    exists [failed_step e (0 + Z.of_nat k) er], [], true, ordered. rewrite app_nil_r.
    cbn [length]. replace (S (length ordered) - length ordered)%nat with 1%nat by lia.
    cbn [take drop undo_all]. rewrite E. split_and!; [done| |lia|by rewrite drop_0].
    apply (pass_halted _ [] e ordered []); [done|done|]. split; [|split_and!; try done; simpl; lia].
    split_and!; try done; simpl; lia.
Qed.

(** ** Harnesses *)

Lemma length_remove_dups_NoDup (l : list Z) : length (remove_dups l) = length l → NoDup l.
Proof.
  intros Hl. assert (remove_dups l ≡ₚ l ∨ ¬ NoDup l) as [<-|Hn].
  - destruct (decide (NoDup l)); [left|by right].
    apply NoDup_Permutation; [apply NoDup_remove_dups|done|]. intros x. apply elem_of_remove_dups.
  - apply NoDup_remove_dups.
  - exfalso. apply Hn. clear Hn. induction l as [|x l IH]; [constructor|]. simpl in Hl.
    assert (length (remove_dups l) ≤ length l)%nat as Hle.
    { clear. induction l as [|y l IH]; simpl; [done|]. case_decide; simpl; lia. }
    case_decide; simpl in *; [lia|]. constructor; [done|]. apply IH. lia.
Qed.

Definition descending : list descriptor → Prop :=
  StronglySorted (λ e f, ed_stack_position f < ed_stack_position e).

Lemma lifo_descending es : NoDup (ed_stack_position <$> es) → descending (lifo es) ∧ lifo es ≡ₚ es.
Proof.
  intros Hnd. assert (Hp : lifo es ≡ₚ es) by apply merge_sort_Permutation. split; [|done].
  assert (NoDup (ed_stack_position <$> lifo es)) as Hnd' by (by rewrite Hp).
  assert (StronglySorted later (lifo es)) as Hs.
  { assert (Transitive (@later atom W)) by (intros e f g; unfold later; lia).
    assert (Total (@later atom W)) by (intros e f; unfold later; lia).
    apply (StronglySorted_merge_sort later). }
  clear Hp Hnd. induction Hs as [|e l Hs IH Hl]; [constructor|]. simpl in Hnd'.
  apply NoDup_cons in Hnd' as [Hne Hnd]. constructor; [exact (IH Hnd)|].
  apply Forall_forall. intros f Hf. rewrite Forall_forall in Hl. specialize (Hl f Hf). unfold later in Hl.
  enough (ed_stack_position f ≠ ed_stack_position e) by lia. intros Heq. apply Hne. rewrite <-Heq.
  by apply list_elem_of_fmap_2.
Qed.

Lemma harness_positions es h :
  SagaTestHarness es = inr h → h = MkSaga es None ∧ NoDup (ed_stack_position <$> es).
Proof.
  unfold SagaTestHarness. destruct es as [|e es]; [done|]. case_match eqn:Ed; [done|].
  intros [= <-]. split; [done|]. bool_to_prop. apply length_remove_dups_NoDup. by apply Nat.eqb_eq in Ed.
Qed.

(** A rollback that reports: its pass over the effects in LIFO order. *)
Definition rolled_back (es : list descriptor) (r : SagaReport)
    (rest : list descriptor) : Prop :=
  ∃ halted, pass (lifo es) (rp_steps r) (rp_compensation_order r) halted rest ∧
    rp_session_result r = (if halted : bool then $"halted" else $"compensated") ∧
    rp_dead_letters r = List.filter sr_dead_letter (rp_steps r).

Lemma rollback_spec es h w :
  Forall (λ e, raises_exceptions (ed_compensation e)) es → SagaTestHarness es = inr h →
  ∃ r ran rest,
    rollback h w = (inr r, (MkSaga es (Some r), undo_all ran w)) ∧
    ran ++ rest ≡ₚ es ∧ descending (ran ++ rest) ∧ ran ++ rest = lifo es ∧ rolled_back es r rest ∧
    report (MkSaga es (Some r)) = inr r.
Proof.
  intros Hall Hh. apply harness_positions in Hh as [-> Hnd].
  destruct (lifo_descending es Hnd) as [Hd Hp].
  assert (Forall (λ e, raises_exceptions (ed_compensation e)) (lifo es)) as Hall' by (by rewrite Hp).
  destruct (rollback_loop_passes (lifo es) [] [] w Hall') as (steps & order & halted & rest & E & Hpass & _ & Hrest).
  set (ran := take _ _) in E. assert (ran ++ rest = lifo es) as Hcut
    by (rewrite <-Hrest; apply take_drop).
  unfold rollback. cbn [sg_effects]. rewrite E. eexists _, ran, rest. split; [reflexivity|].
  rewrite Hcut. split_and!; [done..| |done]. exists halted. by destruct halted.
Qed.

(** ** What the assertion accepts *)

Lemma compensated_no_dead es steps :
  Forall2 compensated_as es steps → List.filter sr_dead_letter steps = [].
Proof. induction 1 as [|e s es' steps' (_ & _ & Hd)]; simpl; [done|]. by rewrite Hd. Qed.

(** The loop on compensated steps: the names have to agree. *)
Lemma check_names es steps : Forall2 compensated_as es steps → descending es → ∀ idx prev names tool,
  length names = length steps → (∀ p, prev = Some p → Forall (λ e, ed_stack_position e < p) es) →
  check_steps atom_eqb none idx prev steps (ExpStr <$> names) tool = inr () ↔
  names = ed_tool_name <$> es.
Proof.
  intros H. induction H as [|e s es steps Hs H IH]; intros Hd idx prev names tool Hl Hprev.
  { by destruct names. }
  destruct names as [|n names]; [done|]. apply StronglySorted_inv in Hd as [Hd He].
  destruct Hs as ((Hn & Hpos & _ & _) & Hst & _). cbn [fmap list_fmap check_steps].
  unfold check_step. rewrite Hpos, Hn, Hst.
  assert (match prev with
          | Some p => if p <=? ed_stack_position e
                      then inl (AssertionError (LifoViolation idx (ed_stack_position e) p)) else inr ()
          | None => inr ()
          end = @inr (failure atom) () ()) as ->.
  { destruct prev as [p|]; [|done]. specialize (Hprev p eq_refl). apply Forall_cons in Hprev as [? _].
    by rewrite (proj2 (Z.leb_gt _ _)) by lia. }
  cbn. destruct (str_eqb (ed_tool_name e) n) eqn:En; cbn.
  - apply str_eqb_eq in En. subst n.
    destruct (IH Hd (S idx) (Some (ed_stack_position e)) names (Some (ed_tool_name e))) as [H1 H2];
      [by simplify_eq/=|by intros p [= <-]|].
    split; [intros Hc; f_equal; by apply H1|intros [= Hc]; by apply H2].
  - split; [done|]. intros [= -> _]. rewrite (proj2 (str_eqb_eq _ _) eq_refl) in En. done.
Qed.

Lemma rolled_back_compensated es r rest :
  rolled_back es r rest → rp_session_result r = $"compensated" →
  Forall2 compensated_as (lifo es) (rp_steps r) ∧ rp_dead_letters r = [].
Proof.
  intros (halted & Hp & Hres & Hdead) Hc. rewrite Hres in Hc. destruct Hp as [steps H|]; [|done].
  split; [done|]. rewrite Hdead. by eapply compensated_no_dead.
Qed.

(** C30: a rollback runs the compensations in LIFO order. Whatever the
    compensation functions do, as long as they raise nothing but [Exception]s,
    [rollback] returns: it ran an initial segment of the effects in strictly
    descending stack order and none of the others, it reported each entry it
    ran with between one attempt and its retry budget, and either everything
    was compensated or the last entry it ran used up its budget and is the one
    that failed. The report is stored for [report]. *)
Theorem rollback_is_lifo es h w :
  Forall (λ e, raises_exceptions (ed_compensation e)) es → SagaTestHarness es = inr h →
  ∃ r ran rest,
    rollback h w = (inr r, (MkSaga es (Some r), undo_all ran w)) ∧
    ran ++ rest ≡ₚ es ∧ descending (ran ++ rest) ∧ ran ++ rest = lifo es ∧ rolled_back es r rest ∧
    report (MkSaga es (Some r)) = inr r.
Proof. apply rollback_spec. Qed.

(** [assert_saga_rolled_back] with the names of the tools accepts exactly
    the complete rollbacks: the report of a rollback passes if and only if
    everything was compensated and the expected names are those of the session's
    effects from the top of the stack down. *)
Theorem assertion_accepts_complete_rollbacks es h w r h' w' names :
  Forall (λ e, raises_exceptions (ed_compensation e)) es → SagaTestHarness es = inr h →
  rollback h w = (inr r, (h', w')) →
  assert_saga_rolled_back atom_eqb none (SHarness h') (ExpStr <$> names) = inr () ↔
  rp_session_result r = $"compensated" ∧ names = ed_tool_name <$> lifo es.
Proof.
  intros Hall Hh Hr. destruct (rollback_spec es h w Hall Hh)
    as (r0 & ran & rest & E & _ & Hd & Hl & Hroll & _). rewrite Hr in E. simplify_eq.
  rewrite Hl in Hd. unfold assert_saga_rolled_back, session_report, report. cbn [sg_last_report].
  destruct (str_eqb (rp_session_result r0) $"compensated") eqn:Ec; cbn.
  2:{ split; [by rewrite Ec|]. intros [Hc _]. rewrite Hc in Ec. done. }
  rewrite Ec. cbn. apply str_eqb_eq in Ec.
  destruct (rolled_back_compensated _ _ _ Hroll Ec) as [Hf Hdead]. rewrite Hdead. cbn.
  rewrite length_fmap. pose proof (Forall2_length _ _ _ Hf) as Hlen.
  destruct (Nat.eqb_spec (length (rp_steps r0)) (length names)) as [Heq|Hne]; cbn.
  - rewrite (check_names _ _ Hf Hd) by done. naive_solver.
  - split; [done|]. intros [_ ->]. rewrite length_fmap in Hne. lia.
Qed.

(** A payload that is an empty sequence matches no keyword payload. *)
Lemma empty_payload_rejected idx tool (kw : list (pystr * value atom)) :
  kw ≠ [] → dict_get $"args" kw = None → dict_get $"_args" kw = None →
  assert_payload_parity atom_eqb none idx tool kw (VTuple []) =
    inl (AssertionError (PayloadMismatch idx tool (VTuple []) kw)).
Proof.
  intros Hne H1 H2. unfold assert_payload_parity, get_equals. rewrite H1, H2. by destruct kw as [|[k v] kw].
Qed.

Lemma check_steps_each steps exps idx prev tool i s x :
  check_steps atom_eqb none idx prev steps exps tool = inr () →
  steps !! i = Some s → exps !! i = Some x →
  ∃ idx' prev' tool' tool'', check_step atom_eqb none idx' prev' s x tool' = inr tool''.
Proof.
  revert exps idx prev tool i. induction steps as [|s0 steps IH]; intros exps idx prev tool i; [done|].
  destruct exps as [|x0 exps]; [done|]. cbn [check_steps].
  destruct (check_step _ _ _ _ _ _ _) as [|t] eqn:E; [done|]. cbn. intros Hc.
  destruct i as [|i]; cbn; [intros [= <-] [= <-]; eauto|]. by eapply IH.
Qed.

(** An effect with keyword arguments does not match itself.
    [assert_saga_rolled_back] documents that an [EffectDescriptor] can be
    expected; its [args] are its positional arguments, so a complete rollback of
    effects one of which has keyword arguments only is refused when it is
    compared with those same effects. *)
Theorem keyword_effect_rejects_itself es h w r h' w' e :
  Forall (λ e, raises_exceptions (ed_compensation e)) es → SagaTestHarness es = inr h →
  rollback h w = (inr r, (h', w')) →
  e ∈ es → ed_args e = [] → ed_kwargs e ≠ [] →
  dict_get $"args" (ed_kwargs e) = None → dict_get $"_args" (ed_kwargs e) = None →
  ∃ err, assert_saga_rolled_back atom_eqb none (SReport (W := W) r) (expect_effect <$> lifo es) = inl err.
Proof.
  intros Hall Hh Hr He Ha Hk H1 H2. destruct (rollback_spec es h w Hall Hh)
    as (r0 & ran & rest & E & Hp & _ & Hl & Hroll & _). rewrite Hr in E. simplify_eq.
  destruct (assert_saga_rolled_back _ _ _ _) as [err|[]] eqn:Ea; [by eauto|exfalso].
  unfold assert_saga_rolled_back in Ea. cbn in Ea.
  destruct (str_eqb (rp_session_result r0) $"compensated") eqn:Ec; [|done]. apply str_eqb_eq in Ec.
  destruct (rolled_back_compensated _ _ _ Hroll Ec) as [Hf Hdead]. rewrite Hdead in Ea. cbn in Ea.
  case_match; [done|]. rewrite Hl in Hp. rewrite <-Hp in He. apply list_elem_of_lookup in He as [i Hi].
  destruct (Forall2_lookup_l _ _ _ _ _ Hf Hi) as (s & Hs & (_ & _ & Hargs & _) & Hst & _).
  eapply (check_steps_each _ _ _ _ _ i s (expect_effect e)) in Ea as (idx & prev & t & t' & Hc);
    [|done|by rewrite list_lookup_fmap, Hi].
  unfold check_step in Hc. destruct (match prev with Some p => _ | None => _ end) as [|]; [done|]. cbn in Hc.
  destruct (negb (str_eqb (sr_tool_name s) (ed_tool_name e))); [done|]. cbn in Hc. rewrite Hst in Hc. cbn in Hc.
  rewrite Hargs in Hc. unfold step_args in Hc. rewrite Ha in Hc.
  by rewrite (empty_payload_rejected idx _ _ Hk H1 H2) in Hc.
Qed.
End saga_facts.

(** ** The theorems about the test harness, on concrete compensations *)

Module HarnessExamples.

(** Atoms are integers; the state counts the invocations of every function. *)
Abbreviation val := (value Z).
Definition no_repr (_ : val) : pystr := [].
Definition doubling (base m attempt : Z) : pystr + Z := inr (base * m ^ attempt).

(** A compensation that fails its first [n] invocations, and then returns a
    constant. *)
Definition flaky (n : Z) : @comp Z Z := λ args kwargs w,
  if w <? n then (inl (Exc $"busy"), w + 1) else (inr (VAtom 7), w + 1).
(** One that returns another value every time. *)
Definition drifting : @comp Z Z := λ args kwargs w, (inr (VAtom w), w + 1).

Lemma flaky_exceptions n : raises_exceptions (flaky n).
Proof. intros args kwargs w. unfold flaky. by destruct (w <? n). Defined.

Lemma harness_records_agree_witness :
  harness_ok (execute_with_retry [] [] (CompensationTestHarness (flaky 2) 3, 0)).2.1.
Proof.
  apply (harness_records_agree Z.eqb (flaky 2) 3 0); [apply flaky_exceptions|].
  eapply star_step; [|apply star_refl].
  apply (step_retry Z.eqb _ [] [] (execute_with_retry [] [] (CompensationTestHarness (flaky 2) 3, 0)).1).
  by destruct (execute_with_retry _ _ _).
Defined.

Lemma retry_returns_first_success_witness :
  let '(r, s') := execute_with_retry [] [] (CompensationTestHarness (flaky 2) 3, 0) in
  r = inr (VAtom 7) ∧ length (h_calls s'.1) = 3%nat ∧ h_call_count s'.1 = 1.
Proof.
  exact (retry_returns_first_success [] [] (CompensationTestHarness (flaky 2) 3) 0 (flaky_exceptions 2)).
Defined.

Definition options (retries : Z) : @test_options Z := TestOptions (Some retries) 0 100 2 5000 None.

(** The first attempt fails and the second returns. *)
Lemma compensation_reports_are_consistent_witness :
  ∃ rep w', test_compensation Z.eqb no_repr doubling (flaky 1) (options 1) [] [] 0 = (inr rep, w') ∧
    cr_execution_count rep = 2 ∧ Z.of_nat (length (cr_backoff_intervals_ms rep)) = cr_retry_count rep ∧
    0 ≤ cr_retry_count rep ≤ 1 ∧ Forall (λ i, i ≤ 5000) (cr_backoff_intervals_ms rep).
Proof.
  exists (MkCompensationReport 2 1 $"compensated" (Some (VAtom 7)) (Some $"busy") false [100]), 3.
  assert (test_compensation Z.eqb no_repr doubling (flaky 1) (options 1) [] [] 0 =
    (inr (MkCompensationReport 2 1 $"compensated" (Some (VAtom 7)) (Some $"busy") false [100]), 3)) as E
    by (vm_compute; reflexivity).
  destruct (compensation_reports_are_consistent Z.eqb no_repr doubling (flaky 1) (options 1) [] [] 0 _ 3 E)
    as (Hn & Hr & Hb & _).
  split; [exact E|]. split; [reflexivity|]. split; [exact Hn|]. split; [exact Hr|]. apply Hb. simpl. lia.
Defined.

Lemma no_retries_no_idempotency_check_witness :
  test_compensation Z.eqb no_repr doubling drifting (options 0) [] [] 0 =
    (inr (MkCompensationReport 1 0 $"compensated" (Some (VAtom 0)) None false []), 1).
Proof. apply no_retries_no_idempotency_check; [reflexivity|simpl; lia|reflexivity]. Defined.

Lemma success_keeps_stale_error_witness :
  test_compensation Z.eqb no_repr doubling (flaky 1) (options 1) [] [] 0 =
    (inr (MkCompensationReport 2 1 $"compensated" (Some (VAtom 7)) (Some $"busy") false [100]), 3).
Proof.
  apply (success_keeps_stale_error Z.eqb no_repr doubling (flaky 1) (options 1) [] [] $"busy"
    (VAtom 7) (VAtom 7) 100 0 1 2 3); first [reflexivity|simpl; lia].
Defined.

(** A session of two effects; the second has keyword arguments. *)
Definition charge : @effect_descriptor Z Z := MkEffect $"charge" (flaky 1) 1 0 [VAtom 5] [].
Definition email : @effect_descriptor Z Z := MkEffect $"email" (flaky 1) 2 0 [] [($"to", VAtom 9)].
Definition effects_ : list effect_descriptor := [charge; email].

Lemma effects_exceptions :
  Forall (λ e, raises_exceptions (@ed_compensation Z Z e)) effects_.
Proof. repeat constructor; simpl; apply flaky_exceptions. Defined.

Definition complete_report : @SagaReport Z :=
  MkReport $"compensated"
    [MkStep $"email" 2 2 $"compensated" None [($"to", VAtom 9)] false;
     MkStep $"charge" 1 1 $"compensated" None [($"args", VTuple [VAtom 5])] false]
    [$"email"; $"charge"] [].

Lemma rollback_is_lifo_witness :
  ∃ r ran rest, rollback (MkSaga effects_ None) 0 = (inr r, (MkSaga effects_ (Some r), undo_all ran 0)) ∧
    ran ++ rest ≡ₚ effects_.
Proof.
  destruct (rollback_is_lifo effects_ (MkSaga effects_ None) 0 effects_exceptions)
    as (r & ran & rest & E & Hp & _); [vm_compute; reflexivity|].
  exists r, ran, rest. split; [exact E|exact Hp].
Defined.

Lemma assertion_accepts_complete_rollbacks_witness :
  assert_saga_rolled_back Z.eqb 0 (SHarness (MkSaga effects_ (Some complete_report)))
    (ExpStr <$> [$"email"; $"charge"]) = inr ().
Proof.
  apply (assertion_accepts_complete_rollbacks Z.eqb 0 effects_ (MkSaga effects_ None) 0 complete_report
    _ 3 _ effects_exceptions); [vm_compute; reflexivity|vm_compute; reflexivity|].
  split; vm_compute; reflexivity.
Defined.

Lemma keyword_effect_rejects_itself_witness :
  ∃ err, assert_saga_rolled_back Z.eqb 0 (SReport (W := Z) complete_report)
    (expect_effect <$> lifo effects_) = inl err.
Proof.
  apply (keyword_effect_rejects_itself Z.eqb 0 effects_ (MkSaga effects_ None) 0 complete_report
    (MkSaga effects_ (Some complete_report)) 3 email effects_exceptions);
    first [vm_compute; reflexivity|right; left|done].
Defined.
End HarnessExamples.
