(* ===== verification/MockServer.v ===== *)
(** * The mock tool server ([infra/mock-tool-server/server.py])

    A single-threaded HTTP server with in-memory tables. A request is handled
    to its end before the next one, so [do_POST] is a function of the tables.
    [sha256], the UUIDs and [repr] and [str] of values that are not strings are
    arguments; the timestamps of [TOOL_CALLS] are left out. *)

From S2P Require Import Prelude Py Json Framing Errors.
Open Scope Z_scope.
Open Scope undolog_scope.

Module Mock.

Abbreviation dict := (list (pystr * json)).

(** ** Seed data *)

Definition text_entries (l : list (pystr * pystr)) : dict := (λ kv, (kv.1, JStr kv.2)) <$> l.

Definition SEED_CUSTOMERS : list (pystr * dict) :=
  [($"cust_42", text_entries
      [($"customer_id", $"cust_42"); ($"name", $"Alice Johnson"); ($"email", $"alice@example.com");
       ($"plan", $"enterprise"); ($"support_level", $"premium")]);
   ($"cust_1", text_entries
      [($"customer_id", $"cust_1"); ($"name", $"Bob Smith"); ($"email", $"bob@example.com");
       ($"plan", $"enterprise"); ($"support_level", $"standard")]);
   ($"user_42", text_entries
      [($"user_id", $"user_42"); ($"name", $"Bob Smith"); ($"email", $"bob@example.com");
       ($"plan", $"enterprise")]);
   ($"user_1", text_entries
      [($"user_id", $"user_1"); ($"name", $"Carol Davis"); ($"email", $"carol@example.com");
       ($"plan", $"premium")])].

Definition SEED_PLANS : list (pystr * dict) :=
  [($"enterprise",
      [($"plan_id", JStr $"enterprise"); ($"name", JStr $"Enterprise"); ($"monthly_price", JInt 999);
       ($"features", JArr [JStr $"unlimited_tickets"; JStr $"priority_support"; JStr $"api_access"])]);
   ($"premium",
      [($"plan_id", JStr $"premium"); ($"name", JStr $"Premium"); ($"monthly_price", JInt 299);
       ($"features", JArr [JStr $"unlimited_tickets"; JStr $"priority_support"])]);
   ($"basic",
      [($"plan_id", JStr $"basic"); ($"name", JStr $"Basic"); ($"monthly_price", JInt 49);
       ($"features", JArr [JStr $"10_tickets_per_month"])])].

Definition SEED_ENGINEERS : list (pystr * dict) :=
  [($"sarah", text_entries [($"engineer", $"sarah"); ($"name", $"Sarah Chen"); ($"team", $"senior")]);
   ($"mike", text_entries [($"engineer", $"mike"); ($"name", $"Mike Rivera"); ($"team", $"level-2")])].

(** What handling a request can raise; it ends the connection without a
    response. *)
Inductive mock_exc := MAttribute | MUnhashable | MRuntime (e : pyexc).

(** A table maps the keys of a Python [dict] to rows. A key is a JSON value
    that can be hashed. *)
Abbreviation table := (list (json * dict)).

Record mock := Mock_ {
  mk_customers : table;
  mk_plans : table;
  mk_engineers : table;
  mk_tickets : table;
  mk_emails : table;
  mk_payments : table;
  mk_idem : list (pystr * dict);
  mk_calls : list (json * json);
  mk_drawn : nat;
}.

Definition seeded (l : list (pystr * dict)) : table := (λ kv, (JStr kv.1, kv.2)) <$> l.

(** The module's globals at start. *)
Definition initial : mock :=
  Mock_ (seeded SEED_CUSTOMERS) (seeded SEED_PLANS) (seeded SEED_ENGINEERS) [] [] [] [] [] 0.

Definition set_tickets (t : table) (s : mock) : mock :=
  Mock_ (mk_customers s) (mk_plans s) (mk_engineers s) t (mk_emails s) (mk_payments s)
    (mk_idem s) (mk_calls s) (mk_drawn s).
Definition set_emails (t : table) (s : mock) : mock :=
  Mock_ (mk_customers s) (mk_plans s) (mk_engineers s) (mk_tickets s) t (mk_payments s)
    (mk_idem s) (mk_calls s) (mk_drawn s).
Definition set_payments (t : table) (s : mock) : mock :=
  Mock_ (mk_customers s) (mk_plans s) (mk_engineers s) (mk_tickets s) (mk_emails s) t
    (mk_idem s) (mk_calls s) (mk_drawn s).
Definition set_idem (t : list (pystr * dict)) (s : mock) : mock :=
  Mock_ (mk_customers s) (mk_plans s) (mk_engineers s) (mk_tickets s) (mk_emails s)
    (mk_payments s) t (mk_calls s) (mk_drawn s).
Definition add_call (tool args : json) (s : mock) : mock :=
  Mock_ (mk_customers s) (mk_plans s) (mk_engineers s) (mk_tickets s) (mk_emails s)
    (mk_payments s) (mk_idem s) (mk_calls s ++ [(tool, args)]) (mk_drawn s).
Definition draw (s : mock) : mock :=
  Mock_ (mk_customers s) (mk_plans s) (mk_engineers s) (mk_tickets s) (mk_emails s)
    (mk_payments s) (mk_idem s) (mk_calls s) (S (mk_drawn s)).

(** Handlers read and write the tables, and return or raise. *)
Definition H (A : Type) : Type := mock → (mock_exc + A) * mock.
#[export] Instance H_ret : MRet H := λ A a s, (inr a, s).
#[export] Instance H_bind : MBind H := λ A B f m s,
  match m s with (inl e, s') => (inl e, s') | (inr a, s') => f a s' end.
Definition throw {A} (e : mock_exc) : H A := λ s, (inl e, s).
Definition gets {A} (f : mock → A) : H A := λ s, (inr (f s), s).
Definition modify (f : mock → mock) : H () := λ s, (inr (), f s).

Section server.
Variable sha256_hexdigest : bytes → pystr.
(** [uuid.uuid4().hex] of the [n]-th draw. *)
Variable uuid4_hex : nat → pystr.
Variable py_str py_repr : json → pystr.
(** The integer a float is equal to, when there is one. *)
Variable float_int : pyfloat → option Z.
Variable float_of_text : pystr → pyfloat.

(** ** Keys *)

(** The number a key is, as an integer when it is equal to one. *)
Definition key_number (k : json) : option (Z + pyfloat) :=
  match k with
  | JInt n => Some (inl n)
  | JBool b => Some (inl (if b then 1 else 0))
  | JFloat f => Some (match float_int f with Some n => inl n | None => inr f end)
  | _ => None
  end.

(** [==] of two keys; a float that is not an integer is equal to a float of the
    same digits. *)
Definition key_eqb (a b : json) : bool :=
  match a, b with
  | JStr s, JStr t => str_eqb s t
  | JNull, JNull => true
  | _, _ =>
      match key_number a, key_number b with
      | Some (inl n), Some (inl m) => n =? m
      | Some (inr (FFin s ds e)), Some (inr (FFin s' ds' e')) =>
          eqb s s' && str_eqb ds ds' && (e =? e')
      | Some (inr (FInf s)), Some (inr (FInf s')) => eqb s s'
      | _, _ => false
      end
  end.

(** A [list] or a [dict] cannot be a key. *)
Definition hashable (k : json) : bool := match k with JArr _ | JObj _ => false | _ => true end.

Fixpoint tget (k : json) (t : table) : option dict :=
  match t with
  | [] => None
  | (k', r) :: t' => if key_eqb k k' then Some r else tget k t'
  end.
Fixpoint tset (k : json) (r : dict) (t : table) : table :=
  match t with
  | [] => [(k, r)]
  | (k', r') :: t' => if key_eqb k k' then (k', r) :: t' else (k', r') :: tset k r t'
  end.

(** [table.get(key)]. *)
Definition lookup_in (f : mock → table) (k : json) : H (option dict) :=
  if hashable k then gets (λ s, tget k (f s)) else throw MUnhashable.

(** ** Handlers *)

(** [args.get(key, default)]. *)
Definition arg (args : dict) (k : pystr) (d : json) : json := default d (dict_get k args).

(** [_ok]. *)
Definition ok (output : dict) : dict :=
  [($"success", JBool true); ($"output", JStr (dumps (JObj output))); ($"duration_ms", JInt 0)].

Definition not_found (what : pystr) (k : json) : dict :=
  [($"success", JBool false); ($"error", JStr (what ++ $" " ++ py_repr k ++ $" not found"))].

(** The rows of a table are never empty dictionaries, so [not row] is a missing
    row. *)
Definition handle_lookup (f : mock → table) (key what : pystr) (args : dict) : H dict :=
  let k := arg args key (JStr []) in
  row ← lookup_in f k;
  mret (match row with None => not_found what k | Some r => ok r end).

Definition handle_lookup_customer : dict → H dict :=
  handle_lookup mk_customers $"customer_id" $"Customer".
Definition handle_lookup_user : dict → H dict := handle_lookup mk_customers $"user_id" $"User".
Definition handle_lookup_plan : dict → H dict := handle_lookup mk_plans $"plan_id" $"Plan".

(** [f"{value}"]. *)
Definition format_text (v : json) : pystr := match v with JStr s => s | _ => py_str v end.

Definition email_key (to subject body : json) : pystr :=
  format_text to ++ $":" ++ format_text subject ++ $":" ++ format_text body.

Definition handle_send_email (args : dict) : H dict :=
  let to := arg args $"to" (JStr []) in
  let subject := arg args $"subject" (JStr []) in
  let body := arg args $"body" (JStr []) in
  match utf8_encode (email_key to subject body) with
  | inl e => throw (MRuntime e)
  | inr key =>
      let email_id := take 16 (sha256_hexdigest key) in
      emails ← gets mk_emails;
      _ ← match tget (JStr email_id) emails with
          | Some _ => mret ()
          | None => modify (set_emails (tset (JStr email_id)
                      [($"email_id", JStr email_id); ($"to", to); ($"subject", subject);
                       ($"body", body); ($"status", JStr $"sent")] emails))
          end;
      mret (ok [($"email_id", JStr email_id); ($"status", JStr $"sent")])
  end.

(** [f"{prefix}-{uuid.uuid4().hex[:8].upper()}"]. *)
Definition upper_char (c : Z) : Z := if (97 <=? c) && (c <=? 122) then c - 32 else c.
Definition new_id (prefix : pystr) : H pystr :=
  n ← gets mk_drawn;
  _ ← modify draw;
  mret (prefix ++ $"-" ++ (upper_char <$> take 8 (uuid4_hex n))).

Definition handle_create_ticket (args : dict) : H dict :=
  ticket_id ← new_id $"TKT";
  tickets ← gets mk_tickets;
  let priority := arg args $"priority" (JStr $"low") in
  _ ← modify (set_tickets (tset (JStr ticket_id)
        [($"ticket_id", JStr ticket_id);
         ($"customer_id", arg args $"customer_id" (arg args $"user_id" (JStr [])));
         ($"priority", priority); ($"description", arg args $"description" (JStr []));
         ($"status", JStr $"open")] tickets));
  mret (ok [($"ticket_id", JStr ticket_id); ($"status", JStr $"open"); ($"priority", priority)]).

(** Write a ticket back; the rows are mutable dictionaries held by the table. *)
Definition put_ticket (k : json) (r : dict) : H () := λ s,
  (inr (), set_tickets (tset k r (mk_tickets s)) s).

Definition handle_assign_engineer (args : dict) : H dict :=
  let ticket_id := arg args $"ticket_id" (JStr []) in
  let engineer := arg args $"engineer" (JStr []) in
  ticket ← lookup_in mk_tickets ticket_id;
  match ticket with
  | None => mret (not_found $"Ticket" ticket_id)
  | Some t =>
      _ ← put_ticket ticket_id
            (dict_set $"status" (JStr $"assigned") (dict_set $"engineer" engineer t));
      mret (ok [($"ticket_id", ticket_id); ($"engineer", engineer); ($"status", JStr $"assigned")])
  end.

Definition handle_escalate (args : dict) : H dict :=
  let ticket_id := arg args $"ticket_id" (JStr []) in
  let reason := arg args $"reason" (JStr []) in
  ticket ← lookup_in mk_tickets ticket_id;
  let t := match ticket with
           | Some t => t
           | None =>
               [($"ticket_id", ticket_id); ($"customer_id", JStr $"unknown");
                ($"priority", JStr $"low");
                ($"description", JStr ($"Auto-created for escalation: " ++ format_text reason));
                ($"status", JStr $"open")]
           end in
  _ ← put_ticket ticket_id
        (dict_set $"escalation_reason" reason (dict_set $"status" (JStr $"escalated") t));
  mret (ok [($"ticket_id", ticket_id); ($"status", JStr $"escalated"); ($"reason", reason)]).

Definition handle_charge_payment (args : dict) : H dict :=
  payment_id ← new_id $"PAY";
  payments ← gets mk_payments;
  let row := [($"payment_id", JStr payment_id); ($"amount", arg args $"amount" (JInt 0));
              ($"currency", arg args $"currency" (JStr $"USD")); ($"status", JStr $"processed")] in
  _ ← modify (set_payments (tset (JStr payment_id) row payments));
  mret (ok row).

(** ** Compensations *)

Definition handle_compensate_send_email (args : dict) : H dict :=
  let to := arg args $"to" (JStr $"unknown") in
  let subject := arg args $"subject" (JStr []) in
  corr_id ← new_id $"CORR";
  emails ← gets mk_emails;
  _ ← modify (set_emails (tset (JStr corr_id)
        [($"email_id", JStr corr_id); ($"to", to); ($"original_subject", subject);
         ($"type", JStr $"correction"); ($"status", JStr $"sent")] emails));
  mret (ok [($"status", JStr $"correction_sent"); ($"to", to); ($"original_subject", subject)]).

(** Change a ticket when it exists. *)
Definition update_ticket (ticket_id : json) (f : dict → dict) : H () :=
  ticket ← lookup_in mk_tickets ticket_id;
  match ticket with Some t => put_ticket ticket_id (f t) | None => mret () end.

Definition handle_compensate_create_ticket (args : dict) : H dict :=
  let ticket_id := arg args $"ticket_id" (JStr $"unknown") in
  _ ← update_ticket ticket_id (dict_set $"status" (JStr $"closed"));
  mret (ok [($"status", JStr $"ticket_closed"); ($"ticket_id", ticket_id)]).

(** [==] of two JSON values. *)
Fixpoint json_eqb (a b : json) : bool :=
  match a, b with
  | JArr l, JArr k =>
      (fix go l k := match l, k with
                     | [], [] => true
                     | x :: l', y :: k' => json_eqb x y && go l' k'
                     | _, _ => false
                     end) l k
  | JObj d, JObj e =>
      Nat.eqb (length d) (length e) &&
      (fix go d := match d with
                   | [] => true
                   | (k, x) :: d' =>
                       match dict_get k e with Some y => json_eqb x y | None => false end && go d'
                   end) d
  | _, _ => key_eqb a b
  end.

Definition handle_compensate_assign_engineer (args : dict) : H dict :=
  let ticket_id := arg args $"ticket_id" (JStr $"unknown") in
  let engineer := arg args $"engineer" (JStr $"unknown") in
  _ ← update_ticket ticket_id (λ t,
        if json_eqb (arg t $"engineer" JNull) engineer
        then dict_del $"engineer" (dict_set $"status" (JStr $"open") t) else t);
  mret (ok [($"status", JStr $"engineer_unassigned"); ($"ticket_id", ticket_id);
            ($"engineer", engineer)]).

Definition handle_compensate_escalate (args : dict) : H dict :=
  let ticket_id := arg args $"ticket_id" (JStr $"unknown") in
  let reason := arg args $"reason" (JStr $"unknown") in
  _ ← update_ticket ticket_id (λ t,
        dict_del $"escalation_reason" (dict_set $"status" (JStr $"open") t));
  mret (ok [($"status", JStr $"escalation_reversed"); ($"ticket_id", ticket_id);
            ($"reason", reason)]).

Definition handle_compensate_charge_payment (args : dict) : H dict :=
  let amount := arg args $"amount" (JInt 0) in
  let currency := arg args $"currency" (JStr $"unknown") in
  reversal_id ← new_id $"REV";
  payments ← gets mk_payments;
  _ ← modify (set_payments (tset (JStr reversal_id)
        [($"payment_id", JStr reversal_id); ($"amount", amount); ($"currency", currency);
         ($"status", JStr $"reversed")] payments));
  mret (ok [($"status", JStr $"charge_reversed"); ($"amount", amount); ($"currency", currency)]).

Definition handle_integration_test (args : json) : H dict :=
  mret (ok [($"received", args); ($"ok", JBool true)]).

(** The dispatch table. A handler that reads its arguments raises when they are
    not an object. *)
Definition on_object (h : dict → H dict) (args : json) : H dict :=
  match args with JObj d => h d | _ => throw MAttribute end.

Definition HANDLERS : list (pystr * (json → H dict)) :=
  [($"lookup_customer", on_object handle_lookup_customer);
   ($"lookup_user", on_object handle_lookup_user);
   ($"lookup_plan", on_object handle_lookup_plan);
   ($"send_email", on_object handle_send_email);
   ($"notify_user", on_object handle_send_email);
   ($"create_ticket", on_object handle_create_ticket);
   ($"open_ticket", on_object handle_create_ticket);
   ($"assign_engineer", on_object handle_assign_engineer);
   ($"escalate_case", on_object handle_escalate);
   ($"escalate_ticket", on_object handle_escalate);
   ($"charge_payment", on_object handle_charge_payment);
   ($"integration_test_tool", handle_integration_test);
   ($"compensate_send_email", on_object handle_compensate_send_email);
   ($"compensate_create_ticket", on_object handle_compensate_create_ticket);
   ($"compensate_assign_engineer", on_object handle_compensate_assign_engineer);
   ($"compensate_escalate", on_object handle_compensate_escalate);
   ($"compensate_charge_payment", on_object handle_compensate_charge_payment)].

(** ** The HTTP handler *)

Record post := Post {
  po_path : pystr;
  po_content_length : option pystr;
  po_idempotency_key : option pystr;
  po_stream : bytes;
}.

(** A response: its status and JSON payload. *)
Abbreviation answer := (Z * json)%type.

(** [do_GET]. *)
Definition do_GET (path : pystr) : answer :=
  if str_eqb path $"/health" then (200, JObj [($"status", JStr $"ok")])
  else (404, JObj [($"error", JStr $"not_found")]).

Definition invalid_json : answer :=
  (400, JObj [($"success", JBool false); ($"error", JStr $"invalid JSON")]).

(** The body: [int(Content-Length)] bytes of the stream. *)
Definition read_body (rq : post) : mock_exc + bytes :=
  match py_int 10 (default $"0" (po_content_length rq)) with
  | None => inl (MRuntime EIntLiteral)
  | Some n => match (read n (po_stream rq)).1 with inl e => inl (MRuntime e) | inr b => inr b end
  end.

(** [result.get("success", False)]. *)
Definition status_of (result : dict) : Z :=
  if truthy (arg result $"success" (JBool false)) then 200 else 404.

(** A tool call, from its decoded body. *)
Definition call_tool (idem_key : pystr) (call : dict) : H answer :=
  let tool_name := arg call $"tool_name" (JStr $"unknown") in
  let args := arg call $"args" (JObj []) in
  idem ← gets mk_idem;
  match (match idem_key with [] => None | _ => dict_get idem_key idem end) with
  | Some cached => mret (200, JObj cached)
  | None =>
      _ ← modify (add_call tool_name args);
      if hashable tool_name then
        match (match tool_name with JStr n => dict_get n HANDLERS | _ => None end) with
        | None =>
            mret (404, JObj [($"success", JBool false);
                             ($"error", JStr ($"Unknown tool: " ++ py_repr tool_name))])
        | Some handler =>
            result ← handler args;
            _ ← match idem_key with
                | [] => mret ()
                | _ => modify (λ s, set_idem (dict_set idem_key result (mk_idem s)) s)
                end;
            mret (status_of result, JObj result)
        end
      else throw MUnhashable
  end.

(** [do_POST]. *)
Definition do_POST (rq : post) : H answer :=
  if negb (str_eqb (po_path rq) $"/tools") then mret (404, JObj [($"error", JStr $"not_found")])
  else
    match read_body rq with
    | inl e => throw e
    | inr body =>
        match loads_bytes float_of_text body with
        | inl EJsonDecode => mret invalid_json
        | inl e => throw (MRuntime e)
        | inr (JObj call) => call_tool (default [] (po_idempotency_key rq)) call
        | inr _ => throw MAttribute
        end
    end.
End server.
End Mock.
