(* ===== verification/MockTheorems.v ===== *)
(** * The mock tool server: what holds of it

    Retries under an idempotency key, the compensations of ticket operations,
    and behaviours of the server to be aware of. *)

From S2P Require Import Prelude Py PyFacts Json Framing Errors MockServer.
Open Scope Z_scope.
Open Scope undolog_scope.
Import Mock.

(** ** Dictionaries and tables *)

Section dicts.
Context {A : Type}.
Implicit Types (d : list (pystr * A)) (k : pystr) (v : A).

Lemma dict_set_twice k v v' d : dict_set k v' (dict_set k v d) = dict_set k v' d.
Proof.
  induction d as [|[k' u] d IH]; simpl; [by rewrite str_eqb_refl|].
  destruct (str_eqb k k') eqn:E; simpl; rewrite E; [done|]. by rewrite IH.
Qed.

Lemma dict_set_same k v d : dict_get k d = Some v → dict_set k v d = d.
Proof.
  induction d as [|[k' u] d IH]; simpl; [done|].
  destruct (str_eqb k k') eqn:E; [by intros [= ->]|]. intros H. by rewrite IH.
Qed.

Lemma dict_set_comm k k' v v' d : k ≠ k' → is_Some (dict_get k d) →
  dict_set k v (dict_set k' v' d) = dict_set k' v' (dict_set k v d).
Proof.
  intros Hne. induction d as [|[j u] d IH]; simpl; [by intros []|].
  destruct (str_eqb k j) eqn:E; destruct (str_eqb k' j) eqn:E'; simpl; rewrite ?E, ?E'; try done.
  - apply str_eqb_eq in E, E'. congruence.
  - intros H. by rewrite IH.
Qed.

Lemma dict_del_new k v d : dict_get k d = None → dict_del k (dict_set k v d) = d.
Proof.
  induction d as [|[k' u] d IH]; simpl; [by rewrite str_eqb_refl|].
  destruct (str_eqb k k') eqn:E; [done|]. simpl. rewrite E. intros H. by rewrite IH.
Qed.
End dicts.

Section tables.
Variable float_int : pyfloat → option Z.
Abbreviation tget := (tget float_int).
Abbreviation tset := (tset float_int).
Implicit Types (t : table) (k : json) (r : list (pystr * json)).

Lemma tget_tset k r r' t : tget k t = Some r' → tget k (tset k r t) = Some r.
Proof.
  induction t as [|[k' u] t IH]; simpl; [done|].
  destruct (key_eqb float_int k k') eqn:E; simpl; rewrite E; [done|exact IH].
Qed.

Lemma tset_twice k r r' r'' t : tget k t = Some r'' → tset k r' (tset k r t) = tset k r' t.
Proof.
  induction t as [|[k' u] t IH]; simpl; [done|].
  destruct (key_eqb float_int k k') eqn:E; simpl; rewrite E; [done|]. intros H. by rewrite IH.
Qed.

Lemma tset_same k r t : tget k t = Some r → tset k r t = t.
Proof.
  induction t as [|[k' u] t IH]; simpl; [done|].
  destruct (key_eqb float_int k k') eqn:E; [by intros [= ->]|]. intros H. by rewrite IH.
Qed.

Lemma tget_tset_str (k : pystr) r t : tget (JStr k) (tset (JStr k) r t) = Some r.
Proof.
  induction t as [|[k' u] t IH]; [simpl; by rewrite str_eqb_refl|].
  cbn [Mock.tset]. destruct (key_eqb float_int (JStr k) k') eqn:E; cbn [Mock.tget]; rewrite E; [done|exact IH].
Qed.
End tables.

(** ** Which handlers keep the idempotency store *)

(** [m] leaves the part [f] of the state as it is, however it ends. *)
Definition keeps {X A} (f : mock → X) (m : H A) : Prop := ∀ s, f (m s).2 = f s.

Section keeping.
Context {X : Type} (f : mock → X).

Lemma keeps_idem_ret {A} (a : A) : keeps f (mret a).
Proof. done. Qed.
Lemma keeps_throw {A} e : keeps f (throw (A := A) e).
Proof. done. Qed.
Lemma keeps_gets {A} (g : mock → A) : keeps f (gets g).
Proof. done. Qed.
Lemma keeps_modify g : (∀ s, f (g s) = f s) → keeps f (modify g).
Proof. intros Hg s. apply Hg. Qed.
Lemma keeps_idem_bind {A B} (m : H A) (k : A → H B) :
  keeps f m → (∀ a, keeps f (k a)) → keeps f (m ≫= k).
Proof.
  intros Hm Hk s. unfold mbind, H_bind. specialize (Hm s).
  destruct (m s) as [[e|a] s']; [done|]. simpl in Hm. by rewrite Hk.
Qed.
End keeping.

#[export] Hint Resolve keeps_idem_ret keeps_throw keeps_gets keeps_idem_bind : undolog.

Section server_facts.
Variable sha256_hexdigest : bytes → pystr.
Variable uuid4_hex : nat → pystr.
Variable py_str py_repr : json → pystr.
Variable float_int : pyfloat → option Z.
Variable float_of_text : pystr → pyfloat.

Abbreviation HANDLERS := (HANDLERS sha256_hexdigest uuid4_hex py_str py_repr float_int).
Abbreviation call_tool := (call_tool sha256_hexdigest uuid4_hex py_str py_repr float_int).
Abbreviation do_POST := (do_POST sha256_hexdigest uuid4_hex py_str py_repr float_int float_of_text).

Ltac keep_state :=
  repeat first
    [ progress intros | apply keeps_idem_ret | apply keeps_throw | apply keeps_gets | apply keeps_idem_bind
    | apply keeps_modify; done | by intros ? | case_match ].

(** Go through the dispatch table, one handler at a time. *)
Ltac keep_handlers args :=
  unfold MockServer.Mock.HANDLERS; cbn [dict_get];
  repeat (case_match; [intros [= <-]; (destruct args; try apply keeps_throw; unfold on_object) ;
    unfold handle_lookup_customer, handle_lookup_user, handle_lookup_plan, handle_lookup,
      handle_send_email, handle_create_ticket, handle_assign_engineer, handle_escalate,
      handle_charge_payment, handle_compensate_send_email, handle_compensate_create_ticket,
      handle_compensate_assign_engineer, handle_compensate_escalate,
      handle_compensate_charge_payment, handle_integration_test, update_ticket, new_id, lookup_in,
      put_ticket; keep_state|]);
  done.

Lemma handlers_keep_idem n h args :
  dict_get n HANDLERS = Some h → keeps mk_idem (h args).
Proof. keep_handlers args. Qed.

(** The customers are the seed data for good. *)
Lemma handlers_keep_customers n h args :
  dict_get n HANDLERS = Some h → keeps mk_customers (h args).
Proof. keep_handlers args. Qed.

(** ** Requests *)

(** The server moves from one state to another by handling a request. *)
Definition serves (s s' : mock) : Prop := ∃ rq r, do_POST rq s = (r, s').

(** A well-formed tool call: a POST to the endpoint whose body is an object. *)
Definition decodes (rq : post) (call : list (pystr * json)) : Prop :=
  po_path rq = $"/tools" ∧ ∃ body, read_body rq = inr body ∧ loads_bytes float_of_text body = inr (JObj call).

Lemma do_POST_decodes rq call :
  decodes rq call → do_POST rq = call_tool (default [] (po_idempotency_key rq)) call.
Proof.
  intros (Hp & body & Hb & Hl). unfold Mock.do_POST. rewrite Hp, str_eqb_refl. cbn [negb].
  by rewrite Hb, Hl.
Qed.

(** A key that is stored stays stored. *)
Lemma call_tool_keeps_key key call k r s :
  dict_get k (mk_idem s) = Some r → dict_get k (mk_idem (call_tool key call s).2) = Some r.
Proof.
  intros Hk. unfold Mock.call_tool, mbind, H_bind, gets, modify, mret, H_ret, throw.
  destruct (match key with [] => None | _ => dict_get key (mk_idem s) end) eqn:Ec; [done|].
  destruct (hashable _); [|done].
  destruct (match arg call _ _ with JStr n => dict_get n HANDLERS | _ => None end) as [h|] eqn:Eh; [|done].
  assert (keeps mk_idem (h (arg call $"args" (JObj [])))) as Hkeep.
  { case_match; try done. by eapply handlers_keep_idem. }
  specialize (Hkeep (add_call (arg call $"tool_name" (JStr $"unknown")) (arg call $"args" (JObj [])) s)).
  destruct (h _ _) as [[e|result] s'] eqn:E; cbn [snd] in *; [by rewrite Hkeep|].
  destruct key as [|c key]; cbn [snd]; [by rewrite Hkeep|]. cbn [mk_idem set_idem].
  rewrite dict_get_set_ne; [by rewrite Hkeep|]. intros <-. rewrite Hk in Ec. done.
Qed.

Lemma serves_keeps_key k r s s' :
  dict_get k (mk_idem s) = Some r → serves s s' → dict_get k (mk_idem s') = Some r.
Proof.
  intros Hk (rq & res & E). unfold Mock.do_POST in E. revert E.
  case_match; [by intros [= _ <-]|]. destruct (read_body rq) as [e|body]; [by intros [= _ <-]|].
  destruct (loads_bytes float_of_text body) as [e|v]; [destruct e; by intros [= _ <-]|].
  destruct v as [| | | | | |call]; try by intros [= _ <-].
  intros E. rewrite <-(call_tool_keeps_key (default [] (po_idempotency_key rq)) call k r s Hk).
  by rewrite E.
Qed.

Lemma call_tool_keeps_customers key call : keeps mk_customers (call_tool key call).
Proof.
  intros s. unfold Mock.call_tool, mbind, H_bind, gets, modify, mret, H_ret, throw.
  case_match; [done|]. destruct (hashable _); [|done].
  destruct (match arg call _ _ with JStr n => dict_get n HANDLERS | _ => None end) as [h|] eqn:Eh; [|done].
  assert (keeps mk_customers (h (arg call $"args" (JObj [])))) as Hkeep.
  { case_match; try done. by eapply handlers_keep_customers. }
  specialize (Hkeep (add_call (arg call $"tool_name" (JStr $"unknown")) (arg call $"args" (JObj [])) s)).
  destruct (h _ _) as [[e|result] s'] eqn:E; cbn [snd] in *; [done|]. by destruct key.
Qed.

Lemma serves_keeps_customers s s' : serves s s' → mk_customers s' = mk_customers s.
Proof.
  intros (rq & res & E). unfold Mock.do_POST in E. revert E.
  case_match; [by intros [= _ <-]|]. destruct (read_body rq) as [e|body]; [by intros [= _ <-]|].
  destruct (loads_bytes float_of_text body) as [e|v]; [destruct e; by intros [= _ <-]|].
  destruct v as [| | | | | |call]; try by intros [= _ <-].
  intros E. pose proof (call_tool_keeps_customers (default [] (po_idempotency_key rq)) call s) as H.
  by rewrite E in H.
Qed.

(** The handler of a call and the state it is run in. *)
Definition runs (call : list (pystr * json)) (s : mock) (result : list (pystr * json)) (s' : mock) : Prop :=
  ∃ name h, dict_get $"tool_name" call = Some (JStr name) ∧ dict_get name HANDLERS = Some h ∧
    h (arg call $"args" (JObj [])) (add_call (JStr name) (arg call $"args" (JObj [])) s) = (inr result, s').

Lemma call_tool_runs key call s result s' :
  key ≠ [] → dict_get key (mk_idem s) = None → runs call s result s' →
  call_tool key call s =
    (inr (status_of result, JObj result), set_idem (dict_set key result (mk_idem s')) s').
Proof.
  intros Hkey Hnew (name & h & Hn & Hh & Hr).
  unfold Mock.call_tool, mbind, H_bind, gets, modify, mret, H_ret.
  destruct key as [|c key]; [done|]. rewrite Hnew.
  unfold arg in *. rewrite Hn. cbn [from_option id hashable]. by rewrite Hh, Hr.
Qed.

Lemma cached_answer key call s r :
  key ≠ [] → dict_get key (mk_idem s) = Some r → call_tool key call s = (inr (200, JObj r), s).
Proof.
  intros Hkey Hk. unfold Mock.call_tool, mbind, H_bind, gets. destruct key as [|c key]; [done|].
  by rewrite Hk.
Qed.

(** C32: a retried compensation is not executed again. Once a call under an
    idempotency key was handled, every later call under that key, whatever was
    served in between, is answered with the stored result and changes nothing:
    no table, and no record of a tool call. *)
Theorem idempotent_retries_replay rq call key s result s1 :
  decodes rq call → po_idempotency_key rq = Some key → key ≠ [] → dict_get key (mk_idem s) = None →
  runs call s result s1 →
  ∃ s2, do_POST rq s = (inr (status_of result, JObj result), s2) ∧
    ∀ s3 rq' call', star serves s2 s3 → decodes rq' call' → po_idempotency_key rq' = Some key →
      do_POST rq' s3 = (inr (200, JObj result), s3).
Proof.
  intros Hd Hkey Hne Hnew Hr. rewrite (do_POST_decodes _ _ Hd), Hkey. cbn [from_option id].
  eexists. split; [exact (call_tool_runs _ _ _ _ _ Hne Hnew Hr)|].
  intros s3 rq' call' Hst Hd' Hkey'. rewrite (do_POST_decodes _ _ Hd'), Hkey'.
  apply cached_answer; [done|].
  refine (star_invariant serves (λ s, dict_get key (mk_idem s) = Some result) _ _ _ Hst _).
  - intros ? ?. apply serves_keeps_key.
  - cbn [mk_idem set_idem]. apply dict_get_set_eq.
Qed.

(** A failure is replayed as a success. The result of a call that failed is
    stored under its key like any other; the first answer has status 404, and a
    retry gets the same body with status 200. *)
Theorem replayed_failure_is_ok rq call key s result s1 :
  decodes rq call → po_idempotency_key rq = Some key → key ≠ [] → dict_get key (mk_idem s) = None →
  runs call s result s1 → dict_get $"success" result = Some (JBool false) →
  ∃ s2, do_POST rq s = (inr (404, JObj result), s2) ∧ do_POST rq s2 = (inr (200, JObj result), s2).
Proof.
  intros Hd Hkey Hne Hnew Hr Hf. rewrite (do_POST_decodes _ _ Hd), Hkey. cbn [from_option id].
  rewrite (call_tool_runs _ _ _ _ _ Hne Hnew Hr). unfold status_of, arg. rewrite Hf.
  eexists. split; [done|]. apply cached_answer; [done|]. cbn [mk_idem set_idem]. apply dict_get_set_eq.
Qed.

(** ** Tickets *)

Abbreviation assign := (handle_assign_engineer py_repr float_int).
Abbreviation unassign := (handle_compensate_assign_engineer float_int).
Abbreviation escalate := (handle_escalate py_str float_int).
Abbreviation deescalate := (handle_compensate_escalate float_int).

Lemma set_tickets_twice t t' s : set_tickets t (set_tickets t' s) = set_tickets t s.
Proof. done. Qed.
Lemma set_tickets_same s : set_tickets (mk_tickets s) s = s.
Proof. by destruct s. Qed.

(** A write that is undone leaves the table as it was. *)
Lemma put_back k row r r' s :
  tget float_int k (mk_tickets s) = Some row → r' = row →
  set_tickets (tset float_int k r' (tset float_int k r (mk_tickets s))) s = s.
Proof.
  intros Hk ->. rewrite (tset_twice _ _ _ _ _ _ Hk), (tset_same _ _ _ _ Hk). apply set_tickets_same.
Qed.

(** C31: compensations restore tickets. Undoing the assignment of an engineer to
    an open, unassigned ticket, and undoing the escalation of an open ticket
    that was not escalated, bring the tables back exactly. *)
Theorem compensations_restore_tickets args tid row s :
  dict_get $"ticket_id" args = Some tid → hashable tid = true →
  tget float_int tid (mk_tickets s) = Some row → dict_get $"status" row = Some (JStr $"open") →
  (∀ eng, dict_get $"engineer" args = Some eng → json_eqb float_int eng eng = true →
     dict_get $"engineer" row = None → ((assign args ≫= λ _, unassign args) s).2 = s) ∧
  (dict_get $"escalation_reason" row = None → ((escalate args ≫= λ _, deescalate args) s).2 = s).
Proof.
  intros Hid Hh Hrow Hopen. split.
  - intros eng Heng Hrefl Hfree.
    unfold handle_assign_engineer, handle_compensate_assign_engineer, update_ticket, lookup_in, put_ticket,
      arg, mbind, H_bind, gets, mret, H_ret. rewrite Hid, Heng. cbn [from_option id]. rewrite Hh, Hrow.
    cbn [mk_tickets set_tickets]. rewrite (tget_tset _ _ _ _ _ Hrow).
    rewrite dict_get_set_ne, dict_get_set_eq by done. cbn [from_option id]. rewrite Hrefl.
    cbn [snd]. rewrite set_tickets_twice. apply (put_back _ row); [done|].
    rewrite dict_set_twice, dict_set_comm by (done || rewrite Hopen; eauto).
    etrans; [apply dict_del_new; by rewrite dict_get_set_ne|]. by apply dict_set_same.
  - intros Hfree.
    unfold handle_escalate, handle_compensate_escalate, update_ticket, lookup_in, put_ticket,
      arg, mbind, H_bind, gets, mret, H_ret. rewrite Hid. cbn [from_option id]. rewrite Hh, Hrow.
    cbn [mk_tickets set_tickets]. rewrite (tget_tset _ _ _ _ _ Hrow). cbn [snd].
    rewrite set_tickets_twice. apply (put_back _ row); [done|].
    rewrite (dict_set_comm $"status") by (done || rewrite dict_get_set_eq; eauto).
    rewrite dict_set_twice. etrans; [apply dict_del_new; by rewrite dict_get_set_ne|].
    by apply dict_set_same.
Qed.

(** Undoing an escalation loses the assignment. The compensation of an
    escalation always reopens the ticket: an assigned ticket that was escalated
    comes back as open, with its engineer still on it. *)
Theorem deescalation_reopens args tid row eng s :
  dict_get $"ticket_id" args = Some tid → hashable tid = true →
  tget float_int tid (mk_tickets s) = Some row → dict_get $"status" row = Some (JStr $"assigned") →
  dict_get $"engineer" row = Some eng → dict_get $"escalation_reason" row = None →
  ∃ row', tget float_int tid (mk_tickets ((escalate args ≫= λ _, deescalate args) s).2) = Some row' ∧
    dict_get $"status" row' = Some (JStr $"open") ∧ dict_get $"engineer" row' = Some eng.
Proof.
  intros Hid Hh Hrow Hst Heng Hfree.
  unfold handle_escalate, handle_compensate_escalate, update_ticket, lookup_in, put_ticket,
    arg, mbind, H_bind, gets, mret, H_ret. rewrite Hid. cbn [from_option id]. rewrite Hh, Hrow.
  cbn [mk_tickets set_tickets]. rewrite (tget_tset _ _ _ _ _ Hrow). cbn [snd mk_tickets set_tickets].
  eexists. split; [erewrite tset_twice by exact Hrow; exact (tget_tset _ _ _ _ _ Hrow)|].
  rewrite (dict_set_comm $"status") by (done || rewrite dict_get_set_eq; eauto).
  rewrite dict_set_twice. rewrite dict_del_new by (by rewrite dict_get_set_ne).
  by rewrite dict_get_set_eq, dict_get_set_ne.
Qed.

(** ** Emails *)

Abbreviation send_email := (handle_send_email sha256_hexdigest py_str float_int).
Definition mail (to subject body : pystr) : list (pystr * json) :=
  [($"to", JStr to); ($"subject", JStr subject); ($"body", JStr body)].

(** Different emails can share an identifier. It is the digest of the
    fields joined with colons, so moving a colon between the recipient and the
    subject gives the same identifier: the second email is answered as sent and
    never stored. *)
Theorem colliding_email_is_lost a b c body key s :
  utf8_encode (a ++ $":" ++ b ++ $":" ++ c ++ $":" ++ body) = inr key →
  ∃ r s1, send_email (mail a (b ++ $":" ++ c) body) s = (inr r, s1) ∧
    send_email (mail (a ++ $":" ++ b) c body) s1 = (inr r, s1).
Proof.
  intros Hkey. unfold handle_send_email.
  assert (∀ to subject, to ++ $":" ++ subject ++ $":" ++ body = a ++ $":" ++ b ++ $":" ++ c ++ $":" ++ body →
    utf8_encode (email_key py_str (JStr to) (JStr subject) (JStr body)) = inr key) as He.
  { intros to subject E. unfold email_key, format_text. by rewrite E. }
  change (arg (mail ?t ?u body) $"to" (JStr [])) with (JStr t).
  cbn [mail arg dict_get from_option id]. unfold arg; simpl.
  rewrite !He by (by rewrite <-!app_assoc).
  unfold mbind, H_bind, gets, modify, mret, H_ret.
  set (mid := take 16 _). destruct (tget float_int (JStr mid) (mk_emails s)) eqn:E.
  - eexists _, _. split; [done|]. by rewrite E.
  - eexists _, _. split; [done|]. cbn [mk_emails set_emails]. by rewrite tget_tset_str.
Qed.
End server_facts.

(** ** The theorems about the mock tool server, on concrete requests *)

Module MockExamples.
Import Mock.

Definition mock_digest (b : bytes) : pystr := b.
Definition mock_uuid (n : nat) : pystr := to_digits 16 (Z.of_nat n).
Definition mock_text (_ : json) : pystr := $"value".
Definition mock_float_int (_ : pyfloat) : option Z := None.
Definition mock_float (_ : pystr) : pyfloat := FZero false.

Definition tool_call (name : pystr) (args : list (pystr * json)) : list (pystr * json) :=
  [($"tool_name", JStr name); ($"args", JObj args)].
Definition tool_post (key : pystr) (call : list (pystr * json)) : post :=
  let body := dumps (JObj call) in
  Post $"/tools" (Some (str_of_int (Z.of_nat (length body)))) (Some key) body.

Definition refund_call := tool_call $"compensate_charge_payment" [($"amount", JInt 30)].
Definition plan_call := tool_call $"lookup_plan" [($"plan_id", JStr $"gold")].

(** The handler a call runs, on the initial tables. *)
Definition run_initial (call : list (pystr * json)) : (mock_exc + list (pystr * json)) * mock :=
  match dict_get $"tool_name" call with
  | Some (JStr n) =>
      match dict_get n (HANDLERS mock_digest mock_uuid mock_text mock_text mock_float_int) with
      | Some h => h (arg call $"args" (JObj [])) (add_call (JStr n) (arg call $"args" (JObj [])) initial)
      | None => (inl MAttribute, initial)
      end
  | _ => (inl MAttribute, initial)
  end.

Definition refund_result : list (pystr * json) :=
  Eval vm_compute in match (run_initial refund_call).1 with inr r => r | inl _ => [] end.
Definition plan_result : list (pystr * json) :=
  Eval vm_compute in match (run_initial plan_call).1 with inr r => r | inl _ => [] end.

Lemma tool_post_decodes : decodes mock_float (tool_post $"undo-1" refund_call) refund_call.
Proof. split; [reflexivity|]. exists (dumps (JObj refund_call)). split; vm_compute; reflexivity. Defined.
Lemma plan_post_decodes : decodes mock_float (tool_post $"undo-2" plan_call) plan_call.
Proof. split; [reflexivity|]. exists (dumps (JObj plan_call)). split; vm_compute; reflexivity. Defined.

Lemma idempotent_retries_replay_witness :
  ∃ s2, do_POST mock_digest mock_uuid mock_text mock_text mock_float_int mock_float
          (tool_post $"undo-1" refund_call) initial = (inr (200, JObj refund_result), s2) ∧
    do_POST mock_digest mock_uuid mock_text mock_text mock_float_int mock_float
      (tool_post $"undo-1" refund_call) s2 = (inr (200, JObj refund_result), s2).
Proof.
  destruct (idempotent_retries_replay mock_digest mock_uuid mock_text mock_text mock_float_int mock_float
    (tool_post $"undo-1" refund_call) refund_call $"undo-1" initial refund_result
    (run_initial refund_call).2 tool_post_decodes) as (s2 & E & H);
    [reflexivity|done|reflexivity| |].
  { exists $"compensate_charge_payment", (on_object (handle_compensate_charge_payment mock_uuid mock_float_int)).
    split_and!; [reflexivity|reflexivity|vm_compute; reflexivity]. }
  exists s2. split; [exact E|]. by apply (H s2 _ refund_call (star_refl _ _) tool_post_decodes).
Defined.

Lemma replayed_failure_is_ok_witness :
  ∃ s2, do_POST mock_digest mock_uuid mock_text mock_text mock_float_int mock_float
          (tool_post $"undo-2" plan_call) initial = (inr (404, JObj plan_result), s2) ∧
    do_POST mock_digest mock_uuid mock_text mock_text mock_float_int mock_float
      (tool_post $"undo-2" plan_call) s2 = (inr (200, JObj plan_result), s2).
Proof.
  apply (replayed_failure_is_ok mock_digest mock_uuid mock_text mock_text mock_float_int mock_float
    _ plan_call $"undo-2" initial plan_result (run_initial plan_call).2 plan_post_decodes);
    [reflexivity|done|reflexivity| |reflexivity].
  exists $"lookup_plan", (on_object (handle_lookup_plan mock_text mock_float_int)).
  split_and!; [reflexivity|reflexivity|vm_compute; reflexivity].
Defined.

(** Tables with one ticket. *)
Definition open_ticket : list (pystr * json) :=
  [($"ticket_id", JStr $"TKT-1"); ($"status", JStr $"open")].
Definition assigned_ticket : list (pystr * json) :=
  [($"ticket_id", JStr $"TKT-2"); ($"status", JStr $"assigned"); ($"engineer", JStr $"sarah")].
Definition desk : mock :=
  set_tickets [(JStr $"TKT-1", open_ticket); (JStr $"TKT-2", assigned_ticket)] initial.

Lemma compensations_restore_tickets_witness :
  let args := [($"ticket_id", JStr $"TKT-1"); ($"engineer", JStr $"mike"); ($"reason", JStr $"late")] in
  ((handle_assign_engineer mock_text mock_float_int args ≫= λ _,
    handle_compensate_assign_engineer mock_float_int args) desk).2 = desk ∧
  ((handle_escalate mock_text mock_float_int args ≫= λ _,
    handle_compensate_escalate mock_float_int args) desk).2 = desk.
Proof.
  intros args.
  destruct (compensations_restore_tickets mock_text mock_text mock_float_int args (JStr $"TKT-1")
    open_ticket desk) as [Ha He]; [reflexivity..|].
  split; [apply (Ha (JStr $"mike")); reflexivity|apply He; reflexivity].
Defined.

Lemma deescalation_reopens_witness :
  let args := [($"ticket_id", JStr $"TKT-2"); ($"reason", JStr $"late")] in
  ∃ row, tget mock_float_int (JStr $"TKT-2") (mk_tickets
      ((handle_escalate mock_text mock_float_int args ≫= λ _,
        handle_compensate_escalate mock_float_int args) desk).2) = Some row ∧
    dict_get $"status" row = Some (JStr $"open") ∧ dict_get $"engineer" row = Some (JStr $"sarah").
Proof.
  intros args. apply (deescalation_reopens mock_text mock_float_int args (JStr $"TKT-2") assigned_ticket
    (JStr $"sarah") desk); reflexivity.
Defined.

Lemma colliding_email_is_lost_witness :
  ∃ r s1, handle_send_email mock_digest mock_text mock_float_int
      (mail $"ops" ($"alert" ++ $":" ++ $"disk") $"full") initial = (inr r, s1) ∧
    handle_send_email mock_digest mock_text mock_float_int
      (mail ($"ops" ++ $":" ++ $"alert") $"disk" $"full") s1 = (inr r, s1).
Proof.
  apply (colliding_email_is_lost mock_digest mock_text mock_float_int $"ops" $"alert" $"disk" $"full"
    $"ops:alert:disk:full" initial). vm_compute. reflexivity.
Defined.
End MockExamples.
