(* ===== verification/Facade.v ===== *)
(** * What the facades of the framework integrations share

    The wrappers for CrewAI, LlamaIndex and Semantic Kernel each hold a
    framework object and the record of their most recent run, classify and
    instrument tools by the same rules, and run the framework inside a session.
    The code is repeated in the three modules; it is modelled once here, with the
    wrapper's name in the messages as an argument. *)

From S2P Require Import Prelude Py Json Errors Client Tool Instrument LangGraph.
Open Scope Z_scope.
Open Scope undolog_scope.

Abbreviation dict := (list (pystr * json)).

(** [[f(x) for x in l]], stopping at the first exception. *)
Fixpoint traverse {A B} (f : A → sdk_exc + B) (l : list A) : sdk_exc + list B :=
  match l with
  | [] => inr []
  | x :: l' =>
      match f x with
      | inl e => inl e
      | inr y => match traverse f l' with inl e => inl e | inr k => inr (y :: k) end
      end
  end.

(** ** Instrumenting tools *)

Section tools.
Context {B : Type}.
Variable repr_name : option pystr → pystr.

(** The prefix rules on a lower-case name. *)
Definition classify_prefix (lower_name : pystr) : ToolTier :=
  if existsb (startswith lower_name) LangGraph.SAFE_PREFIXES then SAFE
  else if existsb (startswith lower_name) LangGraph.IRREVERSIBLE_PREFIXES then IRREVERSIBLE
  else COMPENSABLE.

(** [classify_tool]. *)
Definition classify_agent_tool (t : pytool B) : ToolTier :=
  match tg_undolog (pt_self t) with
  | Some i => in_tier i
  | None => classify_prefix (default [] (tool_name_of t) ≫= Errors.lower_text)
  end.

(** [audit_agent_tool]: the wrapper that logs every call has the behaviour and
    the attributes of the wrapped function. *)
Definition audit_agent_tool (t : pytool B) (tier : option ToolTier) (compensation_name : option pystr)
    (client : option client_config) : sdk_exc + target B :=
  LangGraph.wrap_tool repr_name (pt_self t) (default (classify_agent_tool t) tier)
    compensation_name client.

Definition cannot_instrument (wrapper : pystr) (name : option pystr) : pystr :=
  wrapper ++ $" cannot instrument " ++ repr_name name
  ++ $": UndoLog needs an async callable with a name, or an object exposing an async 'coroutine' attribute.".

(** The callable of a container seen as a tool: a function has no [name]. *)
Definition bare (t : target B) : pytool B := PyTool [] t None None.

(** [_instrument_agent_tool]. *)
Definition instrument_agent_tool (wrapper : pystr) (tiers : list (pystr * ToolTier))
    (compensations : list (pystr * pystr)) (client : option client_config)
    : pytool B → sdk_exc + pytool B := λ t,
  instrument_tool (cannot_instrument wrapper) (λ name tgt contained,
    match dict_get name tiers with
    | Some tier => LangGraph.wrap_tool repr_name tgt tier (dict_get name compensations) client
    | None =>
        let seen := if contained then bare tgt else t in
        audit_agent_tool seen (Some (classify_agent_tool seen)) (dict_get name compensations) client
    end) t.

(** A tool list: every tool is checked before any is instrumented. *)
Definition prepare_tools (wrapper container : pystr) (tiers : list (pystr * ToolTier))
    (compensations : list (pystr * pystr)) (client : option client_config) (tools : list (pytool B))
    : sdk_exc + list (pytool B) :=
  match traverse (λ t, require_async_tool repr_name t wrapper (Some container)) tools with
  | inl e => inl e
  | inr _ => traverse (instrument_agent_tool wrapper tiers compensations client) tools
  end.
End tools.

(** ** Runs *)

(** [_session_id], [_step_index], [_awaiting_approval] and [_approval_request]
    of a facade. *)
Record run_record := RunRecord {
  rr_session_id : option pystr;
  rr_step_index : Z;
  rr_awaiting : bool;
  rr_request : option dict;
}.
Definition no_run : run_record := RunRecord None 0 false None.

(** A facade in a process: the framework object it holds and its last run. *)
Record hosted (C E : Type) := Hosted {
  ho_object : C;
  ho_run : run_record;
  ho_agent : agent E;
}.
Arguments Hosted {C E}.
Arguments ho_object {C E}.
Arguments ho_run {C E}.
Arguments ho_agent {C E}.

(** [_reset_run]. *)
Definition reset_run (s : session) (start_step : Z) : run_record :=
  RunRecord (Some (session_id s)) start_step false None.

(** [_record_approval]. *)
Definition record_approval (attrs : dict) (r : run_record) : run_record :=
  RunRecord (rr_session_id r) (rr_step_index r) true (Some (LangGraph.approval_request attrs)).

Definition set_step (n : Z) (r : run_record) : run_record :=
  RunRecord (rr_session_id r) n (rr_awaiting r) (rr_request r).

Section runs.
Context {C E : Type}.
Variable fresh_uuid : E → pystr * E.
Variable py_str : json → pystr.

Abbreviation act := (M (agent E)).
Abbreviation fac := (M (hosted C E)).

(** Replace the framework object by what preparing it gives; the facade and the
    object are left as they were when the preparation raises. *)
Definition prepare (f : C → sdk_exc + C) : fac () := λ h,
  match f (ho_object h) with
  | inl e => (inl e, h)
  | inr c => (inr (), Hosted c (ho_run h) (ho_agent h))
  end.

(** A session around a call of the framework: the facade is pointed at the new
    session, an approval that stops the run is recorded before it propagates,
    and the step the session reached is reported however the run ends. *)
Definition run_in_session (org : pystr) (session_id : option json) (start_step : Z)
    (call : C → act json) : fac json := λ h,
  match (l ← LangGraph.open_session fresh_uuid py_str org session_id start_step;
         s ← LangGraph.session_at l; mret (l, s)) (ho_agent h) with
  | (inl e, a) => (inl e, Hosted (ho_object h) (ho_run h) a)
  | (inr (l, s), a) =>
      let started := reset_run s start_step in
      let '(outcome, a1) := run_with_session l (call (ho_object h)) a in
      let recorded :=
        match outcome with
        | inl e =>
            match LangGraph.awaiting_of e with
            | Some attrs => record_approval attrs started
            | None => started
            end
        | inr _ => started
        end in
      match LangGraph.session_at l a1 with
      | (inl e, a2) => (inl e, Hosted (ho_object h) recorded a2)
      | (inr s', a2) => (outcome, Hosted (ho_object h) (set_step (step_index s') recorded) a2)
      end
  end.
End runs.
