(* ===== verification/Crew.v ===== *)
(** * The CrewAI integration ([undolog_sdk/integrations/crewai.py])

    A crew is the framework's: what the wrapper touches of it is the tool lists
    of its agents and tasks, and running it is an argument of [kickoff_async]. *)

From S2P Require Import Prelude Py Json Errors Client Tool Instrument LangGraph Facade.
Open Scope Z_scope.
Open Scope undolog_scope.

Module Crew.

Definition INPUT_SESSION_KEY : pystr := $"session_id".
Definition INPUT_STEP_KEY : pystr := $"undolog_step_index".

(** The [tools] of every agent, and of every task when the crew has tasks;
    [None] is a missing list. *)
Record crew (B : Type) := MkCrew {
  cw_agents : list (option (list (pytool B)));
  cw_tasks : option (list (option (list (pytool B))));
}.
Arguments MkCrew {B}.
Arguments cw_agents {B}.
Arguments cw_tasks {B}.

(** The facade's configuration. *)
Record settings := Settings {
  st_org : pystr;
  st_tiers : list (pystr * ToolTier);
  st_compensations : list (pystr * pystr);
  st_client : option client_config;
}.

Section crewai.
Context {B E : Type}.
Variable repr_name : option pystr → pystr.
Variable fresh_uuid : E → pystr * E.
Variable py_str : json → pystr.
Variable int_of_float : pyfloat → option Z.
Variable int_error : json → pystr.

(** [_require_async_tool] and [_instrument_agent_tool] on one tool list. *)
Definition prepare_list (st : settings) : list (pytool B) → sdk_exc + list (pytool B) :=
  prepare_tools repr_name $"wrap_crewai" $"StructuredTool" (st_tiers st) (st_compensations st)
    (st_client st).

(** A task's tools; a task without tools is left alone. *)
Definition prepare_task (st : settings) (tools : option (list (pytool B)))
    : sdk_exc + option (list (pytool B)) :=
  match tools with
  | Some ((_ :: _) as ts) => ws ← prepare_list st ts; inr (Some ws)
  | _ => inr tools
  end.

(** [_prepare_agents]: everything is instrumented before anything is
    reassigned. *)
Definition prepare_agents (st : settings) (c : crew B) : sdk_exc + crew B :=
  plans ← traverse (λ tools, prepare_list st (default [] tools)) (cw_agents c);
  task_plans ← traverse (prepare_task st) (default [] (cw_tasks c));
  inr (MkCrew (Some <$> plans) (match cw_tasks c with None => None | Some _ => Some task_plans end)).

(** [payload or None]. *)
Definition or_none (d : dict) : option dict := match d with [] => None | _ => Some d end.

(** [WrappedCrew.kickoff_async]. *)
Definition kickoff_async (st : settings) (crew_kickoff : crew B → option dict → dict → M (agent E) json)
    (inputs : option dict) (kwargs : dict) : M (hosted (crew B) E) json :=
  let payload := default [] inputs in
  let session_id := dict_get INPUT_SESSION_KEY payload in
  let payload := dict_del INPUT_SESSION_KEY payload in
  let step := dict_get INPUT_STEP_KEY payload in
  let payload := dict_del INPUT_STEP_KEY payload in
  match LangGraph.start_step_of int_of_float int_error step with
  | inl e => raise e
  | inr start_step =>
      _ ← prepare (prepare_agents st);
      run_in_session fresh_uuid py_str (st_org st) session_id start_step
        (λ c, crew_kickoff c (or_none payload) kwargs)
  end.

(** [wrap_crewai]. *)
Definition wrap_crewai (crew_ : crew B) (org_id env_org_id : option pystr)
    (tiers : option (list (pystr * ToolTier))) (compensations : option (list (pystr * pystr)))
    (client : option client_config) (a : agent E) : settings * hosted (crew B) E :=
  (Settings (LangGraph.resolve_org org_id env_org_id) (default [] tiers) (default [] compensations)
     client, Hosted crew_ no_run a).
End crewai.
End Crew.
