(* ===== verification/LlamaIndex.v ===== *)
(** * The LlamaIndex integration ([undolog_sdk/integrations/llamaindex.py])

    What the wrapper touches of an index or agent is its [tools] and
    [tool_specs]; calling its [aquery] or [achat] is an argument. *)

From S2P Require Import Prelude Py Json Errors Client Tool Instrument LangGraph Facade Crew.
Open Scope Z_scope.
Open Scope undolog_scope.

Module LlamaIndex.

Definition INPUT_SESSION_KEY : pystr := $"session_id".
Definition INPUT_STEP_KEY : pystr := $"undolog_step_index".

Definition SAFE_PREFIXES : list pystr :=
  [$"get_"; $"read_"; $"fetch_"; $"list_"; $"search_"; $"lookup_"; $"query_"; $"check_";
   $"describe_"; $"view_"; $"find_"; $"calculate_"; $"is_"; $"has_"; $"show_"].

Definition IRREVERSIBLE_PREFIXES : list pystr :=
  [$"delete_"; $"drop_"; $"destroy_"; $"remove_"; $"purge_"; $"terminate_"; $"publish_";
   $"execute_"; $"kill_"; $"wipe_"; $"charge_"; $"pay_"; $"transfer_"; $"send_"].

(** [tools] and [tool_specs]: [None] when there is no such attribute, and
    [Some None] when it is [None]. *)
Record index (B : Type) := Index {
  ix_tools : option (option (list (pytool B)));
  ix_specs : option (option (list (pytool B)));
}.
Arguments Index {B}.
Arguments ix_tools {B}.
Arguments ix_specs {B}.

(** A keyword popped with default [None]; [None] is also a missing value. *)
Definition pop_keyword (k : pystr) (kwargs : dict) : option json :=
  match dict_get k kwargs with Some JNull => None | v => v end.

Section llamaindex.
Context {B E : Type}.
Variable repr_name : option pystr → pystr.
Variable fresh_uuid : E → pystr * E.
Variable py_str : json → pystr.
Variable int_of_float : pyfloat → option Z.
Variable int_error : json → pystr.

(** [list(index.tools or [])] when there is a list. *)
Definition listed (tools : option (option (list (pytool B)))) : list (pytool B) :=
  default [] (default None tools).

(** The list assigned back, where the attribute was a list. *)
Definition reassigned (tools : option (option (list (pytool B)))) (wrapped : list (pytool B))
    : option (option (list (pytool B))) :=
  match tools with Some (Some _) => Some (Some wrapped) | _ => tools end.

(** [classify_tool]. *)
Definition classify_tool (t : pytool B) : ToolTier :=
  match tg_undolog (pt_self t) with
  | Some i => in_tier i
  | None =>
      let lower_name := default [] (tool_name_of t) ≫= Errors.lower_text in
      if existsb (startswith lower_name) SAFE_PREFIXES then SAFE
      else if existsb (startswith lower_name) IRREVERSIBLE_PREFIXES then IRREVERSIBLE
      else COMPENSABLE
  end.

(** [audit_index_tool]: the wrapper that logs every call has the behaviour and
    the attributes of the wrapped function. *)
Definition audit_index_tool (t : pytool B) (tier : option ToolTier) (compensation_name : option pystr)
    (client : option client_config) : sdk_exc + target B :=
  LangGraph.wrap_tool repr_name (pt_self t) (default (classify_tool t) tier) compensation_name client.

(** [_instrument_index_tool]. *)
Definition instrument_index_tool (st : Crew.settings) : pytool B → sdk_exc + pytool B := λ t,
  instrument_tool (cannot_instrument repr_name $"wrap_llamaindex") (λ name tgt contained,
    match dict_get name (Crew.st_tiers st) with
    | Some tier =>
        LangGraph.wrap_tool repr_name tgt tier (dict_get name (Crew.st_compensations st)) (Crew.st_client st)
    | None =>
        let seen := if contained then bare tgt else t in
        audit_index_tool seen (Some (classify_tool seen)) (dict_get name (Crew.st_compensations st))
          (Crew.st_client st)
    end) t.

(** [_prepare_index]. *)
Definition prepare_index (st : Crew.settings) (ix : index B) : sdk_exc + index B :=
  match ix_tools ix, ix_specs ix with
  | None, None => inl EAttribute
  | _, _ =>
      let check := traverse (λ t, require_async_tool repr_name t $"wrap_llamaindex" (Some $"FunctionTool")) in
      let wrap := traverse (instrument_index_tool st) in
      _ ← check (listed (ix_tools ix));
      _ ← check (listed (ix_specs ix));
      wrapped_tools ← wrap (listed (ix_tools ix));
      wrapped_specs ← wrap (listed (ix_specs ix));
      inr (Index (reassigned (ix_tools ix) wrapped_tools) (reassigned (ix_specs ix) wrapped_specs))
  end.

(** The session a call continues, and the step it starts from. *)
Definition resume_point (multi_turn is_chat : bool) (kwargs : dict) (r : run_record)
    : option json * (sdk_exc + Z) :=
  let step_or (d : Z) := match pop_keyword INPUT_STEP_KEY kwargs with
                         | None => inr d
                         | Some v => LangGraph.py_int_of int_of_float int_error v
                         end in
  match pop_keyword INPUT_SESSION_KEY kwargs with
  | Some v => (Some v, step_or 0)
  | None =>
      match rr_session_id r with
      | Some id => if is_chat || multi_turn then (Some (JStr id), step_or (rr_step_index r))
                   else (None, step_or 0)
      | None => (None, step_or 0)
      end
  end.

(** [WrappedIndex._run_with_session]; [call] is the method of the index, with
    the arguments it gets. *)
Definition run_index (st : Crew.settings) (multi_turn : bool)
    (call : index B → json → dict → M (agent E) json) (is_chat : bool) (arg : json) (kwargs : dict)
    : M (hosted (index B) E) json := λ h,
  let '(session_id, start) := resume_point multi_turn is_chat kwargs (ho_run h) in
  let rest := dict_del INPUT_STEP_KEY (dict_del INPUT_SESSION_KEY kwargs) in
  match start with
  | inl e => (inl e, h)
  | inr start_step =>
      (_ ← prepare (prepare_index st);
       run_in_session fresh_uuid py_str (Crew.st_org st) session_id start_step
         (λ ix, call ix arg rest)) h
  end.

(** [aquery] and [achat]. *)
Definition aquery st multi_turn call := run_index st multi_turn call false.
Definition achat st multi_turn call := run_index st multi_turn call true.

(** [wrap_llamaindex]: the configuration, [multi_turn] and the new facade. *)
Definition wrap_llamaindex (ix : index B) (org_id env_org_id : option pystr)
    (tiers : option (list (pystr * ToolTier))) (compensations : option (list (pystr * pystr)))
    (client : option client_config) (multi_turn : bool) (a : agent E)
    : Crew.settings * bool * hosted (index B) E :=
  (Crew.Settings (LangGraph.resolve_org org_id env_org_id) (default [] tiers)
     (default [] compensations) client, multi_turn, Hosted ix no_run a).
End llamaindex.
End LlamaIndex.
