(* ===== verification/Kernel.v ===== *)
(** * The Semantic Kernel integration ([undolog_sdk/integrations/semantic_kernel.py])

    What the wrapper touches of a kernel is its [plugins]; registering a
    function with the kernel and invoking it are arguments. *)

From S2P Require Import Prelude Py Json Errors Client Tool Instrument LangGraph Facade Crew.
Open Scope Z_scope.
Open Scope undolog_scope.

Module Kernel.

Definition INPUT_SESSION_KEY : pystr := $"session_id".
Definition INPUT_STEP_KEY : pystr := $"undolog_step_index".

(** A plugin function; a [coroutine] or [function] attribute that is a bound
    method is a new object at every access. *)
Record plugin_function (B : Type) := PluginFunction {
  pf_tool : pytool B;
  pf_coroutine_bound : bool;
  pf_function_bound : bool;
}.
Arguments PluginFunction {B}.
Arguments pf_tool {B}.
Arguments pf_coroutine_bound {B}.
Arguments pf_function_bound {B}.

(** A plugin: a mutable mapping of functions, an object whose [functions] are a
    mutable mapping or a list, or something the wrapper does not look into. *)
Inductive plugin (B : Type) :=
| PMapping (fs : list (pystr * plugin_function B))
| PFunctionsMap (fs : list (pystr * plugin_function B))
| PFunctionsList (fs : list (plugin_function B))
| POpaque.
Arguments PMapping {B}.
Arguments PFunctionsMap {B}.
Arguments PFunctionsList {B}.
Arguments POpaque {B}.

(** The kernel: its [plugins] in iteration order, [None] when it has none, and
    the framework's own state. *)
Record kernel (B R : Type) := MkKernel {
  kn_plugins : option (list (plugin B));
  kn_state : R;
}.
Arguments MkKernel {B R}.
Arguments kn_plugins {B R}.
Arguments kn_state {B R}.

(** The arguments of an invocation: none, a mutable mapping, a mapping that
    cannot be changed, or another object, with what testing it for the resume
    keys gives ([None] when [in] raises). *)
Inductive arguments :=
| ANone
| AMutable (d : dict)
| AFrozen (d : dict)
| AOther (has_keys : option bool).

Section semantic_kernel.
Context {B R E : Type}.
Variable repr_name : option pystr → pystr.
Variable fresh_uuid : E → pystr * E.
Variable py_str : json → pystr.
Variable int_of_float : pyfloat → option Z.
Variable int_error : json → pystr.

(** ** Functions *)

(** [classify_tool] with a name. *)
Definition classify_function (t : target B) (name : pystr) : ToolTier :=
  match tg_undolog t with
  | Some i => in_tier i
  | None =>
      let lower_name := name ≫= Errors.lower_text in
      let clean_name := lstrip_by (λ c, c =? 95) lower_name in
      let matches := λ p, startswith lower_name p || startswith clean_name p in
      if existsb matches LangGraph.SAFE_PREFIXES then SAFE
      else if existsb matches LangGraph.IRREVERSIBLE_PREFIXES then IRREVERSIBLE
      else COMPENSABLE
  end.

(** [audit_kernel_function] with a name. *)
Definition audit_kernel_function (t : target B) (tier : option ToolTier)
    (compensation_name : option pystr) (client : option client_config) (tool_name : pystr)
    : sdk_exc + target B :=
  LangGraph.wrap_tool repr_name t (default (classify_function t tool_name) tier)
    compensation_name client.

(** Where the callable of a function was found. *)
Inductive slot := Self | InCoroutine | InFunction.

(** [getattr(f, "coroutine", None) or getattr(f, "function", None)]. *)
Definition function_target (f : pytool B) : target B * slot :=
  match pt_coroutine f, pt_function f with
  | Some c, _ => if is_callable_target c then (c, InCoroutine) else (pt_self f, Self)
  | None, Some g => if is_callable_target g then (g, InFunction) else (pt_self f, Self)
  | None, None => (pt_self f, Self)
  end.

Definition kernel_message (name : option pystr) : pystr :=
  $"wrap_semantic_kernel cannot instrument " ++ repr_name name
  ++ $": UndoLog needs an async callable with a name, because it awaits the function it wraps.".

(** The replica of a container: the attribute is replaced when it is the very
    object that was instrumented, which a bound method never is. *)
Definition replica (f : plugin_function B) (s : slot) (w : target B) : plugin_function B :=
  let t := pf_tool f in
  match s with
  | Self => PluginFunction (PyTool (pt_name t) w (pt_coroutine t) (pt_function t))
              (pf_coroutine_bound f) (pf_function_bound f)
  | InCoroutine =>
      if pf_coroutine_bound f then f
      else PluginFunction (PyTool (pt_name t) (pt_self t) (Some w) (pt_function t))
             false (pf_function_bound f)
  | InFunction =>
      if pf_function_bound f then f
      else PluginFunction (PyTool (pt_name t) (pt_self t) (pt_coroutine t) (Some w))
             (pf_coroutine_bound f) false
  end.

(** [_instrument_plugin_function]. *)
Definition instrument_plugin_function (st : Crew.settings) (name : pystr) (f : plugin_function B)
    : sdk_exc + plugin_function B :=
  let '(tgt, s) := function_target (pf_tool f) in
  match tg_body tgt, tg_dunder_name tgt, name with
  | Some _, Some _, _ :: _ =>
      _ ← require_async_tool repr_name (match s with Self => pf_tool f | _ => bare tgt end)
            $"wrap_semantic_kernel" None;
      match tg_undolog tgt with
      | Some _ => inr f
      | None =>
          w ← match dict_get name (Crew.st_tiers st) with
              | Some tier =>
                  LangGraph.wrap_tool repr_name tgt tier (dict_get name (Crew.st_compensations st))
                    (Crew.st_client st)
              | None =>
                  audit_kernel_function tgt (Some (classify_function tgt name))
                    (dict_get name (Crew.st_compensations st)) (Crew.st_client st) name
              end;
          inr (replica f s w)
      end
  | _, _, _ => inl (EValue (kernel_message (match name with [] => None | _ => Some name end)))
  end.

(** ** Plugins *)

(** The functions of a mapping, whose keys are texts: [str(fname)] is the key
    itself, so [update] replaces the functions in place. (Under another kind of
    key the source would add a second entry.) *)
Definition bind_map (st : Crew.settings) (fs : list (pystr * plugin_function B))
    : sdk_exc + list (pystr * plugin_function B) :=
  traverse (λ nf, w ← instrument_plugin_function st nf.1 nf.2; inr (nf.1, w)) fs.

(** The name of a listed function. *)
Definition listed_name (idx : nat) (f : plugin_function B) : pystr :=
  match tool_name_of (pf_tool f) with
  | Some ((_ :: _) as n) => n
  | _ => $"func_" ++ str_of_int (Z.of_nat idx)
  end.

(** [_bind_plugin_functions]. *)
Definition bind_plugin_functions (st : Crew.settings) (p : plugin B) : sdk_exc + plugin B :=
  match p with
  | PMapping fs => ws ← bind_map st fs; inr (PMapping ws)
  | PFunctionsMap fs => ws ← bind_map st fs; inr (PFunctionsMap ws)
  | PFunctionsList fs =>
      ws ← traverse (λ jf, instrument_plugin_function st (listed_name jf.1 jf.2) jf.2)
             (imap (λ i f, (i, f)) fs);
      inr (PFunctionsList ws)
  | POpaque => inr POpaque
  end.

(** The loop of [_prepare_plugins]: a plugin that was bound stays bound when a
    later one is rejected. *)
Fixpoint bind_plugins (st : Crew.settings) (ps : list (plugin B)) : (sdk_exc + ()) * list (plugin B) :=
  match ps with
  | [] => (inr (), [])
  | p :: ps' =>
      match bind_plugin_functions st p with
      | inl e => (inl e, p :: ps')
      | inr q => let '(r, qs) := bind_plugins st ps' in (r, q :: qs)
      end
  end.

(** [_prepare_plugins]. *)
Definition prepare_plugins (st : Crew.settings) (k : kernel B R) : (sdk_exc + ()) * kernel B R :=
  match kn_plugins k with
  | None => (inr (), k)
  | Some ps => let '(r, qs) := bind_plugins st ps in (r, MkKernel (Some qs) (kn_state k))
  end.

(** ** Registration *)

(** [_require_instrumentable]. *)
Definition require_instrumentable (f : plugin_function B) : sdk_exc + () :=
  let self := pt_self (pf_tool f) in
  match tg_body self, tg_dunder_name self with
  | Some _, Some (_ :: _) => require_async_tool repr_name (pf_tool f) $"wrap_semantic_kernel" None
  | _, _ => inl (EValue (kernel_message None))
  end.

(** [WrappedKernel._instrument]. *)
Definition instrument_function (st : Crew.settings) (name : pystr) (f : plugin_function B)
    : sdk_exc + plugin_function B :=
  _ ← require_instrumentable f; instrument_plugin_function st name f.

Abbreviation fac := (M (hosted (kernel B R) E)).

(** The kernel's own [add_function], with the plugin and function names. *)
Variable kernel_add : pystr → pystr → plugin_function B → kernel B R → (sdk_exc + json) * kernel B R.

Definition call_kernel_add (plugin_name function_name : pystr) (f : plugin_function B) : fac json := λ h,
  let '(r, k) := kernel_add plugin_name function_name f (ho_object h) in
  (r, Hosted k (ho_run h) (ho_agent h)).

(** [add_function]. *)
Definition add_function (st : Crew.settings) (plugin_name function_name : pystr)
    (f : plugin_function B) : fac json :=
  match instrument_function st function_name f with
  | inl e => raise e
  | inr w => call_kernel_add plugin_name function_name w
  end.

Fixpoint register_all (plugin_name : pystr) (fs : list (pystr * plugin_function B)) : fac () :=
  match fs with
  | [] => mret ()
  | (name, w) :: fs' => _ ← call_kernel_add plugin_name name w; register_all plugin_name fs'
  end.

(** [add_functions]. *)
Definition add_functions (st : Crew.settings) (plugin_name : pystr)
    (functions : list (pystr * plugin_function B)) : fac () :=
  match traverse (λ nf, w ← instrument_function st nf.1 nf.2; inr (nf.1, w)) functions with
  | inl e => raise e
  | inr registered => register_all plugin_name registered
  end.

(** ** Invocations *)

(** [key in arguments] for either resume key. *)
Definition has_resume_keys (d : dict) : bool :=
  match dict_get INPUT_SESSION_KEY d, dict_get INPUT_STEP_KEY d with None, None => false | _, _ => true end.

(** [_pop_resume_keys]: the resume point, and the arguments afterwards; the
    keys are gone even when the step cannot be read. *)
Definition pop_resume_keys (args : arguments) : (sdk_exc + (option json * Z)) * arguments :=
  match args with
  | ANone => (inr (None, 0), ANone)
  | AMutable d =>
      if has_resume_keys d then
        let rest := dict_del INPUT_STEP_KEY (dict_del INPUT_SESSION_KEY d) in
        match LangGraph.start_step_of int_of_float int_error (dict_get INPUT_STEP_KEY d) with
        | inl e => (inl e, AMutable rest)
        | inr n => (inr (dict_get INPUT_SESSION_KEY d, n), AMutable rest)
        end
      else (inr (None, 0), AMutable d)
  | AFrozen d => ((if has_resume_keys d then inl EType else inr (None, 0)), AFrozen d)
  | AOther (Some false) => (inr (None, 0), args)
  | AOther _ => (inl EType, args)
  end.

(** [_prepare_plugins] on the facade's kernel. *)
Definition prepare_kernel (st : Crew.settings) : fac () := λ h,
  let '(r, k) := prepare_plugins st (ho_object h) in (r, Hosted k (ho_run h) (ho_agent h)).

(** [_run_in_session]. *)
Definition run_kernel (st : Crew.settings) (session_id : option json) (start_step : Z)
    (call : kernel B R → M (agent E) json) : fac json :=
  _ ← prepare_kernel st;
  run_in_session fresh_uuid py_str (Crew.st_org st) session_id start_step call.

(** [invoke]: the keyword [arguments], or the second positional argument when
    it is not given; the mapping belongs to the caller, who gets it back
    without the resume keys. *)
Definition invoke (st : Crew.settings) (kernel_invoke : kernel B R → arguments → M (agent E) json)
    (keyword positional : arguments) (h : hosted (kernel B R) E)
    : (sdk_exc + json) * arguments * hosted (kernel B R) E :=
  let args := match keyword with ANone => positional | _ => keyword end in
  match pop_resume_keys args with
  | (inl e, args') => (inl e, args', h)
  | (inr (session_id, start_step), args') =>
      let '(r, h') := run_kernel st session_id start_step (λ k, kernel_invoke k args') h in
      (r, args', h')
  end.

(** [invoke_prompt]. *)
Definition invoke_prompt (st : Crew.settings) (kernel_prompt : kernel B R → arguments → M (agent E) json)
    (keyword : arguments) (h : hosted (kernel B R) E)
    : (sdk_exc + json) * arguments * hosted (kernel B R) E :=
  invoke st kernel_prompt keyword ANone h.

(** [session]: a block of the caller's code. *)
Definition session_block (st : Crew.settings) (session_id : option json) (start_step : Z)
    (block : M (agent E) json) : fac json :=
  run_kernel st session_id start_step (λ _, block).

(** [wrap_semantic_kernel]: the plugins are bound when the facade is made. *)
Definition wrap_semantic_kernel (k : kernel B R) (org_id env_org_id : option pystr)
    (tiers : option (list (pystr * ToolTier))) (compensations : option (list (pystr * pystr)))
    (client : option client_config) (a : agent E)
    : (sdk_exc + Crew.settings) * hosted (kernel B R) E :=
  let st := Crew.Settings (LangGraph.resolve_org org_id env_org_id) (default [] tiers)
              (default [] compensations) client in
  match prepare_kernel st (Hosted k no_run a) with
  | (inl e, h) => (inl e, h)
  | (inr _, h) => (inr st, h)
  end.
End semantic_kernel.
End Kernel.
