(* ===== verification/Durable.v ===== *)
(** * Durable workflows

    An agent's run is a sequence of tool calls, each chosen from the results of
    the ones before. [durable] says what such a run does in terms of the states
    of its call signatures: it is the contract UndoLog offers its callers, and
    the lemmas below are what follows from it when a run is interrupted and
    started again. [DurableTheorems] proves that decorated tools served by the
    development server run this way. *)

From S2P Require Import Prelude Py Json Protocol DevHandler Errors Client Tool EndToEnd.
Open Scope Z_scope.
Open Scope undolog_scope.

(** A workflow over the tools [T]. *)
Inductive workflow (T Args : Type) :=
| WReturn (v : json)
| WCall (t : T) (x : Args) (k : json → workflow T Args).
Arguments WReturn {T Args}.
Arguments WCall {T Args}.

(** How a run ends: with its value, or at a step whose call did not return. *)
Inductive wf_end (T : Type) :=
| Finished (v : json)
| Stopped (step : Z) (t : T) (r : tool_result).
Arguments Finished {T}.
Arguments Stopped {T}.

Section durable.
Context {T Args : Type}.
Variable srv : server.
(** Whether the server asks for an approval, what the body does, and the
    signature of a call at a step. *)
Variable gate : T → bool.
Variable run_tool : T → Args → pystr + json.
Variable sig_of : Z → T → Args → pystr.

Abbreviation wf := (workflow T Args).
Abbreviation states := (pystr → call_state).

(** What is logged when a body runs. *)
Definition ran_at (ran : bool) (n : Z) (t : T) (x : Args) : list (Z * T * Args) :=
  if ran then [(n, t, x)] else [].

(** A run of a workflow whose steps are numbered from [n + 1]: the results of
    the calls that returned, how it ended, and the bodies that ran. *)
Inductive durable : wf → Z → states → list json → wf_end T → states → list (Z * T * Args) → Prop :=
| dur_return v n V : durable (WReturn v) n V [] (Finished v) V []
| dur_call t x k n V v ran V1 tr o V2 bs :
    tool_step srv (gate t) (run_tool t x) (V (sig_of (n + 1) t x)) (Returns v) ran (V1 (sig_of (n + 1) t x)) →
    elsewhere (sig_of (n + 1) t x) V V1 →
    durable (k v) (n + 1) V1 tr o V2 bs →
    durable (WCall t x k) n V (v :: tr) o V2 (ran_at ran (n + 1) t x ++ bs)
| dur_stop t x k n V r ran V1 :
    tool_step srv (gate t) (run_tool t x) (V (sig_of (n + 1) t x)) r ran (V1 (sig_of (n + 1) t x)) →
    (∀ v, r ≠ Returns v) → elsewhere (sig_of (n + 1) t x) V V1 →
    durable (WCall t x k) n V [] (Stopped (n + 1) t r) V1 (ran_at ran (n + 1) t x).

(** ** What is committed stays committed *)

(** Every committed signature of [V] is committed with the same result. *)
Definition keeps_done (V V' : states) : Prop := ∀ sig id r, V sig = Done id r → V' sig = Done id r.

Lemma keeps_done_refl V : keeps_done V V.
Proof. by intros sig id r. Qed.
Lemma keeps_done_trans V1 V2 V3 : keeps_done V1 V2 → keeps_done V2 V3 → keeps_done V1 V3.
Proof. intros H1 H2 sig id r E. by apply H2, H1. Qed.

Lemma step_from_done g b id r res ran st' :
  tool_step srv g b (Done id r) res ran st' →
  res = Returns (unwrap_replay_result (default JNull r)) ∧ ran = false ∧ st' = Done id r.
Proof. inversion 1 as [? ? ? ? Hr|? ? ? ? Hr|? ? ? Hr|]; subst; [by inversion Hr..|done]. Qed.

Lemma step_keeps_done g b n t x V res ran V1 :
  tool_step srv g b (V (sig_of n t x)) res ran (V1 (sig_of n t x)) →
  elsewhere (sig_of n t x) V V1 → keeps_done V V1.
Proof.
  intros Hstep He sig id r E. destruct (base.decide (sig = sig_of n t x)) as [->|Hne]; [|by rewrite He].
  rewrite E in Hstep. by apply step_from_done in Hstep as (_ & _ & ?).
Qed.

Lemma durable_keeps_done p n V tr o V' bs : durable p n V tr o V' bs → keeps_done V V'.
Proof.
  induction 1 as [| |]; [apply keeps_done_refl| |by eapply step_keeps_done].
  eapply keeps_done_trans; [by eapply step_keeps_done|done].
Qed.

(** A call that returned left its signature committed with what it returned. *)
Lemma step_returns g b st v ran st' :
  tool_step srv g b st (Returns v) ran st' →
  ∃ id r, st' = Done id r ∧ unwrap_replay_result (default JNull r) = v.
Proof. inversion 1; subst; eauto. Qed.

(** Bodies run at the steps of the run. *)
Lemma durable_steps p n V tr o V' bs : durable p n V tr o V' bs → Forall (λ b, n < b.1.1) bs.
Proof.
  induction 1 as [|t x k n V v ran V1 tr o V2 bs Hs He H IH|t x k n V r ran V1 Hs Hr He].
  - constructor.
  - apply Forall_app; split; [destruct ran; repeat constructor; simpl; lia|].
    eapply Forall_impl; [exact IH|]. simpl. lia.
  - destruct ran; repeat constructor; simpl; lia.
Qed.

(** ** Interrupted runs *)

(** [p] is [q] interrupted: it makes the same calls and may end early. *)
Inductive cut : wf → wf → Prop :=
| cut_end v q : cut (WReturn v) q
| cut_call t x k k' : (∀ v, cut (k v) (k' v)) → cut (WCall t x k) (WCall t x k').

Lemma cut_refl p : cut p p.
Proof. induction p as [v|t x k IH]; by constructor. Qed.

(** What a repetition meets: every call that returned returns the same value
    and its body does not run. *)
Lemma replay_step t x k n V V1 v tr o bs id r :
  V (sig_of (n + 1) t x) = Done id r → unwrap_replay_result (default JNull r) = v →
  durable (WCall t x k) n V tr o V1 bs →
  ∃ tr' W, tr = v :: tr' ∧ keeps_done V W ∧ (∀ sig, W sig = V sig) ∧ durable (k v) (n + 1) W tr' o V1 bs.
Proof.
  intros Hd Hv H. inversion H as [|? ? ? ? ? v' ran W tr' ? ? bs' Hs He Hk|? ? ? ? ? res ran W Hs Hr He]; subst.
  - rewrite Hd in Hs. apply step_from_done in Hs as ([= ->] & -> & Hst). exists tr', W.
    split_and!; try done.
    + intros sig id' r' E. destruct (base.decide (sig = sig_of (n + 1) t x)) as [->|Hne]; [|by rewrite He].
      congruence.
    + intros sig. destruct (base.decide (sig = sig_of (n + 1) t x)) as [->|Hne]; [congruence|by apply He].
  - rewrite Hd in Hs. apply step_from_done in Hs as (-> & _). by destruct (Hr _ eq_refl).
Qed.

(** A run that is started again repeats the results of the calls that had
    returned, and runs no body of theirs again. *)
Lemma repeated_run p q n V V1 V2 V3 tr tr2 o o2 bs bs2 :
  cut p q → durable p n V tr o V1 bs → keeps_done V1 V2 → durable q n V2 tr2 o2 V3 bs2 →
  tr `prefix_of` tr2 ∧ Forall (λ b, n + Z.of_nat (length tr) < b.1.1) bs2.
Proof.
  intros Hcut H. revert q V2 tr2 bs2 Hcut.
  induction H as [v n V|t x k n V v ran W tr o V1 bs Hs He H IH|t x k n V r ran W Hs Hr He];
    intros q V2 tr2 bs2 Hcut Hkeep H2.
  - split; [apply prefix_nil|]. simpl. rewrite Z.add_0_r. by eapply durable_steps.
  - inversion Hcut as [|? ? ? k' Hk]; subst.
    destruct (step_returns _ _ _ _ _ _ Hs) as (id & r & Hd & Hv).
    assert (V2 (sig_of (n + 1) t x) = Done id r) as Hd2
      by (apply Hkeep; by eapply durable_keeps_done).
    destruct (replay_step _ _ _ _ _ _ _ _ _ _ _ _ Hd2 Hv H2) as (tr' & W2 & -> & Hk2 & _ & H2').
    destruct (IH (k' v) W2 tr' bs2 (Hk v)) as [Hp Hb]; [by eapply keeps_done_trans|done|].
    split; [by apply prefix_cons|]. eapply Forall_impl; [exact Hb|]. simpl. lia.
  - split; [apply prefix_nil|]. simpl. rewrite Z.add_0_r. by eapply durable_steps.
Qed.

(** ** Complete runs *)

(** The calls and the value of a run without UndoLog, when no body raises. *)
Fixpoint plain_run (p : wf) : list (T * Args) → json → Prop :=
  match p with
  | WReturn v => λ calls out, calls = [] ∧ out = v
  | WCall t x k => λ calls out,
      ∃ v rest, run_tool t x = inr v ∧ calls = (t, x) :: rest ∧ plain_run (k v) rest out
  end.

(** The bodies of a complete run, with their steps. *)
Fixpoint numbered (n : Z) (calls : list (T * Args)) : list (Z * T * Args) :=
  match calls with
  | [] => []
  | (t, x) :: rest => (n + 1, t, x) :: numbered (n + 1) rest
  end.

(** The calls that have a signature, and calls of later steps that are free. *)
Variable valid : Z → T → Args → Prop.
Hypothesis steps_apart : ∀ m m' t t' x x',
  valid m t x → valid m' t' x' → sig_of m t x = sig_of m' t' x' → m = m'.

Definition free_after (n : Z) (V : states) : Prop :=
  ∀ m t x, n < m → valid m t x → V (sig_of m t x) = Free.

(** The calls of a workflow are valid and need no approval. *)
Fixpoint open_calls (p : wf) (n : Z) : Prop :=
  match p with
  | WReturn _ => True
  | WCall t x k => valid (n + 1) t x ∧ gate t = false ∧ ∀ v, open_calls (k v) (n + 1)
  end.

(** A free, open call runs its body and commits. *)
Lemma open_step t x v n V res ran V1 :
  valid (n + 1) t x → gate t = false → run_tool t x = inr v → free_after n V →
  tool_step srv (gate t) (run_tool t x) (V (sig_of (n + 1) t x)) res ran (V1 (sig_of (n + 1) t x)) →
  elsewhere (sig_of (n + 1) t x) V V1 →
  res = Returns v ∧ ran = true ∧ free_after (n + 1) V1 ∧
  ∃ id, V1 (sig_of (n + 1) t x) = Done id (Some (result_envelope v)).
Proof.
  intros Hval Hg Hb Hfree Hs He. rewrite (Hfree (n + 1) t x) in Hs by (done || lia). rewrite Hg, Hb in Hs.
  assert (free_after (n + 1) V1) as Hfree'.
  { intros m t' x' Hm Hval'. rewrite He; [apply Hfree; [lia|done]|].
    intros Heq. apply (steps_apart m (n + 1)) in Heq; [lia|done..]. }
  inversion Hs as [? id ? ? Hr Ho E1 E2 E3|? ? ? ? Hr Ho|? ? ? Hr|]; simplify_eq; [eauto|by inversion Hr].
Qed.

(** From free signatures a run finishes with the plain result, and every body
    runs once. *)
Lemma complete_run p calls out n V tr o V' bs :
  open_calls p n → plain_run p calls out → free_after n V → durable p n V tr o V' bs →
  o = Finished out ∧ bs = numbered n calls.
Proof.
  intros Hopen Hplain Hfree H. revert calls Hopen Hplain Hfree.
  induction H as [v n V|t x k n V v ran W tr o V1 bs Hs He H IH|t x k n V r ran W Hs Hr He];
    intros calls Hopen Hplain Hfree; simpl in Hopen, Hplain.
  - by destruct Hplain as [-> ->].
  - destruct Hopen as (Hval & Hg & Hk), Hplain as (v' & rest & Hb & -> & Hrest).
    destruct (open_step _ _ _ _ _ _ _ _ Hval Hg Hb Hfree Hs He) as ([= ->] & -> & Hfree' & _).
    destruct (IH rest (Hk _) Hrest Hfree') as [-> ->]. done.
  - destruct Hopen as (Hval & Hg & Hk), Hplain as (v' & rest & Hb & -> & Hrest).
    destruct (open_step _ _ _ _ _ _ _ _ Hval Hg Hb Hfree Hs He) as (-> & _). by destruct (Hr _ eq_refl).
Qed.

(** Interrupted anywhere between two calls and started again, a run finishes
    with the plain result, and the bodies of both runs together are those of one
    plain run. *)
Lemma recovered_run p q calls out n V V1 V2 V3 tr tr2 o o2 bs bs2 :
  cut p q → open_calls q n → plain_run q calls out → free_after n V →
  durable p n V tr o V1 bs → (∀ sig, V2 sig = V1 sig) → durable q n V2 tr2 o2 V3 bs2 →
  o2 = Finished out ∧ bs ++ bs2 = numbered n calls.
Proof.
  intros Hcut Hopen Hplain Hfree H. revert q calls V2 tr2 bs2 Hcut Hopen Hplain Hfree.
  induction H as [v n V|t x k n V v ran W tr o V1 bs Hs He H IH|t x k n V r ran W Hs Hr He];
    intros q calls V2 tr2 bs2 Hcut Hopen Hplain Hfree Hsame H2.
  - eapply complete_run; [done..| |exact H2]. intros m t x Hm Hval. rewrite Hsame. by apply Hfree.
  - inversion Hcut as [|? ? ? k' Hk]; subst. simpl in Hopen, Hplain.
    destruct Hopen as (Hval & Hg & Hok), Hplain as (v' & rest & Hb & -> & Hrest).
    destruct (open_step _ _ _ _ _ _ _ _ Hval Hg Hb Hfree Hs He) as ([= ->] & -> & Hfree' & id & Hd).
    assert (V2 (sig_of (n + 1) t x) = Done id (Some (result_envelope v'))) as Hd2
      by (rewrite Hsame; by eapply durable_keeps_done).
    destruct (replay_step _ _ _ _ _ _ _ _ _ _ _ _ Hd2 eq_refl H2) as (tr' & W2 & -> & _ & Hw & H2').
    destruct (IH (k' v') rest W2 tr' bs2 (Hk _) (Hok _) Hrest Hfree') as [-> Hbs];
      [intros sig; by rewrite Hw|done|]. split; [done|]. simpl. by rewrite <-Hbs.
  - inversion Hcut as [|? ? ? k' Hk]; subst. simpl in Hopen, Hplain.
    destruct Hopen as (Hval & Hg & _), Hplain as (v' & rest & Hb & -> & _).
    destruct (open_step _ _ _ _ _ _ _ _ Hval Hg Hb Hfree Hs He) as (-> & _). by destruct (Hr _ eq_refl).
Qed.
End durable.
