(* ===== verification/DurableTheorems.v ===== *)
(** * Workflows of decorated tools, served by the development server

    A workflow whose tools are wrapped by [undolog_tool] and whose calls are
    served by [dev.py] runs as [Durable] says. Interrupted and started again
    with the session it had, it repeats no completed call. *)

From S2P Require Import Prelude Py PyFacts Json Signature JsonRead CanonicalParse Journal Broadcaster Framing.
From S2P Require Import FramingFacts World Fnmatch DevHandler DevWp DevSpec DevRoutes Protocol Refinement.
From S2P Require Import Errors Client Tool EndToEnd Durable.
Open Scope Z_scope.
Open Scope undolog_scope.

(** A decorated tool. *)
Record wtool (Args : Type) := WTool {
  wt_name : pystr;
  wt_bind : Args → option (list (pystr * json));
  wt_body : Args → pystr + json;
  wt_tier : ToolTier;
}.
Arguments WTool {Args}.
Arguments wt_name {Args}.
Arguments wt_bind {Args}.
Arguments wt_body {Args}.
Arguments wt_tier {Args}.

Section served_workflows.
Variable float_of_text : pystr → pyfloat.
Variable blake3_hexdigest : bytes → pystr.
Variable exc_str : pyexc → pystr.
Variable py_str : json → pystr.
Variable srv : server.
Variable uuid4_str : nat → pystr.
Variable utc_now_str : nat → pystr.
Variable time_ns_at : nat → Z.
Context `{!id_laws uuid4_str utc_now_str}.
Variable encode : json → bytes.
Variable session_param : pystr.
Variable env_proxy_url env_api_key : option pystr.
Variable is_success : Z → bool.
Variable repr_status : json → pystr.
Hypothesis success_2xx : ∀ st, 200 ≤ st < 300 → is_success st = true.

Context {T Args : Type}.
Variable tools : T → wtool Args.
Variable cl : client_config.

Abbreviation wf := (workflow T Args).
Abbreviation act := (M (agent (outside Args))).
Abbreviation gate := (λ t, requires_approval srv (wt_name (tools t))).
Abbreviation run_tool := (λ t, wt_body (tools t)).
Abbreviation serving_ := (serving uuid4_str).

(** A call of a tool in the session of the context. *)
Definition call_of (t : T) (x : Args) : act json :=
  wrapper env_proxy_url env_api_key
    (server_http float_of_text blake3_hexdigest exc_str py_str srv uuid4_str utc_now_str time_ns_at
       encode Args)
    is_success repr_status py_str Args (wt_name (tools t)) (wt_bind (tools t))
    (run_body Args (wt_body (tools t))) session_param (wt_tier (tools t)) (Some cl) None x.

(** The workflow as a program: it awaits its calls one after the other. *)
Fixpoint run_workflow (p : wf) : act json :=
  match p with
  | WReturn v => mret v
  | WCall t x k => v ← call_of t x; run_workflow (k v)
  end.

(** ** Signatures of a session's calls *)

Variable org sid : pystr.

Definition sig_of (n : Z) (t : T) (x : Args) : pystr :=
  match wt_bind (tools t) x with
  | Some bound =>
      match tool_call_signature blake3_hexdigest exc_str sid n (wt_name (tools t))
              (JObj (dict_del session_param bound)) with
      | inr sig => sig
      | inl _ => []
      end
  | None => []
  end.

(** A call that is understood at a step. *)
Definition valid (n : Z) (t : T) (x : Args) : Prop :=
  ∃ args, callable float_of_text blake3_hexdigest exc_str encode Args (wt_name (tools t))
            (wt_bind (tools t)) session_param (Session org sid 0) n x (sig_of n t x) args.

(** The calls of a workflow from a step on: their tools are not safe, they are
    understood, and their outcomes can be reported. *)
Fixpoint ready (p : wf) (n : Z) : Prop :=
  match p with
  | WReturn _ => True
  | WCall t x k =>
      is_safe (wt_tier (tools t)) = false ∧ valid (n + 1) t x ∧
      reportable float_of_text encode (Session org sid 0) (wt_body (tools t) x) ∧
      ∀ v, ready (k v) (n + 1)
  end.

Lemma ready_cut (p q : wf) n : cut p q → ready q n → ready p n.
Proof.
  intros Hcut. revert n. induction Hcut as [v q|t x k k' Hk IH]; intros n; [done|].
  intros (Hs & Hv & Hr & Hq). split_and!; auto.
Qed.

Lemma callable_session n step (tool : wtool Args) x sig args :
  callable float_of_text blake3_hexdigest exc_str encode Args (wt_name tool) (wt_bind tool)
    session_param (Session org sid 0) step x sig args →
  callable float_of_text blake3_hexdigest exc_str encode Args (wt_name tool) (wt_bind tool)
    session_param (Session org sid n) step x sig args.
Proof. intros []. by split. Qed.

(** ** Runs *)

(** What a run returns or raises. *)
Definition outcome_of (o : wf_end T) : sdk_exc + json :=
  match o with
  | Finished v => inr v
  | Stopped step t r => result_of py_str (wt_name (tools t)) step r
  end.

(** The number of calls a run made. *)
Definition calls_made (tr : list json) (o : wf_end T) : Z :=
  Z.of_nat (length tr) + match o with Finished _ => 0 | Stopped _ _ _ => 1 end.

Abbreviation durable_ := (durable srv gate run_tool sig_of).

(** The process in a session: the context names it, its counter is at [n], and
    the outside is the server's state and the record of the bodies run. *)
Record in_session (a : agent (outside Args)) (l : nat) (n : Z) (w : world) (log : list Args) : Prop := {
  is_context : ag_context a = Some l;
  is_counter : ag_sessions a !! l = Some (Session org sid n);
  is_outside : ag_ext a = (w, log);
  is_serving : serving_ w;
}.

Definition bodies (bs : list (Z * T * Args)) : list Args := snd <$> bs.

Lemma run_is_durable p n a l w log :
  ready p n → in_session a l n w log →
  ∃ tr o bs a' w', run_workflow p a = (outcome_of o, a') ∧
    durable_ p n (state_of (w_db w)) tr o (state_of (w_db w')) bs ∧
    in_session a' l (n + calls_made tr o) w' (log ++ bodies bs).
Proof.
  intros Hready. revert n a w log Hready. induction p as [v|t x k IH]; intros n a w log Hready Hin.
  { exists [], (Finished v), [], a, w. split_and!; [done|constructor|].
    unfold calls_made, bodies. simpl. by rewrite Z.add_0_r, app_nil_r. }
  destruct Hready as (Hsafe & (args & Hc) & Hrep & Hk). destruct Hin as [Hctx Hses Hext Hserv].
  destruct (call_behaves float_of_text blake3_hexdigest exc_str py_str srv uuid4_str utc_now_str
    time_ns_at encode Args (wt_name (tools t)) (wt_bind (tools t)) (wt_body (tools t)) session_param
    env_proxy_url env_api_key is_success repr_status success_2xx (wt_tier (tools t)) cl l x a
    (Session org sid n) (sig_of (n + 1) t x) args w log Hsafe Hses
    (callable_session n _ _ _ _ _ Hc) Hext Hserv Hrep)
    as (res & ran & st' & w1 & Ecall & Hs1 & Hstep & Hst & He). simpl in Ecall. subst st'.
  rewrite <-(wrapper_in_context _ _ _ _ _ _ _ _ _ _ _ _ _ _ _ _ _ _ _ _ _ _ _ Hctx) in Ecall.
  cbn [run_workflow]. unfold mbind, M_bind, call_of. rewrite Ecall.
  set (a1 := stepped Args a l (Session org sid n) _).
  assert (in_session a1 l (n + 1) w1 (log ++ if ran then [x] else [])) as Hin1.
  { split; [done| |done|done]. apply lookup_insert_eq. }
  assert (∀ bs, bodies (ran_at ran (n + 1) t x ++ bs) = (if ran then [x] else []) ++ bodies bs) as Hlog.
  { intros bs. unfold bodies. rewrite fmap_app. by destruct ran. }
  destruct res as [v|exc|aid]; cbn [result_of].
  - destruct (IH v (n + 1) a1 w1 _ (Hk v) Hin1) as (tr & o & bs & a' & w' & E & Hd & Hin').
    exists (v :: tr), o, (ran_at ran (n + 1) t x ++ bs), a', w'. split; [exact E|].
    split; [by eapply dur_call|]. rewrite Hlog, app_assoc. unfold calls_made in *. simpl length.
    rewrite Nat2Z.inj_succ.
    replace (n + (Z.succ (Z.of_nat (length tr)) + _)) with
      (n + 1 + (Z.of_nat (length tr) + match o with Finished _ => 0 | Stopped _ _ _ => 1 end)) by lia. done.
  - exists [], (Stopped (n + 1) t (Raises exc)), (ran_at ran (n + 1) t x), a1, w1.
    split; [done|]. split; [by apply dur_stop|]. specialize (Hlog []). rewrite !app_nil_r in Hlog.
    by rewrite Hlog.
  - exists [], (Stopped (n + 1) t (Suspends aid)), (ran_at ran (n + 1) t x), a1, w1.
    split; [done|]. split; [by apply dur_stop|]. specialize (Hlog []). rewrite !app_nil_r in Hlog.
    by rewrite Hlog.
Qed.

(** C4: decorated tools make a workflow durable. The tools of the workflow are
    not of the tier SAFE (those bypass the proxy), its calls are understood by
    the server and the outcomes of the bodies can be reported. Then, whatever
    sequence of calls the workflow makes and from any state of the server's
    journal, the run returns or raises what the durable semantics says, and
    leaves the journal and the record of the bodies that ran as it says: a
    committed call is answered from the journal, a free one runs its body and
    commits, a gated one stops the run, and no other signature moves. *)
Theorem workflows_are_durable p n a l w log :
  ready p n → in_session a l n w log →
  ∃ tr o bs a' w', run_workflow p a = (outcome_of o, a') ∧
    durable_ p n (state_of (w_db w)) tr o (state_of (w_db w')) bs ∧
    in_session a' l (n + calls_made tr o) w' (log ++ bodies bs).
Proof. apply run_is_durable. Qed.

(** ** Starting again *)

(** The digest tells byte streams apart. *)
Hypothesis digest_injective : ∀ b b', blake3_hexdigest b = blake3_hexdigest b' → b = b'.

Lemma valid_preimage n t x :
  valid n t x → ∃ args b, signature_preimage sid n (wt_name (tools t)) (JObj args) = inr b ∧
    sig_of n t x = blake3_hexdigest b.
Proof.
  intros (args & Hc). pose proof (ca_signature _ _ _ _ _ _ _ _ _ _ _ _ _ Hc) as Hs. simpl in Hs.
  unfold tool_call_signature, call_signature in Hs.
  destruct (signature_preimage sid n (wt_name (tools t)) (JObj args)) as [e|b] eqn:E; simpl in Hs.
  - by destruct (is_ValueError e).
  - exists args, b. by simplify_eq.
Qed.

Lemma valid_apart m m' t t' x x' :
  valid m t x → valid m' t' x' → sig_of m t x = sig_of m' t' x' → m = m'.
Proof.
  intros (args & b & E & ->)%valid_preimage (args' & b' & E' & ->)%valid_preimage <-%digest_injective.
  by eapply preimage_step_inj.
Qed.

Fixpoint ungated (p : wf) : Prop :=
  match p with
  | WReturn _ => True
  | WCall t x k => gate t = false ∧ ∀ v, ungated (k v)
  end.

Lemma ready_open p n : ready p n → ungated p → open_calls gate valid p n.
Proof.
  revert n. induction p as [v|t x k IH]; intros n; [done|].
  intros (_ & Hv & _ & Hk) [Hg Hu]. simpl. split_and!; auto.
Qed.

Lemma bodies_numbered n (calls : list (T * Args)) : bodies (numbered n calls) = snd <$> calls.
Proof. revert n. induction calls as [|[t x] calls IH]; intros n; simpl; [done|]. by rewrite IH. Qed.

Lemma recover_core p q calls out n a l w log :
  cut p q → ready q n → ungated q → plain_run run_tool q calls out →
  free_after sig_of valid n (state_of (w_db w)) → in_session a l n w log →
  ∃ r a1 n1 w1 log1, run_workflow p a = (r, a1) ∧ in_session a1 l n1 w1 log1 ∧
    ∀ a2 l2, in_session a2 l2 n w1 log1 →
    ∃ a3 n3 w3, run_workflow q a2 = (inr out, a3) ∧ in_session a3 l2 n3 w3 (log ++ (snd <$> calls)).
Proof.
  intros Hcut Hready Hung Hplain Hfree Hin.
  destruct (run_is_durable p n a l w log (ready_cut p q n Hcut Hready) Hin)
    as (tr & o & bs & a1 & w1 & E1 & Hd1 & Hin1).
  eexists (outcome_of o), a1, _, w1, _. split; [exact E1|]. split; [exact Hin1|].
  intros a2 l2 Hin2. destruct (run_is_durable q n a2 l2 w1 _ Hready Hin2)
    as (tr2 & o2 & bs2 & a3 & w3 & E2 & Hd2 & Hin3).
  destruct (recovered_run srv gate run_tool sig_of valid valid_apart p q calls out n _ _ _ _ _ _ _ _ _ _
    Hcut (ready_open q n Hready Hung) Hplain Hfree Hd1 (λ _, eq_refl) Hd2) as [-> Hbs].
  eexists a3, _, w3. split; [exact E2|]. rewrite <-app_assoc in Hin3.
  replace (bodies bs ++ bodies bs2) with (snd <$> calls) in Hin3; [exact Hin3|].
  rewrite <-(bodies_numbered n), <-Hbs. unfold bodies. by rewrite fmap_app.
Qed.

(** C5: a workflow survives a crash. Let [q] be a workflow of tools that are not
    of the tier SAFE, need no approval and do not raise, and let [p] be [q] cut
    short between any two of its calls, as when the process dies there. The
    signatures the session can produce from its step on are unused in the
    journal, and the digest of signatures has no collision. A process that then
    starts [q] again in the session of the first, from the same step, returns
    what a run without interruption returns, and the two runs together executed
    every body exactly once and in order. *)
Theorem interrupted_workflows_recover p q calls out n a l w log :
  cut p q → ready q n → ungated q → plain_run run_tool q calls out →
  free_after sig_of valid n (state_of (w_db w)) → in_session a l n w log →
  ∃ r a1 w1 log1, run_workflow p a = (r, a1) ∧ ag_ext a1 = (w1, log1) ∧
    ∀ a2 l2, in_session a2 l2 n w1 log1 →
    ∃ a3 w3, run_workflow q a2 = (inr out, a3) ∧ ag_ext a3 = (w3, log ++ (snd <$> calls)).
Proof.
  intros Hcut Hready Hung Hplain Hfree Hin.
  destruct (recover_core p q calls out n a l w log) as (r & a1 & n1 & w1 & log1 & E1 & Hin1 & Hagain);
    [done..|].
  exists r, a1, w1, log1. split; [exact E1|]. split; [apply Hin1|]. intros a2 l2 Hin2.
  destruct (Hagain a2 l2 Hin2) as (a3 & n3 & w3 & E3 & Hin3). exists a3, w3. split; [exact E3|apply Hin3].
Qed.

(** Requests of others while no run is active: further calls and decisions. *)
Definition outside_label (l : label) : Prop :=
  match l with LCommit _ _ | LFail _ => False | _ => True end.

Lemma served_keeps_done w tr w' :
  serving_ w → served float_of_text blake3_hexdigest exc_str py_str srv uuid4_str utc_now_str time_ns_at w tr w' →
  (∀ l r, (l, r) ∈ tr → outside_label l) →
  serving_ w' ∧ keeps_done (state_of (w_db w)) (state_of (w_db w')).
Proof.
  intros Hs Hsv Hl. apply served_runs in Hsv as (Hs' & tr' & Hex & Hrun); [|done..]. split; [done|].
  intros sig id r Hd. refine (machine_run_invariant _ (λ lb _, outside_label lb) (λ st, st = Done id r)
    sig tr' _ _ _ Hrun _ Hd).
  - intros lb ans s s' Hstep Hok E. eapply done_step; [exact Hstep| |exact E]. by destruct lb.
  - intros lb ans Hin'. by eapply (exchange_labels outside_label); [exact Hex|exact Hl|exact Hin'].
Qed.

(** C13: a workflow that stopped can be resumed. A run of tools that are not of
    the tier SAFE may stop for any reason: an approval it waits for, a tool that
    raises, the death of the process between two calls. While it is stopped the
    server may serve further calls and decide approvals, but no reports. Started
    again in the same session, the run repeats the results of every call that
    had returned, and executes no body of theirs: whatever it executes is at a
    later step. *)
Theorem resumed_workflows_skip_completed p q n a l w log :
  cut p q → ready q n → in_session a l n w log →
  ∃ tr o bs a1 w1, run_workflow p a = (outcome_of o, a1) ∧
    durable_ p n (state_of (w_db w)) tr o (state_of (w_db w1)) bs ∧
    ag_ext a1 = (w1, log ++ bodies bs) ∧
    ∀ reqs w2 a2 l2,
      served float_of_text blake3_hexdigest exc_str py_str srv uuid4_str utc_now_str time_ns_at w1 reqs w2 →
      (∀ lb r, (lb, r) ∈ reqs → outside_label lb) →
      ag_context a2 = Some l2 → ag_sessions a2 !! l2 = Some (Session org sid n) →
      ag_ext a2 = (w2, log ++ bodies bs) →
      ∃ tr2 o2 bs2 a3 w3, run_workflow q a2 = (outcome_of o2, a3) ∧
        durable_ q n (state_of (w_db w2)) tr2 o2 (state_of (w_db w3)) bs2 ∧
        ag_ext a3 = (w3, log ++ bodies bs ++ bodies bs2) ∧
        tr `prefix_of` tr2 ∧ Forall (λ b, n + Z.of_nat (length tr) < b.1.1) bs2.
Proof.
  intros Hcut Hready Hin.
  destruct (run_is_durable p n a l w log (ready_cut p q n Hcut Hready) Hin)
    as (tr & o & bs & a1 & w1 & E1 & Hd1 & Hin1).
  exists tr, o, bs, a1, w1. split_and!; [done..|apply Hin1|].
  intros reqs w2 a2 l2 Hsv Hl Hctx Hses Hext.
  destruct (served_keeps_done w1 reqs w2 (is_serving _ _ _ _ _ Hin1) Hsv Hl) as [Hs2 Hk].
  destruct (run_is_durable q n a2 l2 w2 (log ++ bodies bs) Hready) as (tr2 & o2 & bs2 & a3 & w3 & E2 & Hd2 & Hin3);
    [by split|].
  destruct (repeated_run srv gate run_tool sig_of p q n _ _ _ _ tr tr2 o o2 bs bs2 Hcut Hd1 Hk Hd2) as [Hp Hb].
  exists tr2, o2, bs2, a3, w3. split_and!; try done.
  by rewrite (is_outside _ _ _ _ _ Hin3), <-app_assoc.
Qed.
End served_workflows.
