(* ===== verification/Concurrent.v ===== *)
(** * Concurrent calls of decorated tools ([decorators.py] under [asyncio.gather])

    The wrapper of [undolog_tool] is a coroutine: it gives up control where it
    awaits the proxy and the tool's body. [coro] is its state between two of
    these points and [resume] runs it to the next one; run without interruption
    it is [wrapper] ([drive_is_wrapper]). [gather] creates one task per call.
    The event loop starts them in their order, and then resumes any of them as
    its answer arrives: [sched] is one such step.

    Against the development server, a batch of calls in one session has the
    outcome of making the calls one after the other, whatever the interleaving:
    each takes its step when it starts, so its signature depends on its place in
    the batch and not on the network. *)

From S2P Require Import Prelude Py PyFacts Json Signature JsonRead CanonicalParse Journal Broadcaster Framing.
From S2P Require Import FramingFacts World Fnmatch DevHandler DevWp DevSpec DevRoutes Protocol Refinement.
From S2P Require Import Errors Client Tool EndToEnd Durable DurableTheorems.
Open Scope Z_scope.
Open Scope undolog_scope.

(** The state of one call: not started, waiting for the intercept, in the body
    of the tool, waiting for the report of the body's outcome, and finished. The
    session is named by its location, the effect by the identifier the proxy
    gave it. *)
Inductive coro (Args : Type) :=
| Created (x : Args)
| Intercepting (l : nat) (cl : client_config) (step : Z) (call_args : json) (x : Args)
| InBody (l : nat) (cl : client_config) (effect_id : json) (x : Args)
| Reporting (l : nat) (cl : client_config) (effect_id : pystr) (outcome : pystr + json)
| Ended (r : sdk_exc + json).
Arguments Created {Args}.
Arguments Intercepting {Args}.
Arguments InBody {Args}.
Arguments Reporting {Args}.
Arguments Ended {Args}.

Section coroutine.
Context {E : Type}.
Abbreviation act := (M (agent E)).
Variable env_proxy_url env_api_key : option pystr.
Variable http : client_config → http_request → E → http_outcome * E.
Variable is_success : Z → bool.
Variable repr_status py_str : json → pystr.
Variable Args : Type.
Variable tool_name : pystr.
Variable bind_args : Args → option (list (pystr * json)).
Variable func : Args → E → (pystr + json) * E.
Variable session_param : pystr.
Variable tier : ToolTier.
Variable client : option client_config.
Variable explicit : option nat.

(** The attributes of a session object, read when they are needed. *)
Definition session_now (l : nat) : act session := λ a,
  match ag_sessions a !! l with Some s => (inr s, a) | None => (inl EAttribute, a) end.

(** From the start to the await of [intercept], or of a safe tool's body. *)
Definition begin (x : Args) : act (coro Args) :=
  current ← match explicit with Some l => mret (Some l) | None => get_current_session end;
  match current with
  | None => raise (ESdk (Errors.MissingSessionError (no_session_message tool_name session_param)
                           tool_name Errors.no_options))
  | Some l =>
      cl ← match client with Some c => mret c | None => get_default_client env_proxy_url env_api_key end;
      if is_safe tier then mret (InBody l cl JNull x)
      else
        step ← next_step l;
        match bind_args x with
        | None => raise EType
        | Some bound => mret (Intercepting l cl step (JObj (dict_del session_param bound)) x)
        end
  end.

(** The intercept, and what follows it up to the await of the body. *)
Definition on_intercept (l : nat) (cl : client_config) (step : Z) (call_args : json) (x : Args)
    : act (coro Args) :=
  s ← session_now l;
  resp ← lift_ext (intercept_call (http cl) is_success repr_status (api_key cl)
            (org_id s) (session_id s) tool_name step call_args);
  if str_eqb (ir_outcome resp) $"Replay" then
    mret (Ended (inr (unwrap_replay_result (ir_cached_result resp))))
  else if str_eqb (ir_outcome resp) $"AwaitingApproval" then
    raise (awaiting_approval py_str tool_name (ir_approval_id resp) step)
  else mret (InBody l cl (ir_effect_id resp) x).

(** The body, up to the await of its report. *)
Definition on_body (l : nat) (cl : client_config) (effect_id : json) (x : Args) : act (coro Args) := λ a,
  match call_func Args func x a with
  | (inr v, a') =>
      (inr (match id_text py_str effect_id with
            | Some id => Reporting l cl id (inr v)
            | None => Ended (inr v)
            end), a')
  | (inl exc, a') =>
      match id_text py_str effect_id, exc with
      | Some id, ETool text => (inr (Reporting l cl id (inl text)), a')
      | _, _ => (inl exc, a')
      end
  end.

(** The report; a failed report never hides the tool's own exception. *)
Definition on_report (l : nat) (cl : client_config) (id : pystr) (outcome : pystr + json)
    : act (coro Args) :=
  match outcome with
  | inr v =>
      s ← session_now l;
      _ ← lift_ext (commit_call (http cl) is_success (api_key cl) (org_id s) (session_id s) id
             (JObj [($"success", JBool true); ($"output", v)]));
      mret (Ended (inr v))
  | inl text =>
      _ ← attempt (s ← session_now l;
                   lift_ext (fail_call (http cl) is_success (api_key cl) (org_id s) (session_id s) id text))
            (λ _, raise (ETool text));
      raise (ETool text)
  end.

(** An exception ends the coroutine. *)
Definition settle (m : act (coro Args)) (a : agent E) : coro Args * agent E :=
  match m a with
  | (inl e, a') => (Ended (inl e), a')
  | (inr c, a') => (c, a')
  end.

(** Run to the next await. *)
Definition resume (c : coro Args) : agent E → coro Args * agent E :=
  match c with
  | Created x => settle (begin x)
  | Intercepting l cl step call_args x => settle (on_intercept l cl step call_args x)
  | InBody l cl effect_id x => settle (on_body l cl effect_id x)
  | Reporting l cl id outcome => settle (on_report l cl id outcome)
  | Ended r => λ a, (Ended r, a)
  end.

(** A coroutine that nothing interrupts. *)
Fixpoint drive (n : nat) (c : coro Args) (a : agent E) : coro Args * agent E :=
  match n with
  | O => (c, a)
  | S n => let '(c', a') := resume c a in drive n c' a'
  end.

Lemma drive_ended n r a : drive n (Ended r) a = (Ended r, a).
Proof. by induction n. Qed.

Abbreviation execute := (execute_tool http is_success py_str Args func).

(** The body and its report are the [Execute] branch of the wrapper. *)
Lemma drive_body l cl effect_id x (a : agent E) s :
  ag_sessions a !! l = Some s →
  drive 2 (InBody l cl effect_id x) a =
    (Ended (execute cl s effect_id x a).1, (execute cl s effect_id x a).2).
Proof.
  intros Hs. cbn [drive resume]. unfold settle, on_body, execute_tool, call_func, mbind, M_bind, attempt,
    mret, M_ret, raise, lift_ext. destruct (func x (ag_ext a)) as [[text|v] e1].
  - destruct (id_text py_str effect_id) as [id|]; [|done].
    cbn [resume]. unfold settle, on_report, session_now, attempt, mbind, M_bind, raise, lift_ext.
    cbn [ag_sessions ag_ext]. rewrite Hs. by destruct (fail_call _ _ _ _ _ _ _ _) as [[?|?] ?].
  - destruct (id_text py_str effect_id) as [id|]; [|done].
    cbn [resume]. unfold settle, on_report, session_now, mbind, M_bind, mret, M_ret, lift_ext.
    cbn [ag_sessions ag_ext]. rewrite Hs. by destruct (commit_call _ _ _ _ _ _ _ _) as [[?|?] ?].
Qed.

(** Running the coroutine to its end is calling the wrapper. *)
Lemma drive_is_wrapper x (a : agent E) :
  drive 4 (Created x) a =
    let '(r, a') := wrapper env_proxy_url env_api_key http is_success repr_status py_str Args tool_name
                      bind_args func session_param tier client explicit x a in (Ended r, a').
Proof.
  unfold wrapper, mbind at 1, M_bind at 1.
  change (drive 4 (Created x) a) with (let '(c, a') := settle (begin x) a in drive 3 c a').
  unfold settle, begin, mbind at 1, M_bind at 1.
  destruct ((match explicit return act (option nat) with
             | Some l => mret (Some l) | None => get_current_session end) a) as [[e|[l|]] a1]; [done| |done].
  unfold mbind at 1 3, M_bind at 1 3.
  destruct ((match client return act client_config with
             | Some c => mret c | None => get_default_client env_proxy_url env_api_key end) a1) as [[e|cl] a2]; [done|].
  destruct (is_safe tier).
  { unfold mret, M_ret. cbn [drive resume]. unfold settle, on_body.
    change (id_text py_str JNull) with (@None pystr). unfold call_func, lift_ext.
    by destruct (func x (ag_ext a2)) as [[?|?] ?]. }
  unfold mbind at 1 2, M_bind at 1 2. destruct (next_step l a2) as [[e|step] a3] eqn:En; [done|].
  destruct (bind_args x) as [bound|]; [|done]. unfold mret at 1, M_ret at 1.
  change (drive 3 (Intercepting l cl step ?ca x) a3) with
    (let '(c, a') := settle (on_intercept l cl step ca x) a3 in drive 2 c a').
  unfold settle, on_intercept, session_now, get_agent, mbind at 1 3, M_bind at 1 3.
  destruct (ag_sessions a3 !! l) as [s|] eqn:Hs; [|done].
  unfold mbind at 1 2, M_bind at 1 2, lift_ext at 1 2.
  destruct (intercept_call _ _ _ _ _ _ _ _ _ (ag_ext a3)) as [[e|resp] e4]; [done|].
  destruct (str_eqb _ $"Replay"); [done|]. destruct (str_eqb _ $"AwaitingApproval"); [done|].
  unfold mret, M_ret.
  set (a4 := Agent (ag_sessions a3) (ag_context a3) (ag_default_client a3) e4).
  rewrite (drive_body l cl (ir_effect_id resp) x a4 s Hs).
  by destruct (execute cl s (ir_effect_id resp) x a4).
Qed.
End coroutine.

(** ** The event loop *)

(** How many resumptions a call needs at most. *)
Definition remaining {Args} (c : coro Args) : nat :=
  match c with
  | Created _ => 4
  | Intercepting _ _ _ _ _ => 3
  | InBody _ _ _ _ => 2
  | Reporting _ _ _ _ => 1
  | Ended _ => 0
  end.

Definition is_created {Args} (c : coro Args) : bool := match c with Created _ => true | _ => false end.

Lemma resume_decreases {E} env_proxy_url env_api_key http is_success repr_status py_str Args tool_name
    bind_args func session_param tier client explicit c (a : agent E) c' a' :
  (0 < remaining c)%nat →
  resume env_proxy_url env_api_key http is_success repr_status py_str Args tool_name bind_args func
    session_param tier client explicit c a = (c', a') →
  (remaining c' < remaining c)%nat.
Proof.
  destruct c as [x|l cl step ca x|l cl id x|l cl id out|r]; cbn [remaining resume]; intros Hc; [..|lia];
    unfold settle.
  - unfold begin, mbind, M_bind, mret, M_ret, raise.
    repeat (case_match; simplify_eq; cbn [remaining]; try lia; try (intros [= <- _]; cbn [remaining]; lia)).
  - unfold on_intercept, mbind, M_bind, mret, M_ret, raise.
    repeat (case_match; simplify_eq; cbn [remaining]; try lia; try (intros [= <- _]; cbn [remaining]; lia)).
  - unfold on_body, mbind, M_bind, mret, M_ret, raise.
    repeat (case_match; simplify_eq; cbn [remaining]; try lia; try (intros [= <- _]; cbn [remaining]; lia)).
  - unfold on_report, attempt, mbind, M_bind, mret, M_ret, raise.
    repeat (case_match; simplify_eq; cbn [remaining]; try lia; try (intros [= <- _]; cbn [remaining]; lia)).
Qed.

Section event_loop.
Context {E T Args : Type}.
Variable resume_of : T → coro Args → agent E → coro Args * agent E.
Abbreviation tasks := (list (T * coro Args)).

(** One step of the loop: some task that has not ended is resumed. The tasks are
    started in the order they were created in. *)
Inductive sched : tasks * agent E → tasks * agent E → Prop :=
| sched_resume ts a i t c c' a' :
    ts !! i = Some (t, c) → (0 < remaining c)%nat →
    (is_created c = true → Forall (λ tc, is_created tc.2 = false) (take i ts)) →
    resume_of t c a = (c', a') →
    sched (ts, a) (<[i := (t, c')]> ts, a').

Definition all_ended (ts : tasks) : Prop := Forall (λ tc, remaining tc.2 = 0%nat) ts.
Definition gathered (calls : list (T * Args)) : tasks := (λ tx, (tx.1, Created tx.2)) <$> calls.

Definition total (ts : tasks) : nat := sum_list ((λ tc, remaining tc.2) <$> ts).

Lemma total_insert ts i t c c' :
  ts !! i = Some (t, c) → (total (<[i := (t, c')]> ts) + remaining c = total ts + remaining c')%nat.
Proof.
  unfold total. revert i. induction ts as [|tc ts IH]; intros [|i] H; simplify_eq/=; [lia|].
  specialize (IH i H). lia.
Qed.

Lemma total_gathered calls : total (gathered calls) = (4 * length calls)%nat.
Proof.
  unfold total, gathered. rewrite <-list_fmap_compose.
  induction calls as [|tx calls IH]; [done|]. cbn [fmap list_fmap sum_list length] in *. rewrite IH. cbn. lia.
Qed.

(** Some task can always be resumed until all have ended. *)
Lemma sched_progress ts a : all_ended ts ∨ ∃ next, sched (ts, a) next.
Proof.
  assert (∀ i t c, ts !! i = Some (t, c) → (0 < remaining c)%nat →
    (is_created c = true → Forall (λ tc, is_created tc.2 = false) (take i ts)) → ∃ next, sched (ts, a) next) as Hgo.
  { intros i t c Hi Hc Hf. destruct (resume_of t c a) as [c' a'] eqn:Er. eauto using sched. }
  destruct (list_find (λ tc, is_created tc.2 = true) ts) as [[i [t c]]|] eqn:Ef.
  - apply list_find_Some in Ef as (Hi & Hc & Hbefore). right. cbn in Hc. apply (Hgo i t c Hi).
    + by destruct c; cbn in *; try done; lia.
    + intros _. apply Forall_lookup_2. intros j tc Hj. apply lookup_take_Some in Hj as [Hj Hlt].
      apply not_true_is_false. eauto.
  - apply list_find_None in Ef.
    destruct (list_find (λ tc, 0 < remaining tc.2)%nat ts) as [[i [t c]]|] eqn:Eg.
    + apply list_find_Some in Eg as (Hi & Hc & _). right. apply (Hgo i t c Hi Hc). intros Hcr.
      rewrite Forall_lookup in Ef. by specialize (Ef i _ Hi).
    + apply list_find_None in Eg. left. eapply Forall_impl; [exact Eg|]. intros tc Htc. cbv beta in *. lia.
Qed.

(** The steps for a given choice of tasks, when the loop may choose them. *)
Fixpoint run_order (order : list nat) (s : tasks * agent E) : option (tasks * agent E) :=
  match order with
  | [] => Some s
  | i :: rest =>
      match s.1 !! i with
      | Some (t, c) =>
          if (0 <? remaining c)%nat && (negb (is_created c) || forallb (λ tc, negb (is_created tc.2)) (take i s.1))
          then let '(c', a') := resume_of t c s.2 in run_order rest (<[i := (t, c')]> s.1, a')
          else None
      | None => None
      end
  end.

Lemma run_order_steps order s s' : run_order order s = Some s' → nsteps sched (length order) s s'.
Proof.
  revert s. induction order as [|i order IH]; intros [ts a] H; cbn [run_order fst snd] in H;
    [simplify_eq; constructor|].
  destruct (ts !! i) as [[t c]|] eqn:Hi; [|done]. case_match eqn:Hok; [|done].
  destruct (resume_of t c a) as [c' a'] eqn:Hr. apply andb_prop in Hok as [Hrem%Nat.ltb_lt Hord].
  eapply nsteps_l; [|by apply IH]. apply (sched_resume _ _ _ _ c); try done.
  intros Hc. rewrite Hc in Hord. apply Forall_forall. intros tc Htc%list_elem_of_In.
  cbn in Hord. rewrite forallb_forall in Hord. specialize (Hord tc Htc). by apply negb_true_iff in Hord.
Qed.
End event_loop.

(** ** Batches of calls against the server *)

Section served_batches.
Variable float_of_text : pystr → pyfloat.
Variable blake3_hexdigest : bytes → pystr.
Variable exc_str : pyexc → pystr.
Variable py_str : json → pystr.
Variable srv : server.
Variable uuid4_str : nat → pystr.
Variable utc_now_str : nat → pystr.
Variable time_ns_at : nat → Z.
Context `{!id_laws uuid4_str utc_now_str}.
Variable encode : json → bytes.
Variable session_param : pystr.
Variable env_proxy_url env_api_key : option pystr.
Variable is_success : Z → bool.
Variable repr_status : json → pystr.
Hypothesis success_2xx : ∀ st, 200 ≤ st < 300 → is_success st = true.
Context {T Args : Type}.
Variable tools : T → wtool Args.
Variable cl : client_config.
Variable org sid : pystr.

Abbreviation proc := (agent (outside Args)).
Abbreviation gate := (λ t, requires_approval srv (wt_name (tools t))).
Abbreviation states := (pystr → call_state).
Abbreviation sig_ := (sig_of blake3_hexdigest exc_str session_param tools sid).
Abbreviation valid_ := (valid float_of_text blake3_hexdigest exc_str encode session_param tools org sid).
Abbreviation in_session_ := (in_session uuid4_str org sid).
Abbreviation server_ := (server_http float_of_text blake3_hexdigest exc_str py_str srv uuid4_str utc_now_str
  time_ns_at encode Args).
Abbreviation tool_step_ := (λ t x, tool_step srv (gate t) (wt_body (tools t) x)).

(** A call of a tool in the session of the context, as a coroutine. *)
Definition resume_tool (t : T) : coro Args → proc → coro Args * proc :=
  resume env_proxy_url env_api_key server_ is_success repr_status py_str Args (wt_name (tools t))
    (wt_bind (tools t)) (run_body Args (wt_body (tools t))) session_param (wt_tier (tools t)) (Some cl) None.

(** A call that the tool accepts at a step, and whose outcome can be reported. *)
Record admissible (m : Z) (t : T) (x : Args) : Prop := {
  ad_tier : is_safe (wt_tier (tools t)) = false;
  ad_valid : valid_ m t x;
  ad_report : reportable float_of_text encode (Session org sid 0) (wt_body (tools t) x);
}.

(** What is known of a call at each of its awaits: the state its signature had
    when the batch began, whether its body has run, and the state it has now. *)
Definition task_ok (l : nat) (m : Z) (t : T) (x : Args) (st0 : call_state) (c : coro Args) (ran : bool)
    (st : call_state) : Prop :=
  match c with
  | Created x' => x' = x ∧ ran = false ∧ st = st0
  | Intercepting l' cl' step call_args x' =>
      l' = l ∧ cl' = cl ∧ step = m ∧ x' = x ∧ ran = false ∧ st = st0 ∧
      ∃ bound, wt_bind (tools t) x = Some bound ∧ call_args = JObj (dict_del session_param bound)
  | InBody l' cl' effect_id x' =>
      l' = l ∧ cl' = cl ∧ x' = x ∧ ran = false ∧
      ∃ id, effect_id = JStr id ∧ call_rule (auto_approve srv) (gate t) st0 (ARun id) st
  | Reporting l' cl' id outcome =>
      l' = l ∧ cl' = cl ∧ outcome = wt_body (tools t) x ∧ ran = true ∧
      call_rule (auto_approve srv) (gate t) st0 (ARun id) st
  | Ended r => ∃ res, tool_step_ t x st0 res ran st ∧ r = result_of py_str (wt_name (tools t)) m res
  end.

(** What one resumption does to the process: [sig] is the only signature that
    moves, and the record of bodies grows by [x] when the body has run. *)
Record resumed (l : nat) (n : Z) (w : world) (log : list Args) (m : Z) (t : T) (x : Args)
    (st0 : call_state) (ran : bool) (c' : coro Args) (a' : proc) (n' : Z) (w' : world) (ran' : bool) : Prop := {
  re_process : in_session_ a' l n' w' (log ++ if negb ran && ran' then [x] else []);
  re_task : task_ok l m t x st0 c' ran' (state_of (w_db w') (sig_ m t x));
  re_started : is_created c' = false;
  re_ran : ran = true → ran' = true;
  re_else : elsewhere (sig_ m t x) (state_of (w_db w)) (state_of (w_db w'));
}.

Section one_task.
Variable l : nat.
Variable t : T.
Variable x : Args.

Lemma begin_ok n st0 w log (a : proc) c' a' :
  admissible (n + 1) t x → in_session_ a l n w log → state_of (w_db w) (sig_ (n + 1) t x) = st0 →
  resume_tool t (Created x) a = (c', a') →
  resumed l n w log (n + 1) t x st0 false c' a' (n + 1) w false.
Proof.
  intros [Htier (args & Hc) _] [Hctx Hses Hext Hserv] Hst.
  destruct (ca_bound _ _ _ _ _ _ _ _ _ _ _ _ _ Hc) as (bound & Hb & Hargs).
  unfold resume_tool. cbn [resume]. unfold settle, begin, mbind, M_bind, get_current_session, mret, M_ret.
  rewrite Hctx, Htier. unfold next_step. rewrite Hses, Hb. intros [= <- <-].
  split; [|by repeat split; eauto|done|done|done].
  rewrite app_nil_r. split; [done| |done|done]. apply lookup_insert_eq.
Qed.

Lemma intercept_ok n m st0 call_args w log (a : proc) c' a' :
  admissible m t x → in_session_ a l n w log → state_of (w_db w) (sig_ m t x) = st0 →
  (∃ bound, wt_bind (tools t) x = Some bound ∧ call_args = JObj (dict_del session_param bound)) →
  resume_tool t (Intercepting l cl m call_args x) a = (c', a') →
  ∃ w', resumed l n w log m t x st0 false c' a' n w' false.
Proof.
  intros [_ (args & Hc) _] [Hctx Hses Hext Hserv] Hst (bound & Hb & ->).
  destruct (ca_bound _ _ _ _ _ _ _ _ _ _ _ _ _ Hc) as (bound' & Hb' & ->). simplify_eq.
  destruct (call_step float_of_text blake3_hexdigest exc_str py_str srv uuid4_str utc_now_str time_ns_at encode
    Args (wt_name (tools t)) (wt_bind (tools t)) session_param is_success repr_status success_2xx cl
    (Session org sid n) m x _ _ w log Hserv (callable_session _ _ _ _ _ _ _ n _ _ _ _ _ Hc))
    as (ans & w' & Hi & Hs' & Hstep).
  inversion Hstep as [g sg an s1 s2 Hrule He| | | |]; subst. clear Hstep.
  unfold resume_tool. cbn [resume]. unfold settle, on_intercept, session_now, mbind, M_bind, lift_ext.
  rewrite Hses, Hext, Hi. intros E. exists w'.
  assert (in_session_ (Agent (ag_sessions a) (ag_context a) (ag_default_client a) (w', log)) l n w' (log ++ [])) as Hin.
  { rewrite app_nil_r. by split. }
  destruct ans as [id|aid|id r|]; [| | |by inversion Hrule]; injection E as <- <-;
    (split; [exact Hin| |done|done|exact He]).
  - by repeat split; eauto.
  - exists (Suspends aid). split; [by eapply ts_wait|done].
  - inversion Hrule as [| | | | | |id' r' E1 E2 E3]; subst.
    eexists (Returns _). split; [apply ts_replay|done].
Qed.

Lemma body_ok n m st0 id w log (a : proc) c' a' :
  in_session_ a l n w log →
  call_rule (auto_approve srv) (gate t) st0 (ARun id) (state_of (w_db w) (sig_ m t x)) →
  resume_tool t (InBody l cl (JStr id) x) a = (c', a') →
  resumed l n w log m t x st0 false c' a' n w true.
Proof.
  intros [Hctx Hses Hext Hserv] Hrule.
  assert (id ≠ []) as Hne.
  { apply (proj2 (is_segment_spec id (state_segment uuid4_str w _ id Hserv (call_rule_runs _ _ _ _ _ Hrule)))). }
  unfold resume_tool. cbn [resume]. unfold settle, on_body, call_func, lift_ext. rewrite Hext. unfold run_body.
  rewrite id_text_id by done.
  intros E. assert (c' = Reporting l cl id (wt_body (tools t) x) ∧
    a' = Agent (ag_sessions a) (ag_context a) (ag_default_client a) (w, log ++ [x])) as [-> ->].
  { by destruct (wt_body (tools t) x); injection E as <- <-. }
  by split; [split|repeat split|..].
Qed.

Lemma report_ok n m st0 id w log (a : proc) c' a' :
  admissible m t x → in_session_ a l n w log →
  call_rule (auto_approve srv) (gate t) st0 (ARun id) (state_of (w_db w) (sig_ m t x)) →
  resume_tool t (Reporting l cl id (wt_body (tools t) x)) a = (c', a') →
  ∃ w', resumed l n w log m t x st0 true c' a' n w' true.
Proof.
  intros [_ _ Hrep] [Hctx Hses Hext Hserv] Hrule. pose proof (call_rule_runs _ _ _ _ _ Hrule) as Hid.
  unfold resume_tool. cbn [resume]. unfold settle, on_report.
  destruct (wt_body (tools t) x) as [exc|out] eqn:Hb; cbn [reportable] in Hrep.
  - destruct Hrep as [Harr Hbind].
    destruct (fail_step float_of_text blake3_hexdigest exc_str py_str srv uuid4_str utc_now_str time_ns_at
      encode Args is_success cl (Session org sid n) id _ exc w log Hserv Hid Harr Hbind)
      as (o & w' & Hf & Hs' & Hfree & He).
    unfold attempt, session_now, mbind, M_bind, lift_ext, raise. rewrite Hses, Hext, Hf. intros E. exists w'.
    assert (c' = Ended (inl (ETool exc)) ∧
      a' = Agent (ag_sessions a) (ag_context a) (ag_default_client a) (w', log)) as [-> ->]
      by (destruct o; by simplify_eq).
    split; [by rewrite app_nil_r; split| |done..]. exists (Raises exc).
    rewrite Hfree, Hb. split; [by eapply ts_fail|done].
  - destruct (commit_step float_of_text blake3_hexdigest exc_str py_str srv uuid4_str utc_now_str time_ns_at
      encode Args is_success success_2xx cl (Session org sid n) id _ out w log Hserv Hid Hrep)
      as (v & w' & Hc & Hs' & Hdone & He). unfold result_envelope in Hc.
    unfold session_now, mbind, M_bind, lift_ext, mret, M_ret. rewrite Hses, Hext, Hc. intros [= <- <-].
    exists w'. split; [by rewrite app_nil_r; split| |done..]. exists (Returns out).
    rewrite Hdone, Hb. split; [by eapply ts_run|done].
Qed.

(** One resumption of a call, wherever it waits. *)
Lemma resume_ok n m st0 c ran w log (a : proc) c' a' :
  admissible m t x → in_session_ a l n w log → (is_created c = true → m = n + 1) → (0 < remaining c)%nat →
  task_ok l m t x st0 c ran (state_of (w_db w) (sig_ m t x)) →
  resume_tool t c a = (c', a') →
  ∃ w' ran', resumed l n w log m t x st0 ran c' a' (if is_created c then n + 1 else n) w' ran'.
Proof.
  intros Had Hin Hm Hrem Hok Hr. destruct c as [x'|l' cl' step ca x'|l' cl' eid x'|l' cl' id out|r]; cbn in Hok.
  - destruct Hok as (-> & -> & <-). specialize (Hm eq_refl). subst m.
    exists w, false. by eapply begin_ok.
  - destruct Hok as (-> & -> & -> & -> & -> & <- & Hb).
    destruct (intercept_ok n m _ ca w log a c' a' Had Hin eq_refl Hb Hr) as [w' H]. eauto.
  - destruct Hok as (-> & -> & -> & -> & id & -> & Hrule). exists w, true. by eapply body_ok.
  - destruct Hok as (-> & -> & -> & -> & Hrule).
    destruct (report_ok n m st0 id w log a c' a' Had Hin Hrule Hr) as [w' H]. eauto.
  - by cbn in Hrem; lia.
Qed.
End one_task.

(** *** The invariant of a batch *)

Abbreviation sched_ := (sched resume_tool).
Abbreviation tasks := (list (T * coro Args)).

(** The call at place [i] of a batch that begins after step [n]. *)
Abbreviation step_at n i := (n + Z.of_nat i + 1).

Definition batch_ready (calls : list (T * Args)) (n : Z) : Prop :=
  ∀ i t x, calls !! i = Some (t, x) → admissible (step_at n i) t x.

(** The bodies that ran, by a flag for each call. *)
Definition ran_bodies (rans : list bool) (calls : list (T * Args)) : list Args :=
  concat (zip_with (λ (ran : bool) (tx : T * Args), if ran then [tx.2] else []) rans calls).

Lemma ran_bodies_insert rans calls i ran ran' t x :
  rans !! i = Some ran → calls !! i = Some (t, x) → (ran = true → ran' = true) →
  ran_bodies (<[i := ran']> rans) calls ≡ₚ
    ran_bodies rans calls ++ if negb ran && ran' then [x] else [].
Proof.
  unfold ran_bodies. revert rans i. induction calls as [|tx calls IH]; intros [|b rans] [|i] Hr Hc Hmono;
    simplify_eq/=.
  - destruct ran; [by rewrite Hmono, app_nil_r|]. destruct ran'; simpl; [|by rewrite app_nil_r].
    apply Permutation_cons_append.
  - rewrite IH by done. by rewrite app_assoc.
Qed.

Lemma ran_bodies_none calls : ran_bodies (replicate (length calls) false) calls = [].
Proof. by induction calls. Qed.

(** Signatures that no call of the batch has. *)
Definition not_called (calls : list (T * Args)) (n : Z) (sig : pystr) : Prop :=
  ∀ i t x, calls !! i = Some (t, x) → sig ≠ sig_ (step_at n i) t x.

(** A batch under way: its tasks are those of the calls, the first [started]
    have begun, every other signature is as it was, and the record of bodies is
    that of the calls whose body has run. *)
Record batch_at (calls : list (T * Args)) (n : Z) (l : nat) (V0 : states) (log0 : list Args)
    (ts : tasks) (a : proc) (w : world) (log : list Args) (rans : list bool) (started : nat) : Prop := {
  ba_length : length ts = length calls ∧ length rans = length calls;
  ba_tasks : ∀ i t x, calls !! i = Some (t, x) →
    ∃ c ran, ts !! i = Some (t, c) ∧ rans !! i = Some ran ∧
      task_ok l (step_at n i) t x (V0 (sig_ (step_at n i) t x)) c ran
        (state_of (w_db w) (sig_ (step_at n i) t x));
  ba_started : ∀ i t c, ts !! i = Some (t, c) → is_created c = (started <=? i)%nat;
  ba_bound : (started ≤ length calls)%nat;
  ba_process : in_session_ a l (n + Z.of_nat started) w log;
  ba_else : ∀ sig, not_called calls n sig → state_of (w_db w) sig = V0 sig;
  ba_log : log ≡ₚ log0 ++ ran_bodies rans calls;
}.

Lemma batch_begins calls n l (a : proc) w log :
  in_session_ a l n w log →
  batch_at calls n l (state_of (w_db w)) log (gathered calls) a w log (replicate (length calls) false) 0.
Proof.
  intros Hin. split.
  - split; [apply length_fmap|apply length_replicate].
  - intros i t x Hi. exists (Created x), false. unfold gathered. rewrite list_lookup_fmap, Hi.
    split_and!; [done| |done]. apply lookup_replicate_2. by eapply lookup_lt_Some.
  - intros i t c. unfold gathered. rewrite list_lookup_fmap. by destruct (calls !! i); intros; simplify_eq/=.
  - lia.
  - by rewrite Z.add_0_r.
  - done.
  - by rewrite ran_bodies_none, app_nil_r.
Qed.

(** The digest tells byte streams apart. *)
Hypothesis digest_injective : ∀ b b', blake3_hexdigest b = blake3_hexdigest b' → b = b'.

Lemma places_apart calls n i j t x t' x' :
  batch_ready calls n → calls !! i = Some (t, x) → calls !! j = Some (t', x') → i ≠ j →
  sig_ (step_at n i) t x ≠ sig_ (step_at n j) t' x'.
Proof.
  intros Hready Hi Hj Hne Heq.
  eapply valid_apart in Heq; [lia|done|apply (ad_valid _ _ _ (Hready _ _ _ Hi))|
    apply (ad_valid _ _ _ (Hready _ _ _ Hj))].
Qed.

(** A task that may start is the next one. *)
Lemma next_to_start calls n l V0 log0 ts (a : proc) w log rans started i t c :
  batch_at calls n l V0 log0 ts a w log rans started →
  ts !! i = Some (t, c) → is_created c = true →
  Forall (λ tc, is_created tc.2 = false) (take i ts) → i = started.
Proof.
  intros B Hi Hc Hbefore. pose proof (ba_started _ _ _ _ _ _ _ _ _ _ _ B i t c Hi) as Hs.
  rewrite Hc in Hs. symmetry in Hs. apply Nat.leb_le in Hs. destruct (base.decide (started < i)%nat) as [Hlt|]; [|lia].
  assert (is_Some (ts !! started)) as [[t' c'] Hj].
  { apply lookup_lt_is_Some. apply lookup_lt_Some in Hi. lia. }
  pose proof (ba_started _ _ _ _ _ _ _ _ _ _ _ B _ _ _ Hj) as Hs'. rewrite Nat.leb_refl in Hs'.
  rewrite Forall_lookup in Hbefore. specialize (Hbefore started (t', c')). cbn in Hbefore.
  rewrite Hbefore in Hs'; [done|]. by apply lookup_take_Some.
Qed.

(** The started tasks stay a prefix. *)
Lemma started_moves (ts : tasks) started i t c c' :
  (∀ j t c, ts !! j = Some (t, c) → is_created c = (started <=? j)%nat) →
  ts !! i = Some (t, c) → (is_created c = true → i = started) → is_created c' = false →
  ∀ j t1 c1, <[i := (t, c')]> ts !! j = Some (t1, c1) →
  is_created c1 = ((if is_created c then S started else started) <=? j)%nat.
Proof.
  intros Hst Hi Hnext Hc' j t1 c1 Hj. pose proof (Hst i t c Hi) as Hc.
  destruct (base.decide (i = j)) as [<-|Hne].
  - rewrite list_lookup_insert_eq in Hj by (by eapply lookup_lt_Some). simplify_eq. rewrite Hc'.
    symmetry. apply Nat.leb_gt. destruct (is_created c).
    + rewrite Hnext by done. lia.
    + symmetry in Hc. by apply Nat.leb_gt in Hc.
  - rewrite list_lookup_insert_ne in Hj by done. rewrite (Hst j t1 c1 Hj).
    destruct (is_created c); [|done]. specialize (Hnext eq_refl).
    destruct (Nat.leb_spec started j), (Nat.leb_spec (S started) j); try done; lia.
Qed.

(** Whichever task the loop resumes, the batch is under way afterwards. *)
Lemma batch_step calls n l V0 log0 ts (a : proc) w log rans started ts' a' :
  batch_ready calls n → batch_at calls n l V0 log0 ts a w log rans started →
  sched_ (ts, a) (ts', a') →
  ∃ w' log' rans' started', batch_at calls n l V0 log0 ts' a' w' log' rans' started'.
Proof.
  intros Hready B Hsched. inversion Hsched as [? ? i t c c' ? Hi Hrem Hord Hres]; subst.
  pose proof (λ Hc, next_to_start _ _ _ _ _ _ _ _ _ _ _ i t c B Hi Hc (Hord Hc)) as Hnext.
  destruct B as [[Hlen Hlenr] Htasks Hst Hbound Hproc Helse Hlog].
  pose proof (lookup_lt_Some _ _ _ Hi) as Hlt. rewrite Hlen in Hlt.
  destruct (lookup_lt_is_Some_2 calls i Hlt) as [[t0 x] Hcall].
  destruct (Htasks i t0 x Hcall) as (c0 & ran & Hi' & Hran & Hok). rewrite Hi in Hi'. injection Hi' as <- <-.
  assert (is_created c = true → step_at n i = n + Z.of_nat started + 1) as Hm
    by (intros Hc; by rewrite (Hnext Hc)).
  destruct (resume_ok l t x (n + Z.of_nat started) (step_at n i) _ c ran w log a c' a'
    (Hready i t x Hcall) Hproc Hm Hrem Hok Hres) as (w' & ran' & [Hproc' Htask' Hstd' Hmono He]).
  exists w', (log ++ if negb ran && ran' then [x] else []), (<[i := ran']> rans),
    (if is_created c then S started else started).
  split.
  - by rewrite !length_insert.
  - intros j t' x' Hj. destruct (base.decide (i = j)) as [<-|Hne].
    + simplify_eq. exists c', ran'. rewrite !list_lookup_insert_eq by lia. done.
    + destruct (Htasks j t' x' Hj) as (cj & rj & ? & ? & Hokj). exists cj, rj.
      rewrite !list_lookup_insert_ne by done. split_and!; [done..|].
      rewrite He; [done|]. by apply (places_apart calls).
  - by eapply started_moves.
  - destruct (is_created c); [rewrite <-(Hnext eq_refl); lia|done].
  - destruct (is_created c); [|done].
    replace (n + Z.of_nat (S started)) with (n + Z.of_nat started + 1) by lia. done.
  - intros sig Hsig. rewrite He; [by apply Helse|by apply Hsig].
  - rewrite (ran_bodies_insert _ _ _ ran) by done. rewrite Hlog. by rewrite app_assoc.
Qed.

Lemma batch_reachable calls n l V0 log0 ts (a : proc) w log rans started ts' a' :
  batch_ready calls n → batch_at calls n l V0 log0 ts a w log rans started →
  rtc sched_ (ts, a) (ts', a') →
  ∃ w' log' rans' started', batch_at calls n l V0 log0 ts' a' w' log' rans' started'.
Proof.
  intros Hready B Hrun. remember (ts, a) as s eqn:Es. remember (ts', a') as s' eqn:Es'.
  revert ts a w log rans started B Es. induction Hrun as [s|s [ts1 a1] s' Hstep Hrun IH];
    intros ts a w log rans started B ->; [simplify_eq; eauto|].
  destruct (batch_step calls n l V0 log0 ts a w log rans started ts1 a1 Hready B Hstep)
    as (w1 & log1 & rans1 & st1 & B1). by eapply IH.
Qed.

(** *** What a batch comes to *)

(** The outcome of a batch: every call is answered by the rule of its own
    signature, as that was before the batch, and no other signature moves. *)
Record batch_outcome (calls : list (T * Args)) (n : Z) (V0 : states) (rs : list (sdk_exc + json))
    (rans : list bool) (V : states) : Prop := {
  bo_length : length rs = length calls ∧ length rans = length calls;
  bo_calls : ∀ i t x, calls !! i = Some (t, x) →
    ∃ res ran, rs !! i = Some (result_of py_str (wt_name (tools t)) (step_at n i) res) ∧
      rans !! i = Some ran ∧
      tool_step_ t x (V0 (sig_ (step_at n i) t x)) res ran (V (sig_ (step_at n i) t x));
  bo_else : ∀ sig, not_called calls n sig → V sig = V0 sig;
}.

(** The tasks of a batch that has ended with the results [rs]. *)
Definition finished (calls : list (T * Args)) (rs : list (sdk_exc + json)) : tasks :=
  zip calls.*1 (Ended <$> rs).

Lemma ended_results (ts : tasks) :
  all_ended ts → ∃ rs, ts = zip ts.*1 (Ended <$> rs) ∧ length rs = length ts.
Proof.
  induction 1 as [|[t c] ts Hc _ (rs & IH & Hlen)]; [by exists []|].
  destruct c as [| | | |r]; cbn in Hc; try lia. exists (r :: rs). cbn. by rewrite <-IH, Hlen.
Qed.

Lemma batch_tools calls n l V0 log0 ts (a : proc) w log rans started :
  batch_at calls n l V0 log0 ts a w log rans started → ts.*1 = calls.*1.
Proof.
  intros [[Hlen _] Htasks _ _ _ _ _]. apply list_eq. intros i. rewrite !list_lookup_fmap.
  destruct (calls !! i) as [[t x]|] eqn:Hi.
  - destruct (Htasks i t x Hi) as (c & ran & -> & _). done.
  - apply lookup_ge_None in Hi. rewrite (lookup_ge_None_2 ts) by lia. done.
Qed.

Lemma batch_ends calls n l V0 log0 ts (a : proc) w log rans started :
  batch_at calls n l V0 log0 ts a w log rans started → all_ended ts →
  ∃ rs, ts = finished calls rs ∧ batch_outcome calls n V0 rs rans (state_of (w_db w)) ∧
    in_session_ a l (n + Z.of_nat (length calls)) w log.
Proof.
  intros B Hend. destruct (ended_results ts Hend) as (rs & Hts & Hlenrs).
  rewrite (batch_tools _ _ _ _ _ _ _ _ _ _ _ B) in Hts. exists rs. split; [exact Hts|].
  destruct B as [[Hlen Hlenr] Htasks Hst Hbound Hproc Helse Hlog]. split.
  - split; [split; lia| |done]. intros i t x Hi.
    destruct (Htasks i t x Hi) as (c & ran & Hti & Hran & Hok).
    assert (is_Some (rs !! i)) as [r Hr].
    { apply lookup_lt_is_Some. apply lookup_lt_Some in Hi. lia. }
    rewrite Hts, (lookup_zip_with_Some (λ t c, (t, c))) in Hti.
    destruct Hti as (t' & c' & [= <- <-] & _ & Hc). rewrite list_lookup_fmap, Hr in Hc. simplify_eq/=.
    destruct Hok as (res & Hstep & ->). by exists res, ran.
  - destruct (base.decide (started = length calls)) as [<-|Hne]; [done|].
    assert (is_Some (ts !! started)) as [[t c] Hc] by (apply lookup_lt_is_Some; lia).
    pose proof (Hst _ _ _ Hc) as Hcr. rewrite Nat.leb_refl in Hcr.
    unfold all_ended in Hend. rewrite Forall_lookup in Hend. specialize (Hend _ _ Hc). by destruct c.
Qed.

Lemma gathered_outcome calls n l (a : proc) w log ts' a' :
  batch_ready calls n → in_session_ a l n w log →
  rtc sched_ (gathered calls, a) (ts', a') → all_ended ts' →
  ∃ rs rans w' log', ts' = finished calls rs ∧
    batch_outcome calls n (state_of (w_db w)) rs rans (state_of (w_db w')) ∧
    in_session_ a' l (n + Z.of_nat (length calls)) w' log' ∧ log' ≡ₚ log ++ ran_bodies rans calls.
Proof.
  intros Hready Hin Hrun Hend.
  destruct (batch_reachable calls n l _ _ _ a w log _ _ ts' a' Hready (batch_begins calls n l a w log Hin) Hrun)
    as (w' & log' & rans & st & B).
  destruct (batch_ends _ _ _ _ _ _ _ _ _ _ _ B Hend) as (rs & -> & Ho & Hin').
  exists rs, rans, w', log'. split_and!; [done..|]. apply B.
Qed.

(** C6: a batch of concurrent calls is durable. The tools are not of the tier
    SAFE and the digest of signatures has no collision. Whatever the order in
    which the event loop resumes the calls of a [gather], when all have ended
    the result of each is the one its own signature asks for, as the journal had
    it before the batch: the call at place [i] takes step [n + i + 1], a
    committed one is answered from the journal, a free one has run its body once
    and is committed or freed again, a gated one waits. No other signature
    moved, and the bodies that ran are those of the calls that ran, in some
    order. *)
Theorem concurrent_calls_are_durable calls n l (a : proc) w log ts' a' :
  batch_ready calls n → in_session_ a l n w log →
  rtc sched_ (gathered calls, a) (ts', a') → all_ended ts' →
  ∃ rs rans w' log', ts' = finished calls rs ∧
    batch_outcome calls n (state_of (w_db w)) rs rans (state_of (w_db w')) ∧
    in_session_ a' l (n + Z.of_nat (length calls)) w' log' ∧ log' ≡ₚ log ++ ran_bodies rans calls.
Proof. apply gathered_outcome. Qed.

(** *** The same calls one after the other *)

Abbreviation call_of_ := (call_of float_of_text blake3_hexdigest exc_str py_str srv uuid4_str utc_now_str
  time_ns_at encode session_param env_proxy_url env_api_key is_success repr_status tools cl).

(** The calls awaited in turn, each whatever the ones before came to. *)
Fixpoint one_by_one (calls : list (T * Args)) (a : proc) : list (sdk_exc + json) * proc :=
  match calls with
  | [] => ([], a)
  | (t, x) :: rest =>
      let '(r, a1) := call_of_ t x a in
      let '(rs, a2) := one_by_one rest a1 in (r :: rs, a2)
  end.

Lemma drive_sched before t after k c (a : proc) c' a' :
  Forall (λ tc, is_created tc.2 = false) before →
  drive env_proxy_url env_api_key server_ is_success repr_status py_str Args (wt_name (tools t))
    (wt_bind (tools t)) (run_body Args (wt_body (tools t))) session_param (wt_tier (tools t)) (Some cl) None
    k c a = (c', a') →
  rtc sched_ (before ++ (t, c) :: after, a) (before ++ (t, c') :: after, a').
Proof.
  intros Hb. revert c a. induction k as [|k IH]; intros c a E; cbn [drive] in E; [by simplify_eq|].
  change (resume _ _ _ _ _ _ _ _ _ _ _ _ _ _ c a) with (resume_tool t c a) in E.
  destruct (base.decide (0 < remaining c)%nat) as [Hrem|Hrem].
  - destruct (resume_tool t c a) as [c1 a1] eqn:Er. eapply rtc_l; [|by apply IH].
    replace (before ++ (t, c1) :: after) with (<[length before := (t, c1)]> (before ++ (t, c) :: after)).
    + eapply (sched_resume _ _ _ _ t c); [by rewrite list_lookup_middle|done| |done].
      intros _. by rewrite take_app_length.
    + rewrite insert_app_r_alt, Nat.sub_diag by done. done.
  - destruct c as [| | | |r]; cbn in Hrem; try lia. by apply IH.
Qed.

(** Awaiting the calls in turn is one of the schedules. *)
Lemma one_by_one_sched before calls (a : proc) rs a' :
  Forall (λ tc, is_created tc.2 = false) before → one_by_one calls a = (rs, a') →
  rtc sched_ (before ++ gathered calls, a) (before ++ finished calls rs, a').
Proof.
  revert before a rs. induction calls as [|[t x] rest IH]; intros before a rs Hb E; cbn [one_by_one] in E.
  { by simplify_eq. }
  destruct (call_of_ t x a) as [r a1] eqn:Ec. destruct (one_by_one rest a1) as [rs1 a2] eqn:Er. simplify_eq.
  pose proof (drive_is_wrapper env_proxy_url env_api_key server_ is_success repr_status py_str Args
    (wt_name (tools t)) (wt_bind (tools t)) (run_body Args (wt_body (tools t))) session_param
    (wt_tier (tools t)) (Some cl) None x a) as Hd.
  unfold call_of in Ec. rewrite Ec in Hd.
  etrans; [by apply (drive_sched before t (gathered rest) 4)|].
  change ((t, Ended r) :: gathered rest) with ([(t, Ended r)] ++ gathered rest).
  change (finished ((t, x) :: rest) (r :: rs1)) with ([(t, @Ended Args r)] ++ finished rest rs1).
  rewrite !app_assoc. apply IH; [|done]. apply Forall_app. split; [done|by repeat constructor].
Qed.

Lemma finished_ended calls rs : length rs = length calls → all_ended (finished calls rs).
Proof.
  unfold finished, all_ended. revert rs. induction calls as [|tx calls IH]; intros [|r rs] H;
    simplify_eq/=; constructor; auto.
Qed.

Lemma one_by_one_length calls (a : proc) : length (one_by_one calls a).1 = length calls.
Proof.
  revert a. induction calls as [|[t x] calls IH]; intros a; [done|]. cbn [one_by_one].
  destruct (call_of_ t x a) as [r a1]. specialize (IH a1). destruct (one_by_one calls a1) as [rs a2].
  cbn in *. by rewrite IH.
Qed.

Lemma one_by_one_outcome calls n l (a : proc) w log rs a' :
  batch_ready calls n → in_session_ a l n w log → one_by_one calls a = (rs, a') →
  ∃ rans w' log', batch_outcome calls n (state_of (w_db w)) rs rans (state_of (w_db w')) ∧
    in_session_ a' l (n + Z.of_nat (length calls)) w' log' ∧ log' ≡ₚ log ++ ran_bodies rans calls.
Proof.
  intros Hready Hin E. pose proof (one_by_one_length calls a) as Hlen. rewrite E in Hlen. cbn in Hlen.
  destruct (gathered_outcome calls n l a w log (finished calls rs) a' Hready Hin)
    as (rs' & rans & w' & log' & Hfin & Ho & H).
  - by apply (one_by_one_sched []).
  - by apply finished_ended.
  - exists rans, w', log'. split; [|done]. replace rs with rs'; [done|].
    destruct (bo_length _ _ _ _ _ _ Ho) as [Hlen' _].
    apply (f_equal (fmap snd)) in Hfin. unfold finished in Hfin.
    rewrite !snd_zip in Hfin by (rewrite !length_fmap; lia). assert (Inj (=) (=) (@Ended Args)) as Hinj by (by intros ? ? [= ->]).
    by apply (list_fmap_eq_inj Ended) in Hfin.
Qed.

(** Results and states that differ in the identifiers the server made up. *)
Inductive same_result : tool_result → tool_result → Prop :=
| sr_eq r : same_result r r
| sr_waits aid aid' : same_result (Suspends aid) (Suspends aid').

Inductive same_state : call_state → call_state → Prop :=
| ss_eq st : same_state st st
| ss_held id aid id' aid' : same_state (Held id aid) (Held id' aid')
| ss_done id id' r : same_state (Done id r) (Done id' r).

Lemma tool_step_agrees g b st res ran st1 res' ran' st1' :
  tool_step srv g b st res ran st1 → tool_step srv g b st res' ran' st1' →
  same_result res res' ∧ ran = ran' ∧ same_state st1 st1'.
Proof.
  intros H H'. inversion H as [? ? ? ? Hr Hb|? ? ? ? Hr Hb|? ? ? Hr|]; subst;
    inversion H' as [? ? ? ? Hr' Hb'|? ? ? ? Hr' Hb'|? ? ? Hr'|]; simplify_eq;
    try (by split_and!; constructor); try (by inversion Hr); try (by inversion Hr');
    inversion Hr; subst; inversion Hr'; subst; simplify_eq; try congruence; by split_and!; constructor.
Qed.

Lemma outcomes_agree calls n V0 rs rans V rs' rans' V' :
  batch_outcome calls n V0 rs rans V → batch_outcome calls n V0 rs' rans' V' →
  rans = rans' ∧
  ∀ i t x, calls !! i = Some (t, x) →
    same_state (V (sig_ (step_at n i) t x)) (V' (sig_ (step_at n i) t x)) ∧
    ∃ res res', same_result res res' ∧
      rs !! i = Some (result_of py_str (wt_name (tools t)) (step_at n i) res) ∧
      rs' !! i = Some (result_of py_str (wt_name (tools t)) (step_at n i) res').
Proof.
  intros [[_ Hlen] Hc _] [[_ Hlen'] Hc' _].
  assert (∀ i t x, calls !! i = Some (t, x) → rans !! i = rans' !! i ∧
    same_state (V (sig_ (step_at n i) t x)) (V' (sig_ (step_at n i) t x)) ∧
    ∃ res res', same_result res res' ∧
      rs !! i = Some (result_of py_str (wt_name (tools t)) (step_at n i) res) ∧
      rs' !! i = Some (result_of py_str (wt_name (tools t)) (step_at n i) res')) as Hall.
  { intros i t x Hi. destruct (Hc i t x Hi) as (res & ran & Hr & Hran & Hs).
    destruct (Hc' i t x Hi) as (res' & ran' & Hr' & Hran' & Hs').
    destruct (tool_step_agrees _ _ _ _ _ _ _ _ _ Hs Hs') as (Hsr & -> & Hss). rewrite Hran, Hran'. eauto 8. }
  split; [|intros i t x Hi; by apply Hall].
  apply list_eq. intros i. destruct (calls !! i) as [[t x]|] eqn:Hi; [by apply (Hall i t x)|].
  apply lookup_ge_None in Hi. by rewrite !lookup_ge_None_2 by lia.
Qed.

(** C8: concurrency changes nothing. Take calls of tools that are not of the
    tier SAFE; the digest of signatures has no collision. A finished [gather] of
    the calls and the same calls awaited one after the other, from the same
    state of the process and of the server, come to the same: at every place the
    results are equal (two suspended calls may name different approvals), the
    signature is left in the same state up to identifiers, the step counter is
    the same, and the same bodies ran, each as often. *)
Theorem gather_agrees_with_sequence calls n l (a : proc) w log ts' a' rs2 a2 :
  batch_ready calls n → in_session_ a l n w log →
  rtc sched_ (gathered calls, a) (ts', a') → all_ended ts' →
  one_by_one calls a = (rs2, a2) →
  ∃ rs1 w1 w2 log1 log2, ts' = finished calls rs1 ∧ length rs1 = length rs2 ∧
    (∀ i t x, calls !! i = Some (t, x) →
       same_state (state_of (w_db w1) (sig_ (step_at n i) t x)) (state_of (w_db w2) (sig_ (step_at n i) t x)) ∧
       ∃ res1 res2, same_result res1 res2 ∧
         rs1 !! i = Some (result_of py_str (wt_name (tools t)) (step_at n i) res1) ∧
         rs2 !! i = Some (result_of py_str (wt_name (tools t)) (step_at n i) res2)) ∧
    in_session_ a' l (n + Z.of_nat (length calls)) w1 log1 ∧
    in_session_ a2 l (n + Z.of_nat (length calls)) w2 log2 ∧ log1 ≡ₚ log2.
Proof.
  intros Hready Hin Hrun Hend Eseq.
  destruct (gathered_outcome calls n l a w log ts' a') as (rs1 & rans1 & w1 & log1 & -> & Ho1 & Hin1 & Hl1); [done..|].
  destruct (one_by_one_outcome calls n l a w log rs2 a2) as (rans2 & w2 & log2 & Ho2 & Hin2 & Hl2); [done..|].
  destruct (outcomes_agree _ _ _ _ _ _ _ _ _ Ho1 Ho2) as [<- Hall].
  exists rs1, w1, w2, log1, log2. split_and!; try done.
  - by rewrite (proj1 (bo_length _ _ _ _ _ _ Ho1)), (proj1 (bo_length _ _ _ _ _ _ Ho2)).
  - by rewrite Hl1, Hl2.
Qed.

(** *** A process that dies during a batch *)

(** The calls whose body has run and whose report has not arrived. *)
Definition unreported (ts : tasks) (calls : list (T * Args)) : list Args :=
  concat (zip_with (λ (tc : T * coro Args) (tx : T * Args),
    match tc.2 with Reporting _ _ _ _ => [tx.2] | _ => [] end) ts calls).

(** The calls need no approval, their bodies return, and none has been made. *)
Definition fresh_batch (calls : list (T * Args)) (n : Z) (V : states) : Prop :=
  ∀ i t x, calls !! i = Some (t, x) →
    gate t = false ∧ (∃ v, wt_body (tools t) x = inr v) ∧ V (sig_ (step_at n i) t x) = Free.

(** Where a call of a fresh batch stands, and what repeating it does. *)
Lemma repeat_task l m t x v c ran st res ran2 st2 :
  gate t = false → wt_body (tools t) x = inr v → task_ok l m t x Free c ran st →
  tool_step_ t x st res ran2 st2 →
  res = Returns v ∧
  (if ran then [x] else []) ++ (if ran2 then [x] else [])
    ≡ₚ [x] ++ match c with Reporting _ _ _ _ => [x] | _ => [] end.
Proof.
  intros Hg Hb Hok Hs. cbv beta in *.
  assert (∀ id st', call_rule (auto_approve srv) (gate t) Free (ARun id) st' → st' = Running id) as Hrun
    by (intros id st' Hr; by inversion Hr).
  assert ((st = Free ∨ ∃ id, st = Running id) → res = Returns v ∧ ran2 = true) as Hopen.
  { cbv beta in *. rewrite Hg, Hb in Hs.
    intros [-> |[id ->]]; inversion Hs as [? ? ? ? Hr Ho|? ? ? ? Hr Ho|? ? ? Hr|]; simplify_eq;
      try done; by inversion Hr. }
  destruct c as [x'|l' cl' step ca x'|l' cl' eid x'|l' cl' id out|r]; cbn in Hok.
  - destruct Hok as (_ & -> & ->). by destruct Hopen as [-> ->]; [left|].
  - destruct Hok as (_ & _ & _ & _ & -> & -> & _). by destruct Hopen as [-> ->]; [left|].
  - destruct Hok as (_ & _ & _ & -> & id & _ & Hr%Hrun). by destruct Hopen as [-> ->]; [right; eauto|].
  - destruct Hok as (_ & _ & _ & -> & Hr%Hrun). by destruct Hopen as [-> ->]; [right; eauto|].
  - destruct Hok as (res0 & Hs0 & ->). rewrite Hg, Hb in Hs0.
    inversion Hs0 as [? id ? o Hr Ho|? ? ? ? Hr Ho|? ? ? Hr|]; simplify_eq; [|by inversion Hr].
    by apply step_from_done in Hs as (-> & -> & ->).
Qed.

Lemma ran_bodies_cons (r : bool) rans t x calls :
  ran_bodies (r :: rans) ((t, x) :: calls) = (if r then [x] else []) ++ ran_bodies rans calls.
Proof. done. Qed.

Lemma unreported_cons tc ts t x calls :
  unreported (tc :: ts) ((t, x) :: calls) =
    match tc.2 with Reporting _ _ _ _ => [x] | _ => [] end ++ unreported ts calls.
Proof. done. Qed.

Lemma repeated_bodies (calls : list (T * Args)) (ts : tasks) rans rans2 :
  length ts = length calls → length rans = length calls → length rans2 = length calls →
  (∀ i t x tc (ran ran2 : bool), calls !! i = Some (t, x) → ts !! i = Some tc → rans !! i = Some ran →
     rans2 !! i = Some ran2 →
     (if ran then [x] else []) ++ (if ran2 then [x] else [])
       ≡ₚ [x] ++ match tc.2 with Reporting _ _ _ _ => [x] | _ => [] end) →
  ran_bodies rans calls ++ ran_bodies rans2 calls ≡ₚ calls.*2 ++ unreported ts calls.
Proof.
  revert ts rans rans2.
  induction calls as [|[t x] calls IH]; intros [|tc ts] [|r rans] [|r2 rans2] Ht Hr Hr2 H; simplify_eq/=; [done|].
  specialize (H 0%nat t x tc r r2 eq_refl eq_refl eq_refl eq_refl) as H0.
  specialize (IH ts rans rans2 Ht Hr Hr2 (λ i, H (S i))).
  rewrite !ran_bodies_cons, unreported_cons. cbn [fmap list_fmap snd].
  transitivity (((if r then [x] else []) ++ if r2 then [x] else []) ++
    ran_bodies rans calls ++ ran_bodies rans2 calls); [solve_Permutation|].
  rewrite H0, IH. cbn. apply perm_skip. solve_Permutation.
Qed.

(** C7: a batch survives the death of the process. Take a batch of calls of
    tools that are not SAFE, need no approval and return, under signatures that
    are unused; the digest of signatures has no collision. Let it be interrupted
    after any number of steps of the event loop (a request that was served and
    whose answer was lost with the process counts as a step). A process that
    starts the batch again in the same session, under any schedule, gets from
    every call what its body returns; over both lives every body ran exactly
    once, except that the calls that were waiting for the report of a body that
    had run are executed a second time. *)
Theorem crashed_batches_recover calls n l (a : proc) w log ts1 a1 :
  batch_ready calls n → in_session_ a l n w log → fresh_batch calls n (state_of (w_db w)) →
  rtc sched_ (gathered calls, a) (ts1, a1) →
  ∃ w1 log1, ag_ext a1 = (w1, log1) ∧
    ∀ a2 l2 ts3 a3, in_session_ a2 l2 n w1 log1 →
      rtc sched_ (gathered calls, a2) (ts3, a3) → all_ended ts3 →
      ∃ rs w3 log3, ts3 = finished calls rs ∧
        (∀ i t x, calls !! i = Some (t, x) → ∃ v, wt_body (tools t) x = inr v ∧ rs !! i = Some (inr v)) ∧
        ag_ext a3 = (w3, log3) ∧ log3 ≡ₚ log ++ calls.*2 ++ unreported ts1 calls.
Proof.
  intros Hready Hin Hfresh Hrun.
  destruct (batch_reachable calls n l _ _ _ a w log _ _ ts1 a1 Hready (batch_begins calls n l a w log Hin) Hrun)
    as (w1 & log1 & rans1 & st1 & B). exists w1, log1. split; [apply B|].
  intros a2 l2 ts3 a3 Hin2 Hrun2 Hend.
  destruct (gathered_outcome calls n l2 a2 w1 log1 ts3 a3) as (rs & rans3 & w3 & log3 & -> & Ho & Hin3 & Hl3); [done..|].
  assert (∀ i t x, calls !! i = Some (t, x) → ∃ v res c (ran ran3 : bool),
    wt_body (tools t) x = inr v ∧ rs !! i = Some (result_of py_str (wt_name (tools t)) (step_at n i) res) ∧
    ts1 !! i = Some (t, c) ∧ rans1 !! i = Some ran ∧ rans3 !! i = Some ran3 ∧ res = Returns v ∧
    (if ran then [x] else []) ++ (if ran3 then [x] else [])
      ≡ₚ [x] ++ match c with Reporting _ _ _ _ => [x] | _ => [] end) as Hall.
  { intros i t x Hi. destruct (Hfresh i t x Hi) as (Hg & [v Hv] & Hfree).
    destruct (ba_tasks _ _ _ _ _ _ _ _ _ _ _ B i t x Hi) as (c & ran & Hc & Hran & Hok).
    destruct (bo_calls _ _ _ _ _ _ Ho i t x Hi) as (res & ran3 & Hr & Hran3 & Hs). rewrite Hfree in Hok.
    destruct (repeat_task _ _ _ _ _ _ _ _ _ _ _ Hg Hv Hok Hs). eauto 15. }
  exists rs, w3, log3. split; [done|]. split; [|split; [apply Hin3|]].
  - intros i t x Hi. destruct (Hall i t x Hi) as (v & res & c & ran & ran3 & Hv & Hr & _ & _ & _ & -> & _). eauto.
  - rewrite Hl3, (ba_log _ _ _ _ _ _ _ _ _ _ _ B), <-app_assoc, (repeated_bodies calls ts1); [done|..].
    + apply B.
    + apply B.
    + apply Ho.
    + intros i t x tc ran ran3 Hi Htc Hran Hran3.
      destruct (Hall i t x Hi) as (v & res & c & ran' & ran3' & _ & _ & Hc & Hran' & Hran3' & _ & Hp).
      rewrite Htc in Hc. rewrite Hran in Hran'. rewrite Hran3 in Hran3'. by simplify_eq/=.
Qed.

(** *** Total correctness *)

Lemma steps_bounded k (s s' : tasks * proc) : nsteps sched_ k s s' → (k + total s'.1 ≤ total s.1)%nat.
Proof.
  induction 1 as [s|j s s1 s' Hstep _ IH]; [lia|].
  inversion Hstep as [ts a0 i t c c' a1 Hi Hrem _ Hres]; subst. cbn [fst] in *.
  pose proof (total_insert ts i t c c' Hi). apply resume_decreases in Hres; [|done]. lia.
Qed.

(** A call nobody has made, of a tool that needs no approval and returns. *)
Lemma fresh_call_runs t x v res ran st :
  gate t = false → wt_body (tools t) x = inr v → tool_step_ t x Free res ran st →
  res = Returns v ∧ ran = true ∧ ∃ id, st = Done id (Some (result_envelope v)).
Proof.
  intros Hg Hb Hs. cbv beta in Hs. rewrite Hg, Hb in Hs.
  inversion Hs as [? id ? ? Hr Ho|? ? ? ? Hr Ho|? ? ? Hr|]; simplify_eq; [eauto|by inversion Hr].
Qed.

Lemma ran_bodies_all rans calls :
  length rans = length calls → (∀ i r, rans !! i = Some r → r = true) → ran_bodies rans calls = calls.*2.
Proof.
  revert rans. induction calls as [|[t x] calls IH]; intros [|r rans] Hl Hr; simplify_eq/=; [done|].
  rewrite ran_bodies_cons, (Hr 0%nat r eq_refl), IH; [done..|]. intros i. apply (Hr (S i)).
Qed.

Lemma fresh_batch_outcome calls n V0 rs rans V :
  fresh_batch calls n V0 → batch_outcome calls n V0 rs rans V →
  (∀ i t x, calls !! i = Some (t, x) → ∃ v id, wt_body (tools t) x = inr v ∧ rs !! i = Some (inr v) ∧
     V (sig_ (step_at n i) t x) = Done id (Some (result_envelope v))) ∧
  ran_bodies rans calls = calls.*2.
Proof.
  intros Hfresh [[Hl Hlr] Hcalls _].
  assert (∀ i t x, calls !! i = Some (t, x) → ∃ v id, wt_body (tools t) x = inr v ∧ rs !! i = Some (inr v) ∧
    rans !! i = Some true ∧ V (sig_ (step_at n i) t x) = Done id (Some (result_envelope v))) as Hall.
  { intros i t x Hi. destruct (Hfresh i t x Hi) as (Hg & [v Hv] & Hfree).
    destruct (Hcalls i t x Hi) as (res & ran & Hr & Hran & Hs). rewrite Hfree in Hs.
    destruct (fresh_call_runs t x v res ran _ Hg Hv Hs) as (-> & -> & id & Hid). eauto 8. }
  split; [intros i t x Hi; destruct (Hall i t x Hi) as (v & id & ? & ? & ? & ?); eauto 8|].
  apply ran_bodies_all; [done|]. intros i r Hr.
  assert (is_Some (calls !! i)) as [[t x] Hi] by (apply lookup_lt_is_Some; apply lookup_lt_Some in Hr; lia).
  destruct (Hall i t x Hi) as (v & id & _ & _ & Hran & _). congruence.
Qed.

(** C21: a fresh batch completes, under every schedule. Take [k] concurrent
    calls of tools that are not SAFE, need no approval and return, whose
    signatures are unused; the digest of signatures has no collision. However
    the event loop chooses, it makes at most [4 * k] steps, and it stops only
    when the batch is complete: every call has returned what its body returns,
    every signature is committed with that result, the step counter has moved by
    [k], no other signature has moved, and every body has run exactly once. *)
Theorem fresh_batches_complete calls n l (a : proc) w log j ts' a' :
  batch_ready calls n → in_session_ a l n w log → fresh_batch calls n (state_of (w_db w)) →
  nsteps sched_ j (gathered calls, a) (ts', a') →
  (j ≤ 4 * length calls)%nat ∧
  ((¬ ∃ next, sched_ (ts', a') next) →
   ∃ rs w' log', ts' = finished calls rs ∧ length rs = length calls ∧
     (∀ i t x, calls !! i = Some (t, x) → ∃ v id, wt_body (tools t) x = inr v ∧ rs !! i = Some (inr v) ∧
        state_of (w_db w') (sig_ (step_at n i) t x) = Done id (Some (result_envelope v))) ∧
     (∀ sig, not_called calls n sig → state_of (w_db w') sig = state_of (w_db w) sig) ∧
     in_session_ a' l (n + Z.of_nat (length calls)) w' log' ∧ log' ≡ₚ log ++ calls.*2).
Proof.
  intros Hready Hin Hfresh Hrun. split.
  { apply steps_bounded in Hrun. cbn [fst] in Hrun. rewrite total_gathered in Hrun. lia. }
  intros Hstuck. destruct (sched_progress resume_tool ts' a') as [Hend|Hgo]; [|done].
  destruct (gathered_outcome calls n l a w log ts' a') as (rs & rans & w' & log' & -> & Ho & Hin' & Hl');
    [done..|by eapply rtc_nsteps_2|done|].
  destruct (fresh_batch_outcome _ _ _ _ _ _ Hfresh Ho) as [Hall Hbodies]. rewrite Hbodies in Hl'.
  exists rs, w', log'. split_and!; [done|apply Ho|exact Hall|apply Ho|exact Hin'|exact Hl'].
Qed.
End served_batches.
