(* ===== verification/DurableWitnesses.v ===== *)
(** * The theorems about workflows, on a concrete agent *)

From S2P Require Import Prelude Py PyFacts Json Signature Journal Broadcaster Framing World Fnmatch.
From S2P Require Import DevHandler DevWp DevSpec DevRoutes Protocol Refinement Errors Client Tool.
From S2P Require Import EndToEnd Durable DurableTheorems Concurrent Demo SdkWitnesses.
Open Scope Z_scope.
Open Scope undolog_scope.
Import Demo.

(** The tools of the agent: one that is served and one that is gated. *)
Inductive demo_tool := Mail | Wire.
Definition demo_tools (t : demo_tool) : wtool Z :=
  match t with
  | Mail => WTool $"send_mail" tool_args tool_body COMPENSABLE
  | Wire => WTool $"wire_money" tool_args tool_body IRREVERSIBLE
  end.

(** Two mails one after the other, and the same interrupted after the first. *)
Definition two_mails : workflow demo_tool Z := WCall Mail 21 (λ _, WCall Mail 4 WReturn).
Definition one_mail : workflow demo_tool Z := WCall Mail 21 (λ _, WReturn JNull).
(** A mail and a payment that waits. *)
Definition mail_and_wire : workflow demo_tool Z := WCall Mail 21 (λ _, WCall Wire 4 WReturn).

Definition demo_sid : pystr := session_id tool_session.
Definition in_step (n : Z) (log : list Z) (w : world) : agent (outside Z) :=
  Agent {[0%nat := Session $"acme" demo_sid n]} (Some 0%nat) None (w, log).

Abbreviation ready_demo := (ready float_of_text blake3_hexdigest exc_str dumps $"session" demo_tools $"acme" demo_sid).
Abbreviation run_wf := (run_workflow float_of_text blake3_hexdigest exc_str py_str gated_server uuid4_str
  utc_now_str time_ns_at dumps $"session" None None is_2xx py_str demo_tools tool_client).
Abbreviation sig_demo := (sig_of blake3_hexdigest exc_str $"session" demo_tools demo_sid).
Abbreviation valid_demo :=
  (valid float_of_text blake3_hexdigest exc_str dumps $"session" demo_tools $"acme" demo_sid).

Ltac valid_tac :=
  match goal with |- valid _ _ _ _ _ _ _ _ _ _ ?x => exists [($"amount", JInt x)]; callable_tac end.
Ltac ready_tac :=
  repeat match goal with
  | |- ready _ _ _ _ _ _ _ _ _ _ => cbn [ready]; split; [reflexivity|]; split; [valid_tac|];
      split; [unfold reportable; cbn [wt_body demo_tools tool_body]; arrives_tac|intros ?]
  | |- _ => exact I
  end.

Lemma cut_two_mails : cut one_mail two_mails.
Proof. constructor. intros v. constructor. Qed.

Lemma ready_two_mails n : n = 6 ∨ n = 0 → ready_demo two_mails n.
Proof. intros [->| ->]; ready_tac. Qed.

Lemma ready_mail_and_wire : ready_demo mail_and_wire 6.
Proof. ready_tac. Qed.

Lemma plain_two_mails : plain_run (λ t, wt_body (demo_tools t)) two_mails [(Mail, 21); (Mail, 4)] (JInt 8).
Proof. eexists _, _. split; [reflexivity|]. split; [reflexivity|]. eexists _, _. by split; [reflexivity|]. Qed.

Lemma identity_digest b b' : blake3_hexdigest b = blake3_hexdigest b' → b = b'.
Proof. done. Qed.

(** Nothing is journaled in the empty database. *)
Lemma unused_world0 n : free_after sig_demo valid_demo n (state_of (w_db world0)).
Proof. intros m t x _ _. reflexivity. Qed.

Lemma in_step_session n log w : serving uuid4_str w → in_session uuid4_str $"acme" demo_sid (in_step n log w) 0 n w log.
Proof. by split. Qed.

Lemma workflows_are_durable_witness :
  ∃ tr o bs a' w', run_wf two_mails (in_step 6 [] world0) = (outcome_of py_str demo_tools o, a') ∧
    durable gated_server (λ t, requires_approval gated_server (wt_name (demo_tools t)))
      (λ t, wt_body (demo_tools t)) sig_demo two_mails 6 (state_of (w_db world0)) tr o (state_of (w_db w')) bs ∧
    in_session uuid4_str $"acme" demo_sid a' 0 (6 + calls_made tr o) w' ([] ++ bodies bs).
Proof.
  exact (workflows_are_durable float_of_text blake3_hexdigest exc_str py_str gated_server uuid4_str utc_now_str
    time_ns_at dumps $"session" None None is_2xx py_str success_2xx demo_tools tool_client $"acme" demo_sid
    two_mails 6 (in_step 6 [] world0) 0 world0 [] (ready_two_mails 6 (or_introl eq_refl))
    (in_step_session 6 [] world0 serving_world0)).
Defined.

Lemma interrupted_workflows_recover_witness :
  ∃ r a1 w1 log1, run_wf one_mail (in_step 6 [] world0) = (r, a1) ∧ ag_ext a1 = (w1, log1) ∧
    (serving uuid4_str w1 → ∃ a3 w3, run_wf two_mails (in_step 6 log1 w1) = (inr (JInt 8), a3) ∧
       ag_ext a3 = (w3, [21; 4])).
Proof.
  destruct (interrupted_workflows_recover float_of_text blake3_hexdigest exc_str py_str gated_server uuid4_str
    utc_now_str time_ns_at dumps $"session" None None is_2xx py_str success_2xx demo_tools tool_client $"acme"
    demo_sid identity_digest one_mail two_mails [(Mail, 21); (Mail, 4)] (JInt 8) 6 (in_step 6 [] world0) 0
    world0 [] cut_two_mails (ready_two_mails 6 (or_introl eq_refl)) ltac:(by repeat split) plain_two_mails
    (unused_world0 6) (in_step_session 6 [] world0 serving_world0))
    as (r & a1 & w1 & log1 & E1 & Ha1 & Hagain).
  exists r, a1, w1, log1. split; [exact E1|]. split; [exact Ha1|]. intros Hs.
  exact (Hagain (in_step 6 log1 w1) 0%nat (in_step_session 6 log1 w1 Hs)).
Defined.

Lemma no_requests (lb : label) (r : response) : (lb, r) ∈ [] → outside_label lb.
Proof. intros H. by apply elem_of_nil in H. Qed.

Lemma resumed_workflows_skip_completed_witness :
  ∃ (tr : list json) o (bs : list (Z * demo_tool * Z)) a1 w1, run_wf mail_and_wire (in_step 6 [] world0) = (outcome_of py_str demo_tools o, a1) ∧
    ag_ext a1 = (w1, bodies bs) ∧
    ∃ tr2 o2 (bs2 : list (Z * demo_tool * Z)) a3, run_wf mail_and_wire (in_step 6 (bodies bs) w1) = (outcome_of py_str demo_tools o2, a3) ∧
      tr `prefix_of` tr2 ∧ Forall (λ b, 6 + Z.of_nat (length tr) < b.1.1) bs2.
Proof.
  destruct (resumed_workflows_skip_completed float_of_text blake3_hexdigest exc_str py_str gated_server uuid4_str
    utc_now_str time_ns_at dumps $"session" None None is_2xx py_str success_2xx demo_tools tool_client $"acme"
    demo_sid mail_and_wire mail_and_wire 6 (in_step 6 [] world0) 0 world0 [] (cut_refl _) ready_mail_and_wire
    (in_step_session 6 [] world0 serving_world0))
    as (tr & o & bs & a1 & w1 & E1 & _ & Ha1 & Hagain).
  exists tr, o, bs, a1, w1. split; [exact E1|]. split; [exact Ha1|].
  destruct (Hagain [] w1 (in_step 6 (bodies bs) w1) 0%nat) as (tr2 & o2 & bs2 & a3 & w3 & E2 & _ & _ & Hp & Hb);
    [constructor|exact no_requests|reflexivity..|].
  exists tr2, o2, bs2, a3. split; [exact E2|]. split; [exact Hp|exact Hb].
Defined.

(** ** Two mails at once *)

Definition mail_calls : list (demo_tool * Z) := [(Mail, 21); (Mail, 4)].

Abbreviation resume_demo := (resume_tool float_of_text blake3_hexdigest exc_str py_str gated_server uuid4_str
  utc_now_str time_ns_at dumps $"session" None None is_2xx py_str demo_tools tool_client).
Abbreviation sched_demo := (sched resume_demo).
Abbreviation outcome_demo := (batch_outcome blake3_hexdigest exc_str py_str gated_server $"session" demo_tools demo_sid).

Lemma mails_ready : batch_ready float_of_text blake3_hexdigest exc_str dumps $"session" demo_tools $"acme" demo_sid
  mail_calls 6.
Proof.
  intros [|[|i]] t x Hi; [injection Hi as <- <-..|done];
    (split; [reflexivity|valid_tac|unfold reportable; cbn [wt_body demo_tools tool_body]; arrives_tac]).
Qed.

(** The second mail overtakes the first; and a crash while the first waits for
    its report. *)
Definition overtaking : list nat := [0; 1; 1; 1; 0; 1; 0; 0]%nat.
Definition before_report : list nat := [0; 1; 0; 0; 1]%nat.

Definition ends_well (s : option (list (demo_tool * coro Z) * agent (outside Z))) : bool :=
  match s with Some (ts, _) => forallb (λ tc, remaining tc.2 =? 0)%nat ts | None => false end.

Lemma overtaking_ends : ends_well (run_order resume_demo overtaking (gathered mail_calls, in_step 6 [] world0)) = true.
Proof. vm_compute. reflexivity. Qed.

Lemma ends_well_run k s0 o :
  ends_well (run_order resume_demo o s0) = true → k = length o →
  ∃ ts' a', nsteps sched_demo k s0 (ts', a') ∧ all_ended ts'.
Proof.
  intros H ->. destruct (run_order resume_demo o s0) as [[ts' a']|] eqn:E; [|done].
  exists ts', a'. split; [by apply run_order_steps|]. apply Forall_forall. intros tc Htc%list_elem_of_In.
  unfold ends_well in H. rewrite forallb_forall in H. by apply Nat.eqb_eq, H.
Qed.

Lemma mails_end : ∃ ts' a', nsteps sched_demo 8 (gathered mail_calls, in_step 6 [] world0) (ts', a') ∧ all_ended ts'.
Proof. by apply (ends_well_run _ _ _ overtaking_ends). Qed.

Lemma concurrent_calls_are_durable_witness :
  ∃ ts' a' rs rans w' log', nsteps sched_demo 8 (gathered mail_calls, in_step 6 [] world0) (ts', a') ∧
    ts' = finished mail_calls rs ∧
    outcome_demo mail_calls 6 (state_of (w_db world0)) rs rans (state_of (w_db w')) ∧
    in_session uuid4_str $"acme" demo_sid a' 0 8 w' log' ∧ log' ≡ₚ ran_bodies rans mail_calls.
Proof.
  destruct mails_end as (ts' & a' & Hrun & Hend). exists ts', a'.
  destruct (concurrent_calls_are_durable float_of_text blake3_hexdigest exc_str py_str gated_server uuid4_str
    utc_now_str time_ns_at dumps $"session" None None is_2xx py_str success_2xx demo_tools tool_client $"acme"
    demo_sid identity_digest mail_calls 6 0 (in_step 6 [] world0) world0 [] ts' a' mails_ready
    (in_step_session 6 [] world0 serving_world0) (rtc_nsteps_2 _ _ _ Hrun) Hend) as (rs & rans & w' & log' & H).
  exists rs, rans, w', log'. split; [exact Hrun|exact H].
Defined.

Abbreviation one_by_one_demo := (one_by_one float_of_text blake3_hexdigest exc_str py_str gated_server uuid4_str
  utc_now_str time_ns_at dumps $"session" None None is_2xx py_str demo_tools tool_client).

(** The second mail overtook the first, and yet the bodies of both ran and the
    results are in the order of the calls. *)
Lemma gather_agrees_with_sequence_witness :
  ∃ ts' a' rs1 w1 w2 log1 log2, nsteps sched_demo 8 (gathered mail_calls, in_step 6 [] world0) (ts', a') ∧
    ts' = finished mail_calls rs1 ∧
    length rs1 = length (one_by_one_demo mail_calls (in_step 6 [] world0)).1 ∧
    in_session uuid4_str $"acme" demo_sid a' 0 8 w1 log1 ∧
    in_session uuid4_str $"acme" demo_sid (one_by_one_demo mail_calls (in_step 6 [] world0)).2 0 8 w2 log2 ∧
    log1 ≡ₚ log2.
Proof.
  destruct mails_end as (ts' & a' & Hrun & Hend). exists ts', a'.
  destruct (gather_agrees_with_sequence float_of_text blake3_hexdigest exc_str py_str gated_server uuid4_str
    utc_now_str time_ns_at dumps $"session" None None is_2xx py_str success_2xx demo_tools tool_client $"acme"
    demo_sid identity_digest mail_calls 6 0 (in_step 6 [] world0) world0 [] ts' a' _ _ mails_ready
    (in_step_session 6 [] world0 serving_world0) (rtc_nsteps_2 _ _ _ Hrun) Hend (surjective_pairing _))
    as (rs1 & w1 & w2 & log1 & log2 & Hts & Hlen & _ & H).
  exists rs1, w1, w2, log1, log2. split; [exact Hrun|]. split; [exact Hts|]. split; [exact Hlen|exact H].
Defined.

Lemma mails_fresh : fresh_batch blake3_hexdigest exc_str gated_server $"session" demo_tools demo_sid mail_calls 6
  (state_of (w_db world0)).
Proof.
  intros [|[|i]] t x Hi; [injection Hi as <- <-..|done];
    (split; [reflexivity|split; [eexists; reflexivity|reflexivity]]).
Qed.

(** The crash leaves the first mail sent and not reported. *)
Definition crashed : option (list (demo_tool * coro Z) * agent (outside Z)) :=
  run_order resume_demo before_report (gathered mail_calls, in_step 6 [] world0).

Lemma crashed_unreported : (λ s, unreported s.1 mail_calls) <$> crashed = Some [21].
Proof. vm_compute. reflexivity. Qed.

Lemma crashed_run : ∃ ts1 a1, rtc sched_demo (gathered mail_calls, in_step 6 [] world0) (ts1, a1) ∧
  unreported ts1 mail_calls = [21].
Proof.
  pose proof crashed_unreported as H. destruct crashed as [[ts1 a1]|] eqn:E; [|done]. exists ts1, a1.
  split; [by eapply rtc_nsteps_2, run_order_steps|by injection H].
Qed.

Lemma crashed_batches_recover_witness :
  ∃ ts1 a1 w1 log1, rtc sched_demo (gathered mail_calls, in_step 6 [] world0) (ts1, a1) ∧
    ag_ext a1 = (w1, log1) ∧
    (serving uuid4_str w1 → ∀ ts3 a3,
       rtc sched_demo (gathered mail_calls, in_step 6 log1 w1) (ts3, a3) → all_ended ts3 →
       ∃ rs w3 log3, ts3 = finished mail_calls rs ∧ ag_ext a3 = (w3, log3) ∧ log3 ≡ₚ [21; 4; 21]).
Proof.
  destruct crashed_run as (ts1 & a1 & Hrun & Hun). exists ts1, a1.
  destruct (crashed_batches_recover float_of_text blake3_hexdigest exc_str py_str gated_server uuid4_str
    utc_now_str time_ns_at dumps $"session" None None is_2xx py_str success_2xx demo_tools tool_client $"acme"
    demo_sid identity_digest mail_calls 6 0 (in_step 6 [] world0) world0 [] ts1 a1 mails_ready
    (in_step_session 6 [] world0 serving_world0) mails_fresh Hrun) as (w1 & log1 & Hext & Hagain).
  exists w1, log1. split; [exact Hrun|]. split; [exact Hext|]. intros Hs ts3 a3 Hrun3 Hend.
  destruct (Hagain (in_step 6 log1 w1) 0%nat ts3 a3 (in_step_session 6 log1 w1 Hs) Hrun3 Hend)
    as (rs & w3 & log3 & Hts & _ & Hext3 & Hlog). rewrite Hun in Hlog.
  exists rs, w3, log3. split; [exact Hts|]. split; [exact Hext3|exact Hlog].
Defined.

Lemma fresh_batches_complete_witness :
  ∃ ts' a' rs w' log', nsteps sched_demo 8 (gathered mail_calls, in_step 6 [] world0) (ts', a') ∧
    ts' = finished mail_calls rs ∧
    (∃ id, state_of (w_db w') (sig_demo 7 Mail 21) = Done id (Some (result_envelope (JInt 42)))) ∧
    in_session uuid4_str $"acme" demo_sid a' 0 8 w' log' ∧ log' ≡ₚ [21; 4].
Proof.
  destruct mails_end as (ts' & a' & Hrun & Hend). exists ts', a'.
  destruct (fresh_batches_complete float_of_text blake3_hexdigest exc_str py_str gated_server uuid4_str
    utc_now_str time_ns_at dumps $"session" None None is_2xx py_str success_2xx demo_tools tool_client $"acme"
    demo_sid identity_digest mail_calls 6 0 (in_step 6 [] world0) world0 [] 8 ts' a' mails_ready
    (in_step_session 6 [] world0 serving_world0) mails_fresh Hrun) as [_ Hdone].
  destruct Hdone as (rs & w' & log' & Hts & _ & Hall & _ & Hin & Hlog).
  - intros [next Hnext]. inversion Hnext as [ts a0 i t c c' a1 Hi Hrem]; subst.
    unfold all_ended in Hend. rewrite Forall_lookup in Hend. specialize (Hend _ _ Hi). cbn in Hend. lia.
  - exists rs, w', log'. split; [exact Hrun|]. split; [exact Hts|]. split; [|split; [exact Hin|exact Hlog]].
    destruct (Hall 0%nat Mail 21 eq_refl) as (v & id & Hv & _ & Hid). injection Hv as <-. by exists id.
Defined.
