(* ===== verification/FacadeTheorems.v ===== *)
(** * The facades of the framework integrations: what holds of them

    Instrumented crews, the record a facade keeps of its run, and runs that are
    started again through a facade. *)

From S2P Require Import Prelude Py PyFacts Json Signature JsonRead CanonicalParse Journal Broadcaster Framing.
From S2P Require Import FramingFacts World Fnmatch DevHandler DevWp DevSpec DevRoutes Protocol Refinement.
From S2P Require Import Errors Client Tool EndToEnd Durable DurableTheorems Instrument LangGraph InstrumentFacts.
From S2P Require Import Facade Crew LlamaIndex Kernel.
Open Scope Z_scope.
Open Scope undolog_scope.

(** ** Tool lists *)

Lemma traverse_pointwise {A B} (f : A → sdk_exc + B) l k :
  traverse f l = inr k ↔ Forall2 (λ x y, f x = inr y) l k.
Proof.
  revert k. induction l as [|x l IH]; intros k; simpl.
  - split; [intros [= <-]; constructor|by inversion 1].
  - destruct (f x) as [e|y] eqn:Ef; [split; [done|]; inversion 1; congruence|].
    destruct (traverse f l) as [e|k'].
    + split; [done|]. inversion 1 as [|? ? ? ? Hy Hk]; subst. by apply IH in Hk.
    + split; [intros [= <-]; constructor; [done|by apply IH]|].
      inversion 1 as [|? y' ? k'' Hy Hk]; subst. apply IH in Hk. congruence.
Qed.

(** A traversal of values the function keeps. *)
Lemma traverse_id {A} (f : A → sdk_exc + A) l : Forall (λ x, f x = inr x) l → traverse f l = inr l.
Proof. intros H. apply traverse_pointwise. by induction H; constructor. Qed.

Lemma traverse_unit {A} (f : A → sdk_exc + ()) l u : traverse f l = inr u ↔
  Forall (λ x, f x = inr ()) l ∧ length u = length l.
Proof.
  rewrite traverse_pointwise. split.
  - induction 1 as [|x [] l k Hx Hk [IH1 IH2]]; simpl; [done|]. split; [by constructor|by f_equal].
  - intros [H Hl]. revert u Hl. induction H as [|x l Hx H IH]; intros [|[] u] Hl; simplify_eq/=; constructor; auto.
Qed.

Section tools.
Context {B : Type}.
Variable repr_name : option pystr → pystr.
Implicit Types t w : pytool B.

(** The tier a tool is given: the mapped one, or the one its name suggests. *)
Definition agent_tier (tiers : list (pystr * ToolTier)) t (n : pystr) (tgt : target B) (contained : bool)
    : ToolTier :=
  default (classify_agent_tool (if contained then bare tgt else t)) (dict_get n tiers).

Lemma agent_wrap_intercepts tiers comps client t :
  wrap_intercepts (λ n tgt contained,
    match dict_get n tiers with
    | Some tier => LangGraph.wrap_tool repr_name tgt tier (dict_get n comps) client
    | None =>
        let seen := if contained then bare tgt else t in
        audit_agent_tool repr_name seen (Some (classify_agent_tool seen)) (dict_get n comps) client
    end) (agent_tier tiers t) client t.
Proof.
  intros n tgt c tgt' Et Hu Hwr. unfold agent_tier. cbv beta zeta in Hwr.
  destruct (dict_get n tiers) as [tier|]; [by eapply wrap_tool_instruments|].
  unfold audit_agent_tool in Hwr. cbn [from_option id] in *.
  replace (pt_self (if c then bare tgt else t)) with tgt in Hwr; [by eapply wrap_tool_instruments|].
  revert Et. unfold tool_target. destruct (pt_coroutine t) as [inner|]; [destruct (tg_body inner)|];
    by intros [= <- <-].
Qed.

(** What [_instrument_agent_tool] makes of a tool, and of its own result. *)
Lemma instrument_agent_cases wrapper tiers comps client t w :
  instrument_agent_tool repr_name wrapper tiers comps client t = inr w →
  becomes (agent_tier tiers t) t w ∧
  instrument_agent_tool repr_name wrapper tiers comps client w = inr w.
Proof.
  intros H. split; [eapply instrument_tool_cases, H; apply agent_wrap_intercepts|].
  eapply instrument_tool_again, H. apply agent_wrap_intercepts.
Qed.

(** A tool that passed the check and was instrumented passes it again. *)
Lemma async_again wrapper container tier_of t w :
  require_async_tool repr_name t wrapper container = inr () → becomes tier_of t w →
  require_async_tool repr_name w wrapper container = inr ().
Proof.
  intros Ht (_ & _ & Hsame & Hnew).
  destruct (tg_undolog (tool_target t).1) as [i|] eqn:Eu; [by rewrite Hsame by eauto|].
  destruct (Hnew eq_refl) as [Ha _]. unfold require_async_tool. by rewrite Ha, orb_true_r.
Qed.

Lemma prepare_tools_spec wrapper container tiers comps client ts ws :
  prepare_tools repr_name wrapper container tiers comps client ts = inr ws →
  Forall2 (λ t w, becomes (agent_tier tiers t) t w) ts ws ∧
  prepare_tools repr_name wrapper container tiers comps client ws = inr ws.
Proof.
  unfold prepare_tools. destruct (traverse _ ts) as [e|u] eqn:Ec; [done|].
  apply traverse_unit in Ec as [Ha _]. intros Hw%traverse_pointwise.
  assert (Forall2 (λ t w, becomes (agent_tier tiers t) t w ∧
    require_async_tool repr_name w wrapper (Some container) = inr () ∧
    instrument_agent_tool repr_name wrapper tiers comps client w = inr w) ts ws) as Hall.
  { induction Hw as [|t w ts ws Htw Hw IH]; [constructor|]. apply Forall_cons in Ha as [Ht Ha].
    destruct (instrument_agent_cases _ _ _ _ _ _ Htw) as [Hb Hagain].
    constructor; [|by apply IH]. split_and!; try done. by eapply async_again. }
  split; [by eapply Forall2_impl; [exact Hall|]; intros ? ? []|].
  assert (Forall (λ w, require_async_tool repr_name w wrapper (Some container) = inr () ∧
    instrument_agent_tool repr_name wrapper tiers comps client w = inr w) ws) as Hws.
  { clear -Hall. induction Hall as [|t w ts ws (_ & ?) _ IH]; by constructor. }
  rewrite (proj2 (traverse_unit _ _ (replicate (length ws) ()))).
  - apply traverse_id. eapply Forall_impl; [exact Hws|]. by intros ? [].
  - split; [|apply length_replicate]. eapply Forall_impl; [exact Hws|]. by intros ? [].
Qed.

(** ** Crews *)

Abbreviation prepare_agents := (Crew.prepare_agents (B := B) repr_name).
Abbreviation tier_in st := (agent_tier (Crew.st_tiers st)).

(** The task lists: the empty ones are left alone. *)
Definition task_prepared st (tools tools' : option (list (pytool B))) : Prop :=
  match tools with
  | Some ((_ :: _) as ts) => ∃ ws, tools' = Some ws ∧ Forall2 (λ t w, becomes (tier_in st t) t w) ts ws
  | _ => tools' = tools
  end.

Lemma prepare_list_spec st ts ws :
  Crew.prepare_list repr_name st ts = inr ws →
  Forall2 (λ t w, becomes (tier_in st t) t w) ts ws ∧ Crew.prepare_list repr_name st ws = inr ws.
Proof. apply prepare_tools_spec. Qed.

Lemma prepare_task_spec st tools tools' :
  Crew.prepare_task repr_name st tools = inr tools' →
  task_prepared st tools tools' ∧ Crew.prepare_task repr_name st tools' = inr tools'.
Proof.
  destruct tools as [[|t ts]|]; simpl; [by intros [= <-]..| |by intros [= <-]].
  destruct (Crew.prepare_list _ _ _) as [e|ws] eqn:E; [done|]. intros [= <-].
  apply prepare_list_spec in E as [Hw Hagain]. split; [eauto|].
  destruct ws as [|w ws]; [done|]. simpl. by rewrite Hagain.
Qed.

Lemma Forall2_fmap_both {X Y} (P : X → Y → Prop) (Q : Y → Prop) l k :
  Forall2 (λ x y, P x y ∧ Q y) l k → Forall2 P l k ∧ Forall Q k.
Proof. induction 1 as [|x y l k [Hp Hq] H [IH1 IH2]]; split; by constructor. Qed.

(** A kickoff instruments the whole crew, and only once. When the tools of
    a crew are accepted, every tool of every agent and of every task is replaced
    by one that runs through the interceptor, with the tier it is mapped to or
    the one its name suggests, and a compensable one names its compensation;
    tools that were instrumented before come back as they were. Preparing the
    crew again, as the next kickoff does, changes nothing. *)
Theorem prepared_crew_is_instrumented st c c' :
  prepare_agents st c = inr c' →
  Forall2 (λ tools tools', ∃ ws, tools' = Some ws ∧
    Forall2 (λ t w, becomes (tier_in st t) t w) (default [] tools) ws)
    (Crew.cw_agents c) (Crew.cw_agents c') ∧
  (match Crew.cw_tasks c, Crew.cw_tasks c' with
   | Some ts, Some ts' => Forall2 (task_prepared st) ts ts'
   | None, None => True
   | _, _ => False
   end) ∧ prepare_agents st c' = inr c'.
Proof.
  unfold Crew.prepare_agents. destruct (traverse _ (Crew.cw_agents c)) as [e|plans] eqn:Ep; [done|].
  cbn [mbind res_bind].
  destruct (traverse _ (default [] (Crew.cw_tasks c))) as [e|tplans] eqn:Et; [done|].
  cbn [mbind res_bind]. intros [= <-]. cbn [Crew.cw_agents Crew.cw_tasks].
  apply traverse_pointwise in Ep, Et.
  eapply Forall2_impl in Ep; [|intros x y; apply prepare_list_spec].
  eapply Forall2_impl in Et; [|intros x y; apply prepare_task_spec].
  apply Forall2_fmap_both in Ep as [Hp Hp'], Et as [Ht Ht']. split_and!.
  - apply Forall2_fmap_r. eapply Forall2_impl; [exact Hp|]. eauto.
  - by destruct (Crew.cw_tasks c).
  - rewrite (proj2 (traverse_pointwise _ (Some <$> plans) plans)).
    + cbn [mbind res_bind]. destruct (Crew.cw_tasks c) as [ts|]; [|done].
      cbn [default from_option id]. by rewrite traverse_id.
    + apply Forall2_fmap_l, Forall2_same_length_lookup_2; [done|]. intros i x y Hx Hy. simplify_eq/=.
      rewrite Forall_forall in Hp'. eapply Hp'. by eapply list_elem_of_lookup_2.
Qed.

(** The tier of a structured tool does not depend on its name. A tool whose
    name is not in [tiers] is documented to be classified by name; for a
    container the wrapper classifies the function it holds, so a tool called
    [send_...] whose function is called [get_...] is given the tier SAFE and its
    calls never reach the proxy. *)
Theorem container_tier_ignores_tool_name wrapper tiers comps client t inner w :
  pt_coroutine t = Some inner → is_Some (tg_body inner) → tg_undolog inner = None →
  (∀ n, tool_name_of t = Some n → dict_get n tiers = None) →
  instrument_agent_tool repr_name wrapper tiers comps client t = inr w →
  ∃ i n, tg_undolog (tool_target w).1 = Some i ∧ tg_dunder_name inner = Some n ∧
    in_tier i = classify_prefix (n ≫= Errors.lower_text).
Proof.
  intros Hc [b Hb] Hu Hnone H. assert (tool_target t = (inner, true)) as Et
    by (unfold tool_target; by rewrite Hc, Hb).
  assert (is_Some (tg_dunder_name inner)) as [n Hn].
  { revert H. unfold instrument_agent_tool, instrument_tool. rewrite Et, Hb.
    destruct (tg_dunder_name inner); [eauto|done]. }
  destruct (instrument_agent_cases _ _ _ _ _ _ H) as [(_ & _ & _ & Hnew) _].
  rewrite Et in Hnew. cbn [fst snd] in Hnew. destruct (Hnew Hu) as (_ & name & i & Hname & Hi & Ht & _).
  exists i, n. split_and!; [done..|]. rewrite Ht. unfold agent_tier. rewrite (Hnone _ Hname).
  cbn [from_option id]. unfold classify_agent_tool, bare, tool_name_of. cbn [pt_self pt_name]. by rewrite Hu, Hn.
Qed.
End tools.

(** ** Runs *)

Section runs.
Context {C E : Type}.
Variable fresh_uuid : E → pystr * E.
Variable py_str : json → pystr.

(** The session a run opens, where, and the process as the framework sees it. *)
Definition opened (org : pystr) (sid : option json) (start : Z) (a : agent E) : session :=
  Session org (LangGraph.resumed_id py_str sid (fresh_uuid (ag_ext a)).1) start.
Definition opened_at (a : agent E) : nat := fresh (dom (ag_sessions a)).
Definition entered (s : session) (a : agent E) : agent E :=
  Agent (<[opened_at a := s]> (ag_sessions a)) (Some (opened_at a)) (ag_default_client a)
    (fresh_uuid (ag_ext a)).2.
(** The process after the run: the context variable is what it was and the
    default client is closed. *)
Definition left (a a1 : agent E) : agent E := Agent (ag_sessions a1) (ag_context a) None (ag_ext a1).

(** What the facade records of a run that opened [s], ended with [r] and left
    the session's counter at [n]. *)
Definition recorded (s : session) (n : Z) (r : sdk_exc + json) : run_record :=
  match r with
  | inl e =>
      match LangGraph.awaiting_of e with
      | Some attrs => RunRecord (Some (session_id s)) n true (Some (LangGraph.approval_request attrs))
      | None => RunRecord (Some (session_id s)) n false None
      end
  | inr _ => RunRecord (Some (session_id s)) n false None
  end.

Lemma run_in_session_eq org sid start call (h : hosted C E) r a1 s1 :
  let s := opened org sid start (ho_agent h) in
  call (ho_object h) (entered s (ho_agent h)) = (r, a1) →
  ag_sessions a1 !! opened_at (ho_agent h) = Some s1 →
  run_in_session fresh_uuid py_str org sid start call h =
    (r, Hosted (ho_object h) (recorded s (step_index s1) r) (left (ho_agent h) a1)).
Proof.
  intros s Hcall Hs1. unfold run_in_session, mbind, M_bind, LangGraph.open_session.
  unfold s, opened, entered, opened_at in *.
  destruct (fresh_uuid (ag_ext (ho_agent h))) as [u e] eqn:Eu. cbn [fst snd] in *.
  unfold LangGraph.session_at. cbn [ag_sessions]. rewrite lookup_insert_eq. cbn [mret M_ret].
  unfold run_with_session, set_context, close_default_client.
  cbn [ag_context ag_sessions ag_default_client ag_ext]. rewrite Hcall. cbn [ag_sessions]. rewrite Hs1.
  unfold recorded, reset_run, record_approval, set_step, left.
  destruct r as [ex|v]; [destruct (LangGraph.awaiting_of ex)|]; reflexivity.
Qed.

(** What a facade promises its callers: an operation that runs the framework on
    the object it has prepared, with the arguments [seen], in the session [opens]
    says, returns or raises what the framework does, records the run and restores
    the process. [prepares] is when it does, and with which object. *)
Class SessionFacade {X : Type} (prepares : hosted C E → C → Prop) (opens : hosted C E → session) (seen : X)
    (run : (C → X → M (agent E) json) → M (hosted C E) json) : Prop := {
  facade_runs : ∀ h c framework r a1 s1,
    prepares h c → framework c seen (entered (opens h) (ho_agent h)) = (r, a1) →
    ag_sessions a1 !! opened_at (ho_agent h) = Some s1 →
    run framework h = (r, Hosted c (recorded (opens h) (step_index s1) r) (left (ho_agent h) a1));
}.
End runs.

(** ** The facades *)

Section facades.
Context {B R E : Type}.
Variable repr_name : option pystr → pystr.
Variable fresh_uuid : E → pystr * E.
Variable py_str : json → pystr.
Variable int_of_float : pyfloat → option Z.
Variable int_error : json → pystr.
Abbreviation opened_ := (opened fresh_uuid py_str).

(** [kickoff_async] of a crew. *)
Definition crew_prepares (st : Crew.settings) (inputs : option dict) (start : Z)
    (h : hosted (Crew.crew B) E) (c : Crew.crew B) : Prop :=
  LangGraph.start_step_of int_of_float int_error
    (dict_get Crew.INPUT_STEP_KEY (dict_del Crew.INPUT_SESSION_KEY (default [] inputs))) = inr start ∧
  Crew.prepare_agents repr_name st (ho_object h) = inr c.

(** The inputs the crew is run with. *)
Definition crew_payload (inputs : option dict) : option dict :=
  Crew.or_none (dict_del Crew.INPUT_STEP_KEY (dict_del Crew.INPUT_SESSION_KEY (default [] inputs))).

#[export] Instance crew_facade st inputs kwargs start :
  SessionFacade fresh_uuid (crew_prepares st inputs start)
    (λ h, opened_ (Crew.st_org st) (dict_get Crew.INPUT_SESSION_KEY (default [] inputs)) start (ho_agent h))
    (crew_payload inputs, kwargs)
    (λ framework, Crew.kickoff_async repr_name fresh_uuid py_str int_of_float int_error st
       (λ c payload kw, framework c (payload, kw)) inputs kwargs).
Proof.
  split. intros h c framework r a1 s1 [Hstart Hc] Hbody Hs1. unfold Crew.kickoff_async. rewrite Hstart.
  unfold mbind, M_bind, prepare. rewrite Hc.
  by apply (run_in_session_eq _ _ _ _ _ _ (Hosted c (ho_run h) (ho_agent h))).
Qed.

(** [aquery] and [achat] of an index. *)
Definition index_prepares (st : Crew.settings) (multi_turn is_chat : bool) (kwargs : dict)
    (h : hosted (LlamaIndex.index B) E) (c : LlamaIndex.index B) : Prop :=
  (∃ start, (LlamaIndex.resume_point int_of_float int_error multi_turn is_chat kwargs (ho_run h)).2 = inr start) ∧
  LlamaIndex.prepare_index repr_name st (ho_object h) = inr c.

Definition index_opens (st : Crew.settings) (multi_turn is_chat : bool) (kwargs : dict)
    (h : hosted (LlamaIndex.index B) E) : session :=
  let '(sid, start) := LlamaIndex.resume_point int_of_float int_error multi_turn is_chat kwargs (ho_run h) in
  opened_ (Crew.st_org st) sid (match start with inr n => n | inl _ => 0 end) (ho_agent h).

(** The keywords the method of the index gets. *)
Definition index_keywords (kwargs : dict) : dict :=
  dict_del LlamaIndex.INPUT_STEP_KEY (dict_del LlamaIndex.INPUT_SESSION_KEY kwargs).

#[export] Instance index_facade st multi_turn is_chat arg kwargs :
  SessionFacade fresh_uuid (index_prepares st multi_turn is_chat kwargs)
    (index_opens st multi_turn is_chat kwargs) (arg, index_keywords kwargs)
    (λ framework, LlamaIndex.run_index repr_name fresh_uuid py_str int_of_float int_error st multi_turn
       (λ ix x kw, framework ix (x, kw)) is_chat arg kwargs).
Proof.
  split. intros h c framework r a1 s1 [[start Hstart] Hc] Hbody Hs1.
  unfold LlamaIndex.run_index, index_opens in *.
  destruct (LlamaIndex.resume_point _ _ _ _ _ _) as [sid [e|n]]; simplify_eq/=.
  unfold mbind, M_bind, prepare. rewrite Hc.
  by apply (run_in_session_eq _ _ _ _ _ _ (Hosted c (ho_run h) (ho_agent h))).
Qed.

(** [session], [invoke] and [invoke_prompt] of a kernel. *)
Definition kernel_prepares (st : Crew.settings) (h : hosted (Kernel.kernel B R) E) (k : Kernel.kernel B R) : Prop :=
  Kernel.prepare_plugins repr_name st (ho_object h) = (inr (), k).

#[export] Instance kernel_facade st sid start args :
  SessionFacade (X := Kernel.arguments) fresh_uuid (kernel_prepares st)
    (λ h, opened_ (Crew.st_org st) sid start (ho_agent h)) args
    (λ framework, Kernel.run_kernel repr_name fresh_uuid py_str st sid start (λ k, framework k args)).
Proof.
  split. intros h k framework r a1 s1 Hok Hbody Hs1. unfold kernel_prepares in Hok.
  unfold Kernel.run_kernel, mbind, M_bind, Kernel.prepare_kernel. rewrite Hok.
  by apply (run_in_session_eq _ _ _ _ _ _ (Hosted k (ho_run h) (ho_agent h))).
Qed.
End facades.

Section claims.
Context {B R E : Type}.
Variable repr_name : option pystr → pystr.
Variable fresh_uuid : E → pystr * E.
Variable py_str : json → pystr.
Variable int_of_float : pyfloat → option Z.
Variable int_error : json → pystr.

(** A kickoff reports its run. However the crew ends, [kickoff_async]
    returns or raises exactly that; the facade names the session the run was in
    and the step it reached, it is awaiting an approval if and only if an
    [AwaitingApprovalError] stopped the run, and then holds the approval that
    was asked for; the context variable is what it was. *)
Theorem kickoff_reports_the_run st inputs kwargs start (h : hosted (Crew.crew B) E) c crew_kickoff r a1 s1 :
  let s := opened fresh_uuid py_str (Crew.st_org st)
             (dict_get Crew.INPUT_SESSION_KEY (default [] inputs)) start (ho_agent h) in
  crew_prepares repr_name int_of_float int_error st inputs start h c →
  crew_kickoff c (crew_payload inputs) kwargs (entered fresh_uuid s (ho_agent h)) = (r, a1) →
  ag_sessions a1 !! opened_at (ho_agent h) = Some s1 →
  ∃ h', Crew.kickoff_async repr_name fresh_uuid py_str int_of_float int_error st crew_kickoff inputs kwargs h =
      (r, h') ∧
    rr_session_id (ho_run h') = Some (session_id s) ∧ rr_step_index (ho_run h') = step_index s1 ∧
    (rr_awaiting (ho_run h') = true ↔ ∃ e attrs, r = inl e ∧ LangGraph.awaiting_of e = Some attrs) ∧
    (∀ e attrs, r = inl e → LangGraph.awaiting_of e = Some attrs →
       rr_request (ho_run h') = Some (LangGraph.approval_request attrs)) ∧
    ag_context (ho_agent h') = ag_context (ho_agent h) ∧ ag_ext (ho_agent h') = ag_ext a1.
Proof.
  intros s Hacc Hbody Hs1. pose proof (@facade_runs _ _ _ _ _ _ _ _ (crew_facade (B := B) repr_name fresh_uuid py_str
    int_of_float int_error st inputs kwargs start) h c (λ c x, crew_kickoff c x.1 x.2) r a1 s1 Hacc Hbody Hs1) as Hrun.
  eexists. split; [exact Hrun|]. unfold recorded. cbn [ho_run ho_agent left ag_context ag_ext].
  destruct r as [e|v]; [destruct (LangGraph.awaiting_of e) as [attrs|] eqn:Ea|]; cbn; split_and!; try done.
  - split; [eauto|done].
  - intros e' attrs' [= <-]. rewrite Ea. by intros [= <-].
  - split; [done|]. intros (e' & attrs & [= <-] & E'). congruence.
  - intros e' attrs' [= <-]. by rewrite Ea.
  - split; [done|]. by intros (e' & attrs & [=] & _).
Qed.

(** The turns of a chat share a session. However a turn of [achat] ends,
    the next turn that names no session continues it: the same identifier, and
    the steps go on from the one the turn reached. A turn that is repeated this
    way is therefore made of new steps. *)
Theorem chat_turns_share_a_session st multi_turn arg kwargs (h : hosted (LlamaIndex.index B) E) c index_achat
    r a1 s1 h1 :
  index_prepares repr_name int_of_float int_error st multi_turn true kwargs h c →
  let s := index_opens fresh_uuid py_str int_of_float int_error st multi_turn true kwargs h in
  session_id s ≠ [] →
  index_achat c arg (index_keywords kwargs) (entered fresh_uuid s (ho_agent h)) = (r, a1) →
  ag_sessions a1 !! opened_at (ho_agent h) = Some s1 →
  LlamaIndex.achat repr_name fresh_uuid py_str int_of_float int_error st multi_turn index_achat
    arg kwargs h = (r, h1) →
  index_opens fresh_uuid py_str int_of_float int_error st multi_turn true [] h1 =
    Session (org_id s) (session_id s) (step_index s1).
Proof.
  intros Hacc s Hne Hbody Hs1 Hrun.
  pose proof (@facade_runs _ _ _ _ _ _ _ _ (index_facade (B := B) repr_name fresh_uuid py_str int_of_float int_error
    st multi_turn true arg kwargs) h c (λ c x, index_achat c x.1 x.2) r a1 s1 Hacc Hbody Hs1) as Hrun'.
  unfold LlamaIndex.achat in Hrun. change (LlamaIndex.run_index repr_name fresh_uuid py_str int_of_float int_error st
    multi_turn index_achat true arg kwargs h = (r, Hosted c (recorded s (step_index s1) r) (left (ho_agent h) a1))) in Hrun'.
  rewrite Hrun in Hrun'. simplify_eq.
  assert (org_id s = Crew.st_org st) as Ho.
  { unfold s, index_opens. by destruct (LlamaIndex.resume_point _ _ _ _ _ _). }
  fold s. assert (rr_session_id (recorded s (step_index s1) r) = Some (session_id s) ∧
    rr_step_index (recorded s (step_index s1) r) = step_index s1) as [Hid Hst].
  { unfold recorded. by repeat case_match. }
  unfold index_opens, LlamaIndex.resume_point. cbn [ho_run ho_agent LlamaIndex.pop_keyword dict_get].
  rewrite Hid, Hst. cbn [orb]. unfold opened, LangGraph.resumed_id. rewrite Ho.
  by destruct (session_id s).
Qed.
End claims.

(** The LlamaIndex module repeats the classification and instrumentation of the
    CrewAI one: the copies agree, up to the name in their messages. *)
Lemma index_tools_like_agent_tools {B : Type} (repr_name : option pystr → pystr) (st : Crew.settings)
    (t : pytool B) :
  LlamaIndex.classify_tool t = classify_agent_tool t ∧
  LlamaIndex.instrument_index_tool repr_name st t =
    instrument_agent_tool repr_name $"wrap_llamaindex" (Crew.st_tiers st) (Crew.st_compensations st)
      (Crew.st_client st) t.
Proof. split; reflexivity. Qed.
