(* ===== verification/KernelTheorems.v ===== *)
(** * The Semantic Kernel integration: what holds of it

    Which plugin functions reach the proxy once a kernel is wrapped, what a
    rejected plugin leaves behind, and where the resume keys of an invocation
    go. *)

From S2P Require Import Prelude Py PyFacts Json Errors Client Tool Instrument LangGraph InstrumentFacts.
From S2P Require Import Facade Crew Kernel FacadeTheorems.
Open Scope Z_scope.
Open Scope undolog_scope.

Section functions.
Context {B R : Type}.
Variable repr_name : option pystr → pystr.
Implicit Types (f g : Kernel.plugin_function B) (st : Crew.settings).

Abbreviation callable_of f := (Kernel.function_target (Kernel.pf_tool f)).1.
Abbreviation slot_of f := (Kernel.function_target (Kernel.pf_tool f)).2.
Abbreviation instrument_ := (Kernel.instrument_plugin_function repr_name).

(** The attribute that holds the callable is a bound method. *)
Definition bound_method f : bool :=
  match slot_of f with
  | Kernel.Self => false
  | Kernel.InCoroutine => Kernel.pf_coroutine_bound f
  | Kernel.InFunction => Kernel.pf_function_bound f
  end.

(** The tier of a function. *)
Definition function_tier st (name : pystr) (t : target B) : ToolTier :=
  default (Kernel.classify_function t name) (dict_get name (Crew.st_tiers st)).

Lemma replica_target f w :
  bound_method f = false → tg_body w = tg_body (callable_of f) → is_Some (tg_body (callable_of f)) →
  Kernel.function_target (Kernel.pf_tool (Kernel.replica f (slot_of f) w)) = (w, slot_of f).
Proof.
  unfold bound_method, Kernel.replica. destruct f as [[n self co fn] cb fb].
  unfold Kernel.function_target, is_callable_target; simpl.
  destruct co as [co|]; [|destruct fn as [fn|]]; repeat (case_match; simplify_eq/=; try done);
    intros; simplify_eq/=; repeat case_match; simplify_eq/=; congruence.
Qed.

Lemma replica_name f w :
  tg_dunder_name w = tg_dunder_name (callable_of f) →
  tool_name_of (Kernel.pf_tool (Kernel.replica f (slot_of f) w)) = tool_name_of (Kernel.pf_tool f).
Proof.
  unfold Kernel.replica. destruct f as [[n self co fn] cb fb]. unfold Kernel.function_target, tool_name_of; simpl.
  destruct co as [co|]; [|destruct fn as [fn|]]; repeat (case_match; simplify_eq/=; try done); congruence.
Qed.

(** What one function becomes. A function that was instrumented, and one whose
    callable is a bound method, is what it was; any other is a copy whose
    callable is behind the interceptor. *)
Definition function_becomes st (name : pystr) f g : Prop :=
  tool_name_of (Kernel.pf_tool g) = tool_name_of (Kernel.pf_tool f) ∧
  (is_Some (tg_undolog (callable_of f)) ∨ bound_method f = true → g = f) ∧
  (tg_undolog (callable_of f) = None → bound_method f = false → slot_of g = slot_of f ∧
    intercepts (function_tier st name (callable_of f)) (Crew.st_client st) (callable_of f) (callable_of g)).

Lemma instrument_function_cases st name f g :
  instrument_ st name f = inr g → function_becomes st name f g.
Proof.
  unfold Kernel.instrument_plugin_function, function_becomes.
  destruct (Kernel.function_target (Kernel.pf_tool f)) as [tgt s] eqn:Et. cbn [fst snd].
  destruct (tg_body tgt) as [b|] eqn:Eb; [|done]. destruct (tg_dunder_name tgt) as [d|] eqn:Ed; [|done].
  destruct name as [|c name]; [done|]. destruct (require_async_tool _ _ _ _) as [e|u]; [done|].
  cbn [mbind res_bind]. destruct (tg_undolog tgt) as [i|] eqn:Eu; [by intros [= <-]|].
  intros H. set (nm := c :: name) in *.
  assert (∃ w, g = Kernel.replica f s w ∧
    intercepts (function_tier st nm tgt) (Crew.st_client st) tgt w) as (w & -> & Hi).
  { revert H. unfold function_tier.
    destruct (dict_get nm (Crew.st_tiers st)) as [tier|]; cbn [from_option id];
      [|unfold Kernel.audit_kernel_function; cbn [from_option id]];
      (destruct (LangGraph.wrap_tool _ _ _ _ _) as [e|w] eqn:Ew; [done|]); cbn [mbind res_bind];
      intros [= <-]; exists w; (split; [done|]); by eapply wrap_tool_instruments. }
  assert (tg_body w = tg_body tgt ∧ tg_dunder_name w = tg_dunder_name tgt) as [Hb Hd] by (split; apply Hi).
  replace s with (slot_of f) by (by rewrite Et). replace tgt with (callable_of f) in * by (by rewrite Et).
  split_and!.
  - by apply replica_name.
  - intros [[i Hs]|Hbound]; [congruence|]. revert Hbound. unfold bound_method, Kernel.replica.
    destruct (slot_of f); [done|by intros ->..].
  - intros _ Hnb. rewrite (replica_target f w Hnb Hb) by (rewrite Eb; eauto). done.
Qed.

Lemma instrument_function_again st name f g : instrument_ st name f = inr g → instrument_ st name g = inr g.
Proof.
  intros H. destruct (instrument_function_cases _ _ _ _ H) as (_ & Hsame & Hnew).
  destruct (tg_undolog (callable_of f)) as [i|] eqn:Eu; [by rewrite Hsame in * by eauto|].
  destruct (bound_method f) eqn:Ebm; [by rewrite Hsame in * by eauto|].
  destruct (Hnew eq_refl eq_refl) as [Hs (Hb & Hd & Ha & i & Hi & _)].
  revert H. unfold Kernel.instrument_plugin_function.
  destruct (Kernel.function_target (Kernel.pf_tool f)) as [tgt s].
  destruct (Kernel.function_target (Kernel.pf_tool g)) as [tgt' s'] eqn:Eg. simpl in Hs, Hb, Hd, Ha, Hi. subst s'.
  rewrite Hb, Hd, Hi. destruct (tg_body tgt) as [b|] eqn:Eb; [|done]. destruct (tg_dunder_name tgt); [|done].
  destruct name as [|c name]; [done|]. intros _.
  replace (require_async_tool _ _ _ _) with (inr () : sdk_exc + ()); [done|].
  unfold require_async_tool. destruct s; cbn [tool_target bare pt_coroutine pt_self fst].
  - revert Eg. unfold Kernel.function_target, tool_target, is_callable_target.
    destruct (pt_coroutine (Kernel.pf_tool g)) as [co|]; [destruct (tg_body co)|];
      repeat case_match; intros; simplify_eq/=; congruence.
  - by rewrite Ha, orb_true_r.
  - by rewrite Ha, orb_true_r.
Qed.

(** ** Plugins *)

(** The functions of a plugin, with the names they are instrumented under. *)
Definition functions_of (p : Kernel.plugin B) : list (pystr * Kernel.plugin_function B) :=
  match p with
  | Kernel.PMapping fs | Kernel.PFunctionsMap fs => fs
  | Kernel.PFunctionsList fs => imap (λ i f, (Kernel.listed_name i f, f)) fs
  | Kernel.POpaque => []
  end.

Definition plugin_becomes st (p q : Kernel.plugin B) : Prop :=
  Forall2 (λ nf ng, ng.1 = nf.1 ∧ function_becomes st nf.1 nf.2 ng.2) (functions_of p) (functions_of q).

Abbreviation bind_ := (Kernel.bind_plugin_functions (B := B) repr_name).

Lemma bind_map_spec st fs gs :
  Kernel.bind_map repr_name st fs = inr gs →
  Forall2 (λ nf ng, ng.1 = nf.1 ∧ function_becomes st nf.1 nf.2 ng.2) fs gs ∧
  Kernel.bind_map repr_name st gs = inr gs.
Proof.
  unfold Kernel.bind_map. intros H%traverse_pointwise. split.
  - eapply Forall2_impl; [exact H|]. intros [n f] [n' g]. simpl.
    destruct (instrument_ st n f) as [e|w] eqn:Ei; [done|]. cbn [mbind res_bind]. intros [= <- <-].
    split; [done|]. by apply instrument_function_cases.
  - apply traverse_id. induction H as [|[n f] [n' g] fs gs Hf H IH]; constructor; [|done].
    revert Hf. simpl. destruct (instrument_ st n f) as [e|w] eqn:Ei; [done|]. cbn [mbind res_bind].
    intros [= <- <-]. by rewrite (instrument_function_again _ _ _ _ Ei).
Qed.

Lemma bind_list_spec st fs gs (k : nat) :
  traverse (λ jf, instrument_ st (Kernel.listed_name jf.1 jf.2) jf.2) (imap (λ i f, ((k + i)%nat, f)) fs) = inr gs →
  Forall2 (λ nf ng, ng.1 = nf.1 ∧ function_becomes st nf.1 nf.2 ng.2)
    (imap (λ i f, (Kernel.listed_name (k + i) f, f)) fs) (imap (λ i f, (Kernel.listed_name (k + i) f, f)) gs) ∧
  traverse (λ jf, instrument_ st (Kernel.listed_name jf.1 jf.2) jf.2) (imap (λ i f, ((k + i)%nat, f)) gs) = inr gs.
Proof.
  revert k gs. induction fs as [|f fs IH]; intros k gs; simpl; [by intros [= <-]|].
  destruct (instrument_ st (Kernel.listed_name (k + 0) f) f) as [e|g] eqn:Ei; [done|].
  rewrite (imap_ext _ (λ i f, ((S k + i)%nat, f))) by (intros; simpl; f_equal; lia).
  destruct (traverse _ _) as [e|gs'] eqn:Et; [done|]. intros [= <-]. apply IH in Et as [Hall Hagain].
  assert (Kernel.listed_name (k + 0) g = Kernel.listed_name (k + 0) f) as Hn.
  { unfold Kernel.listed_name. by rewrite (proj1 (instrument_function_cases _ _ _ _ Ei)). }
  split.
  - simpl. constructor; [simpl; rewrite Hn; split; [done|by apply instrument_function_cases]|].
    rewrite !(imap_ext (_ ∘ S) (λ i f, (Kernel.listed_name (S k + i) f, f)))
      by (intros; simpl; do 2 f_equal; lia). done.
  - simpl. rewrite Hn, (instrument_function_again _ _ _ _ Ei).
    rewrite (imap_ext (_ ∘ S) (λ i f, ((S k + i)%nat, f))) by (intros; simpl; f_equal; lia).
    by rewrite Hagain.
Qed.

Lemma bind_plugin_spec st p q : bind_ st p = inr q → plugin_becomes st p q ∧ bind_ st q = inr q.
Proof.
  unfold plugin_becomes, Kernel.bind_plugin_functions. destruct p as [fs|fs|fs|].
  - destruct (Kernel.bind_map _ _ fs) as [e|gs] eqn:E; [done|]. intros [= <-].
    apply bind_map_spec in E as [? Hagain]. split; [done|]. by rewrite Hagain.
  - destruct (Kernel.bind_map _ _ fs) as [e|gs] eqn:E; [done|]. intros [= <-].
    apply bind_map_spec in E as [? Hagain]. split; [done|]. by rewrite Hagain.
  - destruct (traverse _ _) as [e|gs] eqn:E; [done|]. intros [= <-].
    apply (bind_list_spec st fs gs 0) in E as [? Hagain]. split; [done|]. simpl in Hagain. by rewrite Hagain.
  - intros [= <-]. by split.
Qed.

Lemma bind_plugins_ok st ps qs :
  Kernel.bind_plugins repr_name st ps = (inr (), qs) → Forall2 (λ p q, bind_ st p = inr q) ps qs.
Proof.
  revert qs. induction ps as [|p ps IH]; intros qs; simpl; [by intros [= <-]|].
  destruct (bind_ st p) as [e|q] eqn:Eb; [done|].
  destruct (Kernel.bind_plugins repr_name st ps) as [r qs'] eqn:E. intros [= -> <-]. constructor; auto.
Qed.

Lemma bind_plugins_id st qs :
  Forall (λ q, bind_ st q = inr q) qs → Kernel.bind_plugins repr_name st qs = (inr (), qs).
Proof. induction 1 as [|q qs Hq H IH]; simpl; [done|]. by rewrite Hq, IH. Qed.

(** C35: wrapping a kernel instruments its plugins, and only once. When every
    plugin is accepted (mappings have texts for keys), each function of each
    plugin keeps its name and its place; a function that was decorated stays as
    it was, and every other one, unless its callable is a bound method, has its callable behind the
    interceptor with the tier it is mapped to or the one its name suggests. The
    preparation that every later invocation repeats changes nothing. *)
Theorem kernel_plugins_are_instrumented st (k k' : Kernel.kernel B R) :
  Kernel.prepare_plugins repr_name st k = (inr (), k') →
  Kernel.kn_state k' = Kernel.kn_state k ∧
  (match Kernel.kn_plugins k, Kernel.kn_plugins k' with
   | Some ps, Some qs => Forall2 (plugin_becomes st) ps qs
   | None, None => True
   | _, _ => False
   end) ∧ Kernel.prepare_plugins repr_name st k' = (inr (), k').
Proof.
  unfold Kernel.prepare_plugins. destruct (Kernel.kn_plugins k) as [ps|] eqn:Ep.
  - destruct (Kernel.bind_plugins repr_name st ps) as [r qs] eqn:E. intros [= -> <-].
    cbn [Kernel.kn_plugins Kernel.kn_state]. apply bind_plugins_ok in E.
    eapply Forall2_impl in E; [|intros p q; apply bind_plugin_spec]. apply Forall2_fmap_both in E as [Hall Hid].
    split_and!; [done..|]. by rewrite (bind_plugins_id _ _ Hid).
  - intros [= <-]. by rewrite Ep.
Qed.

(** Binding is atomic per plugin and not per kernel. When a plugin is
    rejected, it and the plugins after it are left as they were, but the ones
    before it stay instrumented although wrapping the kernel raised. *)
Theorem rejected_plugin_leaves_earlier_bound st (k : Kernel.kernel B R) ps qs p rest e :
  Kernel.kn_plugins k = Some (ps ++ p :: rest) →
  Forall2 (λ p q, bind_ st p = inr q) ps qs → bind_ st p = inl e →
  Kernel.prepare_plugins repr_name st k =
    (inl e, Kernel.MkKernel (Some (qs ++ p :: rest)) (Kernel.kn_state k)).
Proof.
  intros Hk Hall Hp. unfold Kernel.prepare_plugins. rewrite Hk.
  replace (Kernel.bind_plugins repr_name st (ps ++ p :: rest)) with
    ((inl e : sdk_exc + (), qs ++ p :: rest)); [done|]. symmetry. clear Hk.
  induction Hall as [|p' q ps qs Hb Hall IH]; simpl; [by rewrite Hp|]. by rewrite Hb, IH.
Qed.

(** A bound method is accepted and not instrumented. A plugin object whose
    [coroutine] or [function] is a method of its own passes every check of
    [_instrument_plugin_function], but the attribute is a new object at every
    access, so the test [is inner] fails and the copy keeps the method: its
    calls do not reach the proxy. *)
Theorem bound_methods_are_not_intercepted st name f g :
  bound_method f = true → tg_undolog (callable_of f) = None → instrument_ st name f = inr g →
  g = f ∧ tg_undolog (callable_of g) = None.
Proof.
  intros Hb Hu H. apply instrument_function_cases in H as (_ & Hsame & _).
  rewrite (Hsame (or_intror Hb)) in *. done.
Qed.
End functions.

(** ** Invocations *)

Section invocations.
Context {B R E : Type}.
Variable repr_name : option pystr → pystr.
Variable fresh_uuid : E → pystr * E.
Variable py_str : json → pystr.
Variable int_of_float : pyfloat → option Z.
Variable int_error : json → pystr.

Abbreviation without_keys d := (dict_del Kernel.INPUT_STEP_KEY (dict_del Kernel.INPUT_SESSION_KEY d)).

(** The resume keys select the session and reach no function. An invocation
    whose mapping names a session runs in that session from the step the mapping
    gives, zero when it gives none. The kernel is invoked with the mapping less
    the two keys, and so is the caller's mapping afterwards: invoking again with
    the same mapping opens a new session. *)
Theorem resume_keys_reach_no_function st d sid start (h : hosted (Kernel.kernel B R) E) k0 kernel_invoke r a1 s1 :
  dict_ok d → dict_get Kernel.INPUT_SESSION_KEY d = Some (JStr sid) → sid ≠ [] →
  LangGraph.start_step_of int_of_float int_error (dict_get Kernel.INPUT_STEP_KEY d) = inr start →
  kernel_prepares repr_name st h k0 →
  let s := Session (Crew.st_org st) sid start in
  kernel_invoke k0 (Kernel.AMutable (without_keys d)) (entered fresh_uuid s (ho_agent h)) = (r, a1) →
  ag_sessions a1 !! opened_at (ho_agent h) = Some s1 →
  ∃ h', Kernel.invoke repr_name fresh_uuid py_str int_of_float int_error st kernel_invoke
          (Kernel.AMutable d) Kernel.ANone h = (r, Kernel.AMutable (without_keys d), h') ∧
    rr_session_id (ho_run h') = Some sid ∧ rr_step_index (ho_run h') = step_index s1 ∧
    (∀ k, dict_get k (without_keys d) =
       if str_eqb k Kernel.INPUT_SESSION_KEY || str_eqb k Kernel.INPUT_STEP_KEY then None else dict_get k d) ∧
    Kernel.pop_resume_keys int_of_float int_error (Kernel.AMutable (without_keys d)) =
      (inr (None, 0), Kernel.AMutable (without_keys d)).
Proof.
  intros Hok Hsid Hne Hstart Hacc s Hbody Hs1.
  assert (∀ k, dict_get k (without_keys d) =
    if str_eqb k Kernel.INPUT_SESSION_KEY || str_eqb k Kernel.INPUT_STEP_KEY then None else dict_get k d) as Hget.
  { intros k. rewrite !dict_get_del by auto using dict_ok_del.
    by destruct (str_eqb k Kernel.INPUT_SESSION_KEY), (str_eqb k Kernel.INPUT_STEP_KEY). }
  assert (opened fresh_uuid py_str (Crew.st_org st) (Some (JStr sid)) start (ho_agent h) = s) as Hs.
  { unfold opened, s. simpl. by destruct sid. }
  unfold Kernel.invoke. cbn [Kernel.pop_resume_keys].
  unfold Kernel.has_resume_keys at 1. rewrite Hsid, Hstart.
  erewrite (@facade_runs _ _ _ _ _ _ _ _ (kernel_facade (B := B) (R := R) repr_name fresh_uuid py_str st
    (Some (JStr sid)) start (Kernel.AMutable (without_keys d))) h k0 kernel_invoke r a1 s1 Hacc);
    [|cbv beta; rewrite Hs; exact Hbody|exact Hs1].
  eexists. split; [done|]. cbn [ho_run ho_agent]. rewrite Hs.
  split_and!; [unfold recorded; by repeat case_match..|exact Hget|].
  unfold Kernel.pop_resume_keys, Kernel.has_resume_keys. by rewrite !Hget.
Qed.
End invocations.
