(* ===== verification/ResumeTheorems.v ===== *)
(** * Runs that are started again through a facade

    [SessionFacade] is what a client of the integrations relies on: the recovery
    of an interrupted run is proved against it, for any two facades that open
    the same session, and then holds of a crew. *)

From S2P Require Import Prelude Py PyFacts Json Signature JsonRead CanonicalParse Journal Broadcaster Framing.
From S2P Require Import FramingFacts World Fnmatch DevHandler DevWp DevSpec DevRoutes Protocol Refinement.
From S2P Require Import Errors Client Tool EndToEnd Durable DurableTheorems Instrument LangGraph InstrumentFacts.
From S2P Require Import Facade Crew LlamaIndex Kernel FacadeTheorems.
Open Scope Z_scope.
Open Scope undolog_scope.

Section resumed.
Variable float_of_text : pystr → pyfloat.
Variable blake3_hexdigest : bytes → pystr.
Variable exc_str : pyexc → pystr.
Variable py_str : json → pystr.
Variable srv : server.
Variable uuid4_str : nat → pystr.
Variable utc_now_str : nat → pystr.
Variable time_ns_at : nat → Z.
Context `{!id_laws uuid4_str utc_now_str}.
Variable encode : json → bytes.
Variable session_param : pystr.
Variable env_proxy_url env_api_key : option pystr.
Variable is_success : Z → bool.
Variable repr_status : json → pystr.
Hypothesis success_2xx : ∀ st, 200 ≤ st < 300 → is_success st = true.
Hypothesis digest_injective : ∀ b b', blake3_hexdigest b = blake3_hexdigest b' → b = b'.
Context {T Args : Type}.
Variable tools : T → wtool Args.
Variable cl : client_config.
(** The identifier a session is created with. *)
Variable new_sid : outside Args → pystr.

Abbreviation wf := (workflow T Args).
Abbreviation fresh_sid := (λ o : outside Args, (new_sid o, o)).
Abbreviation run_workflow_ := (run_workflow float_of_text blake3_hexdigest exc_str py_str srv uuid4_str
  utc_now_str time_ns_at encode session_param env_proxy_url env_api_key is_success repr_status tools cl).
Abbreviation ready_ := (ready float_of_text blake3_hexdigest exc_str encode session_param tools).
Abbreviation in_session_ := (in_session uuid4_str).
Abbreviation run_tool := (λ t, wt_body (tools t)).
Abbreviation unused sid org := (free_after (sig_of blake3_hexdigest exc_str session_param tools sid)
  (valid float_of_text blake3_hexdigest exc_str encode session_param tools org sid)).

(** What a facade opens is a session of the process. *)
Lemma entered_in_session {C} (h : hosted C (outside Args)) org sid n w log :
  ag_ext (ho_agent h) = (w, log) → serving uuid4_str w →
  in_session_ org sid (entered fresh_sid (Session org sid n) (ho_agent h)) (opened_at (ho_agent h)) n w log.
Proof. intros Hext Hs. split; [done| |done|done]. apply lookup_insert_eq. Qed.

(** A run interrupted in one facade and started again in another, which opens
    the same session at the same step. [dying] and [whole] are the frameworks'
    runs, on the objects the facades prepare and the arguments they pass on. *)
Lemma facade_recovers {C C' X X'} prepares opens (seen : X) run
    (F : SessionFacade (C := C) fresh_sid prepares opens seen run)
    prepares' opens' (seen' : X') run' (F' : SessionFacade (C := C') fresh_sid prepares' opens' seen' run')
    (dying : C → X → wf) (whole : C' → X' → wf) c c' calls out org sid n w log h :
  let q := whole c' seen' in
  cut (dying c seen) q → ready_ org sid q n → ungated srv tools q → plain_run run_tool q calls out →
  ag_ext (ho_agent h) = (w, log) → serving uuid4_str w → unused sid org n (state_of (w_db w)) →
  prepares h c → opens h = Session org sid n →
  ∃ r h1, run (λ c x, run_workflow_ (dying c x)) h = (r, h1) ∧ rr_session_id (ho_run h1) = Some sid ∧
    ∀ h2, prepares' h2 c' → opens' h2 = Session org sid n → ag_ext (ho_agent h2) = ag_ext (ho_agent h1) →
    ∃ h3 w3, run' (λ c x, run_workflow_ (whole c x)) h2 = (inr out, h3) ∧
      rr_session_id (ho_run h3) = Some sid ∧ ag_ext (ho_agent h3) = (w3, log ++ (snd <$> calls)).
Proof.
  intros q Hcut Hready Hung Hplain Hext Hs Hfree Hacc Hopen.
  destruct (recover_core float_of_text blake3_hexdigest exc_str py_str srv uuid4_str utc_now_str
    time_ns_at encode session_param env_proxy_url env_api_key is_success repr_status success_2xx tools cl
    org sid digest_injective (dying c seen) q calls out n (entered fresh_sid (Session org sid n) (ho_agent h))
    (opened_at (ho_agent h)) w log Hcut Hready Hung Hplain Hfree
    (entered_in_session h org sid n w log Hext Hs)) as (r & a1 & n1 & w1 & log1 & E1 & Hin1 & Hagain).
  epose proof (@facade_runs _ _ _ _ _ _ _ _ F h c (λ c x, run_workflow_ (dying c x)) r a1 _ Hacc) as Hrun.
  rewrite Hopen in Hrun. specialize (Hrun E1 ltac:(apply Hin1)).
  eexists r, _. split; [exact Hrun|]. split; [unfold recorded; by repeat case_match|].
  intros h2 Hacc2 Hopen2 Hext2. cbn [ho_agent left ag_ext] in Hext2.
  destruct Hin1 as [_ _ Ho1 Hs1]. rewrite Ho1 in Hext2.
  destruct (Hagain _ _ (entered_in_session h2 org sid n w1 log1 Hext2 Hs1)) as (a3 & n3 & w3 & E3 & Hin3).
  epose proof (@facade_runs _ _ _ _ _ _ _ _ F' h2 c' (λ c x, run_workflow_ (whole c x)) (inr out) a3 _ Hacc2) as Hrun3.
  rewrite Hopen2 in Hrun3. specialize (Hrun3 E3 ltac:(apply Hin3)).
  eexists _, w3. split; [exact Hrun3|]. split; [done|]. apply Hin3.
Qed.

Context {B : Type}.
Variable repr_name : option pystr → pystr.
Variable int_of_float : pyfloat → option Z.
Variable int_error : json → pystr.

(** [kickoff_async] of a crew whose run, with the tools it was prepared with,
    the inputs and the keywords, is a workflow of tool calls. *)
Abbreviation kickoff st plan inputs kwargs h :=
  (Crew.kickoff_async (B := B) repr_name fresh_sid py_str int_of_float int_error st
     (λ c payload kw, run_workflow_ (plan c payload kw)) inputs kwargs h).

(** C12: a crew survives a crash. The run of a crew is any workflow of calls of
    decorated tools, chosen from the prepared crew, the inputs and the keywords:
    the tools are not of the tier SAFE, none needs an approval, their bodies
    return, and the server understands the calls; [dying] is the same run cut
    off between two calls. The signatures the session can produce are unused in
    the journal, and the digest of signatures has no collision. A kickoff that
    dies leaves its session's identifier with the caller. A kickoff with that
    identifier added to the same inputs as [session_id], in a new process whose
    crew is prepared alike, returns what an uninterrupted run returns, and every
    tool body ran exactly once over both. *)
Theorem interrupted_kickoff_recovers st (dying plan : Crew.crew B → option dict → dict → wf) d kwargs c
    calls out w log (h : hosted (Crew.crew B) (outside Args)) :
  let sid := new_sid (w, log) in
  let q := plan c (Crew.or_none d) kwargs in
  cut (dying c (Crew.or_none d) kwargs) q →
  ready_ (Crew.st_org st) sid q 0 → ungated srv tools q → plain_run run_tool q calls out →
  dict_get Crew.INPUT_SESSION_KEY d = None → dict_get Crew.INPUT_STEP_KEY d = None →
  ag_ext (ho_agent h) = (w, log) → serving uuid4_str w →
  unused sid (Crew.st_org st) 0 (state_of (w_db w)) → sid ≠ [] →
  Crew.prepare_agents repr_name st (ho_object h) = inr c →
  ∃ r h1, kickoff st dying (Some d) kwargs h = (r, h1) ∧ rr_session_id (ho_run h1) = Some sid ∧
    ∀ h2 : hosted (Crew.crew B) (outside Args),
      Crew.prepare_agents repr_name st (ho_object h2) = inr c →
      ag_ext (ho_agent h2) = ag_ext (ho_agent h1) →
      ∃ h3 w3, kickoff st plan (Some (dict_set Crew.INPUT_SESSION_KEY (JStr sid) d)) kwargs h2 = (inr out, h3) ∧
        rr_session_id (ho_run h3) = Some sid ∧ ag_ext (ho_agent h3) = (w3, log ++ (snd <$> calls)).
Proof.
  intros sid q Hcut Hready Hung Hplain Hno Hnostep Hext Hs Hfree Hne Hc.
  set (d' := dict_set Crew.INPUT_SESSION_KEY (JStr sid) d).
  assert (crew_payload (Some d) = Crew.or_none d ∧ crew_payload (Some d') = Crew.or_none d) as [Hd Hd'].
  { unfold crew_payload, d'. cbn [default from_option id].
    rewrite dict_del_set, (dict_del_none Crew.INPUT_SESSION_KEY) by done. by rewrite dict_del_none. }
  destruct (facade_recovers _ _ _ _ (crew_facade (B := B) repr_name fresh_sid py_str int_of_float int_error st
    (Some d) kwargs 0) _ _ _ _ (crew_facade (B := B) repr_name fresh_sid py_str int_of_float int_error st
    (Some d') kwargs 0) (λ c x, dying c x.1 x.2) (λ c x, plan c x.1 x.2) c c calls out (Crew.st_org st) sid 0 w log h)
    as (r & h1 & E1 & Hid & Hagain); cbn [fst snd]; rewrite ?Hd, ?Hd'; try done.
  { split; [|done]. cbn [default from_option id]. by rewrite dict_del_none, Hnostep. }
  { unfold opened. cbn [default from_option id]. by rewrite Hno, Hext. }
  exists r, h1. split; [exact E1|]. split; [exact Hid|]. intros h2 Hc2 Hext2.
  apply Hagain; [split; [|done]| |done]; cbn [default from_option id]; unfold d'.
  - by rewrite dict_del_set, Hnostep.
  - rewrite dict_get_set_eq. unfold opened. simpl. by destruct sid.
Qed.
End resumed.
