(* ===== verification/FacadeWitnesses.v ===== *)
(** * The theorems about the facades, on concrete objects *)

From S2P Require Import Prelude Py PyFacts Json Signature Journal Broadcaster Framing World Fnmatch.
From S2P Require Import DevHandler DevWp DevSpec DevRoutes Protocol Refinement Errors Client Tool.
From S2P Require Import EndToEnd Durable DurableTheorems Instrument LangGraph InstrumentFacts Facade Crew.
From S2P Require Import LlamaIndex Kernel FacadeTheorems KernelTheorems ResumeTheorems Demo SdkWitnesses.
From S2P Require Import LangGraphWitnesses DurableWitnesses.
Open Scope Z_scope.
Open Scope undolog_scope.
Import Demo.

Definition demo_settings : Crew.settings :=
  Crew.Settings $"acme" [($"wire", IRREVERSIBLE)] [($"refund", $"undo_refund")] None.

(** An agent with two tools and one without, and a task with a decorated one. *)
Definition demo_crew : Crew.crew nat :=
  Crew.MkCrew [Some [plain_fn; structured]; None] (Some [None; Some [decorated]]).
Definition prepared_demo_crew : Crew.crew nat :=
  Eval vm_compute in match Crew.prepare_agents no_repr demo_settings demo_crew with inr c => c | inl _ => demo_crew end.
Definition hosted_crew (o : outside Z) : hosted (Crew.crew nat) (outside Z) :=
  Hosted demo_crew no_run (Agent ∅ None None o).

Lemma prepared_crew_is_instrumented_witness :
  ∃ c, Crew.prepare_agents no_repr demo_settings demo_crew = inr c ∧
    Crew.prepare_agents no_repr demo_settings c = inr c.
Proof.
  eexists. split; [vm_compute; reflexivity|].
  eapply (prepared_crew_is_instrumented no_repr demo_settings demo_crew). vm_compute. reflexivity.
Defined.

(** A structured tool [send_report] around a function [get_report]. *)
Definition misnamed : pytool nat :=
  PyTool $"send_report" (Target None None false None) (Some (Target (Some $"get_report") None true (Some 5%nat))) None.

Lemma container_tier_ignores_tool_name_witness :
  ∃ w i, instrument_agent_tool no_repr $"wrap_crewai" [] [] None misnamed = inr w ∧
    tg_undolog (tool_target w).1 = Some i ∧ in_tier i = SAFE.
Proof.
  destruct (container_tier_ignores_tool_name no_repr $"wrap_crewai" [] [] None misnamed
    (Target (Some $"get_report") None true (Some 5%nat))
    (PyTool $"send_report" (Target None None false None)
       (Some (Target (Some $"get_report") (Some (Instrumentation $"get_report" SAFE None None)) true (Some 5%nat)))
       None) eq_refl ltac:(by eexists) eq_refl ltac:(done) ltac:(vm_compute; reflexivity))
    as (i & n & Hi & Hn & Ht).
  eexists _, i. split; [vm_compute; reflexivity|]. split; [exact Hi|]. rewrite Ht. injection Hn as <-.
  vm_compute. reflexivity.
Defined.

(** A crew that calls the gated tool. *)
Definition demo_fresh (o : outside Z) : pystr * outside Z := (graph_sid o, o).
Definition stopping (_ : Crew.crew nat) (_ : option dict) (_ : dict) : M (agent (outside Z)) json := λ a,
  (inl (awaiting_approval py_str $"wire_money" (JStr $"a1") 1), a).

Lemma kickoff_reports_the_run_witness :
  ∃ h', Crew.kickoff_async no_repr demo_fresh py_str trunc int_message demo_settings
          stopping None [] (hosted_crew (world0, [])) =
      (inl (awaiting_approval py_str $"wire_money" (JStr $"a1") 1), h') ∧
    rr_awaiting (ho_run h') = true ∧ rr_session_id (ho_run h') = Some (graph_sid (world0, [])).
Proof.
  destruct (kickoff_reports_the_run no_repr demo_fresh py_str trunc int_message demo_settings None [] 0
    (hosted_crew (world0, [])) prepared_demo_crew stopping (inl (awaiting_approval py_str $"wire_money" (JStr $"a1") 1))
    (entered demo_fresh (Session $"acme" (graph_sid (world0, [])) 0) (Agent ∅ None None (world0, [])))
    (Session $"acme" (graph_sid (world0, [])) 0))
    as (h' & E & Hid & _ & Haw & _).
  - split; vm_compute; reflexivity.
  - reflexivity.
  - apply lookup_insert_eq.
  - exists h'. split; [exact E|]. split; [|exact Hid]. apply Haw. eexists _, _. split; reflexivity.
Defined.

(** A chat turn of two steps. *)
Definition demo_index : LlamaIndex.index nat := LlamaIndex.Index (Some (Some [plain_fn])) None.
Definition two_steps (_ : LlamaIndex.index nat) (_ : json) (_ : dict) : M (agent (outside Z)) json := λ a,
  (inr JNull, Agent ((λ s, Session (org_id s) (session_id s) (step_index s + 2)) <$> ag_sessions a)
                (ag_context a) (ag_default_client a) (ag_ext a)).

Lemma chat_turns_share_a_session_witness :
  ∃ h1, LlamaIndex.achat no_repr demo_fresh py_str trunc int_message demo_settings false two_steps
          (JStr $"hi") [] (Hosted demo_index no_run (Agent ∅ None None (world0, []))) = (inr JNull, h1) ∧
    index_opens demo_fresh py_str trunc int_message demo_settings false true [] h1 =
      Session $"acme" (graph_sid (world0, [])) 2.
Proof.
  eexists. split; [vm_compute; reflexivity|].
  eapply (chat_turns_share_a_session no_repr demo_fresh py_str trunc int_message demo_settings false
    (JStr $"hi") [] (Hosted demo_index no_run (Agent ∅ None None (world0, []))) _ two_steps (inr JNull)
    _ (Session $"acme" (graph_sid (world0, [])) 2)).
  - split; [by exists 0|vm_compute; reflexivity].
  - discriminate.
  - reflexivity.
  - reflexivity.
  - vm_compute. reflexivity.
Defined.

(** ** Kernels *)

Definition function_of (t : pytool nat) : Kernel.plugin_function nat := Kernel.PluginFunction t false false.
Definition good_plugin : Kernel.plugin nat :=
  Kernel.PMapping [($"refund", function_of plain_fn); ($"look", function_of decorated)].
Definition listed_plugin : Kernel.plugin nat := Kernel.PFunctionsList [function_of structured].
(** A function that is not a coroutine function. *)
Definition sync_plugin : Kernel.plugin nat :=
  Kernel.PFunctionsMap [($"slow", function_of (PyTool [] (Target (Some $"slow") None false (Some 9%nat)) None None))].

Lemma kernel_plugins_are_instrumented_witness :
  ∃ k', Kernel.prepare_plugins no_repr demo_settings (Kernel.MkKernel (Some [good_plugin; listed_plugin]) ()) =
      (inr (), k') ∧ Kernel.prepare_plugins no_repr demo_settings k' = (inr (), k').
Proof.
  eexists. split; [vm_compute; reflexivity|].
  eapply (kernel_plugins_are_instrumented no_repr demo_settings
    (Kernel.MkKernel (Some [good_plugin; listed_plugin]) ())). vm_compute. reflexivity.
Defined.

Lemma rejected_plugin_leaves_earlier_bound_witness :
  ∃ q e, Kernel.prepare_plugins no_repr demo_settings (Kernel.MkKernel (Some [good_plugin; sync_plugin]) ()) =
    (inl e, Kernel.MkKernel (Some [q; sync_plugin]) ()) ∧ q ≠ good_plugin.
Proof.
  eexists _, _. split.
  - eapply (rejected_plugin_leaves_earlier_bound no_repr demo_settings
      (Kernel.MkKernel (Some [good_plugin; sync_plugin]) ()) [good_plugin] [_] sync_plugin []).
    + reflexivity.
    + constructor; [vm_compute; reflexivity|constructor].
    + vm_compute. reflexivity.
  - discriminate.
Defined.

(** A plugin object with an asynchronous method [coroutine]. *)
Definition method_function : Kernel.plugin_function nat :=
  Kernel.PluginFunction (PyTool $"delete_all" (Target None None false None)
    (Some (Target (Some $"coroutine") None true (Some 4%nat))) None) true false.

Lemma bound_methods_are_not_intercepted_witness :
  tg_undolog (Kernel.function_target (Kernel.pf_tool method_function)).1 = None.
Proof.
  exact (proj2 (bound_methods_are_not_intercepted no_repr demo_settings $"delete_all" method_function
    method_function eq_refl eq_refl eq_refl)).
Defined.

Definition demo_arguments : dict := [($"city", JStr $"Oslo"); ($"session_id", JStr $"s-1")].
Definition quiet_invoke (k : Kernel.kernel nat ()) (d : Kernel.arguments) : M (agent (outside Z)) json :=
  λ a, (inr JNull, a).

Lemma resume_keys_reach_no_function_witness :
  ∃ h', Kernel.invoke no_repr demo_fresh py_str trunc int_message demo_settings quiet_invoke
      (Kernel.AMutable demo_arguments) Kernel.ANone
      (Hosted (Kernel.MkKernel (Some [good_plugin]) ()) no_run (Agent ∅ None None (world0, []))) =
    (inr JNull, Kernel.AMutable [($"city", JStr $"Oslo")], h') ∧ rr_session_id (ho_run h') = Some $"s-1".
Proof.
  destruct (resume_keys_reach_no_function no_repr demo_fresh py_str trunc int_message demo_settings
    demo_arguments $"s-1" 0 (Hosted (Kernel.MkKernel (Some [good_plugin]) ()) no_run (Agent ∅ None None (world0, [])))
    (Kernel.prepare_plugins no_repr demo_settings (Kernel.MkKernel (Some [good_plugin]) ())).2
    quiet_invoke (inr JNull) (entered demo_fresh (Session $"acme" $"s-1" 0) (Agent ∅ None None (world0, [])))
    (Session $"acme" $"s-1" 0)) as (h' & E & Hid & _).
  - unfold dict_ok. apply (bool_decide_unpack _). vm_compute. exact I.
  - reflexivity.
  - discriminate.
  - reflexivity.
  - vm_compute. reflexivity.
  - reflexivity.
  - reflexivity.
  - exists h'. split; [exact E|exact Hid].
Defined.

(** ** A crew that is started again *)

(** A crew with agents mails twice when its inputs name a customer. *)
Definition demo_plan (c : Crew.crew nat) (inputs : option dict) (_ : dict) : workflow demo_tool Z :=
  match Crew.cw_agents c, inputs with
  | _ :: _, Some [(_, JStr _)] => two_mails
  | _, _ => WReturn JNull
  end.
(** The same run, cut after the first mail. *)
Definition demo_dying (c : Crew.crew nat) (inputs : option dict) (kwargs : dict) : workflow demo_tool Z :=
  one_mail.
Definition customer_input : dict := [($"customer", JStr $"c1")].

Abbreviation kickoff_demo plan inputs h :=
  (Crew.kickoff_async no_repr (λ o : outside Z, (graph_sid o, o)) py_str trunc int_message demo_settings
     (λ c payload kw, run_wf (plan c payload kw)) inputs [] h).

Lemma interrupted_kickoff_recovers_witness :
  ∃ r h1, kickoff_demo demo_dying (Some customer_input) (hosted_crew (world0, [])) = (r, h1) ∧
    ∃ h3 w3, kickoff_demo demo_plan (Some (customer_input ++ [(Crew.INPUT_SESSION_KEY, JStr demo_sid)]))
        (hosted_crew (ag_ext (ho_agent h1))) = (inr (JInt 8), h3) ∧
      ag_ext (ho_agent h3) = (w3, [21; 4]).
Proof.
  destruct (interrupted_kickoff_recovers float_of_text blake3_hexdigest exc_str py_str gated_server uuid4_str
    utc_now_str time_ns_at dumps $"session" None None is_2xx py_str success_2xx identity_digest demo_tools
    tool_client graph_sid no_repr trunc int_message demo_settings demo_dying demo_plan customer_input []
    prepared_demo_crew [(Mail, 21); (Mail, 4)] (JInt 8) world0 [] (hosted_crew (world0, []))
    cut_two_mails (ready_two_mails 0 (or_intror eq_refl)) ltac:(by repeat split) plain_two_mails eq_refl eq_refl
    eq_refl serving_world0 (unused_world0 0) ltac:(discriminate) ltac:(vm_compute; reflexivity))
    as (r & h1 & E1 & _ & Hagain).
  exists r, h1. split; [exact E1|].
  destruct (Hagain (hosted_crew (ag_ext (ho_agent h1)))) as (h3 & w3 & E3 & _ & Ha3);
    [vm_compute; reflexivity|reflexivity|].
  exists h3, w3. split; [exact E3|exact Ha3].
Defined.
