(* ===== verification/Cli.v ===== *)
(** * The command line of the development server
    ([build_parser] and [main] in [undolog_sdk/dev.py])

    The parser is [argparse]'s, so what is modelled of it is what the options
    [build_parser] declares make it do: every argument is first classified as an
    option or a value, with unique prefixes of long options accepted and
    ambiguous ones refused; then the options are taken in order, each with its
    value, and anything left over is refused. The parser ends the process on
    [--help] and on an error; both are [None]. *)

From S2P Require Import Prelude Py Json Schema Lifecycle.
Open Scope Z_scope.
Open Scope undolog_scope.

Module Cli.

Definition DEFAULT_HOST : pystr := $"127.0.0.1".
Definition DEFAULT_PORT : Z := 8080.
Definition DEFAULT_DB_PATH : pystr := $"./.undolog.db".

(** The namespace of the [dev] command. *)
Record options := Options {
  o_host : pystr;
  o_port : Z;
  o_db : pystr;
  o_irreversible : list pystr;
  o_auto_approve : bool;
}.
Definition default_options : options := Options DEFAULT_HOST DEFAULT_PORT DEFAULT_DB_PATH [] false.

(** The options [build_parser] adds to [dev], after the [-h] and [--help] every
    parser has. *)
Inductive option_action := Help | Host | Port | Db | Irreversible | AutoApprove.
Definition OPTIONS : list (pystr * option_action) :=
  [($"-h", Help); ($"--help", Help); ($"--host", Host); ($"--port", Port); ($"--db", Db);
   ($"--irreversible", Irreversible); ($"--auto-approve", AutoApprove)].

(** An argument is a value, the mark [--], or an option with the value attached
    to it; an option nobody declared has no action. *)
Inductive token :=
| Value
| Dashes
| Opt (a : option option_action) (attached : option pystr).

Section parser.
(** Whether a character is a decimal digit, [\d] in a pattern. *)
Variable is_decimal : Z → bool.

(** The end of a pattern's text, [$]: a final newline may follow. *)
Definition at_end (s : pystr) : bool := match s with [] | [10] => true | _ => false end.
Definition skip_digits : pystr → pystr := lstrip_by is_decimal.

(** [^-\d+$|^-\d*\.\d+$]. *)
Definition negative_number (s : pystr) : bool :=
  match s with
  | 45 :: s' =>
      let rest := skip_digits s' in
      (negb (length rest =? length s')%nat && at_end rest)
      || match rest with
         | 46 :: r => negb (length (skip_digits r) =? length r)%nat && at_end (skip_digits r)
         | _ => false
         end
  | _ => false
  end.

(** [_get_option_tuples]: the options an abbreviated argument can mean. *)
Definition option_tuples (s : pystr) : list token :=
  if startswith s $"--" then
    let '(prefix, attached) := cut_at 61 s in
    omap (λ o, if startswith o.1 prefix then Some (Opt (Some o.2) attached) else None) OPTIONS
  else
    omap (λ o, if str_eqb o.1 (take 2 s) then Some (Opt (Some o.2) (Some (drop 2 s)))
               else if startswith o.1 s then Some (Opt (Some o.2) None) else None) OPTIONS.

(** [_parse_optional]; an ambiguous argument ends the parser. *)
Definition parse_optional (s : pystr) : option token :=
  match s with
  | [] => Some Value
  | c :: rest =>
      if negb (c =? 45) then Some Value
      else match dict_get s OPTIONS with
           | Some a => Some (Opt (Some a) None)
           | None =>
               match rest with
               | [] => Some Value
               | _ =>
                   let '(name, attached) := cut_at 61 s in
                   match attached, dict_get name OPTIONS with
                   | Some v, Some a => Some (Opt (Some a) (Some v))
                   | _, _ =>
                       match option_tuples s with
                       | [t] => Some t
                       | _ :: _ :: _ => None
                       | [] =>
                           if negative_number s then Some Value
                           else if existsb (Z.eqb 32) s then Some Value
                           else Some (Opt None None)
                       end
                   end
               end
           end
  end.

(** The classes of the arguments: all of them are values after [--]. *)
Fixpoint classify (args : list pystr) : option (list (pystr * token)) :=
  match args with
  | [] => Some []
  | s :: args' =>
      if str_eqb s $"--" then Some ((s, Dashes) :: map (λ v, (v, Value)) args')
      else match parse_optional s, classify args' with
           | Some t, Some ts => Some ((s, t) :: ts)
           | _, _ => None
           end
  end.

(** The action of an option on its value; [int] refuses some texts. *)
Definition store (a : option_action) (v : pystr) (o : options) : option options :=
  match a with
  | Host => Some (Options v (o_port o) (o_db o) (o_irreversible o) (o_auto_approve o))
  | Port =>
      match py_int 10 v with
      | Some n => Some (Options (o_host o) n (o_db o) (o_irreversible o) (o_auto_approve o))
      | None => None
      end
  | Db => Some (Options (o_host o) (o_port o) v (o_irreversible o) (o_auto_approve o))
  | Irreversible =>
      Some (Options (o_host o) (o_port o) (o_db o) (o_irreversible o ++ [v]) (o_auto_approve o))
  | Help | AutoApprove => None
  end.

Definition approve_all (o : options) : options :=
  Options (o_host o) (o_port o) (o_db o) (o_irreversible o) true.

(** [_parse_known_args] over the classified arguments; [extras] tells whether
    there is an argument no option takes. *)
Fixpoint consume_args (ts : list (pystr * token)) (o : options) (extras : bool) : option options :=
  match ts with
  | [] => if extras then None else Some o
  | (_, Opt (Some Help) _) :: _ => None
  | (_, Opt (Some AutoApprove) None) :: ts' => consume_args ts' (approve_all o) extras
  | (_, Opt (Some AutoApprove) (Some _)) :: _ => None
  | (_, Opt (Some a) (Some v)) :: ts' =>
      match store a v o with Some o' => consume_args ts' o' extras | None => None end
  | (_, Opt (Some a) None) :: (v, Value) :: ts' =>
      match store a v o with Some o' => consume_args ts' o' extras | None => None end
  | (_, Opt (Some _) None) :: _ => None
  | _ :: ts' => consume_args ts' o true
  end.

(** [build_parser().parse_args(raw_args)]: the [dev] command takes every
    argument after its name; anything else in front of it is help. *)
Definition parse_args (raw : list pystr) : option options :=
  match raw with
  | command :: args =>
      if str_eqb command $"dev" then
        match classify args with Some ts => consume_args ts default_options false | None => None end
      else None
  | [] => None
  end.
End parser.
End Cli.

(** ** The command line: what holds of it *)

From S2P Require Import PyFacts Framing FramingFacts.
Import Cli.

Section cli.
Variable is_decimal : Z → bool.
Abbreviation parse_optional := (parse_optional is_decimal).
Abbreviation classify := (classify is_decimal).
Abbreviation parse_args := (parse_args is_decimal).











(** ** Command lines *)









End cli.

Definition ascii_digit (c : Z) : bool := (48 <=? c) && (c <=? 57).





(** Ambiguous prefixes, attached values of flags and stray arguments are
    refused; unique prefixes are not. *)
Lemma command_line_examples :
  parse_args ascii_digit [ $"dev"; $"--h"; $"x" ] = None ∧
  parse_args ascii_digit [ $"dev"; $"--auto-approve=yes" ] = None ∧
  parse_args ascii_digit [ $"dev"; $"stray" ] = None ∧
  parse_args ascii_digit [ $"dev"; $"--host"; $"--po" ] = None ∧
  parse_args ascii_digit [ $"dev"; $"--ho=h"; $"--po"; $" 80 " ] =
    Some (Options $"h" 80 DEFAULT_DB_PATH [] false).
Proof. split_and!; vm_compute; reflexivity. Qed.
