(* ===== verification/Attributes.v ===== *)
(** * The attributes of the facades
    ([WrappedGraph], [WrappedCrew], [WrappedIndex], [WrappedKernel])

    A facade is a Python object: the dictionary [__init__] fills, the properties
    and methods of its class, and a [__getattr__] for the names that are found
    nowhere else, which delegates the public ones to the framework object.
    [getattr] follows Python's rule: properties first, then the instance's
    dictionary, then the other attributes of the class, and [__getattr__] when
    that fails, also when it is a property that raises [AttributeError].
    [self._crew] inside these methods is an attribute lookup of its own, so the
    recursion is bounded by fuel; running out of it is Python's
    [RecursionError]. *)

From S2P Require Import Prelude Py Json Errors Client Tool Instrument LangGraph Facade Crew.
Open Scope Z_scope.
Open Scope undolog_scope.

Module Attributes.

(** What an attribute holds; [Obj] are the framework's objects. *)
Inductive attr_value (Obj : Type) :=
| AObject (o : Obj)
| AText (s : pystr)
| ANone
| AInt (n : Z)
| ABool (b : bool)
| ADict (d : list (pystr * json))
| ATiers (t : list (pystr * ToolTier))
| ACompensations (c : list (pystr * pystr))
| AClient (c : client_config)
| AMethod (name : pystr).
Arguments AObject {Obj}.
Arguments AText {Obj}.
Arguments ANone {Obj}.
Arguments AInt {Obj}.
Arguments ABool {Obj}.
Arguments ADict {Obj}.
Arguments ATiers {Obj}.
Arguments ACompensations {Obj}.
Arguments AClient {Obj}.
Arguments AMethod {Obj}.

(** A class: the attribute its [__getattr__] delegates to, the properties with
    the attribute each returns, and the methods. *)
Record facade_class := FacadeClass {
  fk_wrapped : pystr;
  fk_properties : list (pystr * pystr);
  fk_methods : list pystr;
}.

Definition run_properties : list (pystr * pystr) :=
  [($"org_id", $"_org_id"); ($"session_id", $"_session_id"); ($"step_index", $"_step_index");
   ($"awaiting_approval", $"_awaiting_approval"); ($"approval_request", $"_approval_request")].

Definition WrappedCrew : facade_class :=
  FacadeClass $"_crew" run_properties [ $"__init__"; $"__getattr__"; $"kickoff_async" ].

Definition WrappedIndex : facade_class :=
  FacadeClass $"_index" run_properties
    [ $"__init__"; $"__getattr__"; $"aquery"; $"achat"; $"_run_with_session" ].

Definition WrappedKernel : facade_class :=
  FacadeClass $"_kernel" run_properties
    [ $"__init__"; $"__getattr__"; $"add_function"; $"add_functions"; $"_instrument"; $"invoke";
      $"invoke_prompt"; $"_reset_run"; $"_record_approval"; $"_open_session"; $"session"; $"_run_in_session" ].

Definition WrappedGraph : facade_class :=
  FacadeClass $"_graph" [($"org_id", $"_org_id")] [ $"__init__"; $"__getattr__"; $"ainvoke" ].

Section objects.
Context {Obj : Type}.
Abbreviation value := (attr_value Obj).

(** ** The dictionaries *)

Definition opt_text (o : option pystr) : value := match o with Some s => AText s | None => ANone end.

(** What the constructor stores, and the attributes a run updates. *)
Definition settings_attrs (st : Crew.settings) : list (pystr * value) :=
  [($"_org_id", AText (Crew.st_org st)); ($"_tiers", ATiers (Crew.st_tiers st));
   ($"_compensations", ACompensations (Crew.st_compensations st));
   ($"_client", match Crew.st_client st with Some c => AClient c | None => ANone end)].

Definition run_attrs (r : run_record) : list (pystr * value) :=
  [($"_session_id", opt_text (rr_session_id r)); ($"_step_index", AInt (rr_step_index r));
   ($"_awaiting_approval", ABool (rr_awaiting r));
   ($"_approval_request", match rr_request r with Some d => ADict d | None => ANone end)].

Definition crew_attrs (crew : Obj) (st : Crew.settings) (r : run_record) : list (pystr * value) :=
  ($"_crew", AObject crew) :: settings_attrs st ++ run_attrs r.

Definition index_attrs (index : Obj) (st : Crew.settings) (multi_turn : bool) (r : run_record)
    : list (pystr * value) :=
  ($"_index", AObject index) :: settings_attrs st ++ ($"_multi_turn", ABool multi_turn) :: run_attrs r.

Definition kernel_attrs (kernel : Obj) (st : Crew.settings) (r : run_record) : list (pystr * value) :=
  ($"_kernel", AObject kernel) :: settings_attrs st ++ run_attrs r.

Definition graph_attrs (graph : Obj) (org_id : pystr) (raise_interrupt : bool) : list (pystr * value) :=
  [($"_graph", AObject graph); ($"_org_id", AText org_id); ($"_raise_interrupt", ABool raise_interrupt)].

(** ** Lookup *)

(** [getattr] on the value an attribute holds, and what every object has. An
    exception is the name that was not found. *)
Variable getattr_value : value → pystr → pystr + value.
Variable object_attrs : list (pystr * value).
Variable k : facade_class.

(** [__getattr__], given how to look up the attributes of [self]. *)
Definition getattr_hook (self : pystr → option (pystr + value)) (name : pystr) : option (pystr + value) :=
  if startswith name $"_" then Some (inl name)
  else match self (fk_wrapped k) with
       | Some (inr v) => Some (getattr_value v name)
       | r => r
       end.

Fixpoint getattr (fuel : nat) (d : list (pystr * value)) (name : pystr) : option (pystr + value) :=
  match fuel with
  | O => None
  | S n =>
      let missing := getattr_hook (getattr n d) name in
      match dict_get name (fk_properties k) with
      | Some field =>
          match getattr n d field with
          | Some (inl _) => missing
          | r => r
          end
      | None =>
          match dict_get name d with
          | Some v => Some (inr v)
          | None =>
              if existsb (str_eqb name) (fk_methods k) then Some (inr (AMethod name))
              else match dict_get name object_attrs with
                   | Some v => Some (inr v)
                   | None => missing
                   end
          end
      end
  end.
End objects.
End Attributes.

(** ** Attribute lookup on the facades *)

From S2P Require Import PyFacts.
Import Attributes.

Definition private (name : pystr) : bool := startswith name $"_".

(** What the classes have in common: the attributes behind a facade's public
    names are private, and private names are not properties. *)
Definition guarded (k : facade_class) : bool :=
  private (fk_wrapped k) && forallb (λ p, private p.2 && negb (private p.1)) (fk_properties k).

Lemma facades_guarded : Forall (λ k, guarded k = true) [WrappedCrew; WrappedIndex; WrappedKernel; WrappedGraph].
Proof. repeat constructor. Qed.

Lemma dict_get_in {A} k (v : A) d : dict_get k d = Some v → In (k, v) d.
Proof.
  induction d as [|[k' w] d IH]; cbn [dict_get]; [done|].
  destruct (str_eqb k k') eqn:E; [|right; auto]. apply str_eqb_eq in E as ->. intros [= ->]. by left.
Qed.

Section lookup.
Context {Obj : Type}.
Variable getattr_value : attr_value Obj → pystr → pystr + attr_value Obj.
Variable object_attrs : list (pystr * attr_value Obj).
Variable k : facade_class.
Hypothesis k_guarded : guarded k = true.
Implicit Types (d : list (pystr * attr_value Obj)) (name : pystr).
Abbreviation getattr := (getattr getattr_value object_attrs k).

Lemma wrapped_private : private (fk_wrapped k) = true.
Proof. by apply andb_prop in k_guarded as [? _]. Qed.

Lemma property_names name field :
  dict_get name (fk_properties k) = Some field → private field = true ∧ private name = false.
Proof.
  apply andb_prop in k_guarded as [_ H]. intros Hn%dict_get_in.
  rewrite forallb_forall in H. specialize (H (name, field) Hn).
  apply andb_prop in H as [? ?%negb_true_iff]. done.
Qed.

(** What the facade itself has under a name that is not a property. *)
Definition own d name : option (attr_value Obj) :=
  match dict_get name d with
  | Some v => Some v
  | None => if existsb (str_eqb name) (fk_methods k) then Some (AMethod name)
            else dict_get name object_attrs
  end.

Lemma getattr_step n d name :
  getattr (S n) d name =
    match dict_get name (fk_properties k) with
    | Some field =>
        match getattr n d field with
        | Some (inl _) => getattr_hook getattr_value k (getattr n d) name
        | r => r
        end
    | None =>
        match own d name with
        | Some v => Some (inr v)
        | None => getattr_hook getattr_value k (getattr n d) name
        end
    end.
Proof.
  unfold own. cbn [Attributes.getattr]. destruct (dict_get name (fk_properties k)); [done|].
  destruct (dict_get name d); [done|]. by destruct (existsb _ _).
Qed.

(** A private name is found on the facade or not at all. *)
Lemma getattr_private n d name :
  private name = true →
  getattr (S n) d name = Some (match own d name with Some v => inr v | None => inl name end).
Proof.
  intros Hp. rewrite getattr_step.
  destruct (dict_get name (fk_properties k)) as [field|] eqn:Ef.
  { apply property_names in Ef as [_ ?]. congruence. }
  destruct (own d name); [done|]. unfold getattr_hook, private in *. by rewrite Hp.
Qed.

Lemma hook_public n d name :
  private name = false →
  getattr_hook getattr_value k (getattr (S n) d) name =
    Some (match own d (fk_wrapped k) with
          | Some v => getattr_value v name
          | None => inl (fk_wrapped k)
          end).
Proof.
  intros Hp. unfold getattr_hook, private in *. rewrite Hp, getattr_private by apply wrapped_private.
  by destruct (own d (fk_wrapped k)).
Qed.

(** The attribute a public name stands for. *)
Definition resolve d name : pystr + attr_value Obj :=
  let delegated := match own d (fk_wrapped k) with
                   | Some v => getattr_value v name
                   | None => inl (fk_wrapped k)
                   end in
  match dict_get name (fk_properties k) with
  | Some field => match own d field with Some v => inr v | None => delegated end
  | None =>
      match own d name with
      | Some v => inr v
      | None => if private name then inl name else delegated
      end
  end.

(** Two nested lookups are enough on every instance: [__getattr__] never calls
    itself for ever, also before [__init__] has stored anything. *)
Lemma getattr_resolves n d name : getattr (S (S n)) d name = Some (resolve d name).
Proof.
  destruct (private name) eqn:Hp.
  - rewrite getattr_private by done. unfold resolve.
    destruct (dict_get name (fk_properties k)) eqn:Ef.
    { apply property_names in Ef as [_ ?]. congruence. }
    rewrite Hp. by destruct (own d name).
  - rewrite getattr_step. unfold resolve.
    destruct (dict_get name (fk_properties k)) as [field|] eqn:Ef.
    + apply property_names in Ef as [Hf _]. rewrite getattr_private by done.
      destruct (own d field); [done|]. by apply hook_public.
    + destruct (own d name); [done|]. rewrite Hp. by apply hook_public.
Qed.
End lookup.

Section facades.
Context {Obj : Type}.
Variable getattr_value : attr_value Obj → pystr → pystr + attr_value Obj.
Variable object_attrs : list (pystr * attr_value Obj).

(** The five properties of a facade with the record of its last run. *)
Definition run_value (org : pystr) (r : run_record) (name : pystr) : option (attr_value Obj) :=
  dict_get name
    [($"org_id", AText org); ($"session_id", opt_text (rr_session_id r));
     ($"step_index", AInt (rr_step_index r)); ($"awaiting_approval", ABool (rr_awaiting r));
     ($"approval_request", match rr_request r with Some d => ADict d | None => ANone end)].

(** What a facade answers for a name: its properties read the record of the
    run, its methods are its own, other public names are the framework
    object's, and a private name that nothing defines is not delegated. *)
Definition answers (k : facade_class) (o : Obj) (props : pystr → option (attr_value Obj))
    (d : list (pystr * attr_value Obj)) : Prop :=
  ∀ name n, getattr getattr_value object_attrs k (S (S n)) d name = Some (
    match props name with
    | Some v => inr v
    | None =>
        match own object_attrs k d name with
        | Some v => inr v
        | None => if private name then inl name else getattr_value (AObject o) name
        end
    end).

Lemma facade_answers k o props d :
  guarded k = true → own object_attrs k d (fk_wrapped k) = Some (AObject o) →
  (∀ name, match dict_get name (fk_properties k) with
           | Some field => own object_attrs k d field = props name ∧ is_Some (props name)
           | None => props name = None
           end) →
  answers k o props d.
Proof.
  intros Hk Hw Hp name n. rewrite getattr_resolves by done. unfold resolve. rewrite Hw.
  specialize (Hp name). destruct (dict_get name (fk_properties k)) as [field|].
  - destruct Hp as [-> [v ->]]. done.
  - by rewrite Hp.
Qed.

Ltac answers_tac :=
  apply facade_answers; [reflexivity|reflexivity|];
  let name := fresh "name" in
  intros name; unfold run_value; cbn [WrappedCrew WrappedIndex WrappedKernel WrappedGraph fk_properties run_properties dict_get];
  repeat (destruct (str_eqb name _); [split; [reflexivity|by eexists]|]); reflexivity.

(** The facades answer as documented in every state of theirs: on a new facade
    and after any run, [org_id], [session_id], [step_index],
    [awaiting_approval] and [approval_request] are the configuration and the
    record of the last run, and every other public attribute is the framework
    object's. *)
Theorem facade_attributes_resolve o st mt r ri :
  answers WrappedCrew o (run_value (Crew.st_org st) r) (crew_attrs o st r) ∧
  answers WrappedIndex o (run_value (Crew.st_org st) r) (index_attrs o st mt r) ∧
  answers WrappedKernel o (run_value (Crew.st_org st) r) (kernel_attrs o st r) ∧
  answers WrappedGraph o (λ name, dict_get name [($"org_id", AText (Crew.st_org st))])
    (graph_attrs o (Crew.st_org st) ri).
Proof. split_and!; answers_tac. Qed.

(** C33: attribute lookup on a facade always ends. Whatever its instance
    dictionary holds, also before [__init__] has run, as when an instance is
    copied or unpickled, no name makes [__getattr__] and the properties call
    each other for ever: two nested lookups are enough, and more fuel gives the
    same answer. An instance without its framework object answers every public
    name it does not have itself with [AttributeError]. *)
Theorem facade_lookups_end d name n k :
  In k [WrappedCrew; WrappedIndex; WrappedKernel; WrappedGraph] →
  getattr getattr_value object_attrs k (S (S n)) d name = Some (resolve getattr_value object_attrs k d name) ∧
  (own object_attrs k d (fk_wrapped k) = None → own object_attrs k d name = None →
   dict_get name (fk_properties k) = None →
   ∃ missing, getattr getattr_value object_attrs k (S (S n)) d name = Some (inl missing)).
Proof.
  intros Hk. pose proof facades_guarded as Hg. rewrite Forall_forall in Hg.
  specialize (Hg k (proj2 (list_elem_of_In _ _) Hk)). cbv beta in Hg.
  rewrite getattr_resolves by done. split; [done|]. intros Hw Hn Hp. unfold resolve.
  rewrite Hw, Hn, Hp. destruct (private name); by eexists.
Qed.
End facades.

(** An instance that [copy] has just made has no attributes yet: asking it for
    [__setstate__] or for a method of the graph fails at once. *)
Lemma facade_lookups_end_witness :
  getattr (λ (_ : attr_value ()) name, inr (AMethod name)) [] WrappedGraph 2 [] $"__setstate__" =
    Some (inl $"__setstate__") ∧
  ∃ missing, getattr (λ (_ : attr_value ()) name, inr (AMethod name)) [] WrappedGraph 2 [] $"astream" =
    Some (inl missing).
Proof.
  split.
  - exact (proj1 (facade_lookups_end (λ (_ : attr_value ()) name, inr (AMethod name)) [] []
      $"__setstate__" 0 WrappedGraph ltac:(cbn; auto))).
  - exact (proj2 (facade_lookups_end (λ (_ : attr_value ()) name, inr (AMethod name)) [] []
      $"astream" 0 WrappedGraph ltac:(cbn; auto)) eq_refl eq_refl eq_refl).
Defined.
