(* ===== verification/Dashboard.v ===== *)
(** * The event dashboard ([examples/langchain-support-agent/sse_dashboard.py])

    A consumer of the [/events] stream: [connect] reads the response line by
    line and passes every event to a callback, by default [display_event],
    which prints one line per event. The lines are those of the HTTP library's
    [aiter_lines]; its verdict on a status code is an argument. *)

From S2P Require Import Prelude Py Json Errors.
Open Scope Z_scope.
Open Scope undolog_scope.

Module Dashboard.

(** [Event]. The fields come from decoded JSON and can have any type. *)
Record event := Event {
  type : pystr;
  timestamp : json;
  org_id : json;
  session_id : json;
  effect_id : json;
  approval_id : json;
  payload : json;
}.

(** [_EVENT_ICONS]. *)
Definition EVENT_ICONS : list (pystr * pystr) :=
  [($"effect_intercepted", $"  >");
   ($"effect_executed", $"  >");
   ($"effect_committed", $"  OK");
   ($"effect_replayed", $"  >>");
   ($"effect_failed", $"  ERR");
   ($"approval_required", $"  !");
   ($"approval_approved", $"  YES");
   ($"approval_rejected", $"  NO")].

(** What ends a subscription. [DSlice] is a [dict] indexed by a slice: a
    [TypeError] or, from Python 3.12 on, a [KeyError]. *)
Inductive dash_exc :=
| DAttribute
| DType
| DSlice
| DLoads (e : pyexc)
| DStatus (status : Z)
| DRequest (text : pystr).

Definition is_dash (v : json) : bool := match v with JStr s => str_eqb s $"-" | _ => false end.

(** [_short_id]. *)
Definition short_id (raw : json) : dash_exc + json :=
  match raw with
  | JStr s =>
      inr (JStr (match cut_at 45 s with (first, Some _) => first | (_, None) => take 8 s end))
  | JArr l => if existsb is_dash l then inl DAttribute else inr (JArr (take 8 l))
  | JObj d => match dict_get $"-" d with Some _ => inl DAttribute | None => inl DSlice end
  | _ => inl DType
  end.

Section display.
(** [str] of a value that is not a string. *)
Variable py_str : json → pystr.

Definition format_text (v : json) : pystr := match v with JStr s => s | _ => py_str v end.

(** [event.timestamp[11:23] if len(event.timestamp) > 23 else event.timestamp]. *)
Definition clock_text (timestamp : json) : dash_exc + json :=
  match timestamp with
  | JStr s => inr (JStr (if (23 <? length s)%nat then take 12 (drop 11 s) else s))
  | JArr l => inr (JArr (if (23 <? length l)%nat then take 12 (drop 11 l) else l))
  | JObj d => if (23 <? length d)%nat then inl DSlice else inr timestamp
  | _ => inl DType
  end.

Definition shorten (v : json) : dash_exc + json :=
  if truthy v then short_id v else inr (JStr []).

Definition part (label : pystr) (v : json) : list pystr :=
  if truthy v then [label ++ format_text v] else [].

(** The line [display_event] prints. *)
Definition display_event (e : event) : dash_exc + pystr :=
  let icon := default $"  ?" (dict_get (type e) EVENT_ICONS) in
  ts ← clock_text (timestamp e);
  session ← shorten (session_id e);
  effect ← shorten (effect_id e);
  approval ← shorten (approval_id e);
  inr (join $"  " ([ $"[" ++ format_text ts ++ $"]"; icon; $"org=" ++ format_text (org_id e)]
    ++ part $"sess=" session ++ part $"eff=" effect ++ part $"appr=" approval)).
End display.

Section connection.
Variable float_of_text : pystr → pyfloat.
(** [httpx]: whether [raise_for_status] accepts a status. *)
Variable is_success : Z → bool.
(** The fallback [self._org_id]. *)
Variable own_org : pystr.

(** The callback acts on a state of its own, and can raise. *)
Context {S : Type}.
Variable callback : event → S → (dash_exc + unit) * S.

Definition strip : pystr → pystr := strip_by is_uspace.

(** The [Event] built from a decoded envelope. *)
Definition event_of (event_type : pystr) (parsed : list (pystr * json)) : event :=
  let get k d := default d (dict_get k parsed) in
  Event event_type (get $"timestamp" (JStr [])) (get $"org_id" (JStr own_org))
    (get $"session_id" (JStr [])) (get $"effect_id" (JStr [])) (get $"approval_id" (JStr []))
    (get $"payload" (JObj [])).

(** The locals [event_type] and [data_lines]. *)
Abbreviation pending := (pystr * list pystr)%type.

(** The body of the loop over the lines, up to the callback: the new locals,
    and the event when the line completes one. *)
Definition on_line (line : pystr) (p : pending) : dash_exc + pending * option event :=
  let '(event_type, data_lines) := p in
  let stripped := strip line in
  if str_eqb stripped $": ping" then inr (p, None)
  else if startswith stripped $"event:" then inr ((strip (drop 6 stripped), data_lines), None)
  else if startswith stripped $"data:" then
    inr ((event_type, data_lines ++ [strip (drop 5 stripped)]), None)
  else
    match stripped, event_type, data_lines with
    | [], _ :: _, _ :: _ =>
        match loads float_of_text (concat data_lines) with
        | inl EJsonDecode => inr (([], []), None)
        | inl e => inl (DLoads e)
        | inr (JObj parsed) => inr (([], []), Some (event_of event_type parsed))
        | inr _ => inl DAttribute
        end
    | _, _, _ => inr (p, None)
    end.

(** The loop; it ends with the stream. *)
Fixpoint consume (lines : list pystr) (p : pending) (s : S) : (dash_exc + unit) * S :=
  match lines with
  | [] => (inr (), s)
  | line :: lines =>
      match on_line line p with
      | inl e => (inl e, s)
      | inr (p', None) => consume lines p' s
      | inr (p', Some ev) =>
          match callback ev s with
          | (inl e, s') => (inl e, s')
          | (inr _, s') => consume lines p' s'
          end
      end
  end.

(** How the request for the stream goes: refused by the network, or answered
    with a status and lines until the stream ends or the network fails. *)
Inductive stream :=
| Unreachable (text : pystr)
| Answered (status : Z) (lines : list pystr) (broken : option pystr).

(** [SSEConnection.connect]. *)
Definition connect (r : stream) (s : S) : (dash_exc + unit) * S :=
  match r with
  | Unreachable text => (inl (DRequest text), s)
  | Answered status lines broken =>
      if is_success status then
        match consume lines ([], []) s, broken with
        | (inr _, s'), Some text => (inl (DRequest text), s')
        | out, _ => out
        end
      else (inl (DStatus status), s)
  end.
End connection.

(** ** The connection object *)

(** An [httpx.AsyncClient]; leaving its [async with] closes it. *)
Inductive http_client := ClientOpen | ClientClosed.

Record sse_connection := SSEConnection_ {
  sc_org_id : pystr;
  sc_api_key : pystr;
  sc_proxy_url : pystr;
  sc_client : option http_client;
}.

(** [SSEConnection(org_id, api_key, proxy_url)]. *)
Definition SSEConnection (org_id api_key proxy_url : pystr) : sse_connection :=
  SSEConnection_ org_id api_key (reverse (lstrip_by (Z.eqb 47) (reverse proxy_url))) None.

(** The request [connect] makes. *)
Definition stream_request (c : sse_connection) : pystr * pystr * list (pystr * pystr) :=
  ($"GET", sc_proxy_url c ++ $"/events",
   [($"X-Api-Key", sc_api_key c); ($"Accept", $"text/event-stream")]).

Definition set_client (k : option http_client) (c : sse_connection) : sse_connection :=
  SSEConnection_ (sc_org_id c) (sc_api_key c) (sc_proxy_url c) k.

(** The object when [connect] returns or raises. *)
Definition after_connect (c : sse_connection) : sse_connection := set_client (Some ClientClosed) c.

(** [SSEConnection.close]. *)
Definition close (c : sse_connection) : sse_connection :=
  match sc_client c with Some _ => set_client None c | None => c end.

(** ** [run_dashboard] *)

Section dashboard.
Variable float_of_text : pystr → pyfloat.
Variable is_success : Z → bool.
Variable py_str : json → pystr.

(** The default callback, on the lines printed so far. *)
Definition print_event (e : event) (console : list pystr) : (dash_exc + unit) * list pystr :=
  match display_event py_str e with
  | inl x => (inl x, console)
  | inr line => (inr (), console ++ [line])
  end.

(** [_run]: a network error is logged, any other exception ends the task. *)
Definition run_one (label : pystr) (r : stream) (console : list pystr)
    : (dash_exc + unit) * list pystr :=
  match connect float_of_text is_success label print_event r
          (console ++ [$"  SSE connected : " ++ label]) with
  | (inl (DRequest _), console') => (inr (), console')
  | out => out
  end.

(** The tasks, each with the lines it prints itself; [gather] collects their
    results, and [run_dashboard] drops them. *)
Definition run_dashboard (org_ids : list (pystr * pystr)) (streams : list stream)
    : list ((dash_exc + unit) * list pystr) :=
  zip_with (λ org r, run_one org.1 r []) org_ids streams.
End dashboard.
End Dashboard.
