(* ===== verification/DashboardTheorems.v ===== *)
(** * The dashboard against the development server

    What the server writes on an event stream is what the dashboard's callback
    receives: one [Event] per envelope, in order, heartbeats in between left
    out. *)

From S2P Require Import Prelude Py PyFacts Json Canonical JsonRead Signature CanonicalParse JsonRoundtrip.
From S2P Require Import Broadcaster Framing World DevHandler Errors Dashboard.
Open Scope Z_scope.
Open Scope undolog_scope.
Import Dashboard.

(** ** Stripping *)

(** Text without white space at either end. *)
Definition tight (s : pystr) : Prop :=
  ∃ c r t d, s = c :: r ∧ s = t ++ [d] ∧ is_uspace c = false ∧ is_uspace d = false.

Lemma strip_tight s : tight s → strip s = s.
Proof.
  intros (c & r & t & d & E1 & E2 & Hc & Hd). unfold strip, strip_by.
  assert (lstrip_by is_uspace s = s) as -> by (rewrite E1; simpl; by rewrite Hc).
  rewrite E2 at 1. rewrite reverse_app. simpl. rewrite Hd.
  rewrite <-(reverse_involutive s), E2, reverse_app. done.
Qed.

Lemma strip_space s : strip (32 :: s) = strip s.
Proof. done. Qed.

(** Printable characters other than the space. *)
Definition visible (c : Z) : Prop := 33 ≤ c ≤ 126.

Lemma visible_not_space c : visible c → is_uspace c = false.
Proof.
  unfold visible. intros Hc. unfold is_uspace, is_space.
  repeat (apply orb_false_iff; split); rewrite ?andb_false_iff, ?Z.eqb_neq, ?Z.leb_gt; lia.
Qed.

Lemma visible_tight c s t d : visible c → visible d → c :: s = t ++ [d] → tight (c :: s).
Proof. intros Hc Hd E. exists c, s, t, d. split_and!; auto using visible_not_space. Qed.

(** A prefix of visible first character before tight text. *)
Lemma tight_prefix c p s : visible c → tight s → tight (c :: p ++ s).
Proof.
  intros Hc (? & ? & t & d & _ & E & _ & Hd). exists c, (p ++ s), (c :: p ++ t), d.
  split_and!; [done| |by apply visible_not_space|done]. rewrite E. simpl. by rewrite <-app_assoc.
Qed.

Lemma visible_word s : s ≠ [] → Forall visible s → tight s.
Proof.
  intros Hne Hs. destruct s as [|c r]; [done|].
  destruct (exists_last (l := c :: r)) as (t & d & E); [done|]. pose proof (Forall_inv Hs) as Hc.
  eapply (visible_tight c r t d); [done| |done]. rewrite E in Hs.
  by apply Forall_app in Hs as [_ [Hd _]%Forall_cons].
Qed.

Lemma object_tight d : tight (dumps (JObj d)).
Proof.
  cbn [dumps]. eexists 123, _, _, 125. split; [reflexivity|]. split; [|done].
  by rewrite (app_assoc [123]).
Qed.

Lemma digits_tight n : tight (str_of_int n).
Proof.
  apply visible_word.
  - destruct (int_first n) as (c & t & -> & _). done.
  - unfold str_of_int.
    assert (∀ m, 0 ≤ m → Forall visible (to_digits 10 m)) as Hd.
    { intros m Hm. rewrite Forall_forall. intros x Hx. apply decimal_chars in Hx; [|done].
      unfold visible. lia. }
    case_match eqn:E; bool_to_prop; [constructor; [done|]|]; apply Hd; lia.
Qed.

Section lines.
Variable float_of_text : pystr → pyfloat.
Variable own_org : pystr.
Abbreviation on_line := (on_line float_of_text own_org).
Abbreviation event_of := (event_of own_org).
Abbreviation portable := (portable float_of_text).

(** ** Lines of a frame *)

Lemma on_ping p : on_line $": ping" p = inr (p, None).
Proof. by destruct p. Qed.

Lemma on_blank_idle : on_line [] ([], []) = inr (([], []), None).
Proof. done. Qed.

Lemma on_event t et ds : tight t → on_line ($"event: " ++ t) (et, ds) = inr ((t, ds), None).
Proof.
  intros Ht. unfold Dashboard.on_line.
  change ($"event: " ++ t) with (101 :: $"vent: " ++ t). rewrite strip_tight by (by apply tight_prefix).
  change (str_eqb (101 :: $"vent: " ++ t) $": ping") with false.
  change (startswith (101 :: $"vent: " ++ t) $"event:") with true. cbv iota.
  change (drop 6 (101 :: $"vent: " ++ t)) with (32 :: t). by rewrite strip_space, strip_tight.
Qed.

Lemma on_id n et ds : on_line ($"id: " ++ str_of_int n) (et, ds) = inr ((et, ds), None).
Proof.
  unfold Dashboard.on_line.
  change ($"id: " ++ str_of_int n) with (105 :: $"d: " ++ str_of_int n).
  rewrite strip_tight by (apply tight_prefix, digits_tight; done). done.
Qed.

Lemma on_data t et ds : tight t → on_line ($"data: " ++ t) (et, ds) = inr ((et, ds ++ [t]), None).
Proof.
  intros Ht. unfold Dashboard.on_line.
  change ($"data: " ++ t) with (100 :: $"ata: " ++ t). rewrite strip_tight by (by apply tight_prefix).
  change (str_eqb (100 :: $"ata: " ++ t) $": ping") with false.
  change (startswith (100 :: $"ata: " ++ t) $"event:") with false.
  change (startswith (100 :: $"ata: " ++ t) $"data:") with true. cbv iota.
  change (drop 5 (100 :: $"ata: " ++ t)) with (32 :: t). by rewrite strip_space, strip_tight.
Qed.

Lemma on_blank et d :
  et ≠ [] → portable (JObj d) = true →
  on_line [] (et, [dumps (JObj d)]) = inr (([], []), Some (event_of et d)).
Proof.
  intros Het Hd. unfold Dashboard.on_line. cbn [concat]. rewrite app_nil_r, loads_dumps by done.
  by destruct et.
Qed.

(** ** Frames *)

(** An envelope as [_emit] builds it: JSON the stream carries unchanged, under
    a type of visible characters. *)
Record envelope_ok (env : list (pystr * json)) : Prop := {
  env_portable : portable (JObj env) = true;
  env_type : ∃ t, dict_get $"type" env = Some (JStr t) ∧ t ≠ [] ∧ Forall visible t;
}.

(** The type and the body of the frame for an envelope. *)
Definition framed (alias : bool) (env : list (pystr * json)) : pystr * list (pystr * json) :=
  match dict_get $"type" env with
  | Some (JStr t) =>
      match (if alias then dict_get t STANDARD_EVENT_ALIASES else None) with
      | Some a => (a, dict_set $"type" (JStr a) env)
      | None => (t, env)
      end
  | _ => ([], env)
  end.

(** The event the callback receives for an envelope: the fields of the
    envelope, under the type the stream announces. *)
Definition shown (alias : bool) (env : list (pystr * json)) : event :=
  event_of (framed alias env).1 env.

(** The lines of a frame. *)
Definition frame_lines (alias : bool) (env : list (pystr * json)) (t : Z) : list pystr :=
  [ $"event: " ++ (framed alias env).1; $"id: " ++ str_of_int t;
    $"data: " ++ dumps (JObj (framed alias env).2); [] ].

Lemma alias_ok t a : dict_get t STANDARD_EVENT_ALIASES = Some a → a ≠ [] ∧ Forall visible a ∧ unpaired a = true.
Proof.
  unfold STANDARD_EVENT_ALIASES. cbn [dict_get]. intros H.
  repeat (case_match; [injection H as <-; split_and!; [done|repeat constructor; done|done]|]). done.
Qed.

Lemma portable_set k v d :
  unpaired k = true → portable v = true → portable (JObj d) = true →
  portable (JObj (dict_set k v d)) = true.
Proof.
  intros Hk Hv. cbn [JsonRoundtrip.portable]. rewrite !andb_true_iff, !bool_decide_eq_true.
  intros [Hnd Hd]. split.
  - clear Hd. induction d as [|[k' v'] d IH]; [apply NoDup_singleton|]. cbn [dict_set].
    cbn [fmap list_fmap fst] in *. apply NoDup_cons in Hnd as [Hk' Hnd].
    destruct (str_eqb k k') eqn:E; cbn [fmap list_fmap fst]; apply NoDup_cons; split; auto.
    apply str_eqb_neq in E. intros Hin. apply Hk'. clear -Hin E.
    induction d as [|[k1 v1] d IH]; cbn [dict_set fmap list_fmap fst] in *.
    + apply list_elem_of_singleton in Hin. congruence.
    + destruct (str_eqb k k1); [done|]. cbn [fmap list_fmap fst] in *.
      apply elem_of_cons in Hin as [->|Hin]; [left|right; auto].
  - clear Hnd. induction d as [|[k' v'] d IH]; cbn [dict_set forallb fst snd] in *.
    + by rewrite Hk, Hv.
    + apply andb_prop in Hd as [Hd1 Hd]. destruct (str_eqb k k'); cbn [forallb fst snd].
      * apply andb_prop in Hd1 as [-> _]. by rewrite Hv, Hd.
      * rewrite Hd1. by apply IH.
Qed.

Lemma framed_ok alias env :
  envelope_ok env →
  let '(t, body) := framed alias env in
  t ≠ [] ∧ Forall visible t ∧ portable (JObj body) = true.
Proof.
  intros [Hp (t & Ht & Hne & Hv)]. unfold framed. rewrite Ht.
  destruct (if alias then _ else None) as [a|] eqn:E; [|done].
  destruct alias; [|done]. apply alias_ok in E as (? & ? & ?).
  split_and!; [done..|]. by apply portable_set.
Qed.

Lemma framed_event alias env t : event_of t (framed alias env).2 = event_of t env.
Proof.
  unfold framed, Dashboard.event_of. destruct (dict_get _ env) as [[]|]; try done.
  destruct (if alias then _ else None); [|done]. cbn [snd]. by rewrite !dict_get_set_ne by done.
Qed.

Lemma format_frame alias env t :
  envelope_ok env →
  format_sse_frame env alias t = Some (frame_lines alias env t ≫= λ l, l ++ [10]).
Proof.
  intros [_ (ty & Ht & _)]. unfold format_sse_frame, frame_lines, framed. rewrite Ht.
  destruct (if alias then _ else None) as [a|]; cbn [fst snd mbind list_bind app];
    rewrite <-!app_assoc; cbn [app]; reflexivity.
Qed.

Lemma frame_printable alias env t : envelope_ok env → Forall (Forall printable) (frame_lines alias env t).
Proof.
  intros Hok. pose proof (framed_ok alias env Hok) as Hf. unfold frame_lines.
  destruct (framed alias env) as [ty body]. destruct Hf as (_ & Hv & Hp).
  rewrite !Forall_cons, !Forall_app. split_and!; try (by repeat constructor).
  - eapply Forall_impl; [exact Hv|]. unfold visible, printable. lia.
  - apply str_of_int_printable.
  - by eapply dumps_printable.
Qed.

(** ** Streams *)

Section stream.
Context {S : Type}.
Variable callback : event → S → (dash_exc + unit) * S.
Abbreviation consume := (consume float_of_text own_org callback).

(** The callback on a list of events, until it raises. *)
Fixpoint deliver (evs : list event) (s : S) : (dash_exc + unit) * S :=
  match evs with
  | [] => (inr (), s)
  | ev :: evs =>
      match callback ev s with
      | (inl e, s') => (inl e, s')
      | (inr _, s') => deliver evs s'
      end
  end.

Lemma consume_frame alias env t lines s :
  envelope_ok env →
  consume (frame_lines alias env t ++ lines) ([], []) s =
    match callback (shown alias env) s with
    | (inl e, s') => (inl e, s')
    | (inr _, s') => consume lines ([], []) s'
    end.
Proof.
  intros Hok. pose proof (framed_ok alias env Hok) as Hf. unfold frame_lines, shown.
  rewrite <-(framed_event alias).
  destruct (framed alias env) as [ty body]. destruct Hf as (Hne & Hv & Hp). cbn [fst snd].
  cbn [app Dashboard.consume]. rewrite on_event by (by apply visible_word). cbn [Dashboard.consume].
  rewrite on_id. cbn [Dashboard.consume]. rewrite on_data by apply object_tight. cbn [Dashboard.consume app].
  by rewrite on_blank.
Qed.

(** What the server writes: heartbeats, and the frames of envelopes. *)
Inductive item := Beat | Sent (env : list (pystr * json)) (time : Z).

Definition item_lines (alias : bool) (x : item) : list pystr :=
  match x with Beat => [ $": ping"; [] ] | Sent env t => frame_lines alias env t end.

Definition item_env (x : item) : option (list (pystr * json)) :=
  match x with Beat => None | Sent env _ => Some env end.

Definition item_ok (x : item) : Prop := match x with Beat => True | Sent env _ => envelope_ok env end.

Lemma consume_items alias xs s :
  Forall item_ok xs →
  consume (xs ≫= item_lines alias) ([], []) s =
    deliver (shown alias <$> omap item_env xs) s.
Proof.
  intros Hxs. revert s. induction Hxs as [|x xs Hx Hxs IH]; intros s; [done|].
  rewrite bind_cons. destruct x as [|env t]; cbn [item_lines omap list_omap item_env].
  - cbn [app Dashboard.consume]. rewrite on_ping. cbn [Dashboard.consume]. rewrite on_blank_idle. apply IH.
  - rewrite consume_frame by done. cbn [fmap list_fmap deliver].
    destruct (callback _ s) as [[e|u] s']; [done|]. apply IH.
Qed.
End stream.
End lines.

(** ** The server's loop *)

Section served.
Variable uuid4_str utc_now_str : nat → pystr.
Variable time_ns_at : nat → Z.
Variable float_of_text : pystr → pyfloat.
Variable is_success : Z → bool.
Hypothesis success_2xx : ∀ st, 200 ≤ st < 300 → is_success st = true.

(** [httpx]'s [Response.aiter_lines] on the text of a response: lines ended by
    a line feed are returned without it. *)
Variable aiter_lines : pystr → list pystr.
Hypothesis aiter_lines_lf : ∀ ls, Forall (Forall printable) ls →
  aiter_lines (ls ≫= λ l, l ++ [10]) = ls.

(** What [_handle_events] writes in one round. *)
Definition written (o : stream_out) : pystr :=
  match o with
  | StreamPing => $": ping" ++ [10; 10]
  | StreamFrame f => f
  | StreamBadEnvelope | StreamEnd => []
  end.

(** The output of the loop for the items it sent. *)
Definition item_out (alias : bool) (x : item) : stream_out :=
  match x with
  | Beat => StreamPing
  | Sent env t => StreamFrame (frame_lines alias env t ≫= λ l, l ++ [10])
  end.

Lemma written_items alias (xs : list item) :
  (item_out alias <$> xs) ≫= written = (xs ≫= item_lines alias) ≫= λ l, l ++ [10].
Proof.
  induction xs as [|x xs IH]; [done|]. rewrite fmap_cons, !bind_cons, bind_app, IH. by destruct x.
Qed.

Lemma items_printable alias (xs : list item) :
  Forall (item_ok float_of_text) xs → Forall (Forall printable) (xs ≫= item_lines alias).
Proof.
  induction 1 as [|x xs Hx _ IH]; [constructor|]. rewrite bind_cons. apply Forall_app. split; [|done].
  destruct x; [|by eapply frame_printable]. cbn [item_lines]. rewrite !Forall_cons.
  split_and!; [by repeat constructor|by apply Forall_nil..].
Qed.

(** The queue of a subscriber: envelopes, then the shutdown mark when the hub
    was closed. *)
Definition queued (envs : list (list (pystr * json))) (closing : bool) : list (option json) :=
  ((λ env, Some (JObj env)) <$> envs) ++ (if closing then [None] else []).

Abbreviation run := (exec uuid4_str utc_now_str time_ns_at).

Lemma events_loop_sends alias i envs closing rounds w c :
  hub_queues (w_hub w) !! i = Some (queued envs closing) →
  Forall (envelope_ok float_of_text) envs → (length envs ≤ rounds)%nat →
  ∃ xs tail w', run (events_loop rounds alias i) w c = (inr ((item_out alias <$> xs) ++ tail), w', c) ∧
    tail ≫= written = [] ∧ Forall (item_ok float_of_text) xs ∧ omap item_env xs = envs.
Proof.
  revert envs w. induction rounds as [|n IH]; intros envs w Hq Hok Hl; cbn [events_loop].
  { destruct envs; [|simpl in Hl; lia]. rewrite exec_ret. by exists [], [], w. }
  rewrite exec_bind, exec_perform. cbn [run_op]. unfold sub_get. rewrite Hq.
  destruct Hok as [|env envs He Hok].
  - destruct closing; cbn [queued fmap list_fmap app].
    + rewrite exec_ret. by exists [], [StreamEnd], (set_hub (Hub (<[i:=[]]> (hub_queues (w_hub w)))
        (hub_subs (w_hub w)) (hub_closed (w_hub w)) (hub_next (w_hub w))) w).
    + rewrite exec_bind. destruct (IH [] (set_hub (w_hub w) w)) as (xs & tail & w' & E & Ht & Hx & Ho);
        [done|constructor|simpl; lia|].
      rewrite E, exec_ret. exists (Beat :: xs), tail, w'. split_and!; try done. by constructor.
  - cbn [queued fmap list_fmap app]. rewrite exec_bind, exec_perform. cbn [run_op].
    rewrite (format_frame float_of_text alias env) by done. cbv beta iota zeta. rewrite exec_bind.
    edestruct (IH envs) as (xs & tail & w' & E & Ht & Hx & Ho); [| |simpl in Hl; lia|];
      [|done|rewrite E, exec_ret; eexists (Sent env _ :: xs), tail, w'].
    + simpl. apply lookup_insert_eq.
    + split_and!; [reflexivity|done|by constructor|]. cbn [omap list_omap item_env]. by rewrite Ho.
Qed.

(** C17: a dashboard connected to the event stream receives the events of its
    subscription. Let the envelopes queued for it have a type of visible
    characters and fields that survive their JSON text: no string in which a
    high surrogate stands directly before a low one, no integer past the digit
    limit of CPython, and no float that [float] does not read back from its
    [repr]; let the loop make at least as many rounds as there are envelopes.
    Then the callback gets every one of them, in order and once each, as one
    event with the envelope's fields; heartbeats between the frames and the end
    of the stream leave no trace. The frames are the ones the server's loop
    writes, encoded by [json.dumps] and read back by [json.loads]. *)
Theorem dashboard_receives_the_stream {S} (callback : event → S → (dash_exc + unit) * S)
    own_org alias i envs closing rounds w c s :
  hub_queues (w_hub w) !! i = Some (queued envs closing) →
  Forall (envelope_ok float_of_text) envs → (length envs ≤ rounds)%nat →
  ∃ out w', run (events_loop rounds alias i) w c = (inr out, w', c) ∧
    connect float_of_text is_success own_org callback
      (Answered 200 (aiter_lines (out ≫= written)) None) s =
    deliver callback (shown own_org alias <$> envs) s.
Proof.
  intros Hq Hok Hl.
  destruct (events_loop_sends alias i envs closing rounds w c Hq Hok Hl)
    as (xs & tail & w' & E & Ht & Hx & Ho).
  eexists _, w'. split; [exact E|]. unfold connect. rewrite success_2xx by lia.
  rewrite bind_app, Ht, app_nil_r, written_items, aiter_lines_lf by (by eapply items_printable).
  rewrite consume_items by done. rewrite Ho. by destruct (deliver _ _ _) as [[]?].
Qed.
End served.

(** ** What is printed *)

Section printed.
Variable py_str : json → pystr.

(** The value of a key is text when there is one. *)
Definition text_field (k : pystr) (env : list (pystr * json)) : Prop :=
  match dict_get k env with Some (JStr _) | None => True | _ => False end.

(** An envelope whose clock and identifiers are text. *)
Record text_fields (env : list (pystr * json)) : Prop := {
  tf_timestamp : text_field $"timestamp" env;
  tf_session : text_field $"session_id" env;
  tf_effect : text_field $"effect_id" env;
  tf_approval : text_field $"approval_id" env;
}.

Lemma text_field_get k env : text_field k env → ∃ s, default (JStr []) (dict_get k env) = JStr s.
Proof. unfold text_field. destruct (dict_get k env) as [[]|]; try done; intros _; by eexists. Qed.

Lemma shorten_text s : ∃ t, shorten (JStr s) = inr (JStr t).
Proof. unfold shorten. destruct s; by eexists. Qed.

Lemma display_text own_org alias env :
  text_fields env → ∃ line, display_event py_str (shown own_org alias env) = inr line.
Proof.
  intros [Ht Hs He Ha]. unfold display_event, shown, event_of. cbn [timestamp session_id effect_id approval_id].
  destruct (text_field_get _ _ Ht) as [? ->], (text_field_get _ _ Hs) as [s ->],
    (text_field_get _ _ He) as [e ->], (text_field_get _ _ Ha) as [a ->].
  cbn [clock_text mbind res_bind]. destruct (shorten_text s) as [? ->], (shorten_text e) as [? ->],
    (shorten_text a) as [? ->]. by eexists.
Qed.

(** The line printed for an envelope. *)
Definition line_of (own_org : pystr) (alias : bool) (env : list (pystr * json)) : pystr :=
  match display_event py_str (shown own_org alias env) with inr line => line | inl _ => [] end.

Lemma deliver_prints own_org alias envs console :
  Forall text_fields envs →
  deliver (print_event py_str) (shown own_org alias <$> envs) console =
    (inr (), console ++ (line_of own_org alias <$> envs)).
Proof.
  intros H. revert console. induction H as [|env envs He H IH]; intros console; cbn.
  { by rewrite app_nil_r. }
  unfold print_event at 1, line_of. destruct (display_text own_org alias env He) as [line E].
  rewrite E, IH. by rewrite <-app_assoc.
Qed.

(** An identifier that is not text ends the subscription: the task raises
    before it prints. *)
Lemma numeric_session_ends_display own_org alias env n envs console :
  text_field $"timestamp" env → dict_get $"session_id" env = Some (JInt n) → n ≠ 0 →
  deliver (print_event py_str) (shown own_org alias <$> env :: envs) console = (inl DType, console).
Proof.
  intros Ht Hs Hn. cbn [fmap list_fmap deliver]. unfold print_event, display_event, shown, event_of.
  cbn [timestamp session_id]. rewrite Hs. destruct (text_field_get _ _ Ht) as [t ->].
  assert (shorten (JInt n) = inl DType) as E.
  { unfold shorten, truthy. by rewrite (proj2 (Z.eqb_neq n 0)). }
  cbn [clock_text mbind res_bind]. change (default (JStr []) (Some (JInt n))) with (JInt n).
  by rewrite E.
Qed.

(** A stream the server refuses ends its task with an exception nobody reports;
    the console says that the subscription is connected. *)
Lemma refused_stream_is_silent float_of_text is_success label status lines broken :
  is_success status = false →
  run_one float_of_text is_success py_str label (Answered status lines broken) [] =
    (inl (DStatus status), [ $"  SSE connected : " ++ label ]).
Proof. intros H. unfold run_one, connect. by rewrite H. Qed.
End printed.

(** ** Lines, concretely *)

(** The lines of text whose every line ends with a line feed. *)
Fixpoint split_lf (line : pystr) (s : pystr) : list pystr :=
  match s with
  | [] => []
  | c :: s' => if c =? 10 then line :: split_lf [] s' else split_lf (line ++ [c]) s'
  end.

Lemma split_lf_line line l rest :
  Forall printable l → split_lf line (l ++ 10 :: rest) = (line ++ l) :: split_lf [] rest.
Proof.
  intros Hl. revert line. induction Hl as [|c l Hc Hl IH]; intros line; cbn [app split_lf].
  - by rewrite app_nil_r.
  - rewrite (proj2 (Z.eqb_neq c 10)) by (unfold printable in Hc; lia). by rewrite IH, <-app_assoc.
Qed.

Lemma split_lf_lines ls :
  Forall (Forall printable) ls → split_lf [] (ls ≫= λ l, l ++ [10]) = ls.
Proof.
  induction 1 as [|l ls Hl _ IH]; [done|]. rewrite bind_cons, <-app_assoc. cbn [app].
  rewrite split_lf_line by done. by rewrite IH.
Qed.

(** ** The dashboard on a served call *)

From S2P Require Import Journal Demo.

Module DashboardExamples.
Import Dashboard.

(** A server with one subscriber that has handled a call held for approval. *)
Definition watched_world : world :=
  Eval vm_compute in Demo.after (Demo.serve Demo.gated_server Demo.call_rq
    (Demo.conn_of (Demo.call_body $"wire_money"))
    (World empty_db (subscribe empty_hub).2 0 0)).

(** The envelopes queued for the subscriber. *)
Definition envelopes (q : list (option json)) : list (list (pystr * json)) :=
  omap (λ x, match x with Some (JObj env) => Some env | _ => None end) q.

Definition watched_envs : list (list (pystr * json)) :=
  Eval vm_compute in envelopes (default [] (hub_queues (w_hub watched_world) !! 0%nat)).

Lemma watched_ok : Forall (envelope_ok Demo.float_of_text) watched_envs.
Proof.
  repeat constructor; try (vm_compute; reflexivity);
    (eexists; split; [vm_compute; reflexivity|]; split; [discriminate|]; repeat constructor; discriminate).
Defined.

Definition is_2xx (st : Z) : bool := (200 <=? st) && (st <? 300).

Lemma dashboard_receives_the_stream_witness :
  map (λ env, (default JNull (dict_get $"type" env))) watched_envs =
    [JStr $"effect_intercepted"; JStr $"approval_required"] ∧
  ∃ out w', exec Demo.uuid4_str Demo.utc_now_str Demo.time_ns_at (events_loop 4 false 0)
      watched_world (Demo.conn_of JNull) = (inr out, w', Demo.conn_of JNull) ∧
    connect Demo.float_of_text is_2xx $"org-alpha" (print_event Demo.py_str)
      (Answered 200 (split_lf [] (out ≫= written)) None) [] =
    (inr (), [ $"[0]    >  org=local  sess=00000000"; $"[2]    !  org=local  sess=00000000  eff=u1  appr=u0" ]).
Proof.
  split; [vm_compute; reflexivity|].
  destruct (dashboard_receives_the_stream Demo.uuid4_str Demo.utc_now_str Demo.time_ns_at
    Demo.float_of_text is_2xx
    ltac:(intros st Hst; unfold is_2xx; apply andb_true_iff; rewrite Z.leb_le, Z.ltb_lt; lia)
    (split_lf []) split_lf_lines (print_event Demo.py_str) $"org-alpha" false 0 watched_envs false 4
    watched_world (Demo.conn_of JNull) [] ltac:(vm_compute; reflexivity) watched_ok
    ltac:(vm_compute; lia)) as (out & w' & E & H).
  exists out, w'. split; [exact E|]. rewrite H. vm_compute. reflexivity.
Defined.
End DashboardExamples.
