(* ===== verification/ExampleTools.v ===== *)
(** * The shared support tools ([examples/example_tools])

    The four tools of [tools.py] post to a tool server and decode the [output]
    text of its answer; the handlers of [compensations.py] are functions of
    their arguments. What a POST comes to is the argument [http_post], a
    function of the state of the world outside the process. *)

From S2P Require Import Prelude Py Json Errors Client Tool.
Open Scope Z_scope.
Open Scope undolog_scope.

Module ExampleTools.

Abbreviation dict := (list (pystr * json)).

(** ** [tools.py] *)

(** [_get_tool_server_url]: the module's global and [MOCK_TOOL_SERVER_URL]. The
    result and the new value of the global. *)
Definition get_tool_server_url (env : option pystr) (cached : option pystr) : pystr * option pystr :=
  match cached with
  | Some url => (url, cached)
  | None => let url := default $"http://localhost:9091" env in (url, Some url)
  end.

(** What [_call_tool] and the bodies raise. *)
Inductive tool_exc :=
| TRequest (text : pystr)
| TStatus (status : Z)
| TBadJson
| TKey
| TType
| TLoads (e : pyexc)
| TAssertion (text : pystr)
| TRuntime (text : pystr).

(** The outcome of a POST: the exception of the HTTP library, or a status and
    the value of [resp.json()], [None] when the body is not JSON. *)
Inductive post_outcome :=
| PostError (text : pystr)
| PostReply (status : Z) (body : option json).

Section tools.
Context {S : Type}.
Variable http_post : pystr → json → S → post_outcome * S.
Variable is_success : Z → bool.
Variable float_of_text : pystr → pyfloat.
Variable server_url : pystr.

(** [json.loads(resp.json()["output"])]. *)
Definition decode_output (body : option json) : tool_exc + json :=
  match body with
  | None => inl TBadJson
  | Some (JObj d) =>
      match dict_get $"output" d with
      | None => inl TKey
      | Some (JStr text) =>
          match loads float_of_text text with inl e => inl (TLoads e) | inr v => inr v end
      | Some _ => inl TType
      end
  | Some _ => inl TType
  end.

(** [_call_tool]. *)
Definition call_tool (tool_name : pystr) (args : dict) (s : S) : (tool_exc + json) * S :=
  match http_post (server_url ++ $"/tools")
          (JObj [($"tool_name", JStr tool_name); ($"args", JObj args)]) s with
  | (PostError text, s') => (inl (TRequest text), s')
  | (PostReply status body, s') =>
      if is_success status then (decode_output body, s') else (inl (TStatus status), s')
  end.

(** The bodies; the arguments are those of the call. *)
Definition lookup_customer (customer_id : json) : S → (tool_exc + json) * S :=
  call_tool $"lookup_customer" [($"customer_id", customer_id)].

Definition send_email (to subject body : json) : S → (tool_exc + json) * S :=
  call_tool $"send_email" [($"to", to); ($"subject", subject); ($"body", body)].

Definition create_ticket (customer_id priority description : json) : S → (tool_exc + json) * S :=
  call_tool $"create_ticket"
    [($"customer_id", customer_id); ($"priority", priority); ($"description", description)].

Variable py_str : json → pystr.
Definition format_text (v : json) : pystr := match v with JStr s => s | _ => py_str v end.

Definition escalate_case (ticket_id reason : json) : S → (tool_exc + json) * S := λ s,
  (inl (TAssertion ($"escalate_case(" ++ format_text ticket_id ++ $", " ++ format_text reason ++ $")")), s).

(** A decorated tool: what [@undolog_tool] is given, the parameters of the
    function and its body on bound arguments. *)
Record example_tool := ExampleTool {
  et_tier : ToolTier;
  et_compensation : option CompensationDescriptor;
  et_params : list pystr;
  et_body : dict → S → (tool_exc + json) * S;
}.

Definition par (k : pystr) (args : dict) : json := default JNull (dict_get k args).

(** [get_tool_registry]. *)
Definition get_tool_registry : list (pystr * example_tool) :=
  [($"lookup_customer", ExampleTool SAFE None [ $"customer_id" ]
      (λ a, lookup_customer (par $"customer_id" a)));
   ($"send_email", ExampleTool COMPENSABLE
      (Some (new_compensation $"compensate_send_email"
         (Some [($"to", JStr $"{to}"); ($"subject", JStr $"{subject}")])))
      [ $"to"; $"subject"; $"body" ]
      (λ a, send_email (par $"to" a) (par $"subject" a) (par $"body" a)));
   ($"create_ticket", ExampleTool COMPENSABLE
      (Some (new_compensation $"compensate_create_ticket"
         (Some [($"ticket_id", JStr $"{ticket_id}")])))
      [ $"customer_id"; $"priority"; $"description" ]
      (λ a, create_ticket (par $"customer_id" a) (par $"priority" a) (par $"description" a)));
   ($"escalate_case", ExampleTool IRREVERSIBLE None [ $"ticket_id"; $"reason" ]
      (λ a, escalate_case (par $"ticket_id" a) (par $"reason" a)))].
End tools.

(** ** [compensations.py] *)

Definition get (args : dict) (k : pystr) (d : json) : json := default d (dict_get k args).

Definition compensate_send_email (args : dict) : dict :=
  let customer_email := get args $"to" (JStr $"unknown") in
  let original_subject := get args $"subject" (JStr []) in
  [($"status", JStr $"correction_sent"); ($"to", customer_email);
   ($"original_subject", original_subject)].

Definition compensate_create_ticket (args : dict) : dict :=
  let ticket_id := get args $"ticket_id" (JStr $"unknown") in
  [($"status", JStr $"ticket_closed"); ($"ticket_id", ticket_id)].

Definition compensate_assign_engineer (args : dict) : dict :=
  let ticket_id := get args $"ticket_id" (JStr $"unknown") in
  let engineer := get args $"engineer" (JStr $"unknown") in
  [($"status", JStr $"engineer_unassigned"); ($"ticket_id", ticket_id); ($"engineer", engineer)].

Definition compensate_escalate (args : dict) : dict :=
  let ticket_id := get args $"ticket_id" (JStr $"unknown") in
  let reason := get args $"reason" (JStr $"unknown") in
  [($"status", JStr $"escalation_reversed"); ($"ticket_id", ticket_id); ($"reason", reason)].

Definition compensate_charge_payment (args : dict) : dict :=
  let amount := get args $"amount" (JInt 0) in
  let currency := get args $"currency" (JStr $"unknown") in
  [($"status", JStr $"charge_reversed"); ($"amount", amount); ($"currency", currency)].
End ExampleTools.
