(* ===== verification/ExampleToolsTheorems.v ===== *)
(** * The support tools against the mock tool server

    [_call_tool] of the examples, served by the handler of the mock tool
    server: the request is decoded to the arguments, the handler runs once, and
    the text it answers is decoded to what the handler returned. *)

From S2P Require Import Prelude Py PyFacts Json Canonical JsonRead Signature CanonicalParse JsonRoundtrip.
From S2P Require Import Framing FramingFacts Errors Client Tool MockServer MockTheorems ExampleTools.
Open Scope Z_scope.
Open Scope undolog_scope.
Import Mock.

Section tools.
Variable sha256_hexdigest : bytes → pystr.
Variable uuid4_hex : nat → pystr.
Variable py_str py_repr : json → pystr.
Variable float_int : pyfloat → option Z.
Variable float_of_text : pystr → pyfloat.
Abbreviation portable := (portable float_of_text).
Hypothesis uuid4_printable : ∀ n, Forall printable (uuid4_hex n).

(** The HTTP library: the body it sends for [json=...] is JSON of the value,
    and [raise_for_status] accepts 200 and refuses 404. *)
Variable encode : json → bytes.
Variable is_success : Z → bool.
Hypothesis encode_decodes : ∀ v, portable v = true → loads_bytes float_of_text (encode v) = inr v.
Hypothesis success_2xx : ∀ st, 200 ≤ st < 300 → is_success st = true.
Hypothesis refused_404 : is_success 404 = false.
Variable server_url : pystr.

Abbreviation HANDLERS := (HANDLERS sha256_hexdigest uuid4_hex py_str py_repr float_int).
Abbreviation do_POST := (do_POST sha256_hexdigest uuid4_hex py_str py_repr float_int float_of_text).
Abbreviation dict := (list (pystr * json)).

(** The transport: one request to the server, whose answer is the text
    [json.dumps] gives; a handler that raises closes the connection. *)
Definition mock_post (url : pystr) (payload : json) (s : mock) : ExampleTools.post_outcome * mock :=
  let raw := encode payload in
  match do_POST (Post $"/tools" (Some (str_of_int (Z.of_nat (length raw)))) None raw) s with
  | (inl _, s') => (ExampleTools.PostError [], s')
  | (inr (status, v), s') =>
      (ExampleTools.PostReply status
         (match loads_bytes float_of_text (dumps v) with inr x => Some x | inl _ => None end), s')
  end.

Abbreviation call_tool := (ExampleTools.call_tool mock_post is_success float_of_text server_url).

Definition call_json (name : pystr) (args : dict) : dict :=
  [($"tool_name", JStr name); ($"args", JObj args)].

(** A call whose request the server can decode. *)
Definition sendable (name : pystr) (args : dict) : Prop :=
  portable (JObj args) = true ∧ Z.of_nat (length (encode (JObj (call_json name args)))) < 2 ^ 63.

Lemma handler_name n h : dict_get n HANDLERS = Some h → unpaired n = true.
Proof.
  unfold Mock.HANDLERS. cbn [dict_get].
  repeat (case_match eqn:E; [intros _; apply str_eqb_eq in E as ->; reflexivity|clear E]). done.
Qed.

(** The request reaches the handler of the tool. *)
Lemma post_runs name h args s :
  dict_get name HANDLERS = Some h → sendable name args →
  do_POST (Post $"/tools" (Some (str_of_int (Z.of_nat (length (encode (JObj (call_json name args)))))))
             None (encode (JObj (call_json name args)))) s =
    match h (JObj args) (add_call (JStr name) (JObj args) s) with
    | (inl e, s') => (inl e, s')
    | (inr result, s') => (inr (status_of result, JObj result), s')
    end.
Proof.
  intros Hh [Hp Hl]. assert (portable (JObj (call_json name args)) = true) as Hc.
  { apply portable_obj. split_and!; [by apply (bool_decide_unpack _)|by repeat constructor|].
    repeat constructor; [by eapply handler_name|done]. }
  rewrite (do_POST_decodes _ _ _ _ _ _ _ (call_json name args)).
  - unfold Mock.call_tool, mbind, H_bind, gets, modify, mret, H_ret, arg.
    change (dict_get $"tool_name" (call_json name args)) with (Some (JStr name)).
    change (dict_get $"args" (call_json name args)) with (Some (JObj args)).
    cbn [po_idempotency_key from_option id hashable]. rewrite Hh. by destruct (h _ _) as [[]].
  - split; [done|]. exists (encode (JObj (call_json name args))). split; [|by apply encode_decodes].
    unfold Mock.read_body. cbn [po_content_length po_stream default from_option id].
    rewrite py_int_str_of_int by lia. rewrite read_nonneg by lia. by rewrite Nat2Z.id, take_ge.
Qed.

Lemma ok_portable out : portable (JObj out) = true → portable (JObj (ok out)) = true.
Proof.
  intros Ho. apply portable_obj. split_and!; [by apply (bool_decide_unpack _)|by repeat constructor|].
  repeat constructor. by eapply portable_text, dumps_printable.
Qed.

(** What [_call_tool] gives for what the handler returned. *)
Lemma call_tool_ok name h args s out s' :
  dict_get name HANDLERS = Some h → sendable name args →
  h (JObj args) (add_call (JStr name) (JObj args) s) = (inr (ok out), s') →
  portable (JObj out) = true → call_tool name args s = (inr (JObj out), s').
Proof.
  intros Hh Hs E Ho. unfold ExampleTools.call_tool, mock_post.
  change [($"tool_name", JStr name); ($"args", JObj args)] with (call_json name args).
  rewrite (post_runs name h), E by done.
  rewrite loads_bytes_dumps by (by apply ok_portable).
  change (status_of (ok out)) with 200. rewrite success_2xx by lia.
  cbn [ExampleTools.decode_output dict_get ok]. change (str_eqb $"output" $"success") with false.
  rewrite str_eqb_refl. cbv iota. by rewrite loads_dumps.
Qed.

Lemma call_tool_refused name h args s result s' :
  dict_get name HANDLERS = Some h → sendable name args →
  h (JObj args) (add_call (JStr name) (JObj args) s) = (inr result, s') →
  status_of result = 404 → call_tool name args s = (inl (ExampleTools.TStatus 404), s').
Proof.
  intros Hh Hs E Hst. unfold ExampleTools.call_tool, mock_post.
  change [($"tool_name", JStr name); ($"args", JObj args)] with (call_json name args).
  rewrite (post_runs name h), E by done. by rewrite Hst, refused_404.
Qed.

Lemma call_tool_dropped name h args s e s' :
  dict_get name HANDLERS = Some h → sendable name args →
  h (JObj args) (add_call (JStr name) (JObj args) s) = (inl e, s') →
  call_tool name args s = (inl (ExampleTools.TRequest []), s').
Proof.
  intros Hh Hs E. unfold ExampleTools.call_tool, mock_post.
  change [($"tool_name", JStr name); ($"args", JObj args)] with (call_json name args).
  by rewrite (post_runs name h), E by done.
Qed.

(** ** Portable outputs *)

Lemma arg_portable args k d :
  portable (JObj args) = true → portable d = true → portable (arg args k d) = true.
Proof.
  intros Hp Hd. unfold arg. destruct (dict_get k args) as [v|] eqn:E; [|done]. by eapply portable_get.
Qed.

(** A dictionary with literal keys is portable when its values are. *)
Ltac literal_keys :=
  apply portable_obj; split_and!;
    [by apply (bool_decide_unpack _)|by repeat constructor|cbn; repeat constructor; try done].

Lemma new_id_printable p n :
  Forall printable p → Forall printable (p ++ $"-" ++ (upper_char <$> take 8 (uuid4_hex n))).
Proof.
  intros Hp. apply Forall_app. split; [done|]. apply Forall_app. split; [by repeat constructor|].
  apply Forall_fmap. apply Forall_take. eapply Forall_impl; [apply uuid4_printable|].
  intros c Hc. unfold compose, upper_char. case_match eqn:E; [|done]. bool_to_prop.
  unfold printable in *. lia.
Qed.

(** ** Compensations *)

(** The handlers of [compensations.py] by the name a descriptor gives. *)
Definition COMPENSATIONS : list (pystr * (dict → dict)) :=
  [($"compensate_send_email", ExampleTools.compensate_send_email);
   ($"compensate_create_ticket", ExampleTools.compensate_create_ticket);
   ($"compensate_assign_engineer", ExampleTools.compensate_assign_engineer);
   ($"compensate_escalate", ExampleTools.compensate_escalate);
   ($"compensate_charge_payment", ExampleTools.compensate_charge_payment)].

Lemma update_ticket_returns k f s :
  hashable k = true → ∃ s', update_ticket float_int k f s = (inr (), s').
Proof.
  intros Hk. unfold update_ticket, lookup_in. rewrite Hk. unfold mbind, H_bind, gets.
  destruct (tget float_int k (mk_tickets s)); unfold put_ticket, mret, H_ret; by eexists.
Qed.

Lemma compensation_output name fn h args s :
  dict_get name COMPENSATIONS = Some fn → dict_get name HANDLERS = Some h →
  hashable (arg args $"ticket_id" (JStr [])) = true →
  ∃ s', h (JObj args) s = (inr (ok (fn args)), s').
Proof.
  intros Hf Hh Hk.
  assert (∀ d, hashable d = true → hashable (arg args $"ticket_id" d) = true) as Hk'.
  { intros d Hd. unfold arg in *. by destruct (dict_get _ args). }
  unfold COMPENSATIONS in Hf. cbn [dict_get] in Hf.
  repeat (case_match eqn:E; [apply str_eqb_eq in E as ->; injection Hf as <-|clear E]); try done;
    injection Hh as <-; cbn [on_object]; try by eexists.
  all: edestruct (update_ticket_returns (arg args $"ticket_id" (JStr $"unknown"))) as [s' E];
    [by apply Hk'|]; exists s'.
  all: unfold handle_compensate_create_ticket, handle_compensate_assign_engineer,
    handle_compensate_escalate, mbind at 1, H_bind at 1; rewrite E; done.
Qed.

Lemma compensation_portable name fn args :
  dict_get name COMPENSATIONS = Some fn → portable (JObj args) = true → portable (JObj (fn args)) = true.
Proof.
  intros Hf Hp. assert (∀ k d, portable d = true → portable (ExampleTools.get args k d) = true) as Hg.
  { intros k d. by apply arg_portable. }
  unfold COMPENSATIONS in Hf. cbn [dict_get] in Hf.
  repeat (case_match; [injection Hf as <-; literal_keys; by apply Hg|]). done.
Qed.

Lemma compensation_handler name fn :
  dict_get name COMPENSATIONS = Some fn → ∃ h, dict_get name HANDLERS = Some h.
Proof.
  unfold COMPENSATIONS. cbn [dict_get]. intros Hf.
  repeat (case_match eqn:E; [apply str_eqb_eq in E as ->; by eexists|clear E]). done.
Qed.

(** The two implementations of the compensations agree. Calling one by its
    name through the mock tool server returns what the function of that name in
    [compensations.py] returns for the same arguments, for all five of them and
    in every state of the server. *)
Theorem compensations_agree name fn args s :
  dict_get name COMPENSATIONS = Some fn → sendable name args →
  hashable (arg args $"ticket_id" (JStr [])) = true →
  ∃ s', call_tool name args s = (inr (JObj (fn args)), s').
Proof.
  intros Hf Hs Hk. destruct (compensation_handler name fn Hf) as [h Hh].
  destruct (compensation_output name fn h args (add_call (JStr name) (JObj args) s) Hf Hh Hk) as [s' E].
  exists s'. eapply call_tool_ok; [done..|]. eapply compensation_portable; [done|]. apply Hs.
Qed.

(** ** A ticket and its compensation *)

Lemma tget_tset_other (k k' : pystr) r t :
  k ≠ k' → tget float_int (JStr k) (tset float_int (JStr k') r t) = tget float_int (JStr k) t.
Proof.
  intros Hne. assert (str_eqb k k' = false) as Hkk by (by apply str_eqb_neq).
  induction t as [|[j u] t IH]; [simpl; by rewrite Hkk|].
  cbn [tset]. destruct (key_eqb float_int (JStr k') j) eqn:E; cbn [tget]; [|by rewrite IH].
  assert (key_eqb float_int (JStr k) j = false) as ->; [|done].
  destruct j; try done. simpl in *. apply str_eqb_eq in E as <-. exact Hkk.
Qed.

(** The identifier of the next ticket. *)
Definition next_ticket (s : mock) : pystr :=
  $"TKT" ++ $"-" ++ (upper_char <$> take 8 (uuid4_hex (mk_drawn s))).

(** Creating a ticket and running its compensation, both through the tool
    server, leaves the ticket closed. The tool returns the identifier of a new
    ticket that is open; the compensation, given that identifier, returns its
    confirmation and closes this ticket, and no other ticket changes. *)
Theorem created_ticket_is_voided customer priority description s :
  let args := [($"customer_id", customer); ($"priority", priority); ($"description", description)] in
  let id := next_ticket s in
  let undo := [($"ticket_id", JStr id)] in
  let row := [($"ticket_id", JStr id); ($"customer_id", customer); ($"priority", priority);
              ($"description", description); ($"status", JStr $"open")] in
  sendable $"create_ticket" args → sendable $"compensate_create_ticket" undo →
  ∃ s1 s2,
    ExampleTools.create_ticket mock_post is_success float_of_text server_url
      customer priority description s =
      (inr (JObj [($"ticket_id", JStr id); ($"status", JStr $"open"); ($"priority", priority)]), s1) ∧
    tget float_int (JStr id) (mk_tickets s1) = Some row ∧
    call_tool $"compensate_create_ticket" undo s1 =
      (inr (JObj (ExampleTools.compensate_create_ticket undo)), s2) ∧
    tget float_int (JStr id) (mk_tickets s2) = Some (dict_set $"status" (JStr $"closed") row) ∧
    (∀ k, k ≠ id → tget float_int (JStr k) (mk_tickets s2) = tget float_int (JStr k) (mk_tickets s)).
Proof.
  intros args id undo row Hs Hu.
  assert (portable priority = true) as Hp by (apply (portable_get $"priority" _ args); [apply Hs|done]).
  assert (portable (JStr id) = true) as Hid.
  { apply portable_text, new_id_printable. by repeat constructor. }
  set (s1 := set_tickets (tset float_int (JStr id) row (mk_tickets s))
               (draw (add_call (JStr $"create_ticket") (JObj args) s))).
  set (s2 := set_tickets (tset float_int (JStr id) (dict_set $"status" (JStr $"closed") row) (mk_tickets s1))
               (add_call (JStr $"compensate_create_ticket") (JObj undo) s1)).
  assert (tget float_int (JStr id) (mk_tickets s1) = Some row) as Hrow by apply tget_tset_str.
  exists s1, s2. split_and!; [| |eapply call_tool_ok; [reflexivity|done| |]| |].
  - eapply call_tool_ok; [reflexivity|done|reflexivity|]. literal_keys.
  - exact Hrow.
  - cbn [on_object]. unfold handle_compensate_create_ticket, update_ticket, lookup_in.
    change (arg undo $"ticket_id" (JStr $"unknown")) with (JStr id).
    unfold mbind, H_bind, gets. cbn [hashable]. 
    change (mk_tickets (add_call (JStr $"compensate_create_ticket") (JObj undo) s1)) with (mk_tickets s1).
    rewrite Hrow. reflexivity.
  - literal_keys.
  - apply tget_tset_str.
  - intros k Hk. cbn. by rewrite !tget_tset_other.
Qed.
End tools.

(** ** The support tools, on concrete calls *)

From S2P Require Import Journal World DevHandler EndToEnd Demo.
From S2P Require Import SdkWitnesses.

Module ToolsExamples.
Import MockExamples.
Import Mock.

Lemma mock_uuid_printable n : Forall printable (mock_uuid n).
Proof. apply to_digits_printable; lia. Qed.

Lemma refused_is_2xx : is_2xx 404 = false.
Proof. reflexivity. Qed.

Abbreviation demo_post :=
  (mock_post mock_digest mock_uuid mock_text mock_text mock_float_int mock_float dumps).

Lemma compensations_agree_witness :
  ∃ s', ExampleTools.call_tool demo_post is_2xx mock_float $"http://localhost:9091"
      $"compensate_assign_engineer" [($"ticket_id", JStr $"TKT-2"); ($"engineer", JStr $"sarah")] desk =
    (inr (JObj [($"status", JStr $"engineer_unassigned"); ($"ticket_id", JStr $"TKT-2");
                ($"engineer", JStr $"sarah")]), s').
Proof.
  exact (compensations_agree mock_digest mock_uuid mock_text mock_text mock_float_int mock_float
    dumps is_2xx (loads_bytes_dumps mock_float) success_2xx $"http://localhost:9091"
    $"compensate_assign_engineer" ExampleTools.compensate_assign_engineer
    [($"ticket_id", JStr $"TKT-2"); ($"engineer", JStr $"sarah")] desk eq_refl
    ltac:(split; vm_compute; reflexivity) eq_refl).
Defined.

Lemma created_ticket_is_voided_witness :
  ∃ s1 s2,
    ExampleTools.create_ticket demo_post is_2xx mock_float $"http://localhost:9091"
      (JStr $"cust_42") (JStr $"medium") (JStr $"no dashboard") initial =
      (inr (JObj [($"ticket_id", JStr $"TKT-0"); ($"status", JStr $"open"); ($"priority", JStr $"medium")]), s1) ∧
    ExampleTools.call_tool demo_post is_2xx mock_float $"http://localhost:9091"
      $"compensate_create_ticket" [($"ticket_id", JStr $"TKT-0")] s1 =
      (inr (JObj [($"status", JStr $"ticket_closed"); ($"ticket_id", JStr $"TKT-0")]), s2).
Proof.
  destruct (created_ticket_is_voided mock_digest mock_uuid mock_text mock_text mock_float_int mock_float
    mock_uuid_printable dumps is_2xx (loads_bytes_dumps mock_float) success_2xx $"http://localhost:9091"
    (JStr $"cust_42") (JStr $"medium") (JStr $"no dashboard") initial
    ltac:(split; vm_compute; reflexivity) ltac:(split; vm_compute; reflexivity))
    as (s1 & s2 & E1 & _ & E2 & _).
  exists s1, s2. split; [exact E1|exact E2].
Defined.

(** ** The body of an irreversible tool *)

(** [escalate_case] under the decorator: its parameters and its body, whose
    exception is its text. *)
Abbreviation dict := (list (pystr * json)).
Definition escalate_body (args : dict) : pystr + json :=
  match ExampleTools.escalate_case (S := ()) mock_text
          (ExampleTools.par $"ticket_id" args) (ExampleTools.par $"reason" args) () with
  | (inl (ExampleTools.TAssertion text), _) => inl text
  | (inl _, _) => inl []
  | (inr v, _) => inr v
  end.

Definition escalation : dict := [($"ticket_id", JStr $"TKT-1"); ($"reason", JStr $"vip")].

(** The development server decides by its patterns, not by the tier: with none
    of them matching, the call is executed and the body, which is written to be
    unreachable, runs and raises. *)
Lemma escalation_body_is_reached :
  ∃ a', wrapper None None
      (server_http Demo.float_of_text Demo.blake3_hexdigest Demo.exc_str Demo.py_str (Server [] false)
         Demo.uuid4_str Demo.utc_now_str Demo.time_ns_at dumps dict)
      is_2xx Demo.py_str Demo.py_str dict $"escalate_case" Some (run_body dict escalate_body) $"_session"
      IRREVERSIBLE (Some tool_client) (Some 0%nat) escalation
      (Agent {[0%nat := tool_session]} None None (Demo.world0, [])) =
    (inl (ETool $"escalate_case(TKT-1, vip)"), a') ∧ (ag_ext a').2 = [escalation] ∧
    map e_status (effects (w_db (ag_ext a').1)) = [Failed].
Proof. eexists. split; [vm_compute; reflexivity|]. split; vm_compute; reflexivity. Qed.
End ToolsExamples.
