(* ===== verification/Agents.v ===== *)
(** * The example agents ([vanilla_agent.py], [semantic_kernel_agent.py],
    [llama_index_agent.py], [crewai_agent.py])

    Each script turns the shared tool registry into the tools of a framework,
    opens a session, keeps it in a context variable of its own and runs a
    prompt. A registry maps names to decorated tools: functions of their keyword
    arguments and the session passed as [_session]. The language model, and
    [str] of an exception, are arguments. *)

From S2P Require Import Prelude Py Json JsonRead Errors Client Tool LangGraph JsonRoundtrip.
Open Scope Z_scope.
Open Scope undolog_scope.

Module Agents.

Abbreviation dict := (list (pystr * json)).

(** ** Describing tools *)

(** A type hint: a class of the type map, another class, or a generic alias by
    its origin and arguments. *)
Inductive hint :=
| HStr | HInt | HFloat | HBool | HDict | HList | HNone
| HClass
| HListOf (args : list hint)
| HDictOf (args : list hint)
| HGeneric.

(** [_TYPE_MAP.get(python_type, "string")] of a hint without origin. *)
Definition TYPE_MAP (h : hint) : pystr :=
  match h with
  | HStr => $"string"
  | HInt => $"integer"
  | HFloat => $"number"
  | HBool => $"boolean"
  | HDict => $"object"
  | HList => $"array"
  | HNone => $"null"
  | _ => $"string"
  end.

(** [_to_json_schema_type] of the vanilla agent. *)
Fixpoint to_json_schema_type (h : hint) : dict :=
  match h with
  | HListOf args =>
      [($"type", JStr $"array");
       ($"items", JObj (match args with
                        | [] => [($"type", JStr (TYPE_MAP HStr))]
                        | item_type :: _ => to_json_schema_type item_type
                        end))]
  | HDictOf _ => [($"type", JStr $"object")]
  | HGeneric => [($"type", JStr $"string")]
  | _ => [($"type", JStr (TYPE_MAP h))]
  end.

(** [_to_sk_type] of the Semantic Kernel agent. *)
Definition to_sk_type (h : hint) : pystr :=
  match h with
  | HListOf _ | HDictOf _ | HGeneric => $"string"
  | _ => TYPE_MAP h
  end.

(** The hints of a tool's parameters. *)
Definition is_parameter (name : pystr) : bool :=
  negb (existsb (str_eqb name) [ $"return"; $"_session" ]).
Definition parameters (hints : list (pystr * hint)) : list (pystr * hint) :=
  List.filter (λ kv, is_parameter kv.1) hints.

(** The first line of the docstring, or the name of the tool. *)
Definition description (doc : option pystr) (name : pystr) : pystr :=
  match doc with
  | None | Some [] => name
  | Some text => (cut_at 10 (strip_by is_uspace text)).1
  end.

(** [_build_openai_tool_def]. *)
Definition build_openai_tool_def (tool_name : pystr) (hints : list (pystr * hint))
    (doc : option pystr) : json :=
  let properties :=
    foldl (λ d kv, dict_set kv.1 (JObj (to_json_schema_type kv.2)) d) [] (parameters hints) in
  let required := foldl (λ l kv, l ++ [JStr kv.1]) [] (parameters hints) in
  JObj [($"type", JStr $"function");
        ($"function", JObj
           [($"name", JStr tool_name); ($"description", JStr (description doc tool_name));
            ($"parameters", JObj
               [($"type", JStr $"object"); ($"properties", JObj properties);
                ($"required", JArr required)])])].

(** The [parameters] of [_make_sk_function]. *)
Definition sk_parameters (hints : list (pystr * hint)) : list dict :=
  (λ kv, [($"name", JStr kv.1); ($"type", JStr (to_sk_type kv.2))]) <$> parameters hints.

(** The fields of the model of [_make_args_schema] in the CrewAI agent. *)
Definition args_schema_fields (hints : list (pystr * hint)) : list (pystr * hint) :=
  foldl (λ d kv, dict_set kv.1 kv.2 d) [] (parameters hints).

Section tools.
Context {E : Type}.
Variable float_of_text : pystr → pyfloat.
Variable exc_text : sdk_exc → pystr.
Variable exc_str : pyexc → pystr.
Variable py_str : json → pystr.

Abbreviation act := (M (agent E)).

(** A decorated tool, called with keyword arguments and a session. *)
Abbreviation tool_fn := (dict → option nat → act json).

(** [tool_fn] with the arguments as keywords and [_session=session]: a repeated
    keyword is a [TypeError]. *)
Definition call_kw (fn : tool_fn) (kwargs : dict) (session : option nat) : act json :=
  match dict_get $"_session" kwargs with
  | Some _ => raise EType
  | None => fn kwargs session
  end.

Definition outside_session (name : pystr) : pystr :=
  $"Tool '" ++ name ++ $"' called outside an active UndoLog session".

(** The wrapper of [_make_wrapper], in the vanilla and the CrewAI agent; the
    exception without a session is a [RuntimeError]. *)
Definition session_wrapper (name : pystr) (raw_fn : tool_fn) (current : option nat) (kwargs : dict)
    : act json :=
  match current with
  | None => raise (ETool (outside_session name))
  | Some _ => call_kw raw_fn kwargs current
  end.

Definition format_text (v : json) : pystr := match v with JStr s => s | _ => py_str v end.

Definition failed_text (tool_name text : pystr) : pystr :=
  dumps (JObj [($"error", JStr ($"Tool " ++ tool_name ++ $" failed: " ++ text))]).

(** The wrapper of [_make_sk_function] and of [_make_fn_tool]: results,
    approvals and failures are returned as text. *)
Definition text_wrapper (name : pystr) (raw_fn : tool_fn) (current : option nat) (kwargs : dict)
    : act pystr :=
  match current with
  | None => raise (ETool (outside_session name))
  | Some _ =>
      attempt (result ← call_kw raw_fn kwargs current; mret (dumps_indent 0 result)) (λ exc,
        match LangGraph.awaiting_of exc with
        | Some attrs =>
            mret (dumps (JObj
              [($"status", JStr $"requires_approval");
               ($"approval_id", LangGraph.attr $"approval_id" attrs);
               ($"tool_name", LangGraph.attr $"tool_name" attrs)]))
        | None => mret (failed_text name (exc_text exc))
        end)
  end.

(** ** The vanilla agent *)

Record tool_call := ToolCall { tc_id : pystr; tc_name : pystr; tc_arguments : pystr }.

(** The messages of the conversation. *)
Inductive message :=
| UserMsg (content : pystr)
| AssistantMsg (content : pystr) (tool_calls : list tool_call)
| ToolMsg (tool_call_id : pystr) (content : pystr).

Definition approval_content (attrs : dict) : pystr :=
  let approval_id := LangGraph.attr $"approval_id" attrs in
  let tool_name := LangGraph.attr $"tool_name" attrs in
  dumps (JObj
    [($"status", JStr $"requires_approval"); ($"approval_id", approval_id); ($"tool_name", tool_name);
     ($"message", JStr ($"Tool '" ++ format_text tool_name ++ $"' requires human approval (approval_id="
        ++ format_text approval_id ++ $")."))]).

(** [_execute_tool_call]. *)
Definition execute_tool_call (current : option nat) (registry : list (pystr * tool_fn)) (tc : tool_call)
    : act message :=
  match dict_get (tc_name tc) registry with
  | None =>
      mret (ToolMsg (tc_id tc) (dumps (JObj [($"error", JStr ($"Unknown tool: " ++ tc_name tc))])))
  | Some tool_fn =>
      match loads float_of_text (tc_arguments tc) with
      | inl e => mret (ToolMsg (tc_id tc) (failed_text (tc_name tc) (exc_str e)))
      | inr (JObj args) =>
          attempt
            (result ← call_kw tool_fn args current; mret (ToolMsg (tc_id tc) (dumps_indent 0 result)))
            (λ exc,
              match LangGraph.awaiting_of exc with
              | Some attrs => mret (ToolMsg (tc_id tc) (approval_content attrs))
              | None => mret (ToolMsg (tc_id tc) (failed_text (tc_name tc) (exc_text exc)))
              end)
      | inr _ => mret (ToolMsg (tc_id tc) (failed_text (tc_name tc) (exc_text EType)))
      end
  end.

(** The message of the model's first choice. *)
Record reply := LlmReply { lr_content : option pystr; lr_tool_calls : list tool_call }.

(** [client.chat.completions.create] on the messages so far. *)
Variable llm : list message → act reply.

(** The [for] loop over the calls of one reply. *)
Fixpoint answer_calls (current : option nat) (registry : list (pystr * tool_fn))
    (calls : list tool_call) (messages : list message) : act (list message) :=
  match calls with
  | [] => mret messages
  | tc :: calls =>
      result ← execute_tool_call current registry tc;
      answer_calls current registry calls (messages ++ [result])
  end.

(** How the conversation stands after a number of rounds of the [while] loop. *)
Inductive chat_state :=
| Finished (final : pystr) (messages : list message)
| Running (messages : list message).

Fixpoint chat (rounds : nat) (current : option nat) (registry : list (pystr * tool_fn))
    (messages : list message) : act chat_state :=
  match rounds with
  | O => mret (Running messages)
  | S n =>
      msg ← llm messages;
      match lr_tool_calls msg with
      | [] => mret (Finished (default [] (lr_content msg)) messages)
      | calls =>
          messages' ← answer_calls current registry calls
            (messages ++ [AssistantMsg (default [] (lr_content msg)) calls]);
          chat n current registry messages'
      end
  end.

Definition PROMPT : pystr :=
  $"A premium customer named Alice (cust_42) reports she cannot access the enterprise dashboard. Look up her info, create a medium priority support ticket, and send an acknowledgment email.".

Variable fresh_uuid : E → pystr * E.

(** [main] of the vanilla agent: without an API key it returns at once. The
    context variable is set to the new session, whose exit does nothing. *)
Definition main (api_key org_id : option pystr) (registry : list (pystr * tool_fn)) (rounds : nat)
    : act (option chat_state) :=
  match default [] api_key with
  | [] => mret None
  | _ =>
      l ← LangGraph.open_session fresh_uuid py_str (default $"org_demo" org_id) None 0;
      out ← chat rounds (Some l) registry [UserMsg PROMPT];
      mret (Some out)
  end.
End tools.
End Agents.
