(* ===== verification/AgentsTheorems.v ===== *)
(** * What the example agents guarantee *)

From S2P Require Import Prelude Py PyFacts Json Canonical JsonRead Signature CanonicalParse JsonRoundtrip.
From S2P Require Import Errors Client Tool LangGraph Agents.
Open Scope Z_scope.
Open Scope undolog_scope.
Import Agents.

(** ** Tool definitions *)

(** The parameters of a tool have distinct names: the hints are a dictionary. *)
Lemma parameters_keys hints : NoDup hints.*1 → NoDup (parameters hints).*1.
Proof.
  unfold parameters. induction hints as [|[k h] hints IH]; [done|]. cbn [fmap list_fmap fst List.filter].
  rewrite NoDup_cons. intros [Hk Hnd]. destruct (is_parameter k); [|auto].
  cbn [fmap list_fmap fst]. apply NoDup_cons. split; [|auto].
  intros ([k' h'] & -> & Hin)%list_elem_of_fmap. apply Hk.
  apply list_elem_of_In, List.filter_In in Hin as [Hin _]. apply list_elem_of_In in Hin.
  by apply (list_elem_of_fmap_2 fst) in Hin.
Qed.

Lemma foldl_dict_set {A B} (f : A → B) (ps : list (pystr * A)) :
  foldl (λ d kv, dict_set kv.1 (f kv.2) d) [] ps = dict_of_pairs (map_values f ps).
Proof.
  unfold dict_of_pairs. generalize (@nil (pystr * B)). induction ps as [|[k a] ps IH]; intros d; [done|].
  apply IH.
Qed.

Lemma foldl_snoc {A B} (f : A → B) (l : list A) acc : foldl (λ l x, l ++ [f x]) acc l = acc ++ (f <$> l).
Proof.
  revert acc. induction l as [|x l IH]; intros acc; cbn; [by rewrite app_nil_r|].
  by rewrite IH, <-app_assoc.
Qed.

(** The definition the model is given for a tool lists exactly the
    function's parameters. Its properties are the parameters in order, each with
    the schema of its type; all of them are required; neither the session nor
    the return annotation is among them. *)
Theorem tool_definitions_list_the_parameters name hints doc :
  NoDup hints.*1 →
  build_openai_tool_def name hints doc =
    JObj [($"type", JStr $"function");
          ($"function", JObj
             [($"name", JStr name); ($"description", JStr (description doc name));
              ($"parameters", JObj
                 [($"type", JStr $"object");
                  ($"properties", JObj (map_values (λ h, JObj (to_json_schema_type h)) (parameters hints)));
                  ($"required", JArr (JStr <$> (parameters hints).*1))])])] ∧
  (($"_session") ∉ (parameters hints).*1) ∧ (($"return") ∉ (parameters hints).*1) ∧
  (∀ k h, (k, h) ∈ hints → k ≠ $"_session" → k ≠ $"return" → (k, h) ∈ parameters hints).
Proof.
  intros Hnd. apply parameters_keys in Hnd. split_and!.
  - unfold build_openai_tool_def. cbv zeta.
    rewrite (foldl_dict_set (λ h, JObj (to_json_schema_type h))), (foldl_snoc (λ kv, JStr kv.1)).
    rewrite dict_of_pairs_id by (unfold dict_ok; by rewrite map_values_keys).
    by rewrite <-list_fmap_compose.
  - intros ([k h] & E & Hin)%list_elem_of_fmap. cbn in E. subst k.
    by apply list_elem_of_In, List.filter_In in Hin as [_ ?].
  - intros ([k h] & E & Hin)%list_elem_of_fmap. cbn in E. subst k.
    by apply list_elem_of_In, List.filter_In in Hin as [_ ?].
  - intros k h Hin Hs Hr. apply list_elem_of_In, List.filter_In. split; [by apply list_elem_of_In|].
    unfold is_parameter. cbn [existsb fst]. by rewrite !(proj2 (str_eqb_neq _ _)).
Qed.

Section agent.
Context {E : Type}.
Variable float_of_text : pystr → pyfloat.
Variable exc_text : sdk_exc → pystr.
Variable exc_str : pyexc → pystr.
Variable py_str : json → pystr.
Abbreviation act := (M (agent E)).
Abbreviation tool_fn := (dict → option nat → act json).
Abbreviation portable := (portable float_of_text).
Abbreviation execute_tool_call := (execute_tool_call float_of_text exc_text exc_str py_str).
Abbreviation answer_calls := (answer_calls float_of_text exc_text exc_str py_str).
Abbreviation chat := (chat float_of_text exc_text exc_str py_str).

Variable current : option nat.
Variable registry : list (pystr * tool_fn).

(** ** Answers *)

Lemma execute_tool_call_answers tc a :
  ∃ content a', execute_tool_call current registry tc a = (inr (ToolMsg (tc_id tc) content), a').
Proof.
  unfold Agents.execute_tool_call, mret, M_ret.
  destruct (dict_get _ registry) as [fn|]; [|by eauto].
  destruct (loads _ _) as [e|v]; [by eauto|]. destruct v as [| | | | | |args]; try by eauto.
  unfold attempt, mbind, M_bind. destruct (call_kw fn args current a) as [[exc|r] a']; [|by eauto].
  destruct (LangGraph.awaiting_of exc); by eauto.
Qed.

Lemma answer_calls_answers calls ms a :
  ∃ contents a', length contents = length calls ∧
    answer_calls current registry calls ms a =
      (inr (ms ++ zip_with ToolMsg (tc_id <$> calls) contents), a').
Proof.
  revert ms a. induction calls as [|tc calls IH]; intros ms a.
  - exists [], a. split; [done|]. cbn. by rewrite app_nil_r.
  - cbn [Agents.answer_calls]. unfold mbind, M_bind.
    destruct (execute_tool_call_answers tc a) as (content & a1 & ->).
    destruct (IH (ms ++ [ToolMsg (tc_id tc) content]) a1) as (contents & a2 & Hl & ->).
    exists (content :: contents), a2. split; [cbn; by rewrite Hl|]. by rewrite <-app_assoc.
Qed.

(** A history in which every call of every assistant message has its answer. *)
Inductive paired : list message → Prop :=
| paired_prompt prompt : paired [UserMsg prompt]
| paired_round ms content calls contents :
    paired ms → calls ≠ [] → length contents = length calls →
    paired (ms ++ AssistantMsg content calls :: zip_with ToolMsg (tc_id <$> calls) contents).

Definition history (s : chat_state) : list message :=
  match s with Finished _ ms | Running ms => ms end.

(** One round from a paired history. *)
Lemma chat_round llm n ms a :
  chat llm (S n) current registry ms a =
    match llm ms a with
    | (inl e, a1) => (inl e, a1)
    | (inr msg, a1) =>
        match lr_tool_calls msg with
        | [] => (inr (Finished (default [] (lr_content msg)) ms), a1)
        | calls =>
            match answer_calls current registry calls
                    (ms ++ [AssistantMsg (default [] (lr_content msg)) calls]) a1 with
            | (inl e, a2) => (inl e, a2)
            | (inr ms', a2) => chat llm n current registry ms' a2
            end
        end
    end.
Proof.
  cbn [Agents.chat]. unfold mbind, M_bind. destruct (llm ms a) as [[e|msg] a1]; [done|].
  by destruct (lr_tool_calls msg).
Qed.

(** C19: every tool call the model makes is answered. Whatever the tools and the
    model do, each assistant message is followed by exactly one tool message per
    call, with the call's identifier and in the order of the calls, before the
    model is asked again: unknown tools, undecodable arguments, exceptions and
    pending approvals are answers too. Only the model's own exception ends the
    conversation early, and what the model does with other histories is
    irrelevant. *)
Theorem tool_calls_are_answered llm llm' rounds ms a :
  paired ms → (∀ hist, paired hist → llm hist = llm' hist) →
  chat llm rounds current registry ms a = chat llm' rounds current registry ms a ∧
  match chat llm rounds current registry ms a with
  | (inr st, _) => paired (history st)
  | (inl e, _) => ∃ hist a0 a1, paired hist ∧ llm hist a0 = (inl e, a1)
  end.
Proof.
  intros Hms Hllm. revert ms a Hms. induction rounds as [|n IH]; intros ms a Hms; [done|].
  rewrite !chat_round, <-Hllm by done. destruct (llm ms a) as [[e|msg] a1] eqn:El.
  { split; [done|]. by exists ms, a, a1. }
  destruct (lr_tool_calls msg) as [|tc calls]; [done|].
  set (cs := tc :: calls). cbv zeta.
  destruct (answer_calls_answers cs (ms ++ [AssistantMsg (default [] (lr_content msg)) cs]) a1)
    as (contents & a2 & Hl & ->).
  apply IH. rewrite <-app_assoc. by apply (paired_round ms _ cs).
Qed.

(** ** What an answer says *)

(** The value the content of an answer stands for: the tool's result, or an
    object that describes the approval it waits for or its failure. *)
Definition answer_value (name : pystr) (approval : dict → json) (r : sdk_exc + json) : json :=
  match r with
  | inr result => result
  | inl exc =>
      match LangGraph.awaiting_of exc with
      | Some attrs => approval attrs
      | None => JObj [($"error", JStr ($"Tool " ++ name ++ $" failed: " ++ exc_text exc))]
      end
  end.

Definition approval_fields (attrs : dict) : dict :=
  [($"status", JStr $"requires_approval");
   ($"approval_id", LangGraph.attr $"approval_id" attrs);
   ($"tool_name", LangGraph.attr $"tool_name" attrs)].

(** The approval of the vanilla agent carries a sentence too. *)
Definition approval_answer (attrs : dict) : json :=
  JObj (approval_fields attrs ++
    [($"message", JStr ($"Tool '" ++ format_text py_str (LangGraph.attr $"tool_name" attrs)
        ++ $"' requires human approval (approval_id="
        ++ format_text py_str (LangGraph.attr $"approval_id" attrs) ++ $")."))]).

(** The content of a tool message is the JSON text of what happened. Reading
    it with [json.loads] gives the tool's result, the approval the call waits
    for with its identifier, or the error; the tool was called once, with the
    arguments the model wrote and the session of the run. *)
Theorem tool_messages_decode tc fn args a r a' :
  dict_get (tc_name tc) registry = Some fn →
  loads float_of_text (tc_arguments tc) = inr (JObj args) →
  call_kw fn args current a = (r, a') →
  portable (answer_value (tc_name tc) approval_answer r) = true →
  ∃ content, execute_tool_call current registry tc a = (inr (ToolMsg (tc_id tc) content), a') ∧
    loads float_of_text content = inr (answer_value (tc_name tc) approval_answer r).
Proof.
  intros Hfn Hargs Hcall Hp. unfold Agents.execute_tool_call. rewrite Hfn, Hargs.
  unfold attempt, mbind, M_bind, mret, M_ret. rewrite Hcall.
  destruct r as [exc|result]; cbn [answer_value] in *.
  - destruct (LangGraph.awaiting_of exc) as [attrs|];
      (eexists; split; [reflexivity|]; by apply loads_dumps).
  - eexists. split; [reflexivity|]. by apply loads_dumps_indent.
Qed.

(** The same for the tools of the Semantic Kernel and LlamaIndex agents, which
    return the text. *)
Lemma tool_texts_decode name (fn : tool_fn) l args a r a' :
  call_kw fn args (Some l) a = (r, a') →
  portable (answer_value name (λ attrs, JObj (approval_fields attrs)) r) = true →
  ∃ text, text_wrapper exc_text name fn (Some l) args a = (inr text, a') ∧
    loads float_of_text text = inr (answer_value name (λ attrs, JObj (approval_fields attrs)) r).
Proof.
  intros Hcall Hp. unfold text_wrapper, attempt, mbind, M_bind, mret, M_ret. rewrite Hcall.
  destruct r as [exc|result]; cbn [answer_value] in *.
  - destruct (LangGraph.awaiting_of exc) as [attrs|];
      (eexists; split; [reflexivity|]; by apply loads_dumps).
  - eexists. split; [reflexivity|]. by apply loads_dumps_indent.
Qed.

(** ** Termination *)

Lemma chat_bounded llm bound rounds ms a :
  (∀ hist a0 msg a1, (bound ≤ length hist)%nat → llm hist a0 = (inr msg, a1) → lr_tool_calls msg = []) →
  (bound < rounds + length ms)%nat → (1 ≤ rounds)%nat →
  match (chat llm rounds current registry ms a).1 with
  | inr (Running _) => False
  | _ => True
  end.
Proof.
  intros Hstop. revert ms a. induction rounds as [|n IH]; intros ms a Hb Hr; [lia|].
  rewrite chat_round. destruct (llm ms a) as [[e|msg] a1] eqn:El; [done|].
  destruct (lr_tool_calls msg) as [|tc calls] eqn:Ec; [done|]. set (cs := tc :: calls) in *. cbv zeta.
  assert (length ms < bound)%nat as Hlt.
  { destruct (Nat.lt_ge_cases (length ms) bound); [done|]. rewrite (Hstop ms a msg a1) in Ec; done. }
  destruct (answer_calls_answers cs (ms ++ [AssistantMsg (default [] (lr_content msg)) cs]) a1)
    as (contents & a2 & Hl & ->).
  apply IH; [|lia]. rewrite !length_app. cbn [length]. lia.
Qed.

(** The agent's loop ends. A model that stops calling tools once the history
    has a number of messages is asked at most one time more than that number,
    whatever the tools do: within that many rounds the conversation is finished
    or the model has raised. *)
Theorem conversations_end llm bound prompt a :
  (∀ hist a0 msg a1, (bound ≤ length hist)%nat → llm hist a0 = (inr msg, a1) → lr_tool_calls msg = []) →
  (∃ final ms a', chat llm (S bound) current registry [UserMsg prompt] a = (inr (Finished final ms), a')) ∨
  (∃ e a', chat llm (S bound) current registry [UserMsg prompt] a = (inl e, a')).
Proof.
  intros Hstop. pose proof (chat_bounded llm bound (S bound) [UserMsg prompt] a Hstop ltac:(simpl; lia)
    ltac:(lia)) as H.
  destruct (chat llm (S bound) current registry [UserMsg prompt] a) as [[e|[final ms|ms]] a'];
    [right|left|]; by eauto.
Qed.
End agent.

(** ** The vanilla agent on a scripted model *)

From S2P Require Import Journal Framing World DevHandler EndToEnd Demo SdkWitnesses.

Module AgentsExamples.
Import Agents.

Lemma tool_definitions_list_the_parameters_witness :
  build_openai_tool_def $"send_email"
    [($"to", HStr); ($"cc", HListOf [HStr]); ($"_session", HClass); ($"return", HDictOf [HStr; HClass])]
    (Some $"Send an email.") =
  JObj [($"type", JStr $"function");
        ($"function", JObj
           [($"name", JStr $"send_email"); ($"description", JStr $"Send an email.");
            ($"parameters", JObj
               [($"type", JStr $"object");
                ($"properties", JObj
                   [($"to", JObj [($"type", JStr $"string")]);
                    ($"cc", JObj [($"type", JStr $"array");
                                  ($"items", JObj [($"type", JStr $"string")])])]);
                ($"required", JArr [JStr $"to"; JStr $"cc"])])])].
Proof.
  exact (proj1 (tool_definitions_list_the_parameters $"send_email"
    [($"to", HStr); ($"cc", HListOf [HStr]); ($"_session", HClass); ($"return", HDictOf [HStr; HClass])]
    (Some $"Send an email.") ltac:(apply (bool_decide_unpack _); vm_compute; exact I))).
Defined.

(** Two decorated tools served by the development server: one it executes and
    one it holds for approval. *)
Abbreviation dict := (list (pystr * json)).
Abbreviation E := (outside dict).
Abbreviation act := (M (agent E)).

Definition paid (args : dict) : pystr + json := inr (JObj [($"paid", JBool true)]).

Definition decorated (name : pystr) (tier : ToolTier) : dict → option nat → act json := λ kwargs l,
  wrapper None None
    (server_http Demo.float_of_text Demo.blake3_hexdigest Demo.exc_str Demo.py_str Demo.gated_server
       Demo.uuid4_str Demo.utc_now_str Demo.time_ns_at dumps dict)
    is_2xx Demo.py_str Demo.py_str dict name Some (run_body dict paid) $"_session"
    tier (Some tool_client) l kwargs.

Definition demo_registry : list (pystr * (dict → option nat → act json)) :=
  [($"pay_bill", decorated $"pay_bill" COMPENSABLE); ($"wire_money", decorated $"wire_money" IRREVERSIBLE)].

Definition demo_text (e : sdk_exc) : pystr := $"raised".
Definition demo_agent : agent E := Agent {[0%nat := tool_session]} None None (Demo.world0, []).

(** A model that makes four calls and then stops. *)
Definition four_calls : list tool_call :=
  [ToolCall $"a" $"pay_bill" (dumps (JObj [($"n", JInt 1)])); ToolCall $"b" $"wire_money" $"{}";
   ToolCall $"c" $"missing" $"{}"; ToolCall $"d" $"pay_bill" $"not json"].
Definition script (ms : list message) : act reply :=
  mret (match ms with
        | [_] => LlmReply None four_calls
        | _ => LlmReply (Some $"done") []
        end).

Abbreviation demo_chat llm n :=
  (chat Demo.float_of_text demo_text Demo.exc_str Demo.py_str llm n (Some 0%nat) demo_registry
     [UserMsg $"hello"] demo_agent).

Lemma tool_calls_are_answered_witness :
  match demo_chat script 5%nat with
  | (inr (Finished final ms), a') =>
      final = $"done" ∧ length ms = 6%nat ∧ paired ms ∧ length (ag_ext a').2 = 1%nat
  | _ => False
  end.
Proof.
  pose proof (tool_calls_are_answered Demo.float_of_text demo_text Demo.exc_str Demo.py_str (Some 0%nat)
    demo_registry script script 5 [UserMsg $"hello"] demo_agent (paired_prompt _)
    (λ _ _, eq_refl)) as [_ H].
  assert (∃ ms a', demo_chat script 5%nat = (inr (Finished $"done" ms), a') ∧ length ms = 6%nat ∧
    length (ag_ext a').2 = 1%nat) as (ms & a' & E & Hl & Hr).
  { eexists _, _. split; [vm_compute; reflexivity|]. split; vm_compute; reflexivity. }
  rewrite E in H |- *. split; [done|]. split; [exact Hl|]. split; [exact H|exact Hr].
Defined.

Lemma conversations_end_witness :
  (∃ final ms a', demo_chat script 3%nat = (inr (Finished final ms), a')) ∨
  (∃ e a', demo_chat script 3%nat = (inl e, a')).
Proof.
  apply (conversations_end Demo.float_of_text demo_text Demo.exc_str Demo.py_str (Some 0%nat)
    demo_registry script 2 $"hello" demo_agent).
  intros [|m1 [|m2 hist]] a0 msg a1 Hl; [simpl in Hl; lia..|]. intros [= <- <-]. reflexivity.
Defined.

(** The held call: its message says which approval it waits for. *)
Lemma tool_messages_decode_witness :
  ∃ content a', execute_tool_call Demo.float_of_text demo_text Demo.exc_str Demo.py_str (Some 0%nat)
      demo_registry (ToolCall $"b" $"wire_money" $"{}") demo_agent = (inr (ToolMsg $"b" content), a') ∧
    loads Demo.float_of_text content =
      inr (JObj [($"status", JStr $"requires_approval"); ($"approval_id", JStr $"u0");
                 ($"tool_name", JStr $"wire_money");
                 ($"message", JStr $"Tool 'wire_money' requires human approval (approval_id=u0).")]) ∧
    (ag_ext a').2 = [].
Proof.
  set (r := call_kw (decorated $"wire_money" IRREVERSIBLE) [] (Some 0%nat) demo_agent).
  destruct (tool_messages_decode Demo.float_of_text demo_text Demo.exc_str Demo.py_str (Some 0%nat)
    demo_registry (ToolCall $"b" $"wire_money" $"{}") (decorated $"wire_money" IRREVERSIBLE) []
    demo_agent r.1 r.2 eq_refl eq_refl (surjective_pairing r) ltac:(vm_compute; reflexivity))
    as (content & E1 & E2).
  exists content, r.2. split; [exact E1|]. split; [rewrite E2; vm_compute; reflexivity|].
  vm_compute. reflexivity.
Defined.
End AgentsExamples.
