(* ===== verification/FrameworkAgents.v ===== *)
(** * The agents on frameworks ([agent.py], [run_against_stack.py],
    [crewai_agent.py], [llama_index_agent.py], [semantic_kernel_agent.py])

    Each script turns the functions of the registry into tools of its framework,
    opens a session, puts it in a context variable of its own and hands the
    tools to the framework. The frameworks and the language model are not part
    of the repository: what they do with the tools and the prompt is an
    argument. That their packages are installed is taken for granted. *)

From S2P Require Import Prelude Py Json JsonRead Errors Client Tool LangGraph Agents JsonRoundtrip.
Open Scope Z_scope.
Open Scope undolog_scope.

Module Frameworks.

Abbreviation dict := (list (pystr * json)).

Section frameworks.
Context {E : Type}.
Variable exc_text : sdk_exc → pystr.
Variable py_str : json → pystr.
Variable fresh_uuid : E → pystr * E.
Abbreviation act := (M (agent E)).
Abbreviation tool_fn := (dict → option nat → act json).

(** A function of the registry: what is called, and what [get_type_hints],
    [__doc__] and [__name__] give. *)
Record raw_tool := RawTool {
  rt_call : tool_fn;
  rt_hints : list (pystr * Agents.hint);
  rt_doc : option pystr;
  rt_name : pystr;
}.

(** A [StructuredTool]; its coroutine reads the context variable when it runs. *)
Record structured_tool := StructuredTool {
  st_name : pystr;
  st_description : pystr;
  st_schema : option (pystr * list (pystr * Agents.hint));
  st_coroutine : option nat → dict → act json;
}.

(** What a run gets from the environment. *)
Record llm_settings := LlmSettings {
  ls_api_key : option pystr;
  ls_org_id : option pystr;
  ls_model : option pystr;
  ls_base_url : option pystr;
}.
Variable env : llm_settings.
Definition org_id : pystr := default $"org_demo" (ls_org_id env).
Definition model : pystr := default $"gpt-4o" (ls_model env).

(** The context variable set to a new session for the length of a run. *)
Definition with_session {A} (run : option nat → act A) : act A :=
  session ← LangGraph.open_session fresh_uuid py_str org_id None 0;
  run (Some session).

(** Without an API key a script stops at once. *)
Definition keyed {A} (k : pystr → act A) : act (option A) :=
  match default [] (ls_api_key env) with
  | [] => mret None
  | key => r ← k key; mret (Some r)
  end.

(** ** [agent.py] *)

(** [_make_args_schema]: the name of the model and its fields. *)
Definition make_args_schema (raw : raw_tool) : pystr * list (pystr * Agents.hint) :=
  (rt_name raw ++ $"Args", Agents.args_schema_fields (rt_hints raw)).

(** [_make_wrapper]. *)
Definition make_wrapper (name : pystr) (raw : raw_tool) (current : option nat) (kwargs : dict) : act json :=
  Agents.session_wrapper name (rt_call raw) current kwargs.

(** [_make_lc_tool]. *)
Definition make_lc_tool (name : pystr) (raw : raw_tool) : structured_tool :=
  StructuredTool name (Agents.description (rt_doc raw) name) (Some (make_args_schema raw))
    (make_wrapper name raw).

(** [create_react_agent(llm, tools)] and its [ainvoke] on one user message: the
    contents of the messages of the answer. *)
Variable react_agent :
  pystr → pystr → option pystr → list structured_tool → option nat → pystr → act (list pystr).

Definition LC_PROMPT : pystr :=
  $"A premium customer named Alice (cust_42) reports she can't access the enterprise dashboard. Look up her info, create a support ticket, and send an acknowledgment email.".

(** [messages["messages"][-1].content]. *)
Definition last_content (messages : list pystr) : act pystr :=
  match list.last messages with Some text => mret text | None => raise (ETool $"list index out of range") end.

Definition lc_main (registry : list (pystr * raw_tool)) : act (option pystr) :=
  keyed (λ key,
    let tools := (λ nf, make_lc_tool nf.1 nf.2) <$> registry in
    with_session (λ current,
      messages ← react_agent model key (ls_base_url env) tools current LC_PROMPT;
      last_content messages)).

(** ** [run_against_stack.py] *)

Record tool_config := ToolConfig { cf_name : pystr; cf_desc : pystr; cf_args : list (pystr * dict) }.

(** A parameter of a configuration. *)
Definition text_arg (name desc : pystr) : pystr * dict :=
  (name, [($"type", JStr $"string"); ($"description", JStr desc)]).

Definition TOOL_CONFIGS : list tool_config :=
  [ToolConfig $"lookup_customer" $"Look up customer information by customer_id."
     [text_arg $"customer_id" $"Customer ID"];
   ToolConfig $"send_email" $"Send an email to a customer. Args: to (email), subject, body."
     [text_arg $"to" $"Recipient email address"; text_arg $"subject" $"Email subject line";
      text_arg $"body" $"Email body content"];
   ToolConfig $"create_ticket" $"Create a support ticket. Args: customer_id, priority, description."
     [text_arg $"customer_id" $"Customer ID";
      text_arg $"priority" $"Priority: low, medium, high, critical";
      text_arg $"description" $"Issue description"];
   ToolConfig $"escalate_case" $"Escalate a case. IRREVERSIBLE - requires approval."
     [text_arg $"ticket_id" $"Ticket ID"; text_arg $"reason" $"Escalation reason"]].

(** [_make_tool_fn]. *)
Definition make_tool_fn (name : pystr) (raw : raw_tool) (current : option nat) (kwargs : dict) : act json :=
  Agents.session_wrapper name (rt_call raw) current kwargs.

(** [make_lc_tool]: no schema is given, the arguments of the configuration are
    not used. *)
Definition make_stack_tool (name desc : pystr) (raw : raw_tool) : structured_tool :=
  StructuredTool name desc None (make_tool_fn name raw).

(** The loop of [main] over the configurations. *)
Definition stack_tools (registry : list (pystr * raw_tool)) : list structured_tool :=
  omap (λ cfg, make_stack_tool (cf_name cfg) (cf_desc cfg) <$> dict_get (cf_name cfg) registry) TOOL_CONFIGS.

Definition STACK_PROMPT : pystr :=
  $"A premium customer named Alice (cust_42) reports she cannot access the enterprise dashboard. Look up her info, create a medium priority support ticket, send an acknowledgment email, and escalate the case.".

Definition stack_main (registry : list (pystr * raw_tool)) : act (option pystr) :=
  keyed (λ key,
    let base_url := default $"https://api.openai.com/v1" (ls_base_url env) in
    with_session (λ current,
      messages ← react_agent model key (Some base_url) (stack_tools registry) current STACK_PROMPT;
      last_content messages)).

(** ** [crewai_agent.py] *)

(** [_make_args_schema] and [_make_wrapper]. *)
Definition make_crew_schema (raw : raw_tool) : pystr * list (pystr * Agents.hint) :=
  (rt_name raw ++ $"Args", Agents.args_schema_fields (rt_hints raw)).
Definition make_crew_wrapper (name : pystr) (raw : raw_tool) (current : option nat) (kwargs : dict) : act json :=
  Agents.session_wrapper name (rt_call raw) current kwargs.

(** [_build_lc_tools]. *)
Definition build_lc_tools (registry : list (pystr * raw_tool)) : list structured_tool :=
  (λ nf, StructuredTool nf.1 (Agents.description (rt_doc nf.2) nf.1) (Some (make_crew_schema nf.2))
           (make_crew_wrapper nf.1 nf.2)) <$> registry.

(** [llm_config]: the base URL only when it is not empty. *)
Definition crew_llm (key : pystr) : list (pystr * pystr) :=
  [($"model", model); ($"api_key", key)]
  ++ match default [] (ls_base_url env) with [] => [] | url => [($"base_url", url)] end.

(** The agent and the task of the crew. *)
Record crew_agent := CrewAgent {
  cw_role : pystr; cw_goal : pystr; cw_backstory : pystr;
  cw_tools : list structured_tool; cw_llm : list (pystr * pystr); cw_delegates : bool;
}.
Record crew_task := CrewTask { ct_description : pystr; ct_expected : pystr }.

(** [Crew(agents=[agent], tasks=[task]).kickoff_async()]. *)
Variable crew_kickoff : crew_agent → crew_task → option nat → act json.

Definition crew_main (registry : list (pystr * raw_tool)) : act (option json) :=
  keyed (λ key,
    let crew := CrewAgent $"Customer Support Agent"
      $"Resolve customer issues by looking up information, creating tickets, and sending emails."
      $"You are an experienced customer support agent handling enterprise tickets."
      (build_lc_tools registry) (crew_llm key) false in
    let task := CrewTask Agents.PROMPT $"Summary of actions taken and the resolution status." in
    with_session (crew_kickoff crew task)).

(** ** [llama_index_agent.py] *)

(** A [FunctionTool]. *)
Record function_tool := FunctionTool {
  ft_name : pystr;
  ft_description : pystr;
  ft_fn : option nat → dict → act pystr;
}.

(** [_make_fn_tool]; the properties it collects from the hints are not used. *)
Definition make_fn_tool (name : pystr) (raw : raw_tool) : function_tool :=
  FunctionTool name (Agents.description (rt_doc raw) name)
    (λ current kwargs, Agents.text_wrapper exc_text name (rt_call raw) current kwargs).

(** [AgentRunner.from_llm(llm, tools).aquery(prompt)]. *)
Variable llama_query :
  pystr → pystr → option pystr → list function_tool → option nat → pystr → act json.

Definition llama_main (registry : list (pystr * raw_tool)) : act (option json) :=
  keyed (λ key,
    let tools := (λ nf, make_fn_tool nf.1 nf.2) <$> registry in
    with_session (λ current, llama_query model key (ls_base_url env) tools current Agents.PROMPT)).

(** ** [semantic_kernel_agent.py] *)

(** A [KernelFunctionFromMethod]. *)
Record kernel_function := KernelFunction {
  kf_name : pystr;
  kf_method : option nat → dict → act pystr;
  kf_description : pystr;
  kf_parameters : list dict;
}.

(** [_make_sk_function]. *)
Definition make_sk_function (name : pystr) (raw : raw_tool) : kernel_function :=
  KernelFunction name (λ current kwargs, Agents.text_wrapper exc_text name (rt_call raw) current kwargs)
    (Agents.description (rt_doc raw) name) (Agents.sk_parameters (rt_hints raw)).

(** [kernel.invoke_prompt] of a kernel with the service and the functions added
    to its plugin [support]. *)
Variable kernel_prompt :
  pystr → pystr → option pystr → list (pystr * kernel_function) → option nat → pystr → act json.

Definition kernel_main (registry : list (pystr * raw_tool)) : act (option json) :=
  keyed (λ key,
    let functions := (λ nf, ($"support", make_sk_function nf.1 nf.2)) <$> registry in
    with_session (λ current, kernel_prompt model key (ls_base_url env) functions current Agents.PROMPT)).
End frameworks.
End Frameworks.
