(* ===== verification/FrameworkTheorems.v ===== *)
(** * The agents on frameworks and the vanilla agent do the same

    A framework is free to choose which tools it calls with which arguments.
    What a sequence of calls does to the sessions, the proxy and the tool
    server does not depend on the framework, for arguments that the schemas of
    the tools accept as they are. *)

From S2P Require Import Prelude Py PyFacts Json Canonical JsonRead Signature CanonicalParse JsonRoundtrip.
From S2P Require Import Errors Client Tool LangGraph Agents AgentsTheorems FrameworkAgents.
Open Scope Z_scope.
Open Scope undolog_scope.
Import Frameworks.

Section drive.
Context {E : Type}.
Variable float_of_text : pystr → pyfloat.
Variable exc_text : sdk_exc → pystr.
Variable exc_str : pyexc → pystr.
Variable py_str : json → pystr.
Abbreviation portable := (portable float_of_text).
Abbreviation act := (M (agent E)).
Abbreviation raw_tool := (raw_tool (E := E)).
Implicit Types (registry : list (pystr * raw_tool)) (a : agent E).

(** The call of a tool by its name: an unknown name calls nothing, and the
    framework goes on after an exception. *)
Definition call_named {T X} (nm : T → pystr) (run : T → dict → act X) (tools : list T)
    (call : pystr * dict) a : agent E :=
  match List.find (λ t, str_eqb call.1 (nm t)) tools with
  | Some t => (run t call.2 a).2
  | None => a
  end.

(** A sequence of calls. *)
Definition drive {T X} (nm : T → pystr) (run : T → dict → act X) (tools : list T)
    (calls : list (pystr * dict)) a : agent E :=
  foldl (λ a call, call_named nm run tools call a) a calls.

(** [StructuredTool] checks the arguments against the schema of the tool before
    it calls the coroutine: pydantic's validation, which may coerce them, and
    which raises when it refuses them. *)
Variable validate : pystr * list (pystr * Agents.hint) → dict → option dict.
Variable validation_error : sdk_exc.
Definition run_structured (session : nat) (t : structured_tool) (args : dict) : act json :=
  match st_schema t with
  | None => st_coroutine t (Some session) args
  | Some schema =>
      match validate schema args with
      | Some args' => st_coroutine t (Some session) args'
      | None => raise validation_error
      end
  end.

(** The calls as the language model writes them for the vanilla agent. *)
Definition written_calls (ids : list pystr) (calls : list (pystr * dict)) : list Agents.tool_call :=
  zip_with (λ id c, Agents.ToolCall id c.1 (dumps (JObj c.2))) ids calls.

(** The tools of a framework are the functions of the registry under their
    names. *)
Lemma find_named {T} (nm : T → pystr) (mk : pystr * raw_tool → T) registry name :
  (∀ nf, nm (mk nf) = nf.1) →
  List.find (λ t, str_eqb name (nm t)) (mk <$> registry) =
    (λ raw, mk (name, raw)) <$> dict_get name registry.
Proof.
  intros Hnm. induction registry as [|[k raw] registry IH]; [done|].
  cbn [fmap list_fmap List.find dict_get]. rewrite Hnm. cbn [fst].
  destruct (str_eqb name k) eqn:E1; [|exact IH]. by apply str_eqb_eq in E1 as ->.
Qed.

Lemma call_named_state {T X} (nm : T → pystr) (run : T → dict → act X) (mk : pystr * raw_tool → T)
    registry session (call : pystr * dict) a :
  (∀ nf, nm (mk nf) = nf.1) →
  (∀ raw a, dict_get call.1 registry = Some raw →
     (run (mk (call.1, raw)) call.2 a).2 = (Agents.call_kw (rt_call raw) call.2 (Some session) a).2) →
  call_named nm run (mk <$> registry) call a =
    match dict_get call.1 registry with
    | Some raw => (Agents.call_kw (rt_call raw) call.2 (Some session) a).2
    | None => a
    end.
Proof.
  intros Hnm Hrun. unfold call_named. rewrite (find_named nm mk) by done.
  destruct (dict_get call.1 registry) as [raw|]; [|done]. by apply Hrun.
Qed.

(** The wrappers that turn exceptions into texts add nothing to the state. *)
Lemma text_wrapper_state name fn session args a :
  (Agents.text_wrapper exc_text name fn (Some session) args a).2 =
    (Agents.call_kw fn args (Some session) a).2.
Proof.
  unfold Agents.text_wrapper, attempt, mbind, M_bind, mret, M_ret.
  destruct (Agents.call_kw fn args (Some session) a) as [[exc|r] a']; [|done].
  by destruct (LangGraph.awaiting_of exc).
Qed.

Abbreviation vanilla registry := ((λ nf : pystr * raw_tool, (nf.1, rt_call nf.2)) <$> registry).

Lemma vanilla_registry name registry :
  dict_get name (vanilla registry) = rt_call <$> dict_get name registry.
Proof.
  induction registry as [|[k raw] registry IH]; [done|]. cbn.
  destruct (str_eqb name k); [done|exact IH].
Qed.

Lemma execute_tool_call_state registry session id call a :
  portable (JObj call.2) = true →
  (Agents.execute_tool_call float_of_text exc_text exc_str py_str (Some session) (vanilla registry)
     (Agents.ToolCall id call.1 (dumps (JObj call.2))) a).2 =
    match dict_get call.1 registry with
    | Some raw => (Agents.call_kw (rt_call raw) call.2 (Some session) a).2
    | None => a
    end.
Proof.
  intros Hp. unfold Agents.execute_tool_call. cbn [Agents.tc_name Agents.tc_arguments].
  rewrite vanilla_registry. destruct (dict_get call.1 registry) as [raw|]; [|done]. cbn [fmap option_fmap option_map].
  rewrite loads_dumps by done. unfold attempt, mbind, M_bind, mret, M_ret.
  destruct (Agents.call_kw _ _ _ a) as [[exc|r] a']; [|done]. by destruct (LangGraph.awaiting_of exc).
Qed.

Lemma answer_calls_state registry session ids calls ms a :
  Forall (λ c, portable (JObj c.2) = true) calls → length ids = length calls →
  (Agents.answer_calls float_of_text exc_text exc_str py_str (Some session) (vanilla registry)
     (written_calls ids calls) ms a).2 =
  foldl (λ a call, match dict_get call.1 registry with
                   | Some raw => (Agents.call_kw (rt_call raw) call.2 (Some session) a).2
                   | None => a
                   end) a calls.
Proof.
  intros Hp. revert ids ms a. induction Hp as [|c calls Hc Hp IH]; intros [|id ids] ms a Hl; try done.
  cbn [written_calls zip_with Agents.answer_calls foldl]. unfold mbind, M_bind.
  rewrite <-(execute_tool_call_state registry session id c a Hc).
  destruct (AgentsTheorems.execute_tool_call_answers float_of_text exc_text exc_str py_str (Some session)
    (vanilla registry) (Agents.ToolCall id c.1 (dumps (JObj c.2))) a) as (content & a' & ->).
  apply IH. cbn in Hl. lia.
Qed.

Lemma drive_state {T X} (nm : T → pystr) (run : T → dict → act X) (mk : pystr * raw_tool → T)
    registry session (calls : list (pystr * dict)) a :
  (∀ nf, nm (mk nf) = nf.1) →
  Forall (λ call, ∀ raw a, dict_get call.1 registry = Some raw →
     (run (mk (call.1, raw)) call.2 a).2 = (Agents.call_kw (rt_call raw) call.2 (Some session) a).2) calls →
  drive nm run (mk <$> registry) calls a =
  foldl (λ a call, match dict_get call.1 registry with
                   | Some raw => (Agents.call_kw (rt_call raw) call.2 (Some session) a).2
                   | None => a
                   end) a calls.
Proof.
  intros Hnm Hrun. unfold drive. revert a. induction Hrun as [|c calls Hc _ IH]; intros a; [done|].
  cbn [foldl]. rewrite IH. by rewrite (call_named_state nm run mk registry session).
Qed.

(** A call whose arguments the schema of its tool accepts as they are. *)
Definition accepted registry (call : pystr * dict) : Prop :=
  ∀ raw, dict_get call.1 registry = Some raw → validate (make_args_schema raw) call.2 = Some call.2.

Lemma structured_state session name raw args a :
  validate (make_args_schema raw) args = Some args →
  (run_structured session (make_lc_tool name raw) args a).2 =
    (Agents.call_kw (rt_call raw) args (Some session) a).2.
Proof. intros Hv. unfold run_structured. cbn [st_schema make_lc_tool]. by rewrite Hv. Qed.

(** The five ways the examples expose the shared tools have the same effects.
    Take any sequence of calls, by name and with arguments that survive their
    JSON text and that the schemas of the LangChain and CrewAI tools accept
    unchanged. The LangChain, CrewAI, LlamaIndex and Semantic Kernel tools and
    the vanilla agent's own dispatch on the JSON text of the arguments leave the
    same state: the same sessions and step counters, and the same requests made
    to the proxy and the tool server, for approvals, failures and unknown names
    too. *)
Theorem frameworks_have_the_same_effects registry session calls ids ms a :
  Forall (λ c, portable (JObj c.2) = true) calls → length ids = length calls →
  Forall (accepted registry) calls →
  let outcome := drive st_name (run_structured session) ((λ nf, make_lc_tool nf.1 nf.2) <$> registry) calls a in
  drive st_name (run_structured session) (build_lc_tools registry) calls a = outcome ∧
  drive ft_name (λ t, ft_fn t (Some session))
    ((λ nf, make_fn_tool exc_text nf.1 nf.2) <$> registry) calls a = outcome ∧
  drive kf_name (λ t, kf_method t (Some session))
    ((λ nf, make_sk_function exc_text nf.1 nf.2) <$> registry) calls a = outcome ∧
  (Agents.answer_calls float_of_text exc_text exc_str py_str (Some session) (vanilla registry)
     (written_calls ids calls) ms a).2 = outcome.
Proof.
  intros Hp Hl Hacc outcome. subst outcome. unfold build_lc_tools.
  rewrite answer_calls_state by done. rewrite !(drive_state _ _ _ _ session); try done;
    (eapply Forall_impl; [exact Hacc|]; intros c Hc raw a' Hr);
    first [apply (structured_state session c.1 raw); by apply Hc|apply text_wrapper_state].
Qed.
End drive.

(** ** The agents on frameworks, on concrete calls *)

From S2P Require Import Journal Framing World DevHandler EndToEnd Demo SdkWitnesses.

Module FrameworkExamples.
Import AgentsExamples.
Import Frameworks.

(** The two decorated tools of the demonstration server. *)
Definition framework_registry : list (pystr * raw_tool (E := E)) :=
  (λ nf, (nf.1, RawTool nf.2 [($"n", Agents.HInt); ($"_session", Agents.HClass)] None nf.1)) <$> demo_registry.

(** A call that runs, one that is held and one of an unknown tool. *)
Definition three_calls : list (pystr * dict) :=
  [($"pay_bill", [($"n", JInt 1)]); ($"wire_money", []); ($"missing", [])].

(** A validation that refuses arguments the schema does not name. *)
Definition no_extras (schema : pystr * list (pystr * Agents.hint)) (args : dict) : option dict :=
  if forallb (λ kv, bool_decide (kv.1 ∈ schema.2.*1)) args then Some args else None.

Definition lc_effects : agent E :=
  drive st_name (run_structured no_extras EType 0%nat)
    ((λ nf, make_lc_tool nf.1 nf.2) <$> framework_registry) three_calls demo_agent.

Lemma frameworks_have_the_same_effects_witness :
  map e_status (effects (w_db (ag_ext lc_effects).1)) = [Committed; AwaitingApproval] ∧
  drive kf_name (λ t, kf_method t (Some 0%nat))
    ((λ nf, make_sk_function demo_text nf.1 nf.2) <$> framework_registry) three_calls demo_agent = lc_effects ∧
  (Agents.answer_calls Demo.float_of_text demo_text Demo.exc_str Demo.py_str (Some 0%nat) demo_registry
     (written_calls [ $"a"; $"b"; $"c" ] three_calls) [] demo_agent).2 = lc_effects.
Proof.
  split; [vm_compute; reflexivity|].
  destruct (frameworks_have_the_same_effects Demo.float_of_text demo_text Demo.exc_str Demo.py_str no_extras EType
    framework_registry 0%nat three_calls [ $"a"; $"b"; $"c" ] [] demo_agent
    ltac:(repeat constructor) eq_refl) as (_ & _ & Hk & Hv).
  - repeat constructor; intros raw Hr; by simplify_eq/=.
  - split; [exact Hk|exact Hv].
Defined.
End FrameworkExamples.
