(* ===== verification/StatefulAgent.v ===== *)
(** * The stateful agent ([examples/langchain-support-agent/agent_stateful.py])

    The nodes of the graph, its routing and the helpers around them. LangGraph
    is a third-party package: [interrupt] and the compiled graph's [ainvoke] are
    arguments, as are the language model and the HTTP library. *)

From S2P Require Import Prelude Py Json JsonRead Errors Client Tool LangGraph Agents JsonRoundtrip.
Open Scope Z_scope.
Open Scope undolog_scope.

Module Stateful.

Abbreviation dict := (list (pystr * json)).

(** A tool call of an AI message, and the messages of the history. *)
Record call := Call { ca_name : pystr; ca_args : dict; ca_id : pystr }.

Inductive message :=
| HumanMessage (content : pystr)
| AIMessage (content : pystr) (tool_calls : list call)
| ToolMessage (content : pystr) (tool_call_id : pystr).

(** [last.tool_calls] when the message has the attribute. *)
Definition tool_calls_of (m : message) : list call :=
  match m with AIMessage _ calls => calls | _ => [] end.

Record pending := Pending { pe_approval_id : json; pe_tool_name : json; pe_tool_call : call }.

(** [AgentState]. *)
Record state := State {
  messages : list message;
  org_id : pystr;
  session_id : pystr;
  halted : bool;
  pending_approval : option pending;
}.

(** The dictionary a node returns: the channels it writes. *)
Record update := Update {
  up_messages : option (list message);
  up_halted : option bool;
  up_pending : option (option pending);
}.
Definition no_update : update := Update None None None.
Definition write_messages (ms : list message) : update := Update (Some ms) None None.

(** The channels of [AgentState] have no reducer: a write replaces the value. *)
Definition apply_update (u : update) (st : state) : state :=
  State (default (messages st) (up_messages u)) (org_id st) (session_id st)
    (default (halted st) (up_halted u)) (default (pending_approval st) (up_pending u)).

(** The environment variables the script reads. *)
Record environment := Environment {
  env_api_key : option pystr;
  env_proxy_url : option pystr;
  env_undolog_key : option pystr;
  env_interrupt_mode : option pystr;
}.

Section nodes.
Context {E : Type}.
Variable env : environment.
Variable exc_text : sdk_exc → pystr.
Variable py_str : json → pystr.
Variable fresh_uuid : E → pystr * E.

Abbreviation act := (M (agent E)).
Abbreviation tool_fn := (dict → option nat → act json).

(** The bound model on the history. *)
Variable llm : list message → act message.
(** [langgraph.types.interrupt], with or without its argument. *)
Variable interrupt : option json → act json.
(** The HTTP client. *)
Variable http : http_request → E → http_outcome * E.
Variable is_success : Z → bool.
(** [get_tool_registry()]. *)
Variable registry : list (pystr * tool_fn).

Definition proxy_url : pystr := default $"http://localhost:8080" (env_proxy_url env).

(** [_auth_headers]. *)
Definition auth_headers : list (pystr * pystr) :=
  [($"Content-Type", $"application/json")]
  ++ match default [] (env_undolog_key env) with [] => [] | key => [($"X-Api-Key", key)] end.

(** [call_model]. *)
Definition call_model (st : state) : act update :=
  match default [] (env_api_key env) with
  | [] => mret (write_messages [HumanMessage $"Set OPENAI_API_KEY environment variable"])
  | _ => response ← llm (messages st); mret (write_messages [response])
  end.

(** [_build_session]: a new session object with the identity of the state and
    its step counter at zero. *)
Definition build_session (st : state) : act nat :=
  LangGraph.open_session fresh_uuid py_str (org_id st) (Some (JStr (session_id st))) 0.

(** [_invoke_tool]. *)
Definition invoke_tool (tc : call) (session : nat) : act message :=
  match dict_get (ca_name tc) registry with
  | None => mret (ToolMessage ($"Unknown tool: " ++ ca_name tc) (ca_id tc))
  | Some tool_fn =>
      attempt
        (result ← Agents.call_kw tool_fn (ca_args tc) (Some session);
         mret (ToolMessage (dumps_indent 0 result) (ca_id tc)))
        (λ exc,
          match LangGraph.awaiting_of exc with
          | Some _ => raise exc
          | None =>
              mret (ToolMessage ($"Error executing " ++ ca_name tc ++ $": " ++ exc_text exc) (ca_id tc))
          end)
  end.

(** [_approve_via_api]; the library's exceptions propagate. *)
Definition approve_via_api (approval_id : pystr) : act json :=
  out ← lift_ext (λ e, let '(o, e') := http
    (HttpRequest $"POST" (proxy_url ++ $"/approvals/" ++ approval_id ++ $"/approve") auth_headers
       (JObj [($"actor", JStr $"agent_stateful");
              ($"note", JStr $"Approved via LangGraph interrupt resume")])) e in (inr o, e'));
  match out with
  | HTimeout text _ | HConnectError text _ | HHttpError text _ => raise (ETool text)
  | HResponse status _ body =>
      if is_success status then match body with Some v => mret v | None => raise EBadJson end
      else raise (EHttpStatus status)
  end.

Definition call_json (tc : call) : json :=
  JObj [($"name", JStr (ca_name tc)); ($"args", JObj (ca_args tc)); ($"id", JStr (ca_id tc))].

Definition format_text (v : json) : pystr := match v with JStr s => s | _ => py_str v end.

(** What [execute_tools] does when the state has a pending approval. *)
Definition resolve_pending (p : pending) (session : nat) : act update :=
  resp ← interrupt None;
  match resp with
  | JStr answer =>
      if str_eqb answer $"approve" then
        _ ← approve_via_api (format_text (pe_approval_id p));
        result ← invoke_tool (pe_tool_call p) session;
        mret (Update (Some [result]) None (Some None))
      else mret (Update None (Some true) (Some None))
  | _ => mret (Update None (Some true) (Some None))
  end.

(** [execute_tools]. *)
Definition execute_tools (st : state) : act update :=
  match last (messages st) with
  | None => raise (ETool $"list index out of range")
  | Some last_message =>
      match tool_calls_of last_message with
      | [] => mret no_update
      | tool_call :: _ =>
          session ← build_session st;
          match pending_approval st with
          | Some p => resolve_pending p session
          | None =>
              attempt (result ← invoke_tool tool_call session; mret (write_messages [result]))
                (λ exc,
                  match LangGraph.awaiting_of exc with
                  | None => raise exc
                  | Some attrs =>
                      let approval_id := LangGraph.attr $"approval_id" attrs in
                      let tool_name := LangGraph.attr $"tool_name" attrs in
                      _ ← interrupt (Some (JObj
                            [($"type", JStr $"approval_required"); ($"approval_id", approval_id);
                             ($"tool_name", tool_name); ($"tool_call", call_json tool_call)]));
                      mret (Update None None (Some (Some (Pending approval_id tool_name tool_call))))
                  end)
          end
      end
  end.

(** [route_after_tools]. *)
Definition route_after_tools (st : state) : pystr :=
  if halted st then $"end"
  else
    match pending_approval st with
    | Some _ => $"end"
    | None =>
        match last (messages st) with
        | None => $"end"
        | Some m => match tool_calls_of m with [] => $"end" | _ => $"continue" end
        end
    end.

(** ** The graph *)

(** What a [StateGraph] holds: nodes by name, the node a run begins with, the
    edges, and for some nodes a function that names the edge to take. *)
Inductive target := ToNode (name : pystr) | END.
Record state_graph := StateGraph {
  gr_nodes : list (pystr * (state → act update));
  gr_entry : pystr;
  gr_edges : list (pystr * target);
  gr_conditional : list (pystr * ((state → pystr) * list (pystr * target)));
}.

(** [build_graph]. *)
Definition build_graph : state_graph :=
  StateGraph [($"model", call_model); ($"tools", execute_tools)] $"model"
    [($"model", ToNode $"tools")]
    [($"tools", (route_after_tools, [($"continue", ToNode $"model"); ($"end", END)]))].

(** Where a run goes on from a node, in a state. *)
Definition next_target (g : state_graph) (name : pystr) (st : state) : option target :=
  match dict_get name (gr_edges g) with
  | Some t => Some t
  | None =>
      match dict_get name (gr_conditional g) with
      | Some (path, targets) => dict_get (path st) targets
      | None => None
      end
  end.

(** ** The command-line runner *)

(** [_resolve_interrupt]; [line] is what standard input gives. *)
Definition resolve_interrupt (line : pystr) : pystr :=
  if str_eqb (default $"cli" (env_interrupt_mode env)) $"auto" then $"approve"
  else
    let resp := lower (strip_by is_uspace line) in
    if existsb (str_eqb resp) [ $"approve"; $"reject" ] then resp else $"reject".

(** The input of the compiled graph. *)
Inductive graph_input := Start (st : state) | Resume (decision : pystr).

(** [graph.ainvoke(input, config)] on the thread of the session. *)
Variable ainvoke : graph_input → act state.

(** How the [while] loop of [main] stands: stopped, or asked for [rounds]
    decisions; with the decisions that were asked for. *)
Inductive run_end := Stopped (st : state) | Waiting (st : state).

Fixpoint run_loop (stdin : list pystr) (st : state) : act (run_end * nat) :=
  st' ← ainvoke (Start st);
  if halted st' then mret (Stopped st', O)
  else
    match pending_approval st', stdin with
    | None, _ => mret (Stopped st', O)
    | Some _, [] => mret (Waiting st', O)
    | Some _, line :: stdin =>
        st'' ← ainvoke (Resume (resolve_interrupt line));
        '(out, n) ← run_loop stdin st'';
        mret (out, S n)
    end.

Definition PROMPT (use_escalate : bool) : pystr :=
  Agents.PROMPT ++ if use_escalate then $" Then escalate the case." else [].

(** The state [main] starts with. *)
Definition initial_state (org session : pystr) (use_escalate : bool) : state :=
  State [HumanMessage (PROMPT use_escalate)] org session false None.
End nodes.
End Stateful.
