(* ===== verification/StatefulTheorems.v ===== *)
(** * What the stateful agent does

    The routing, the approval branch under LangGraph's documented behaviour, and
    the repetition of a node against the development server. *)

From S2P Require Import Prelude Py PyFacts Json Signature Journal Broadcaster Framing World JsonRead JsonRoundtrip.
From S2P Require Import Fnmatch DevHandler DevWp DevSpec DevRoutes Protocol Refinement Errors.
From S2P Require Import Client Tool EndToEnd LangGraph Agents StatefulAgent.
Open Scope Z_scope.
Open Scope undolog_scope.
Import Stateful.

Abbreviation dict := (list (pystr * json)).

Section routing.
Context {E : Type}.
Variable env : environment.
Variable exc_text : sdk_exc → pystr.
Variable py_str : json → pystr.
Variable fresh_uuid : E → pystr * E.
Variable llm : list message → M (agent E) message.
Variable interrupt : option json → M (agent E) json.
Variable http : http_request → E → http_outcome * E.
Variable is_success : Z → bool.
Variable registry : list (pystr * (dict → option nat → M (agent E) json)).

Abbreviation invoke_tool := (invoke_tool exc_text registry).
Abbreviation execute_tools :=
  (execute_tools env exc_text py_str fresh_uuid interrupt http is_success registry).
Abbreviation call_model := (call_model env llm).

Lemma invoke_tool_message tc l a m a' :
  invoke_tool tc l a = (inr m, a') → tool_calls_of m = [].
Proof.
  unfold Stateful.invoke_tool, mret, M_ret. destruct (dict_get _ registry) as [fn|]; [|by intros [= <- _]].
  unfold attempt, mbind, M_bind. destruct (Agents.call_kw fn _ _ a) as [[exc|r] a1]; [|by intros [= <- _]].
  destruct (LangGraph.awaiting_of exc); [done|]. by intros [= <- _].
Qed.

(** What a completed tools node wrote: nothing, tool messages, a halt or a
    pending approval. *)
Inductive node_wrote (st : state) : update → Prop :=
| wrote_nothing m : last (messages st) = Some m → tool_calls_of m = [] → node_wrote st no_update
| wrote_message m p : tool_calls_of m = [] → node_wrote st (Update (Some [m]) None p)
| wrote_halt p : node_wrote st (Update None (Some true) p)
| wrote_pending p : node_wrote st (Update None None (Some (Some p))).

Lemma execute_tools_wrote st a u a' : execute_tools st a = (inr u, a') → node_wrote st u.
Proof.
  unfold Stateful.execute_tools. destruct (last (messages st)) as [m|] eqn:El; [|done].
  destruct (tool_calls_of m) as [|tc tcs] eqn:Em; [intros [= <- _]; by eapply wrote_nothing|].
  unfold mbind at 1, M_bind at 1. destruct (build_session _ _ _ _) as [[e|l] a1]; [done|].
  destruct (pending_approval st) as [p|].
  - unfold resolve_pending, mbind, M_bind. destruct (interrupt None a1) as [[e|resp] a2]; [done|].
    destruct resp; try (intros [= <- _]; apply wrote_halt).
    destruct (str_eqb s $"approve"); [|intros [= <- _]; apply wrote_halt].
    destruct (approve_via_api _ _ _ _ _) as [[e|v] a3]; [done|].
    destruct (invoke_tool _ l a3) as [[e|m'] a4] eqn:Ei; [done|]. intros [= <- _].
    eapply wrote_message, invoke_tool_message, Ei.
  - unfold attempt, mbind, M_bind. destruct (invoke_tool tc l a1) as [[exc|m'] a2] eqn:Ei.
    + destruct (LangGraph.awaiting_of exc); [|done]. cbv zeta.
      destruct (interrupt _ a2) as [[e|v] a3]; [done|]. intros [= <- _]. apply wrote_pending.
    + intros [= <- _]. eapply wrote_message, invoke_tool_message, Ei.
Qed.

Lemma wrote_end st u : node_wrote st u → route_after_tools (apply_update u st) = $"end".
Proof.
  intros H. unfold route_after_tools, apply_update.
  destruct H as [m Hl Hm|m p Hm|p|p]; cbn; [|by rewrite Hm; repeat case_match|done|by case_match].
  rewrite Hl, Hm. by repeat case_match.
Qed.

(** The graph never returns to the model. Whatever the tools node did when
    it completes, the route after it is [end]: the last message is a tool
    message, which has no tool calls, or the workflow is halted or waits for an
    approval. The loop from the tools back to the model that the module
    describes is not taken, so a run makes at most one tool call. *)
Theorem tools_never_return_to_the_model st a u a' :
  execute_tools st a = (inr u, a') → route_after_tools (apply_update u st) = $"end".
Proof. intros H%execute_tools_wrote. by apply wrote_end. Qed.

Abbreviation build_graph := (build_graph env exc_text py_str fresh_uuid llm interrupt http is_success registry).

Lemma route_labels st : route_after_tools st = $"end" ∨ route_after_tools st = $"continue".
Proof. unfold route_after_tools. repeat case_match; auto. Qed.

Lemma next_after_tools st :
  next_target build_graph $"tools" st =
    dict_get (route_after_tools st) [($"continue", ToNode $"model"); ($"end", END)].
Proof. reflexivity. Qed.

(** The graph is wired: the entry is a node, and in every state each node has
    exactly one place to go on, which is a node or the end; the route the tools
    take is always one of the declared ones. *)
Theorem built_graph_is_wired :
  is_Some (dict_get (gr_entry build_graph) (gr_nodes build_graph)) ∧
  ∀ name node st, dict_get name (gr_nodes build_graph) = Some node →
    match next_target build_graph name st with
    | Some (ToNode next) => is_Some (dict_get next (gr_nodes build_graph))
    | Some END => True
    | None => False
    end.
Proof.
  split; [by eexists|]. intros name node st Hn. cbn [gr_nodes Stateful.build_graph dict_get] in Hn.
  destruct (str_eqb name $"model") eqn:E1; [apply str_eqb_eq in E1 as ->; by eexists|].
  destruct (str_eqb name $"tools") eqn:E2; [apply str_eqb_eq in E2 as ->|done].
  rewrite next_after_tools. destruct (route_labels st) as [-> | ->]; [done|by eexists].
Qed.

(** What the edges make of a completed tools node: the run is over. *)
Lemma tools_lead_to_the_end st a u a' :
  execute_tools st a = (inr u, a') → next_target build_graph $"tools" (apply_update u st) = Some END.
Proof. intros H%execute_tools_wrote%wrote_end. by rewrite next_after_tools, H. Qed.

(** ** Approvals *)

(** LangGraph, as its documentation describes it: outside a resumed node,
    [interrupt] raises; a run goes through the model node and the tools node,
    merges what they return, and stops where the route says [end]; an interrupt
    in a node ends the run with the state before that node. *)
Record runtime (ainvoke : graph_input → M (agent E) state) : Prop := {
  rt_interrupt : ∀ v a, interrupt (Some v) a = (inl (EInterrupt v), a);
  rt_model_raises : ∀ st a e a1, call_model st a = (inl e, a1) → ainvoke (Start st) a = (inl e, a1);
  rt_interrupted : ∀ st a u a1 v a2,
    call_model st a = (inr u, a1) → execute_tools (apply_update u st) a1 = (inl (EInterrupt v), a2) →
    ainvoke (Start st) a = (inr (apply_update u st), a2);
  rt_raises : ∀ st a u a1 e a2,
    call_model st a = (inr u, a1) → execute_tools (apply_update u st) a1 = (inl e, a2) →
    (∀ v, e ≠ EInterrupt v) → ainvoke (Start st) a = (inl e, a2);
  rt_ends : ∀ st a u a1 u2 a2,
    call_model st a = (inr u, a1) → execute_tools (apply_update u st) a1 = (inr u2, a2) →
    route_after_tools (apply_update u2 (apply_update u st)) = $"end" →
    ainvoke (Start st) a = (inr (apply_update u2 (apply_update u st)), a2);
}.

Lemma call_model_writes st a u a1 :
  call_model st a = (inr u, a1) → pending_approval (apply_update u st) = pending_approval st.
Proof.
  unfold Stateful.call_model, mbind, M_bind. case_match; [by intros [= <- _]|].
  destruct (llm (messages st) a) as [[e|m] a2]; [done|]. by intros [= <- _].
Qed.

(** A tools node that starts without a pending approval does not complete with
    one: recording it comes after an interrupt that raises. *)
Lemma execute_tools_pending ainvoke st a u a' :
  runtime ainvoke → pending_approval st = None → execute_tools st a = (inr u, a') →
  pending_approval (apply_update u st) = None.
Proof.
  intros Hrt Hp. unfold Stateful.execute_tools. destruct (last (messages st)) as [m|]; [|done].
  destruct (tool_calls_of m) as [|tc tcs]; [by intros [= <- _]|].
  unfold mbind at 1, M_bind at 1. destruct (build_session _ _ _ _) as [[e|l] a1]; [done|].
  rewrite Hp. unfold attempt, mbind, M_bind. destruct (invoke_tool tc l a1) as [[exc|m'] a2].
  - destruct (LangGraph.awaiting_of exc); [|done]. cbv zeta. by rewrite (rt_interrupt _ Hrt).
  - by intros [= <- _].
Qed.

Lemma ainvoke_pending ainvoke st a st' a' :
  runtime ainvoke → pending_approval st = None → ainvoke (Start st) a = (inr st', a') →
  pending_approval st' = None.
Proof.
  intros Hrt Hp. destruct (call_model st a) as [[e|u] a1] eqn:Em.
  { by rewrite (rt_model_raises _ Hrt _ _ _ _ Em). }
  pose proof (call_model_writes st a u a1 Em) as Hp1. rewrite Hp in Hp1.
  destruct (execute_tools (apply_update u st) a1) as [[e|u2] a2] eqn:Et.
  - destruct e; try by rewrite (rt_raises _ Hrt _ _ _ _ _ _ Em Et).
    rewrite (rt_interrupted _ Hrt _ _ _ _ _ _ Em Et). by intros [= <- _].
  - rewrite (rt_ends _ Hrt _ _ _ _ _ _ Em Et) by (by eapply wrote_end, execute_tools_wrote).
    intros [= <- _]. by eapply execute_tools_pending.
Qed.

(** The runner never asks for a decision. Under LangGraph's documented
    behaviour an interrupt ends the run before the pending approval is written,
    so the state [ainvoke] returns has none: from a state without one, the loop
    of [main] stops after its first run and reads nothing from standard input,
    also when a tool waits for an approval. *)
Theorem runner_never_asks ainvoke stdin st a out n a' :
  runtime ainvoke → pending_approval st = None →
  run_loop env ainvoke stdin st a = (inr (out, n), a') →
  n = 0%nat ∧ ∃ st', out = Stopped st' ∧ pending_approval st' = None ∧
    ainvoke (Start st) a = (inr st', a').
Proof.
  intros Hrt Hp. destruct stdin as [|line stdin]; cbn [run_loop]; unfold mbind at 1, M_bind at 1;
    (destruct (ainvoke (Start st) a) as [[e|st'] a1] eqn:Ea; [done|]);
    pose proof (ainvoke_pending ainvoke st a st' a1 Hrt Hp Ea) as Hp'; rewrite Hp';
    destruct (halted st'); intros [= <- <- <-]; eauto 10.
Qed.
End routing.

(** ** Repeating a node *)

Section served.
Variable float_of_text : pystr → pyfloat.
Variable blake3_hexdigest : bytes → pystr.
Variable exc_str : pyexc → pystr.
Variable py_str : json → pystr.
Variable srv : server.
Variable uuid4_str : nat → pystr.
Variable utc_now_str : nat → pystr.
Variable time_ns_at : nat → Z.
Context `{!id_laws uuid4_str utc_now_str}.
Variable encode : json → bytes.
Variable tool_name : pystr.
Variable bind_args : dict → option dict.
Variable body : dict → pystr + json.
Variable session_param : pystr.
Variable env_proxy_url_ env_api_key_ : option pystr.
Variable is_success : Z → bool.
Variable repr_status : json → pystr.
Hypothesis success_2xx : ∀ st, 200 ≤ st < 300 → is_success st = true.

Variable env : environment.
Variable exc_text : sdk_exc → pystr.
Abbreviation E := (outside dict).
(** Drawing a session identifier does not touch the server. *)
Variable fresh_uuid : E → pystr * E.
Hypothesis fresh_keeps : ∀ e, (fresh_uuid e).2 = e.
Variable interrupt : option json → M (agent E) json.
Variable http : http_request → E → http_outcome * E.
Variable tier : ToolTier.
Variable cl : client_config.
Hypothesis not_safe : is_safe tier = false.

(** The decorated tool. *)
Definition decorated_tool : dict → option nat → M (agent E) json := λ kwargs l,
  wrapper env_proxy_url_ env_api_key_
    (server_http float_of_text blake3_hexdigest exc_str py_str srv uuid4_str utc_now_str time_ns_at
       encode dict)
    is_success repr_status py_str dict tool_name bind_args (run_body dict body) session_param
    tier (Some cl) l kwargs.

(** The registry has it under its name; the other entries are arbitrary. *)
Variable registry : list (pystr * (dict → option nat → M (agent E) json)).
Hypothesis registered : dict_get tool_name registry = Some decorated_tool.

Abbreviation execute_tools :=
  (execute_tools env exc_text py_str fresh_uuid interrupt http is_success registry).
Abbreviation callable_ :=
  (callable float_of_text blake3_hexdigest exc_str encode dict tool_name bind_args session_param).

(** The session every execution of the node builds. *)
Definition node_session (st : state) : session := Session (org_id st) (session_id st) 0.

(** The node runs its first call in a fresh session object. *)
Lemma execute_tools_runs st m tc tcs a :
  last (messages st) = Some m → tool_calls_of m = tc :: tcs → pending_approval st = None →
  session_id st ≠ [] → ca_name tc = tool_name → dict_get $"_session" (ca_args tc) = None →
  ∃ l a0, ag_sessions a0 !! l = Some (node_session st) ∧ ag_ext a0 = ag_ext a ∧
    ∀ out a1, decorated_tool (ca_args tc) (Some l) a0 = (inr out, a1) →
      execute_tools st a = (inr (write_messages [ToolMessage (dumps_indent 0 out) (ca_id tc)]), a1).
Proof.
  intros Hl Hm Hp Hs Hn Hk. unfold Stateful.execute_tools. rewrite Hl, Hm, Hp.
  unfold build_session, mbind at 1, M_bind at 1, LangGraph.open_session.
  pose proof (fresh_keeps (ag_ext a)) as Hf. destruct (fresh_uuid (ag_ext a)) as [u e]. cbn [snd] in Hf. subst e.
  assert (LangGraph.resumed_id py_str (Some (JStr (session_id st))) u = session_id st) as ->.
  { unfold LangGraph.resumed_id. cbn [truthy]. by destruct (session_id st). }
  set (l := fresh (dom (ag_sessions a))).
  exists l, (Agent (<[l := node_session st]> (ag_sessions a)) (ag_context a) (ag_default_client a) (ag_ext a)).
  split; [apply lookup_insert_eq|]. split; [reflexivity|]. intros out a1 Hw.
  unfold attempt at 1, mbind at 1, M_bind at 1, invoke_tool.
  rewrite Hn, registered. unfold attempt, mbind, M_bind, Agents.call_kw. rewrite Hk.
  unfold node_session in Hw. by rewrite Hw.
Qed.

(** C18: executing the tools node again does not repeat an effect. Let the
    registry hold, under the name the model asked for, a decorated tool of a tier
    other than SAFE, beside any other tools; let the tool need no approval, its
    body return, the call be understood by the server and its signature be unused
    in the journal. The node rebuilds its session from the state, with the same
    identity and its step counter at zero. So a node that is executed again after
    its tool ran, as LangGraph does when it restores a checkpoint, makes the same
    call: it returns the same message, and the body of the tool does not run a
    second time. (A SAFE tool bypasses the proxy, and its body runs again.) *)
Theorem repeated_node_replays st m tc tcs a sig args w log out :
  last (messages st) = Some m → tool_calls_of m = tc :: tcs → pending_approval st = None →
  session_id st ≠ [] → ca_name tc = tool_name → dict_get $"_session" (ca_args tc) = None →
  callable_ (node_session st) 1 (ca_args tc) sig args → ag_ext a = (w, log) → serving uuid4_str w →
  state_of (w_db w) sig = Free → requires_approval srv tool_name = false →
  body (ca_args tc) = inr out → arrives float_of_text encode (commit_json (node_session st) out) →
  let u := write_messages [ToolMessage (dumps_indent 0 out) (ca_id tc)] in
  ∃ a1 w1, execute_tools st a = (inr u, a1) ∧ ag_ext a1 = (w1, log ++ [ca_args tc]) ∧
    ∀ a', ag_ext a' = (w1, log ++ [ca_args tc]) →
    ∃ a2 w2, execute_tools st a' = (inr u, a2) ∧ ag_ext a2 = (w2, log ++ [ca_args tc]).
Proof.
  intros Hl Hm Hp Hs Hn Hk Hc Ha Hw Hfree Hgate Hb Harr u.
  destruct (execute_tools_runs st m tc tcs a) as (l & a0 & Hl0 & He0 & Hrun); [done..|].
  pose proof (eq_trans He0 Ha) as He.
  edestruct (call_runs float_of_text blake3_hexdigest exc_str py_str srv uuid4_str utc_now_str
    time_ns_at encode dict tool_name bind_args body session_param env_proxy_url_ env_api_key_
    is_success repr_status success_2xx tier cl l (ca_args tc) a0 (node_session st) sig args w log)
    as (w1 & id & Hcall & Hs1 & Hdone); [done..|].
  eexists _, w1. split; [by apply Hrun|]. split; [done|]. intros a' Ha'.
  destruct (execute_tools_runs st m tc tcs a') as (l' & a0' & Hl0' & He0' & Hrun'); [done..|].
  pose proof (eq_trans He0' Ha') as He'.
  edestruct (call_replays float_of_text blake3_hexdigest exc_str py_str srv uuid4_str utc_now_str
    time_ns_at encode dict tool_name bind_args body session_param env_proxy_url_ env_api_key_
    is_success repr_status success_2xx tier cl l' (ca_args tc) a0' (node_session st) sig args w1
    (log ++ [ca_args tc])) as (w2 & Hcall2 & _); [done..|].
  eexists _, w2. split; [by apply Hrun'|done].
Qed.
End served.

(** ** The stateful agent on concrete runs *)

From S2P Require Import Demo SdkWitnesses.

Module StatefulExamples.
Import Demo Stateful.

Abbreviation E := (outside dict).

Definition keyed : environment := Environment (Some $"sk-test") None None None.
Definition demo_text (e : sdk_exc) : pystr := $"raised".
Definition demo_uuid (e : E) : pystr * E := ($"unused", e).
Definition raising (v : option json) : M (agent E) json :=
  match v with Some v => raise (EInterrupt v) | None => raise EType end.
Definition no_http (rq : http_request) (e : E) : http_outcome * E := (HHttpError [] [], e).
Definition receipt (args : dict) : pystr + json := inr (JObj [($"sent", JBool true)]).

(** The tool, and a SAFE one beside it. *)
Abbreviation demo_decorated tool tier :=
  (decorated_tool Demo.float_of_text Demo.blake3_hexdigest Demo.exc_str Demo.py_str Demo.gated_server
    Demo.uuid4_str Demo.utc_now_str Demo.time_ns_at dumps tool Some receipt $"_session" None None
    is_2xx Demo.py_str tier tool_client).
Definition demo_tools (tool : pystr) : list (pystr * (dict → option nat → M (agent E) json)) :=
  [($"lookup_customer", demo_decorated $"lookup_customer" SAFE); (tool, demo_decorated tool IRREVERSIBLE)].

Definition call_of (tool : pystr) : call := Call tool [($"to", JStr $"alice")] $"call_1".
Definition calling (tool : pystr) (ms : list message) : M (agent E) message :=
  mret (AIMessage [] [call_of tool]).

Definition demo_sid : pystr := $"00000000-0000-0000-0000-000000000007".
Definition asked (tool : pystr) : state :=
  State [AIMessage [] [call_of tool]] $"acme" demo_sid false None.
Definition idle : agent E := Agent ∅ None None (Demo.world0, []).

Abbreviation demo_node tool :=
  (execute_tools keyed demo_text Demo.py_str demo_uuid raising no_http is_2xx (demo_tools tool)).

Lemma tools_never_return_to_the_model_witness :
  ∃ u a', demo_node $"send_mail" (asked $"send_mail") idle = (inr u, a') ∧
    route_after_tools (apply_update u (asked $"send_mail")) = $"end".
Proof.
  assert (∃ u a', demo_node $"send_mail" (asked $"send_mail") idle = (inr u, a')) as (u & a' & H).
  { eexists _, _. vm_compute. reflexivity. }
  exists u, a'. split; [exact H|].
  exact (tools_never_return_to_the_model keyed demo_text Demo.py_str demo_uuid raising no_http is_2xx
    (demo_tools $"send_mail") (asked $"send_mail") idle u a' H).
Defined.

(** A runtime with the documented behaviour. *)
Definition demo_ainvoke (tool : pystr) (i : graph_input) : M (agent E) state :=
  match i with
  | Resume _ => raise EType
  | Start st => λ a,
      match call_model keyed (calling tool) st a with
      | (inl e, a1) => (inl e, a1)
      | (inr u, a1) =>
          match demo_node tool (apply_update u st) a1 with
          | (inl (EInterrupt _), a2) => (inr (apply_update u st), a2)
          | (inl e, a2) => (inl e, a2)
          | (inr u2, a2) => (inr (apply_update u2 (apply_update u st)), a2)
          end
      end
  end.

Lemma demo_runtime tool :
  runtime keyed demo_text Demo.py_str demo_uuid (calling tool) raising no_http is_2xx (demo_tools tool)
    (demo_ainvoke tool).
Proof.
  split; [done|..]; intros st a; cbn [demo_ainvoke].
  - by intros e a1 ->.
  - by intros u a1 v a2 -> ->.
  - intros u a1 e a2 -> -> He. destruct e; try done. by destruct (He event).
  - by intros u a1 u2 a2 -> -> _.
Qed.

(** A call that is held for approval, with a decision ready on standard input. *)
Lemma runner_never_asks_witness :
  ∃ st' a', run_loop keyed (demo_ainvoke $"wire_money") [ $"approve" ]
      (initial_state $"acme" demo_sid true) idle = (inr (Stopped st', 0%nat), a') ∧
    pending_approval st' = None ∧ length (approvals (w_db (ag_ext a').1)) = 1%nat.
Proof.
  assert (∃ st' n a', run_loop keyed (demo_ainvoke $"wire_money") [ $"approve" ]
      (initial_state $"acme" demo_sid true) idle = (inr (Stopped st', n), a') ∧
      length (approvals (w_db (ag_ext a').1)) = 1%nat) as (st' & n & a' & H & Ha).
  { eexists _, _, _. split; vm_compute; reflexivity. }
  destruct (runner_never_asks keyed demo_text Demo.py_str demo_uuid (calling $"wire_money") raising no_http
    is_2xx (demo_tools $"wire_money") (demo_ainvoke $"wire_money") [ $"approve" ]
    (initial_state $"acme" demo_sid true) idle (Stopped st') n a' (demo_runtime _) eq_refl H)
    as (-> & st1 & [= <-] & Hp & _).
  exists st', a'. split; [exact H|]. split; [exact Hp|exact Ha].
Defined.

Definition mail_signature : pystr :=
  match tool_call_signature Demo.blake3_hexdigest Demo.exc_str demo_sid 1 $"send_mail"
          (JObj [($"to", JStr $"alice")]) with
  | inr s => s | inl _ => []
  end.

Lemma repeated_node_replays_witness :
  ∃ a1 a2, demo_node $"send_mail" (asked $"send_mail") idle =
      (inr (write_messages [ToolMessage (dumps_indent 0 (JObj [($"sent", JBool true)])) $"call_1"]), a1) ∧
    demo_node $"send_mail" (asked $"send_mail") a1 =
      (inr (write_messages [ToolMessage (dumps_indent 0 (JObj [($"sent", JBool true)])) $"call_1"]), a2) ∧
    (ag_ext a2).2 = [[($"to", JStr $"alice")]].
Proof.
  destruct (repeated_node_replays Demo.float_of_text Demo.blake3_hexdigest Demo.exc_str Demo.py_str
    Demo.gated_server Demo.uuid4_str Demo.utc_now_str Demo.time_ns_at dumps $"send_mail" Some receipt
    $"_session" None None is_2xx Demo.py_str success_2xx keyed demo_text demo_uuid (λ _, eq_refl) raising
    no_http IRREVERSIBLE tool_client eq_refl (demo_tools $"send_mail") eq_refl (asked $"send_mail") (AIMessage [] [call_of $"send_mail"])
    (call_of $"send_mail") [] idle mail_signature [($"to", JStr $"alice")] Demo.world0 []
    (JObj [($"sent", JBool true)]) eq_refl eq_refl eq_refl ltac:(discriminate) eq_refl eq_refl)
    as (a1 & w1 & E1 & X1 & H).
  - callable_tac.
  - reflexivity.
  - apply Demo.serving_world0.
  - vm_compute. reflexivity.
  - vm_compute. reflexivity.
  - reflexivity.
  - arrives_tac.
  - destruct (H a1 X1) as (a2 & w2 & E2 & X2). exists a1, a2.
    split; [exact E1|]. split; [exact E2|]. by rewrite X2.
Defined.
End StatefulExamples.
