(* ===== verification/Fixtures.v ===== *)
(** * The signature fixture generator
    ([sdks/undolog-ts/scripts/generate-signature-fixtures.py])

    The test vectors of the script and [build_fixtures], which computes the
    canonical text and the signature of each; and the vectors committed under
    [sdks/undolog-ts/tests/fixtures], which carry the canonical text the SDKs
    agree on. *)

From S2P Require Import Prelude Py Json Signature.
Open Scope Z_scope.
Open Scope undolog_scope.

Module Fixtures.

(** One entry of [INPUTS]. *)
Record vector := Vector {
  v_name : pystr;
  v_session_id : pystr;
  v_step_index : Z;
  v_tool_name : pystr;
  v_args : json;
}.

(** Text with its double quotes written as single ones. *)
Definition quoted (s : pystr) : pystr := (λ c, if c =? 39 then 34 else c) <$> s.

(** 1-5: Empty and minimal. *)
Definition MINIMAL : list vector :=
  [Vector $"empty_args" $"550e8400-e29b-41d4-a716-446655440000" 0 $"ping" (JObj []);
   Vector $"single_key" $"550e8400-e29b-41d4-a716-446655440000" 0 $"echo" (JObj [($"msg", JStr $"hello")]);
   Vector $"two_keys_sorted" $"00000000-0000-0000-0000-000000000000" 0 $"sort_check" (JObj [($"z", JInt 1);
     ($"a", JInt 2)]);
   Vector $"three_keys_sorted" $"00000000-0000-0000-0000-000000000000" 1 $"sort_check_3" (JObj [($"c", JInt 3);
     ($"a", JInt 1); ($"b", JInt 2)]);
   Vector $"many_keys" $"00000000-0000-0000-0000-000000000000" 2 $"many_keys" (JObj [($"z", JInt 9); ($"y",
     JInt 8); ($"x", JInt 7); ($"w", JInt 6); ($"v", JInt 5)])].

(** 6-10: Primitive types. *)
Definition PRIMITIVES : list vector :=
  [Vector $"int_arg" $"550e8400-e29b-41d4-a716-446655440000" 1 $"int_tool" (JObj [($"value", JInt 42)]);
   Vector $"float_arg" $"550e8400-e29b-41d4-a716-446655440000" 2 $"float_tool" (JObj [($"value",
     JFloat (FFin false [3; 1; 4] (1)))]);
   Vector $"bool_true" $"550e8400-e29b-41d4-a716-446655440000" 3 $"bool_tool" (JObj [($"flag", JBool true)]);
   Vector $"bool_false" $"550e8400-e29b-41d4-a716-446655440000" 4 $"bool_tool" (JObj [($"flag", JBool false)]);
   Vector $"null_arg" $"550e8400-e29b-41d4-a716-446655440000" 5 $"null_tool" (JObj [($"value", JNull)])].

(** 11-15: Lists. *)
Definition LISTS : list vector :=
  [Vector $"int_list" $"550e8400-e29b-41d4-a716-446655440000" 6 $"list_tool" (JObj [($"items", JArr [JInt 1;
     JInt 2; JInt 3])]);
   Vector $"mixed_list" $"550e8400-e29b-41d4-a716-446655440000" 7 $"mixed_list" (JObj [($"v", JArr [JInt 1;
     JStr $"a"; JBool true; JNull])]);
   Vector $"nested_list" $"550e8400-e29b-41d4-a716-446655440000" 8 $"nested_list" (JObj [($"matrix",
     JArr [JArr [JInt 1; JInt 2]; JArr [JInt 3; JInt 4]])]);
   Vector $"empty_list" $"550e8400-e29b-41d4-a716-446655440000" 9 $"empty_list" (JObj [($"v", JArr [])]);
   Vector $"list_with_dicts" $"550e8400-e29b-41d4-a716-446655440000" 10 $"list_dict" (JObj [($"rows",
     JArr [JObj [($"b", JInt 1); ($"a", JInt 2)]; JObj [($"d", JInt 3); ($"c", JInt 4)]])])].

(** 16-20: Nested dicts. *)
Definition NESTED : list vector :=
  [Vector $"nested_dict" $"550e8400-e29b-41d4-a716-446655440000" 11 $"nested" (JObj [($"nested", JObj [($"a",
     JInt 1); ($"z", JInt 2)])]);
   Vector $"double_nested" $"550e8400-e29b-41d4-a716-446655440000" 12 $"nested2" (JObj [($"a", JObj [($"b",
     JObj [($"c", JInt 1)])])]);
   Vector $"deep_nesting" $"550e8400-e29b-41d4-a716-446655440000" 13 $"deep" (JObj [($"l1", JObj [($"l2",
     JObj [($"l3", JObj [($"l4", JStr $"deep")])])])]);
   Vector $"nested_key_order" $"550e8400-e29b-41d4-a716-446655440000" 14 $"nested_sort" (JObj [($"outer",
     JObj [($"z", JInt 9); ($"a", JInt 1); ($"m", JInt 5)])]);
   Vector $"nested_empty" $"550e8400-e29b-41d4-a716-446655440000" 15 $"nested_empty" (JObj [($"x", JObj [])])].

(** 21-25: Unicode and special characters. *)
Definition STRINGS : list vector :=
  [Vector $"unicode" $"550e8400-e29b-41d4-a716-446655440000" 16 $"unicode" (JObj [($"msg", JStr [104; 233; 108;
     108; 111; 32; 19990; 30028])]);
   Vector $"special_chars" $"550e8400-e29b-41d4-a716-446655440000" 17 $"special" (JObj [($"query",
     JStr $"a&b=c")]);
   Vector $"json_string" $"550e8400-e29b-41d4-a716-446655440000" 18 $"json_string" (JObj [($"payload",
     JStr (quoted $"{'nested': true}"))]);
   Vector $"long_string" $"550e8400-e29b-41d4-a716-446655440000" 19 $"long_str" (JObj [($"text",
     JStr (replicate 500 97))]);
   Vector $"whitespace_string" $"550e8400-e29b-41d4-a716-446655440000" 20 $"whitespace" (JObj [($"val",
     JStr $"  spaced  ")])].

(** 26-30: Real-world tool patterns. *)
Definition PATTERNS : list vector :=
  [Vector $"search_tool" $"11111111-1111-1111-1111-111111111111" 0 $"search" (JObj [($"query",
     JStr $"hello world"); ($"max_results", JInt 10)]);
   Vector $"email_tool" $"11111111-1111-1111-1111-111111111111" 1 $"send_email" (JObj [($"to",
     JStr $"alice@example.com"); ($"subject", JStr $"Hello"); ($"cc", JArr [])]);
   Vector $"transfer_tool" $"11111111-1111-1111-1111-111111111111" 2 $"transfer" (JObj [($"from",
     JStr $"alice"); ($"to", JStr $"bob"); ($"amount", JFloat (FFin false [1; 0; 0; 5] (3)))]);
   Vector $"create_record" $"11111111-1111-1111-1111-111111111111" 3 $"create_record" (JObj [($"table",
     JStr $"users"); ($"data", JObj [($"name", JStr $"Alice"); ($"age", JInt 30)])]);
   Vector $"batch_operation" $"11111111-1111-1111-1111-111111111111" 4 $"batch" (JObj [($"operations",
     JArr [JObj [($"type", JStr $"create"); ($"data", JObj [($"id", JInt 1)])]; JObj [($"type", JStr $"delete");
     ($"data", JObj [($"id", JInt 2)])]])])].

(** 31-35: Edge cases. *)
Definition EDGE_CASES : list vector :=
  [Vector $"zero_values" $"00000000-0000-0000-0000-000000000000" 99 $"zero" (JObj [($"int", JInt 0); ($"float",
     JFloat (FZero false)); ($"str", JStr []); ($"lst", JArr []); ($"dct", JObj [])]);
   Vector $"negative_zero" $"00000000-0000-0000-0000-000000000000" 100 $"neg_zero" (JObj [($"v",
     JFloat (FZero true))]);
   Vector $"small_exponential" $"00000000-0000-0000-0000-000000000000" 104 $"small_exp" (JObj [($"boundary",
     JFloat (FFin false [1] (-5))); ($"one_under", JFloat (FFin false [9; 9; 9; 9; 9; 9; 9] (-6))); ($"one_over",
     JFloat (FFin false [1] (-6)))]);
   Vector $"large_exponential" $"00000000-0000-0000-0000-000000000000" 105 $"large_exp" (JObj [($"under",
     JFloat (FFin false [1] (21))); ($"boundary", JFloat (FFin false [1] (22))); ($"over", JFloat (FFin false [1;
     5] (22)))]);
   Vector $"denormal_float" $"00000000-0000-0000-0000-000000000000" 106 $"denormal" (JObj [($"min",
     JFloat (FFin false [5] (-323)))]);
   Vector $"negative_numbers" $"00000000-0000-0000-0000-000000000000" 101 $"neg" (JObj [($"neg", JInt (-42));
     ($"pos", JInt 7); ($"neg_float", JFloat (FFin true [3; 1; 4] (1)))]);
   Vector $"numeric_string" $"00000000-0000-0000-0000-000000000000" 102 $"num_str" (JObj [($"id",
     JStr $"12345")]);
   Vector $"url_string" $"00000000-0000-0000-0000-000000000000" 103 $"url_tool" (JObj [($"url",
     JStr $"https://example.com/path?q=1&lang=en")]);
   Vector $"mixed_types" $"ffffffff-ffff-ffff-ffff-ffffffffffff" 0 $"mixed" (JObj [($"score",
     JFloat (FFin false [9; 8; 6] (2))); ($"name", JStr $"test"); ($"active", JBool false); ($"tags",
     JArr [JStr $"x"; JStr $"y"]); ($"meta", JObj [($"v", JInt 2)])])].

(** [INPUTS]. *)
Definition INPUTS : list vector :=
  MINIMAL ++ PRIMITIVES ++ LISTS ++ NESTED ++ STRINGS ++ PATTERNS ++ EDGE_CASES.

(** ** [build_fixtures] *)

Section build.
Variable blake3_hexdigest : bytes → pystr.

(** The body of the loop. *)
Definition build_fixture (item : vector) : res (list (pystr * json)) :=
  expected_json ← canonical_json (v_args item);
  expected_signature ← call_signature blake3_hexdigest (v_session_id item) (v_step_index item)
                         (v_tool_name item) (v_args item);
  inr [($"name", JStr (v_name item)); ($"session_id", JStr (v_session_id item));
       ($"step_index", JInt (v_step_index item)); ($"tool_name", JStr (v_tool_name item));
       ($"args", v_args item); ($"expected_json", JStr expected_json);
       ($"expected_signature", JStr expected_signature)].

Fixpoint build_loop (inputs : list vector) (fixtures : list (list (pystr * json)))
    : res (list (list (pystr * json))) :=
  match inputs with
  | [] => inr fixtures
  | item :: inputs => fixture ← build_fixture item; build_loop inputs (fixtures ++ [fixture])
  end.

Definition build_fixtures (inputs : list vector) : res (list (list (pystr * json))) :=
  build_loop inputs [].
End build.

(** ** The committed vectors

    The name, the arguments and the expected canonical text of every entry of
    [cross-language-signatures.json]. *)
Definition COMMITTED : list (pystr * json * pystr) :=
  [($"empty_args", JObj [], $"{}");
   ($"single_key", JObj [($"msg", JStr $"hello")], (quoted $"{'msg':'hello'}"));
   ($"two_keys_sorted", JObj [($"b", JInt 2); ($"a", JInt 1)], (quoted $"{'a':1,'b':2}"));
   ($"three_keys_sorted", JObj [($"c", JInt 3); ($"a", JInt 1); ($"b", JInt 2)],
     (quoted $"{'a':1,'b':2,'c':3}"));
   ($"many_keys", JObj [($"z", JInt 0); ($"y", JInt 1); ($"x", JInt 2); ($"w", JInt 3); ($"v", JInt 4); ($"u",
     JInt 5); ($"t", JInt 6); ($"s", JInt 7); ($"r", JInt 8); ($"q", JInt 9); ($"p", JInt 10); ($"o", JInt 11);
     ($"n", JInt 12); ($"m", JInt 13); ($"l", JInt 14); ($"k", JInt 15); ($"j", JInt 16); ($"i", JInt 17); ($"h",
     JInt 18); ($"g", JInt 19); ($"f", JInt 20); ($"e", JInt 21); ($"d", JInt 22); ($"c", JInt 23); ($"b",
     JInt 24); ($"a", JInt 25)],
     (quoted $"{'a':25,'b':24,'c':23,'d':22,'e':21,'f':20,'g':19,'h':18,'i':17,'j':16,'k':15,'l':14,'m':13,'n':12,'o':11,'p':10,'q':9,'r':8,'s':7,'t':6,'u':5,'v':4,'w':3,'x':2,'y':1,'z':0}"));
   ($"int_arg", JObj [($"value", JInt 42)], (quoted $"{'value':42}"));
   ($"float_arg", JObj [($"value", JFloat (FFin false [3; 1; 4] (1)))], (quoted $"{'value':3.14}"));
   ($"negative_zero", JObj [($"value", JFloat (FZero true))], (quoted $"{'value':0}"));
   ($"positive_zero", JObj [($"value", JFloat (FZero false))], (quoted $"{'value':0}"));
   ($"small_exponential", JObj [($"value", JFloat (FFin false [1] (-6)))], (quoted $"{'value':1e-7}"));
   ($"large_exponential", JObj [($"value", JFloat (FFin false [1] (22)))], (quoted $"{'value':1e+21}"));
   ($"denormal_float", JObj [($"value", JFloat (FFin false [5] (-323)))], (quoted $"{'value':5e-324}"));
   ($"max_safe_integer", JObj [($"value", JInt 9007199254740991)], (quoted $"{'value':9007199254740991}"));
   ($"negative_numbers", JObj [($"a", JInt (-1)); ($"b", JInt (-42)); ($"c", JInt (-999999))],
     (quoted $"{'a':-1,'b':-42,'c':-999999}"));
   ($"bool_true", JObj [($"enabled", JBool true)], (quoted $"{'enabled':true}"));
   ($"bool_false", JObj [($"enabled", JBool false)], (quoted $"{'enabled':false}"));
   ($"null_arg", JObj [($"value", JNull)], (quoted $"{'value':null}"));
   ($"mixed_bool_null", JObj [($"a", JBool true); ($"b", JNull); ($"c", JBool false)],
     (quoted $"{'a':true,'b':null,'c':false}"));
   ($"int_list", JObj [($"ids", JArr [JInt 1; JInt 2; JInt 3])], (quoted $"{'ids':[1,2,3]}"));
   ($"mixed_list", JObj [($"data", JArr [JInt 1; JStr $"two"; JBool true; JNull])],
     (quoted $"{'data':[1,'two',true,null]}"));
   ($"nested_list", JObj [($"matrix", JArr [JArr [JInt 1; JInt 2]; JArr [JInt 3; JInt 4]])],
     (quoted $"{'matrix':[[1,2],[3,4]]}"));
   ($"empty_list", JObj [($"items", JArr [])], (quoted $"{'items':[]}"));
   ($"list_with_dicts", JObj [($"items", JArr [JObj [($"b", JInt 2); ($"a", JInt 1)]; JObj [($"d", JInt 4);
     ($"c", JInt 3)]])], (quoted $"{'items':[{'a':1,'b':2},{'c':3,'d':4}]}"));
   ($"nested_dict", JObj [($"a", JObj [($"b", JInt 1)])], (quoted $"{'a':{'b':1}}"));
   ($"double_nested", JObj [($"a", JObj [($"b", JObj [($"c", JInt 1)])])], (quoted $"{'a':{'b':{'c':1}}}"));
   ($"deep_nesting", JObj [($"l0", JObj [($"l1", JObj [($"l2", JObj [($"l3", JObj [($"l4", JInt 1)])])])])],
     (quoted $"{'l0':{'l1':{'l2':{'l3':{'l4':1}}}}}"));
   ($"nested_key_order", JObj [($"z", JObj [($"a", JInt 1); ($"z", JInt 2)]); ($"a", JObj [($"z", JInt 3);
     ($"a", JInt 4)])], (quoted $"{'a':{'a':4,'z':3},'z':{'a':1,'z':2}}"));
   ($"nested_empty", JObj [($"a", JObj []); ($"b", JArr [])], (quoted $"{'a':{},'b':[]}"));
   ($"unicode_bmp", JObj [($"v", JStr [104; 101; 108; 108; 111; 233])], (quoted $"{'v':'hello\u00e9'}"));
   ($"unicode_supplementary", JObj [($"v", JStr [128512])], (quoted $"{'v':'\ud83d\ude00'}"));
   ($"unicode_null_char", JObj [($"v", JStr [0])], (quoted $"{'v':'\u0000'}"));
   ($"unicode_control_chars", JObj [($"v", JStr [1; 2; 31])], (quoted $"{'v':'\u0001\u0002\u001f'}"));
   ($"unicode_backslash", JObj [($"v", JStr $"a\b")], (quoted $"{'v':'a\\b'}"));
   ($"unicode_quote", JObj [($"v", JStr (quoted $"a'b"))], (quoted $"{'v':'a\'b'}"));
   ($"special_chars", JObj [($"v", JStr [108; 105; 110; 101; 49; 10; 108; 105; 110; 101; 50; 9; 116; 97; 98])],
     (quoted $"{'v':'line1\nline2\ttab'}"));
   ($"empty_string", JObj [($"v", JStr [])], (quoted $"{'v':''}"));
   ($"long_string", JObj [($"v", JStr (replicate 1000 120))],
     (quoted $"{'v':'xxxxxxxxxxxxxxxxxxxxxxxxxxxxxxxxxxxxxxxxxxxxxxxxxxxxxxxxxxxxxxxxxxxxxxxxxxxxxxxxxxxxxxxxxxxxxxxxxxxxxxxxxxxxxxxxxxxxxxxxxxxxxxxxxxxxxxxxxxxxxxxxxxxxxxxxxxxxxxxxxxxxxxxxxxxxxxxxxxxxxxxxxxxxxxxxxxxxxxxxxxxxxxxxxxxxxxxxxxxxxxxxxxxxxxxxxxxxxxxxxxxxxxxxxxxxxxxxxxxxxxxxxxxxxxxxxxxxxxxxxxxxxxxxxxxxxxxxxxxxxxxxxxxxxxxxxxxxxxxxxxxxxxxxxxxxxxxxxxxxxxxxxxxxxxxxxxxxxxxxxxxxxxxxxxxxxxxxxxxxxxxxxxxxxxxxxxxxxxxxxxxxxxxxxxxxxxxxxxxxxxxxxxxxxxxxxxxxxxxxxxxxxxxxxxxxxxxxxxxxxxxxxxxxxxxxxxxxxxxxxxxxxxxxxxxxxxxxxxxxxxxxxxxxxxxxxxxxxxxxxxxxxxxxxxxxxxxxxxxxxxxxxxxxxxxxxxxxxxxxxxxxxxxxxxxxxxxxxxxxxxxxxxxxxxxxxxxxxxxxxxxxxxxxxxxxxxxxxxxxxxxxxxxxxxxxxxxxxxxxxxxxxxxxxxxxxxxxxxxxxxxxxxxxxxxxxxxxxxxxxxxxxxxxxxxxxxxxxxxxxxxxxxxxxxxxxxxxxxxxxxxxxxxxxxxxxxxxxxxxxxxxxxxxxxxxxxxxxxxxxxxxxxxxxxxxxxxxxxxxxxxxxxxxxxxxxxxxxxxxxxxxxxxxxxxxxxxxxxxxxxxxxxxxxxxxxxxxxxxxxxxxxxxxxxxxxxxxxxxxxxxxxxxxxxxxxxxxxxxxxxxxxxxxxxxxxxxxxxxxxxxxxxxxxxxxxxxxxxxxxxxxxxxxxxxxxxxxxxxxxxxxxxxxxxxxxxxxxxxxxxxxxxxxxxxxxxxxxxxxxxxxxxxxxxxxxxxxxxxx'}"));
   ($"whitespace_string", JObj [($"v", JStr [32; 32; 9; 10; 32; 32])], (quoted $"{'v':'  \t\n  '}"));
   ($"unicode_key_bmp", JObj [([107; 233; 121], JStr $"value")], (quoted $"{'k\u00e9y':'value'}"));
   ($"unicode_key_supplementary", JObj [([128512; 107; 101; 121], JStr $"value")],
     (quoted $"{'\ud83d\ude00key':'value'}"));
   ($"unicode_key_control", JObj [([107; 0; 101; 121], JStr $"value")], (quoted $"{'k\u0000ey':'value'}"));
   ($"all_types", JObj [($"a", JInt 1); ($"b", JStr $"two"); ($"c", JNull); ($"d", JBool true); ($"e",
     JBool false); ($"f", JArr [JInt 1; JInt 2]); ($"g", JObj [($"x", JInt 1)])],
     (quoted $"{'a':1,'b':'two','c':null,'d':true,'e':false,'f':[1,2],'g':{'x':1}}"));
   ($"numeric_string", JObj [($"v", JStr $"12345")], (quoted $"{'v':'12345'}"));
   ($"url_string", JObj [($"v", JStr $"https://example.com/path?q=1&r=2")],
     (quoted $"{'v':'https://example.com/path?q=1&r=2'}"));
   ($"search_tool", JObj [($"query", JStr $"rust blake3 crate"); ($"limit", JInt 5)],
     (quoted $"{'limit':5,'query':'rust blake3 crate'}"));
   ($"email_tool", JObj [($"to", JStr $"alice@example.com"); ($"subject", JStr $"Hello"); ($"body",
     JStr $"Hi!")], (quoted $"{'body':'Hi!','subject':'Hello','to':'alice@example.com'}"));
   ($"transfer_tool", JObj [($"from", JStr $"acc_1"); ($"to", JStr $"acc_2"); ($"amount",
     JFloat (FFin false [1; 0; 0; 5] (3)))], (quoted $"{'amount':100.5,'from':'acc_1','to':'acc_2'}"));
   ($"create_record", JObj [($"table", JStr $"users"); ($"data", JObj [($"name", JStr $"Bob"); ($"age",
     JInt 30)])], (quoted $"{'data':{'age':30,'name':'Bob'},'table':'users'}"));
   ($"batch_operation", JObj [($"ops", JArr [JObj [($"action", JStr $"create"); ($"id", JInt 1)];
     JObj [($"action", JStr $"update"); ($"id", JInt 2); ($"patch", JObj [($"name", JStr $"Alice")])]])],
     (quoted $"{'ops':[{'action':'create','id':1},{'action':'update','id':2,'patch':{'name':'Alice'}}]}"))].
End Fixtures.

(** ** The signature fixtures *)

From S2P Require Import PyFacts Canonical JsonRead CanonicalParse.
Import Fixtures.

(** [canonical_json] produces the text that is committed for every vector
    the SDKs of the three languages are tested against: all forty-nine of them,
    with their floats at the limits of exponential notation, control characters,
    supplementary planes and unsorted keys. *)
Theorem committed_vectors_hold :
  Forall (λ v, canonical_json v.1.2 = inr v.2) COMMITTED ∧ length COMMITTED = 49%nat.
Proof.
  split; [|reflexivity].
  assert (forallb (λ v, match canonical_json v.1.2 with inr t => str_eqb t v.2 | inl _ => false end)
    COMMITTED = true) as H by (vm_compute; reflexivity).
  apply forallb_Forall in H. eapply Forall_impl; [exact H|]. intros v Hv. cbv beta in Hv.
  destruct (canonical_json v.1.2) as [e|t]; [done|]. by apply str_eqb_eq in Hv as ->.
Qed.

(** No text occurs twice. *)
Fixpoint distinct (l : list pystr) : bool :=
  match l with [] => true | s :: l => negb (existsb (str_eqb s) l) && distinct l end.

Lemma distinct_NoDup l : distinct l = true → NoDup l.
Proof.
  induction l as [|s l IH]; cbn [distinct]; [constructor|].
  intros [Hs%negb_true_iff Hl]%andb_prop. constructor; [|auto]. intros Hin.
  rewrite existsb_false_iff in Hs. specialize (Hs s Hin). by rewrite str_eqb_refl in Hs.
Qed.

Section build.
Variable blake3_hexdigest : bytes → pystr.
Abbreviation build_fixture := (build_fixture blake3_hexdigest).
Abbreviation build_fixtures := (build_fixtures blake3_hexdigest).

Lemma build_loop_spec inputs fs out :
  build_loop blake3_hexdigest inputs fs = inr out ↔
  ∃ out', out = fs ++ out' ∧ Forall2 (λ v f, build_fixture v = inr f) inputs out'.
Proof.
  revert fs. induction inputs as [|v inputs IH]; intros fs; cbn [build_loop].
  - split; [intros [= <-]; exists []; rewrite app_nil_r; by split|].
    intros (out' & -> & H). inversion H. by rewrite app_nil_r.
  - destruct (build_fixture v) as [e|f] eqn:E; cbn [mbind res_bind].
    + split; [done|]. intros (out' & _ & H). inversion H. congruence.
    + rewrite IH. split.
      * intros (out' & -> & H). exists (f :: out'). rewrite <-app_assoc. split; [done|by constructor].
      * intros (out' & -> & H). inversion H as [|v' f' ? out'' Hf H']; subst.
        assert (f' = f) as -> by congruence. exists out''. by rewrite <-app_assoc.
Qed.

(** The byte stream hashed for a vector. *)
Definition preimage (v : vector) : res bytes :=
  signature_preimage (v_session_id v) (v_step_index v) (v_tool_name v) (v_args v).

Lemma build_fixture_spec v b :
  preimage v = inr b →
  ∃ text, canonical_json (v_args v) = inr text ∧
    build_fixture v = inr
      [($"name", JStr (v_name v)); ($"session_id", JStr (v_session_id v));
       ($"step_index", JInt (v_step_index v)); ($"tool_name", JStr (v_tool_name v));
       ($"args", v_args v); ($"expected_json", JStr text);
       ($"expected_signature", JStr (blake3_hexdigest b))].
Proof.
  intros E. pose proof E as (u & text & nb & ab & _ & Et & _)%preimage_inv.
  exists text. split; [done|]. unfold Fixtures.build_fixture, call_signature. rewrite Et.
  unfold preimage in E. by rewrite E.
Qed.

(** Every vector of the script has a byte stream, and no two have the same. *)
Definition streams : list bytes :=
  Eval vm_compute in omap (λ v, match preimage v with inr b => Some b | inl _ => None end) INPUTS.

Lemma inputs_streams : Forall2 (λ v b, preimage v = inr b) INPUTS streams.
Proof.
  assert (map preimage INPUTS = map inr streams) as H by (vm_compute; reflexivity).
  revert H. generalize streams. induction INPUTS as [|v vs IH]; intros [|b bs] H; try done.
  injection H as Hv H. constructor; [exact Hv|by apply IH].
Qed.

Lemma streams_distinct : NoDup streams.
Proof. apply distinct_NoDup. vm_compute. reflexivity. Qed.

(** The script's fixtures tell every pair of vectors apart. It produces one
    fixture per vector, in order, with the vector's fields unchanged; and two
    fixtures with the same signature would exhibit a collision of the hash. *)
Theorem script_fixtures_are_distinct :
  ∃ fs, build_fixtures INPUTS = inr fs ∧ length fs = length INPUTS ∧
    (∀ i v f, INPUTS !! i = Some v → fs !! i = Some f →
       dict_get $"name" f = Some (JStr (v_name v)) ∧ dict_get $"args" f = Some (v_args v) ∧
       ∃ text, canonical_json (v_args v) = inr text ∧ dict_get $"expected_json" f = Some (JStr text)) ∧
    (∀ i j f g, fs !! i = Some f → fs !! j = Some g → i ≠ j →
       dict_get $"expected_signature" f = dict_get $"expected_signature" g →
       ∃ x y, x ≠ y ∧ blake3_hexdigest x = blake3_hexdigest y).
Proof.
  assert (∃ fs, Forall2 (λ v f, build_fixture v = inr f) INPUTS fs ∧
    Forall2 (λ b f, dict_get $"expected_signature" f = Some (JStr (blake3_hexdigest b))) streams fs)
    as (fs & Hf & Hsig).
  { pose proof inputs_streams as H. revert H. generalize streams. generalize INPUTS.
    induction 1 as [|v b vs bs Hv _ (fs & H1 & H2)]; [by exists []|].
    destruct (build_fixture_spec v b Hv) as (text & _ & E). by eexists (_ :: fs); split; constructor. }
  exists fs. split_and!.
  - apply build_loop_spec. by exists fs.
  - symmetry. by eapply Forall2_length.
  - intros i v f Hi Hfi. destruct (Forall2_lookup_l _ _ _ _ _ inputs_streams Hi) as (b & _ & Hb).
    destruct (build_fixture_spec v b Hb) as (text & Et & E).
    rewrite (Forall2_lookup_lr _ _ _ _ _ _ Hf Hi Hfi) in E. injection E as ->. eauto.
  - intros i j f g Hi Hj Hij Heq.
    destruct (Forall2_lookup_r _ _ _ _ _ Hsig Hi) as (x & Hx & Ex).
    destruct (Forall2_lookup_r _ _ _ _ _ Hsig Hj) as (y & Hy & Ey).
    rewrite Ex, Ey in Heq. injection Heq as Heq. exists x, y. split; [|done].
    intros ->. apply Hij. by eapply NoDup_lookup; [apply streams_distinct|..].
Qed.
End build.
