(* ===== verification/Demos.v ===== *)
(** * The demonstration scripts
    ([approval_demo.py], [replay_demo.py], [multi_tenant_demo.py],
    [compensation_demo.py] in [examples/langchain-support-agent])

    Scripts that drive the tools, the client and the proxy in a fixed order.
    What they log is left out, apart from the values a branch of the script
    depends on. The proxy and the tool server are arguments. *)

From S2P Require Import Prelude Py Json JsonRead Errors Client Tool LangGraph JsonRoundtrip.
From S2P Require Import ExampleTools Agents Dashboard.
Open Scope Z_scope.
Open Scope undolog_scope.

Module Demos.

Abbreviation dict := (list (pystr * json)).

(** [UNDOLOG_PROXY_URL], [UNDOLOG_API_KEY] and [UNDOLOG_ORG_ID], when set. *)
Record settings := Settings {
  set_proxy_url : option pystr;
  set_api_key : option pystr;
  set_org_id : option pystr;
}.

Section scripts.
Context {E : Type}.
Variable cfg : settings.
Abbreviation act := (M (agent E)).
Abbreviation tool_fn := (dict → option nat → act json).

(** The HTTP library: a request to an absolute URL, and a POST to the tool
    server. *)
Variable http : http_request → E → http_outcome * E.
Variable http_post : pystr → json → E → ExampleTools.post_outcome * E.
Variable is_success : Z → bool.
Variable repr_status py_str : json → pystr.
Variable tool_text : ExampleTools.tool_exc → pystr.
Variable float_of_text : pystr → pyfloat.
Variable fresh_uuid : E → pystr * E.
(** Whether an exception is a [RuntimeError]. *)
Variable is_runtime_error : sdk_exc → bool.

(** ** Shared helpers *)

Definition proxy_url : pystr := default $"http://localhost:8080" (set_proxy_url cfg).
Definition demo_org : pystr := default $"org_demo" (set_org_id cfg).

(** [_headers]. *)
Definition headers : list (pystr * pystr) :=
  [($"X-UndoLog-Org-Id", demo_org); ($"Content-Type", $"application/json")]
  ++ match default [] (set_api_key cfg) with [] => [] | key => [($"X-Api-Key", key)] end.

(** A request, [raise_for_status] and [resp.json()]; the text of a
    [RequestError] is returned for the caller to raise or catch. *)
Definition request (method path : pystr) (hs : list (pystr * pystr)) (body : json) : act (pystr + json) :=
  out ← lift_ext (λ e, let '(o, e') := http (HttpRequest method (proxy_url ++ path) hs body) e in
                       (inr o, e'));
  match out with
  | HTimeout text _ | HConnectError text _ | HHttpError text _ => mret (inl text)
  | HResponse status _ body =>
      if is_success status then match body with Some v => mret (inr v) | None => raise EBadJson end
      else raise (EHttpStatus status)
  end.

Definition or_raise (m : act (pystr + json)) : act json :=
  r ← m; match r with inl text => raise (ETool text) | inr v => mret v end.

(** The tool server, called directly. *)
Definition call_mock_tool (server_url tool_name : pystr) (args : dict) : act json :=
  r ← lift_ext (λ e, let '(r, e') := ExampleTools.call_tool http_post is_success float_of_text
                                       server_url tool_name args e in (inr r, e'));
  match r with inl x => raise (ETool (tool_text x)) | inr v => mret v end.

(** A tool of a registry, [tools[name]]. *)
Definition call_registered (registry : list (pystr * tool_fn)) (name : pystr) (args : dict) (l : nat)
    : act json :=
  match dict_get name registry with
  | None => raise (ETool name)
  | Some fn => Agents.call_kw fn args (Some l)
  end.

(** ** [approval_demo.py] *)

Definition approve_via_api (approval_id : pystr) : act json :=
  or_raise (request $"POST" ($"/approvals/" ++ approval_id ++ $"/approve") headers
    (JObj [($"actor", JStr $"approval_demo"); ($"note", JStr $"Auto-approved by demo script")])).

Definition fetch_approvals (state : pystr) : act json :=
  or_raise (request $"GET" ($"/approvals?state=" ++ state) headers JNull).

Definition health_check : act (pystr + json) := request $"GET" $"/health" [] JNull.

(** [r.get("id") == approval_id], for identifiers that are texts or [None]. *)
Definition has_id (approval_id : json) (r : dict) : bool :=
  match default JNull (dict_get $"id" r), approval_id with
  | JStr a, JStr b => str_eqb a b
  | JNull, JNull => true
  | _, _ => false
  end.

(** [[r for r in records if r.get("id") == approval_id]]. *)
Fixpoint with_id (approval_id : json) (records : list json) : act (list dict) :=
  match records with
  | [] => mret []
  | JObj r :: records =>
      rest ← with_id approval_id records;
      mret (if has_id approval_id r then r :: rest else rest)
  | _ :: _ => raise EAttribute
  end.

Definition matching (approval_id v : json) : act (list dict) :=
  match v with
  | JArr l => with_id approval_id l
  | JObj [] | JStr [] => mret []
  | JObj _ | JStr _ => raise EAttribute
  | _ => raise EType
  end.

(** What the script reports: where it stopped, or whether the approval was
    among the pending ones, the execution the proxy reports for it, and whether
    it is among the approved ones. *)
Inductive approval_report :=
| ProxyUnreachable
| NotHeld
| NoApprovalId
| Lifecycle (was_pending : bool) (execution : json) (is_approved : bool).

Definition some_found (l : list dict) : bool := match l with [] => false | _ => true end.

Definition approval_main (registry : list (pystr * tool_fn)) : act approval_report :=
  health ← health_check;
  match health with
  | inl _ => mret ProxyUnreachable
  | inr _ =>
      session ← LangGraph.open_session fresh_uuid py_str demo_org None 0;
      _ ← call_registered registry $"lookup_customer" [($"customer_id", JStr $"cust_42")] session;
      _ ← call_registered registry $"send_email"
            [($"to", JStr $"alice@example.com"); ($"subject", JStr $"Your support request");
             ($"body", JStr $"We are looking into it.")] session;
      held ← attempt
        (_ ← call_registered registry $"escalate_case"
               [($"ticket_id", JStr $"TKT-42");
                ($"reason", JStr $"Premium customer, dashboard inaccessible")] session;
         mret None)
        (λ exc, match LangGraph.awaiting_of exc with
                | Some attrs => mret (Some (LangGraph.attr $"approval_id" attrs))
                | None => raise exc
                end);
      match held with
      | None => mret NotHeld
      | Some approval_id =>
          pending ← fetch_approvals $"pending";
          found ← matching approval_id pending;
          match approval_id with
          | JNull => mret NoApprovalId
          | _ =>
              response ← approve_via_api (Dashboard.format_text py_str approval_id);
              match response with
              | JObj d =>
                  approved ← fetch_approvals $"approved";
                  resolved ← matching approval_id approved;
                  mret (Lifecycle (some_found found)
                          (default (JStr $"unknown") (dict_get $"execution" d)) (some_found resolved))
              | _ => raise EAttribute
              end
          end
      end
  end.

(** ** [replay_demo.py] *)

(** [_call_tool]: the proxy's endpoint, without the SDK's client. *)
Definition call_proxy (session_id tool_name : pystr) (step_index : Z) (args : json) : act json :=
  or_raise (request $"POST" $"/mcp/tool_call" headers
    (JObj [($"session_id", JStr session_id); ($"tool_name", JStr tool_name);
           ($"tool_version", JStr $"1.0.0"); ($"step_index", JInt step_index); ($"args", args)])).

(** [_call_mock_server], and the body of the SAFE tool [lookup_plan]. *)
Definition call_mock_server (server tool_name : pystr) (args : dict) : E → (ExampleTools.tool_exc + json) * E :=
  ExampleTools.call_tool http_post is_success float_of_text server tool_name args.
Definition lookup_plan (server : pystr) (plan_id : json) : E → (ExampleTools.tool_exc + json) * E :=
  call_mock_server server $"lookup_plan" [($"plan_id", plan_id)].

Definition field (k : pystr) (v : json) : act json :=
  match v with JObj d => mret (default JNull (dict_get k d)) | _ => raise EAttribute end.

(** The status and the effect of the three calls of steps two to four. *)
Definition replay_calls (session_id : pystr) : act (list (json * json)) :=
  let args_a := JObj [($"amount", JInt 100); ($"currency", JStr $"USD")] in
  data1 ← call_proxy session_id $"charge_payment" 1 args_a;
  s1 ← field $"status" data1; e1 ← field $"effect_id" data1;
  data2 ← call_proxy session_id $"charge_payment" 1 args_a;
  s2 ← field $"status" data2; e2 ← field $"effect_id" data2;
  let args_b := JObj [($"amount", JInt 200); ($"currency", JStr $"EUR")] in
  data3 ← call_proxy session_id $"charge_payment" 2 args_b;
  s3 ← field $"status" data3; e3 ← field $"effect_id" data3;
  mret [(s1, e1); (s2, e2); (s3, e3)].

Definition replay_main (plan_tool : tool_fn) : act (option (list (json * json))) :=
  health ← health_check;
  match health with
  | inl _ => mret None
  | inr _ =>
      safe_session ← LangGraph.open_session fresh_uuid py_str demo_org None 0;
      _ ← Agents.call_kw plan_tool [($"plan_id", JStr $"enterprise")] (Some safe_session);
      session_id ← lift_ext (λ e, let '(u, e') := fresh_uuid e in (inr u, e'));
      calls ← replay_calls session_id;
      mret (Some calls)
  end.

(** ** [multi_tenant_demo.py] *)

(** [_run_org_alpha]; whether the approval was sent. *)
Definition run_org_alpha (registry : list (pystr * tool_fn)) : act bool :=
  session ← LangGraph.open_session fresh_uuid py_str $"org-alpha" None 0;
  _ ← call_registered registry $"lookup_customer" [($"customer_id", JStr $"cust_101")] session;
  _ ← call_registered registry $"send_email"
        [($"to", JStr $"alpha@example.com"); ($"subject", JStr $"Your org-alpha ticket");
         ($"body", JStr $"We received your request.")] session;
  held ← attempt
    (_ ← call_registered registry $"escalate_case"
           [($"ticket_id", JStr $"TKT-001"); ($"reason", JStr $"VIP customer needs priority handling")]
           session;
     mret None)
    (λ exc, match LangGraph.awaiting_of exc with
            | Some attrs => mret (Some (LangGraph.attr $"approval_id" attrs))
            | None => raise exc
            end);
  match held with
  | None => mret false
  | Some v =>
      match id_text py_str v with
      | None => mret false
      | Some approval_id =>
          _ ← or_raise (request $"POST" ($"/approvals/" ++ approval_id ++ $"/approve")
                [($"X-Api-Key", $"dev-key"); ($"Content-Type", $"application/json")]
                (JObj [($"actor", JStr $"multi_tenant_demo"); ($"note", JStr $"Auto-approved")]));
          mret true
      end
  end.

(** The client's methods on the session a location names. *)
Definition in_session {A} (l : nat) (f : session → M E A) : act A :=
  s ← LangGraph.session_at l; lift_ext (f s).

Definition beta_email : dict :=
  [($"to", JStr $"beta@example.com"); ($"subject", JStr $"Your org-beta ticket");
   ($"body", JStr $"We are on it.")].

(** [_run_org_beta]: the tool is called whatever the outcome of the intercept. *)
Definition run_org_beta (tool_server : pystr) : act () :=
  let key := $"dev-key-2" in
  session ← LangGraph.open_session fresh_uuid py_str $"org-beta" None 0;
  _ ← call_mock_tool tool_server $"lookup_customer" [($"customer_id", JStr $"cust_202")];
  step ← next_step session;
  intercept ← in_session session (λ s, intercept_call http is_success repr_status key
    (org_id s) (session_id s) $"send_email" step (JObj beta_email));
  result ← call_mock_tool tool_server $"send_email" beta_email;
  _ ← match id_text py_str (ir_effect_id intercept) with
      | Some id => in_session session (λ s, commit_call http is_success key (org_id s) (session_id s) id result)
      | None => mret JNull
      end;
  step2 ← next_step session;
  intercept2 ← in_session session (λ s, intercept_call http is_success repr_status key
    (org_id s) (session_id s) $"create_ticket" step2
    (JObj [($"customer_id", JStr $"cust_202"); ($"priority", JStr $"high");
           ($"description", JStr $"Dashboard login failure")]));
  _ ← match id_text py_str (ir_effect_id intercept2) with
      | Some id =>
          in_session session (λ s, fail_call http is_success key (org_id s) (session_id s) id
            $"Downstream ticket service unreachable")
      | None => mret JNull
      end;
  mret ().

(** [_format_event]. *)
Definition format_event (label : pystr) (e : Dashboard.event) : Dashboard.dash_exc + pystr :=
  let icon := default $"  ?" (dict_get (Dashboard.type e) Dashboard.EVENT_ICONS) in
  ts ← Dashboard.clock_text (Dashboard.timestamp e);
  let id_part (tag : pystr) (v : json) : Dashboard.dash_exc + list pystr :=
    if truthy v then
      short ← Dashboard.short_id v; inr [tag ++ Dashboard.format_text py_str short]
    else inr [] in
  sess ← id_part $"sess=" (Dashboard.session_id e);
  eff ← id_part $"eff=" (Dashboard.effect_id e);
  appr ← id_part $"appr=" (Dashboard.approval_id e);
  inr (join $" " ([ $"  [" ++ label ++ $"]"; $"[" ++ Dashboard.format_text py_str ts ++ $"]"; icon;
                    Dashboard.type e ] ++ sess ++ eff ++ appr)).

(** The approvals an organisation is shown: the length of a list, else zero. *)
Definition count_approvals (v : json) : nat := match v with JArr l => length l | _ => O end.

Definition isolation_check (key : pystr) : act nat :=
  v ← or_raise (request $"GET" $"/approvals" [($"X-Api-Key", key)] JNull);
  mret (count_approvals v).

(** ** [compensation_demo.py] *)

(** [_call_tool]. *)
Definition call_tool (server tool_name : pystr) (args : dict) : E → (ExampleTools.tool_exc + json) * E :=
  ExampleTools.call_tool http_post is_success float_of_text server tool_name args.

(** The bodies of the demo's tools; [lookup_user] is SAFE, the others are
    COMPENSABLE. *)
Definition lookup_user (server : pystr) (user_id : json) : E → (ExampleTools.tool_exc + json) * E :=
  call_tool server $"lookup_user" [($"user_id", user_id)].

Definition notify_user (server : pystr) (to subject body : json) : E → (ExampleTools.tool_exc + json) * E :=
  call_tool server $"notify_user"
    [($"to", to); ($"subject", subject); ($"body", body)].

Definition open_ticket (server : pystr) (user_id priority description : json)
    : E → (ExampleTools.tool_exc + json) * E :=
  call_tool server $"open_ticket"
    [($"user_id", user_id); ($"priority", priority); ($"description", description)].

Definition assign_engineer (server : pystr) (ticket_id engineer : json)
    : E → (ExampleTools.tool_exc + json) * E :=
  call_tool server $"assign_engineer"
    [($"ticket_id", ticket_id); ($"engineer", engineer)].

(** The tool calls the server first, and fails afterwards when it is told to. *)
Definition escalate_ticket (server : pystr) (ticket_id reason : json) (fail : bool) (e : E)
    : (ExampleTools.tool_exc + json) * E :=
  match call_tool server $"escalate_ticket"
          [($"ticket_id", ticket_id); ($"reason", reason)] e with
  | (inr result, e') =>
      if fail then
        (inl (ExampleTools.TRuntime
           ($"Downstream escalation service unreachable for ticket "
            ++ ExampleTools.format_text py_str ticket_id)), e')
      else (inr result, e')
  | out => out
  end.

(** The descriptors of the four compensable tools. *)
Definition compensations : list (pystr * CompensationDescriptor) :=
  [($"notify_user", new_compensation $"compensate_send_email"
      (Some [($"to", JStr $"{to}"); ($"subject", JStr $"{subject}"); ($"body", JStr $"{body}")]));
   ($"open_ticket", Compensation $"compensate_create_ticket" $"1.0.0"
      [($"ticket_id", JStr $"{ticket_id}")] 5 500);
   ($"assign_engineer", Compensation $"compensate_assign_engineer" $"2.0.0"
      [($"ticket_id", JStr $"{ticket_id}"); ($"engineer", JStr $"{engineer}")] 3 1000);
   ($"escalate_ticket", new_compensation $"compensate_escalate"
      (Some [($"ticket_id", JStr $"{ticket_id}"); ($"reason", JStr $"{reason}")]))].

(** The calls of [main] through the decorated tools; a [RuntimeError] of the
    last one is caught. The identifier of the ticket. *)
Definition compensation_main (lookup notify opening assign : tool_fn)
    (escalate : dict → option nat → act json) : act json :=
  session ← LangGraph.open_session fresh_uuid py_str demo_org None 0;
  let call (fn : tool_fn) args := Agents.call_kw fn args (Some session) in
  _ ← call lookup [($"user_id", JStr $"user_42")];
  _ ← call notify
        [($"to", JStr $"bob@example.com"); ($"subject", JStr $"Support ticket created");
         ($"body", JStr $"Your ticket TKT-abc has been opened.")];
  ticket ← call opening
        [($"user_id", JStr $"user_42"); ($"priority", JStr $"high");
         ($"description", JStr $"Cannot access enterprise dashboard")];
  match ticket with
  | JObj d =>
      match dict_get $"ticket_id" d with
      | None => raise (ETool $"ticket_id")
      | Some ticket_id =>
          _ ← call assign [($"ticket_id", ticket_id); ($"engineer", JStr $"sarah_senior")];
          attempt
            (_ ← call escalate [($"ticket_id", ticket_id); ($"reason", JStr $"Critical SLA breach");
                                ($"_fail", JBool true)];
             mret ticket_id)
            (λ exc, if is_runtime_error exc then mret ticket_id else raise exc)
      end
  | _ => raise EType
  end.
End scripts.
End Demos.
