(* ===== verification/DemosTheorems.v ===== *)
(** * What the demonstration scripts do

    The multi-tenant script against the mock tool server it is written for, and
    the requests of the replay script. *)

From S2P Require Import Prelude Py PyFacts Json Canonical JsonRead Signature CanonicalParse JsonRoundtrip.
From S2P Require Import Framing FramingFacts Errors Client Tool LangGraph MockServer MockTheorems.
From S2P Require Import ExampleTools ExampleToolsTheorems Agents Dashboard Demos.
Open Scope Z_scope.
Open Scope undolog_scope.
Import Mock.

Abbreviation dict := (list (pystr * json)).

Section multi_tenant.
Variable sha256_hexdigest : bytes → pystr.
Variable uuid4_hex : nat → pystr.
Variable py_str py_repr : json → pystr.
Variable float_int : pyfloat → option Z.
Variable float_of_text : pystr → pyfloat.
Variable encode : json → bytes.
Variable is_success : Z → bool.
Hypothesis encode_decodes : ∀ v, portable float_of_text v = true → loads_bytes float_of_text (encode v) = inr v.
Hypothesis refused_404 : is_success 404 = false.
Variable server_url : pystr.

(** The outside world: the proxy's, and the tool server's tables. *)
Variable P : Type.
Variable proxy : http_request → P → http_outcome * P.
Variable fresh : P → pystr * P.
Hypothesis fresh_keeps : ∀ p, (fresh p).2 = p.
Abbreviation E := (P * mock)%type.

Definition to_proxy (rq : http_request) (e : E) : http_outcome * E :=
  let '(o, p) := proxy rq e.1 in (o, (p, e.2)).
Definition to_tools (url : pystr) (payload : json) (e : E) : ExampleTools.post_outcome * E :=
  let '(o, m) := mock_post sha256_hexdigest uuid4_hex py_str py_repr float_int float_of_text encode
                   url payload e.2 in (o, (e.1, m)).
Definition draw_uuid (e : E) : pystr * E := let '(u, p) := fresh e.1 in (u, (p, e.2)).

Variable cfg : Demos.settings.
Variable repr_status : json → pystr.
Variable tool_text : ExampleTools.tool_exc → pystr.

Abbreviation serves_ := (serves sha256_hexdigest uuid4_hex py_str py_repr float_int float_of_text).
Abbreviation sendable_ := (sendable float_of_text encode).

(** The decorated tools of the registry. *)
Definition decorated (env_url env_key : option pystr) (session_param : pystr)
    (bind : list pystr → dict → option dict) (nt : pystr * ExampleTools.example_tool (S := E))
    : pystr * (dict → option nat → M (agent E) json) :=
  (nt.1, λ kwargs l,
     wrapper env_url env_key (λ _, to_proxy) is_success repr_status py_str dict nt.1
       (bind (ExampleTools.et_params nt.2))
       (λ args e, match ExampleTools.et_body nt.2 args e with
                  | (inl x, e') => (inl (tool_text x), e')
                  | (inr v, e') => (inr v, e')
                  end)
       session_param (ExampleTools.et_tier nt.2) (Some (ClientConfig [] [])) l kwargs).

Definition registry (env_url env_key : option pystr) (session_param : pystr)
    (bind : list pystr → dict → option dict) : list (pystr * (dict → option nat → M (agent E) json)) :=
  decorated env_url env_key session_param bind <$>
    ExampleTools.get_tool_registry to_tools is_success float_of_text server_url py_str.

(** A customer the tables do not have. *)
Lemma unknown_customer id s (p : P) :
  tget float_int (JStr id) (mk_customers s) = None →
  sendable_ $"lookup_customer" [($"customer_id", JStr id)] →
  ∃ s', ExampleTools.call_tool to_tools is_success float_of_text server_url
      $"lookup_customer" [($"customer_id", JStr id)] (p, s) =
    (inl (ExampleTools.TStatus 404), (p, s')).
Proof.
  intros Hid Hs. set (args := [($"customer_id", JStr id)]) in *.
  set (s' := add_call (JStr $"lookup_customer") (JObj args) s). exists s'.
  assert (ExampleTools.call_tool (mock_post sha256_hexdigest uuid4_hex py_str py_repr float_int
    float_of_text encode) is_success float_of_text server_url $"lookup_customer" args s =
    (inl (ExampleTools.TStatus 404), s')) as H.
  { eapply call_tool_refused; [done|done|reflexivity|done| |].
    - cbn [on_object]. unfold handle_lookup_customer, handle_lookup, lookup_in, mbind, H_bind, gets.
      change (arg args $"customer_id" (JStr [])) with (JStr id). cbn [hashable].
      cbn [mk_customers add_call]. rewrite Hid. reflexivity.
    - reflexivity. }
  unfold ExampleTools.call_tool in *. unfold to_tools. cbn [fst snd].
  destruct (mock_post _ _ _ _ _ _ _ _ _ s) as [[text|status body] s1]; [congruence|].
  destruct (is_success status); congruence.
Qed.

(** The tables of a server that has handled requests since it started. *)
Lemma reachable_customers s id :
  star serves_ initial s → tget float_int (JStr id) (mk_customers initial) = None →
  tget float_int (JStr id) (mk_customers s) = None.
Proof.
  intros Hs Hid. assert (mk_customers s = mk_customers initial) as ->; [|done].
  refine (star_invariant _ (λ s, mk_customers s = mk_customers initial) _ _ _ Hs eq_refl).
  intros s1 s2 H1 H12. etrans; [by eapply serves_keeps_customers|done].
Qed.

(** Opening a session draws an identifier and leaves the servers alone. *)
Lemma open_session_world org (a : agent E) :
  ∃ l a1, LangGraph.open_session draw_uuid py_str org None 0 a = (inr l, a1) ∧ ag_ext a1 = ag_ext a.
Proof.
  unfold LangGraph.open_session, draw_uuid. pose proof (fresh_keeps (ag_ext a).1) as Hf.
  destruct (fresh (ag_ext a).1) as [u p]. cbn [snd] in Hf. subst p. destruct (ag_ext a) as [p s] eqn:Ea.
  eexists _, _. split; [reflexivity|]. done.
Qed.

(** The multi-tenant demonstration stops at its first step. Both workflows
    begin by looking up a customer the tool server does not have, in every state
    the server can reach: [_run_org_beta] and [_run_org_alpha] raise the refused
    lookup, and no request is made to the proxy, so neither the approval nor the
    compensation path the script announces is taken. *)
Theorem tenants_stop_at_the_lookup env_url env_key session_param bind p s a :
  star serves_ initial s → ag_ext a = (p, s) →
  sendable_ $"lookup_customer" [($"customer_id", JStr $"cust_101")] →
  sendable_ $"lookup_customer" [($"customer_id", JStr $"cust_202")] →
  (∃ s' a', Demos.run_org_beta to_proxy to_tools is_success repr_status py_str tool_text float_of_text
      draw_uuid server_url a = (inl (ETool (tool_text (ExampleTools.TStatus 404))), a') ∧
    ag_ext a' = (p, s')) ∧
  (∃ s' a', Demos.run_org_alpha cfg to_proxy is_success py_str draw_uuid
      (registry env_url env_key session_param bind) a =
      (inl (ETool (tool_text (ExampleTools.TStatus 404))), a') ∧ ag_ext a' = (p, s')).
Proof.
  intros Hs Ha H1 H2.
  destruct (unknown_customer $"cust_202" s p) as (s2 & E2); [by apply reachable_customers|done|].
  destruct (unknown_customer $"cust_101" s p) as (s1 & E1); [by apply reachable_customers|done|].
  split.
  - destruct (open_session_world $"org-beta" a) as (l & a1 & Eo & Ea). rewrite Ha in Ea.
    eexists s2, _. unfold Demos.run_org_beta, mbind at 1, M_bind at 1. rewrite Eo.
    unfold mbind at 1, M_bind at 1, Demos.call_mock_tool, mbind at 1, M_bind at 1, lift_ext.
    rewrite Ea, E2. split; [reflexivity|]. done.
  - destruct (open_session_world $"org-alpha" a) as (l & a1 & Eo & Ea). rewrite Ha in Ea.
    eexists s1, _. unfold Demos.run_org_alpha, mbind at 1, M_bind at 1. rewrite Eo.
    unfold mbind at 1, M_bind at 1, Demos.call_registered. cbn [registry fmap list_fmap
      ExampleTools.get_tool_registry decorated fst snd dict_get]. rewrite str_eqb_refl.
    unfold Agents.call_kw. cbn [dict_get]. change (str_eqb $"_session" $"customer_id") with false. cbv iota.
    unfold wrapper, mbind, M_bind, mret, M_ret. cbn [ExampleTools.et_tier is_safe].
    unfold is_safe. rewrite bool_decide_eq_true_2 by done. unfold call_func, lift_ext.
    cbn [ExampleTools.et_body]. unfold ExampleTools.lookup_customer, ExampleTools.par. cbn [dict_get].
    rewrite str_eqb_refl, Ea. cbn [from_option id]. rewrite E1.
    split; [reflexivity|]. done.
Qed.
End multi_tenant.

(** ** The replay script *)

Section replay.
Context {E : Type}.
Variable cfg : Demos.settings.
Variable http : http_request → E → http_outcome * E.
Variable is_success : Z → bool.

(** The script sends the body that the SDK's client sends for the same call, so
    the proxy derives the same signature for both. *)
Lemma replay_body_is_the_clients session_id tool_name step args (a : agent E) status url v e' :
  http (HttpRequest $"POST" (Demos.proxy_url cfg ++ $"/mcp/tool_call") (Demos.headers cfg)
          (JObj [($"session_id", JStr session_id); ($"tool_name", JStr tool_name);
                 ($"tool_version", JStr $"1.0.0"); ($"step_index", JInt step); ($"args", args)]))
       (ag_ext a) = (HResponse status url (Some v), e') →
  is_success status = true →
  Demos.call_proxy cfg http is_success session_id tool_name step args a =
    (inr v, Agent (ag_sessions a) (ag_context a) (ag_default_client a) e').
Proof.
  intros Hh Hs. unfold Demos.call_proxy, Demos.or_raise, Demos.request, mbind, M_bind, lift_ext.
  rewrite Hh. by rewrite Hs.
Qed.
End replay.

(** ** The demonstration scripts on concrete servers *)

From S2P Require Import Journal Broadcaster World DevHandler Demo.
From S2P Require Import SdkWitnesses.

Module DemosExamples.
Import MockExamples.
Import Mock.

Abbreviation dict := (list (pystr * json)).

Definition plain_settings : Demos.settings := Demos.Settings None None None.
Definition tools_url : pystr := $"http://localhost:9091".
Definition raised_text (e : ExampleTools.tool_exc) : pystr := $"raised".
Definition bind_all (params : list pystr) (args : dict) : option dict := Some args.

(** ** The multi-tenant script *)

Definition silent_proxy (rq : http_request) (n : nat) : http_outcome * nat := (HHttpError [] [], S n).
Definition one_uuid (n : nat) : pystr * nat := ($"00000000-0000-0000-0000-000000000009", n).

Abbreviation mock_tools P := (to_tools mock_digest mock_uuid mock_text mock_text mock_float_int mock_float dumps P).

Definition tenant_start : agent (nat * mock) := Agent ∅ None None (0%nat, initial).

Lemma tenants_stop_at_the_lookup_witness :
  (∃ s' a', Demos.run_org_beta (to_proxy nat silent_proxy) (mock_tools nat) is_2xx mock_text mock_text
      raised_text mock_float (draw_uuid nat one_uuid) tools_url tenant_start =
      (inl (ETool $"raised"), a') ∧ ag_ext a' = (0%nat, s')) ∧
  (∃ s' a', Demos.run_org_alpha plain_settings (to_proxy nat silent_proxy) is_2xx mock_text
      (draw_uuid nat one_uuid)
      (registry mock_digest mock_uuid mock_text mock_text mock_float_int mock_float dumps is_2xx
         tools_url nat silent_proxy mock_text raised_text None None $"_session" bind_all) tenant_start =
      (inl (ETool $"raised"), a') ∧ ag_ext a' = (0%nat, s')).
Proof.
  exact (tenants_stop_at_the_lookup mock_digest mock_uuid mock_text mock_text mock_float_int mock_float
    dumps is_2xx (loads_bytes_dumps mock_float) eq_refl tools_url nat silent_proxy one_uuid
    (λ _, eq_refl) plain_settings mock_text raised_text None None $"_session" bind_all 0%nat initial
    tenant_start (star_refl _ _) eq_refl
    ltac:(split; vm_compute; reflexivity) ltac:(split; vm_compute; reflexivity)).
Defined.

(** ** The approval script *)

Definition stack : Type := world * mock.
Definition held_server : server := Server [ $"escalate_*" ] false.

(** The path and the query of a target of the script. *)
Fixpoint split_query (path s : pystr) : pystr * list (pystr * list pystr) :=
  match s with
  | [] => (path, [])
  | 63 :: q => (path, [($"state", [drop 6 q])])
  | c :: s => split_query (path ++ [c]) s
  end.

(** The development server behind the address of the proxy. *)
Definition stack_http (rq : http_request) (e : stack) : http_outcome * stack :=
  let target := if startswith (hr_url rq) $"http://localhost:8080" then drop 21 (hr_url rq) else hr_url rq in
  let '(path, params) := split_query [] target in
  let raw := match hr_json rq with JNull => [] | v => dumps v end in
  let c := Conn raw [($"Content-Length", str_of_int (Z.of_nat (length raw)))] false false None in
  match exec Demo.uuid4_str Demo.utc_now_str Demo.time_ns_at
          (dispatch Demo.float_of_text Demo.blake3_hexdigest Demo.exc_str Demo.py_str held_server
             (Request (hr_method rq) path params) 0) e.1 c with
  | (inr (Reply r), w', _) => (HResponse (rs_status r) (hr_url rq) (Some (rs_body r)), (w', e.2))
  | (_, w', _) => (HHttpError [] [], (w', e.2))
  end.

Definition stack_uuid (e : stack) : pystr * stack := ($"00000000-0000-0000-0000-000000000009", e).

Definition stack_registry : list (pystr * (dict → option nat → M (agent stack) json)) :=
  registry mock_digest mock_uuid mock_text mock_text mock_float_int mock_float dumps is_2xx
    tools_url world (λ rq w, let '(o, e) := stack_http rq (w, initial) in (o, e.1))
    mock_text raised_text None None $"_session" bind_all.

(** Run end to end, the script finds its approval among the pending ones,
    resolves it and finds it among the approved ones: the e-mail was sent
    once, and the server records the held call as committed although its body
    never ran. *)
Lemma approval_script_completes :
  ∃ a', Demos.approval_main plain_settings stack_http is_2xx mock_text stack_uuid stack_registry
      (Agent ∅ None None (Demo.world0, initial)) =
    (inr (Demos.Lifecycle true (JStr $"committed") true), a') ∧
    map e_status (effects (w_db (ag_ext a').1)) = [Committed; Committed] ∧
    length (mk_emails (ag_ext a').2) = 1%nat.
Proof. eexists. split; [vm_compute; reflexivity|]. split; vm_compute; reflexivity. Qed.

(** ** The compensation script *)

(** The ticket of the script after the tool that fails on purpose and the three
    compensations the script lists, in its order: it is closed, and what the
    failed call did is still there. *)
Definition compensation_steps (s : mock) : option mock :=
  let post := mock_post mock_digest mock_uuid mock_text mock_text mock_float_int mock_float dumps in
  let undo name args (s : mock) := (ExampleTools.call_tool post is_2xx mock_float tools_url name args s).2 in
  match Demos.open_ticket post is_2xx mock_float tools_url (JStr $"user_42") (JStr $"high")
          (JStr $"Cannot access enterprise dashboard") s with
  | (inr (JObj d), s1) =>
      let id := ExampleTools.par $"ticket_id" d in
      let s2 := (Demos.assign_engineer post is_2xx mock_float tools_url id (JStr $"sarah_senior") s1).2 in
      match Demos.escalate_ticket post is_2xx mock_text mock_float tools_url id
              (JStr $"Critical SLA breach") true s2 with
      | (inl (ExampleTools.TRuntime _), s3) =>
          Some (undo $"compensate_create_ticket" [($"ticket_id", id)]
            (undo $"compensate_assign_engineer" [($"ticket_id", id); ($"engineer", JStr $"sarah_senior")] s3))
      | _ => None
      end
  | _ => None
  end.

Lemma failed_escalation_is_left :
  (λ s, (λ kt, (ExampleTools.par $"status" kt.2, ExampleTools.par $"escalation_reason" kt.2))
          <$> mk_tickets s) <$> compensation_steps initial =
  Some [(JStr $"closed", JStr $"Critical SLA breach")].
Proof. vm_compute. reflexivity. Qed.
End DemosExamples.
