(* ===== verification/Timestamps.v ===== *)
(** * Timestamps ([_utc_now] of [dev.py])

    Every row of the journal and every event carries the text [_utc_now]
    returns, and the journal sorts by that text ([ORDER BY created_at DESC]).
    Here a clock reading is a calendar date and a time of day in UTC, as
    [datetime] keeps it, and [utc_now] is its text. The order of the texts is
    the order of the instants, so that sorting by the text is sorting by time;
    the part of it the dashboards print is the time of day. *)

From S2P Require Import Prelude Py PyFacts Json JsonRead Journal World Dashboard.
Open Scope Z_scope.
Open Scope undolog_scope.

(** ** Text *)

(** [s.replace(p, q)] for a non-empty [p]; the fuel is the length of [s]. *)
Fixpoint replace_go (fuel : nat) (p q s : pystr) : pystr :=
  match fuel, s with
  | O, _ | _, [] => s
  | S n, x :: s' =>
      if startswith s p then q ++ replace_go n p q (drop (length p) s) else x :: replace_go n p q s'
  end.
Definition replace (p q s : pystr) : pystr := replace_go (length s) p q s.

(** [f"{n:0{k}d}"] for a non-negative [n]. *)
Definition zero_padded (k : nat) (n : Z) : pystr :=
  let d := str_of_int n in replicate (k - length d) 48 ++ d.

(** ** Clock readings *)

Record datetime := Datetime {
  year : Z; month : Z; day : Z; hour : Z; minute : Z; second : Z; microsecond : Z;
}.

Definition is_leap (y : Z) : bool := (y mod 4 =? 0) && (negb (y mod 100 =? 0) || (y mod 400 =? 0)).

Definition days_in_month (y m : Z) : Z :=
  if m =? 2 then if is_leap y then 29 else 28
  else if (m =? 4) || (m =? 6) || (m =? 9) || (m =? 11) then 30 else 31.

(** The range checks of the constructor of [datetime]. *)
Definition valid_datetime (d : datetime) : bool :=
  (1 <=? year d) && (year d <=? 9999) && (1 <=? month d) && (month d <=? 12) &&
  (1 <=? day d) && (day d <=? days_in_month (year d) (month d)) &&
  (0 <=? hour d) && (hour d <? 24) && (0 <=? minute d) && (minute d <? 60) &&
  (0 <=? second d) && (second d <? 60) && (0 <=? microsecond d) && (microsecond d <? 1000000).

(** Days from the beginning of the year 1, and microseconds. *)
Definition days_before_year (y : Z) : Z :=
  let p := y - 1 in p * 365 + p / 4 - p / 100 + p / 400.
Definition days_before_month (y m : Z) : Z :=
  foldr Z.add 0 (days_in_month y <$> seqZ 1 (m - 1)).
Definition ordinal (d : datetime) : Z :=
  days_before_year (year d) + days_before_month (year d) (month d) + day d.
Definition time_of_day (d : datetime) : Z :=
  ((hour d * 60 + minute d) * 60 + second d) * 1000000 + microsecond d.
Definition instant (d : datetime) : Z := ordinal d * 86400000000 + time_of_day d.

(** [datetime.isoformat(timespec="microseconds")] of a reading in UTC. *)
Definition isoformat (d : datetime) : pystr :=
  zero_padded 4 (year d) ++ $"-" ++ zero_padded 2 (month d) ++ $"-" ++ zero_padded 2 (day d) ++ $"T" ++
  zero_padded 2 (hour d) ++ $":" ++ zero_padded 2 (minute d) ++ $":" ++ zero_padded 2 (second d) ++ $"." ++
  zero_padded 6 (microsecond d) ++ $"+00:00".

(** [_utc_now], of what the clock reads. *)
Definition utc_now (d : datetime) : pystr := replace $"+00:00" $"Z" (isoformat d).

Example utc_now_documented :
  utc_now (Datetime 2026 10 9 8 41 12 512004) = $"2026-10-09T08:41:12.512004Z".
Proof. reflexivity. Qed.

(** ** Fixed-width decimal text *)

Fixpoint fixed (k : nat) (n : Z) : pystr :=
  match k with
  | O => []
  | S k => fixed k (n / 10) ++ [48 + n mod 10]
  end.

Lemma fixed_length k n : length (fixed k n) = k.
Proof. revert n. induction k as [|k IH]; intros n; [done|]. cbn. rewrite length_app, IH. cbn. lia. Qed.

Lemma fixed_digits k n : Forall (λ c, 48 ≤ c ≤ 57) (fixed k n).
Proof.
  revert n. induction k as [|k IH]; intros n; cbn; [constructor|].
  apply Forall_app. split; [apply IH|]. repeat constructor; pose proof (Z.mod_pos_bound n 10); lia.
Qed.

(** A digit sequence is the fixed-width text of its value. *)
Lemma fixed_value ds :
  Forall (is_digit_of 10) ds → digit_char <$> ds = fixed (length ds) (digits_value 10 0 ds).
Proof.
  induction ds as [|d ds IH] using rev_ind; intros Hds; [done|].
  apply Forall_app in Hds as [Hds [Hd _]%Forall_cons]. unfold is_digit_of in Hd.
  rewrite fmap_app, length_app, Nat.add_1_r, digits_value_app. cbn. unfold digits_value at 1 2. cbn.
  rewrite Z.div_add_l, Z.div_small, Z.add_0_r, IH by (done || lia).
  rewrite (Z.add_comm _ d), Z.mod_add, Z.mod_small by lia.
  unfold digit_char. by rewrite (proj2 (Z.ltb_lt d 10)) by lia.
Qed.

Lemma zero_padded_fixed k n :
  (1 ≤ k)%nat → 0 ≤ n < 10 ^ Z.of_nat k → zero_padded k n = fixed k n.
Proof.
  intros Hk Hn. unfold zero_padded, str_of_int. rewrite (proj2 (Z.ltb_ge n 0)) by lia.
  destruct (to_digits_spec 10 n) as (ds & -> & Hds); [lia..|].
  pose proof (digits_of_length 10 n ds k ltac:(lia) Hds ltac:(lia) Hk) as Hlen. rewrite length_fmap.
  destruct Hds as [_ Hok Hval _ _].
  change 48 with (digit_char 0). rewrite <-fmap_replicate, <-fmap_app, fixed_value.
  - rewrite digits_value_app, length_app, length_replicate, Nat.sub_add by done. f_equal.
    replace (digits_value 10 0 (replicate (k - length ds) 0)) with 0; [done|].
    generalize (k - length ds)%nat. intros j. by induction j.
  - apply Forall_app. split; [|done]. apply Forall_replicate. unfold is_digit_of. lia.
Qed.

(** ** The order of texts *)

Lemma str_leb_app a1 a2 b1 b2 :
  length a1 = length a2 →
  str_leb (a1 ++ b1) (a2 ++ b2) = if str_eqb a1 a2 then str_leb b1 b2 else str_leb a1 a2.
Proof.
  revert a2. induction a1 as [|x a1 IH]; intros [|y a2] Hlen; simplify_eq/=; [done|].
  rewrite IH by done. destruct (Z.ltb_spec x y), (Z.ltb_spec y x), (Z.eqb_spec x y); try lia; try done.
Qed.

Lemma fixed_order k m n :
  0 ≤ m < 10 ^ Z.of_nat k → 0 ≤ n < 10 ^ Z.of_nat k →
  str_leb (fixed k m) (fixed k n) = (m <=? n) ∧ str_eqb (fixed k m) (fixed k n) = (m =? n).
Proof.
  revert m n. induction k as [|k IH]; intros m n Hm Hn.
  { cbn in *. assert (m = 0 ∧ n = 0) as [-> ->] by lia. done. }
  rewrite Nat2Z.inj_succ, Z.pow_succ_r in Hm, Hn by lia. cbn [fixed].
  destruct (IH (m / 10) (n / 10)) as [Hle Heq]; [split; [apply Z.div_pos|apply Z.div_lt_upper_bound]; lia..|].
  pose proof (Z.div_mod m 10 ltac:(lia)) as Em. pose proof (Z.div_mod n 10 ltac:(lia)) as En.
  pose proof (Z.mod_pos_bound m 10 ltac:(lia)). pose proof (Z.mod_pos_bound n 10 ltac:(lia)).
  split.
  - rewrite str_leb_app by (by rewrite !fixed_length). rewrite Heq, Hle. cbn.
    repeat match goal with
    | |- context [?u <? ?v] => destruct (Z.ltb_spec u v)
    | |- context [?u =? ?v] => destruct (Z.eqb_spec u v)
    | |- context [?u <=? ?v] => destruct (Z.leb_spec u v)
    end; (done || lia).
  - apply Bool.eq_iff_eq_true. rewrite str_eqb_eq, Z.eqb_eq. split; [|by intros ->].
    intros E. apply app_inj_2 in E as [E [= E']]; [|done]. apply str_eqb_eq in E. rewrite E in Heq.
    symmetry in Heq. apply Z.eqb_eq in Heq. lia.
Qed.

(** Numbers of fixed widths, each followed by a separator. *)
Fixpoint fields_text (form : list (nat * pystr)) (vs : list Z) : pystr :=
  match form, vs with
  | (k, sep) :: form, v :: vs => fixed k v ++ sep ++ fields_text form vs
  | _, _ => []
  end.

Definition fits (ks : nat * pystr) (v : Z) : Prop := 0 ≤ v < 10 ^ Z.of_nat ks.1.

(** Their text compares as the numbers do, in the order of the places. *)
Lemma fields_order form vs vs' :
  Forall2 fits form vs → Forall2 fits form vs' →
  str_leb (fields_text form vs) (fields_text form vs') = str_leb vs vs'.
Proof.
  intros H. revert vs'. induction H as [|[k sep] v form vs Hv Hvs IH]; intros vs' H';
    inversion H' as [|? v' ? vs1 Hv' Hvs']; subst; [done|]. cbn [fields_text].
  destruct (fixed_order k v v' Hv Hv') as [Hle Heq].
  rewrite str_leb_app, Heq, Hle by (by rewrite !fixed_length).
  rewrite str_leb_app, str_eqb_refl, IH by done. cbn.
  destruct (Z.eqb_spec v v'), (Z.ltb_spec v v'), (Z.ltb_spec v' v), (Z.leb_spec v v'); (done || lia).
Qed.

(** ** The text of a reading *)

Definition stamp_form : list (nat * pystr) :=
  [(4%nat, $"-"); (2%nat, $"-"); (2%nat, $"T"); (2%nat, $":"); (2%nat, $":"); (2%nat, $"."); (6%nat, $"Z")].
Definition fields (d : datetime) : list Z :=
  [year d; month d; day d; hour d; minute d; second d; microsecond d].

(** The ranges, as propositions. *)
Record in_range (d : datetime) : Prop := {
  ir_year : 1 ≤ year d ≤ 9999;
  ir_month : 1 ≤ month d ≤ 12;
  ir_day : 1 ≤ day d ≤ days_in_month (year d) (month d);
  ir_hour : 0 ≤ hour d < 24;
  ir_minute : 0 ≤ minute d < 60;
  ir_second : 0 ≤ second d < 60;
  ir_micro : 0 ≤ microsecond d < 1000000;
}.

Lemma valid_in_range d : valid_datetime d = true → in_range d.
Proof. unfold valid_datetime. rewrite !andb_true_iff, !Z.leb_le, !Z.ltb_lt. intros. split; lia. Qed.

Lemma days_in_month_range y m : 28 ≤ days_in_month y m ≤ 31.
Proof. unfold days_in_month. repeat case_match; lia. Qed.

Lemma fields_fit d : in_range d → Forall2 fits stamp_form (fields d).
Proof.
  intros [Hy Hm Hd Hh Hmi Hs Hu]. pose proof (days_in_month_range (year d) (month d)).
  repeat constructor; cbn; lia.
Qed.

Lemma startswith_self p : startswith p p = true.
Proof. induction p as [|c p IH]; [done|]. cbn. by rewrite Z.eqb_refl. Qed.

Lemma replace_app p q pre :
  (∀ c, c ∈ pre → head p ≠ Some c) → p ≠ [] → replace p q (pre ++ p) = pre ++ q.
Proof.
  intros Hpre Hp. unfold replace. rewrite length_app.
  induction pre as [|c pre IH]; cbn [app length Nat.add].
  - destruct p as [|c p]; [done|]. cbn [length replace_go].
    rewrite (startswith_self (c :: p)), drop_ge by done.
    replace (replace_go (length p) (c :: p) q []) with (@nil Z) by (by destruct p). by rewrite app_nil_r.
  - cbn [replace_go].
    assert (startswith (c :: pre ++ p) p = false) as ->.
    { destruct p as [|c' p]; [done|]. cbn. rewrite (proj2 (Z.eqb_neq _ _)); [done|].
      intros ->. by apply (Hpre c); [left|]. }
    f_equal. apply IH. intros c' Hc'. apply Hpre. by right.
Qed.

Lemma fixed_no_plus k n : Forall (λ c, head $"+00:00" ≠ Some c) (fixed k n).
Proof. eapply Forall_impl; [apply fixed_digits|]. intros c Hc [= <-]. cbv beta in Hc. lia. Qed.

Lemma utc_now_fields d : in_range d → utc_now d = fields_text stamp_form (fields d).
Proof.
  intros [Hy Hm Hd Hh Hmi Hs Hu]. pose proof (days_in_month_range (year d) (month d)).
  unfold utc_now, isoformat. rewrite !zero_padded_fixed by (cbn; lia).
  rewrite !app_assoc, replace_app; [|..|done].
  - cbn [fields_text stamp_form fields]. by rewrite <-!app_assoc, app_nil_r.
  - apply Forall_forall. rewrite !Forall_app. split_and!;
      first [apply fixed_no_plus|vm_compute; constructor; [congruence|constructor]].
Qed.

(** ** The order of instants *)

Lemma days_before_month_succ y m : 1 ≤ m → days_before_month y (m + 1) = days_before_month y m + days_in_month y m.
Proof.
  intros Hm. unfold days_before_month. replace (m + 1 - 1) with (m - 1 + 1) by lia.
  rewrite (seqZ_app 1 (m - 1) 1) by lia. replace (1 + (m - 1)) with m by lia.
  change (seqZ m 1) with [m]. rewrite fmap_app, foldr_app. cbn [fmap list_fmap foldr].
  generalize (days_in_month y <$> seqZ 1 (m - 1)). intros l. induction l as [|x l IH]; cbn; lia.
Qed.

Lemma days_before_month_lt y m m' : 1 ≤ m → m < m' → days_before_month y m + days_in_month y m ≤ days_before_month y m'.
Proof.
  intros Hm Hlt. replace m' with (m + 1 + Z.of_nat (Z.to_nat (m' - m - 1))) by lia.
  generalize (Z.to_nat (m' - m - 1)). intros k. induction k as [|k IH].
  - by rewrite Z.add_0_r, days_before_month_succ.
  - replace (m + 1 + Z.of_nat (S k)) with (m + 1 + Z.of_nat k + 1) by lia.
    rewrite (days_before_month_succ y (m + 1 + Z.of_nat k)) by lia.
    pose proof (days_in_month_range y (m + 1 + Z.of_nat k)). lia.
Qed.

(** The months of a year make up its days. *)
Lemma days_before_month_13 y : days_before_month y 13 = 365 + if is_leap y then 1 else 0.
Proof. unfold days_before_month. cbn. unfold days_in_month. cbn. destruct (is_leap y); reflexivity. Qed.

Lemma days_before_year_succ y : days_before_year (y + 1) = days_before_year y + days_before_month y 13.
Proof.
  rewrite days_before_month_13. unfold days_before_year, is_leap. cbv zeta.
  replace (y + 1 - 1) with y by lia.
  destruct (Z.eqb_spec (y mod 4) 0), (Z.eqb_spec (y mod 100) 0), (Z.eqb_spec (y mod 400) 0); cbn;
    Z.to_euclidean_division_equations; lia.
Qed.

Lemma days_before_year_lt y y' : y < y' → days_before_year y + days_before_month y 13 ≤ days_before_year y'.
Proof.
  intros Hlt. replace y' with (y + 1 + Z.of_nat (Z.to_nat (y' - y - 1))) by lia.
  generalize (Z.to_nat (y' - y - 1)). intros k. induction k as [|k IH].
  - by rewrite Z.add_0_r, days_before_year_succ.
  - replace (y + 1 + Z.of_nat (S k)) with (y + 1 + Z.of_nat k + 1) by lia.
    rewrite (days_before_year_succ (y + 1 + Z.of_nat k)), (days_before_month_13 (y + 1 + Z.of_nat k)).
    destruct (is_leap (y + 1 + Z.of_nat k)); lia.
Qed.

Lemma day_of_year d : in_range d → 1 ≤ days_before_month (year d) (month d) + day d ≤ days_before_month (year d) 13.
Proof.
  intros H. pose proof (days_before_month_lt (year d) (month d) 13) as Hm. destruct H.
  assert (0 ≤ days_before_month (year d) (month d)).
  { destruct (base.decide (month d = 1)) as [->|]; [done|].
    pose proof (days_before_month_lt (year d) 1 (month d)). pose proof (days_in_month_range (year d) 1).
    change (days_before_month (year d) 1) with 0 in *. lia. }
  lia.
Qed.

Lemma ordinal_lt d d' : in_range d → in_range d' →
  (year d < year d' ∨ (year d = year d' ∧ (month d < month d' ∨ (month d = month d' ∧ day d < day d')))) →
  ordinal d < ordinal d'.
Proof.
  intros H H' Hlt. unfold ordinal. destruct Hlt as [Hy|[Hy [Hm|[Hm Hd]]]].
  - pose proof (days_before_year_lt _ _ Hy). pose proof (day_of_year d H). pose proof (day_of_year d' H'). lia.
  - rewrite Hy. destruct H, H'. pose proof (days_before_month_lt (year d') _ _ (proj1 ir_month0) Hm).
    rewrite Hy in *. lia.
  - rewrite Hy, Hm. lia.
Qed.

Lemma time_of_day_range d : in_range d → 0 ≤ time_of_day d < 86400000000.
Proof. intros []. unfold time_of_day. lia. Qed.

(** Decide the next place of a comparison. *)
Ltac compare_next :=
  match goal with |- context [?u <? ?v] => destruct (Z.ltb_spec u v); [by split; intros; lia|] end.

(** The fields compare as the instants do. *)
Lemma fields_instant d d' : in_range d → in_range d' →
  str_leb (fields d) (fields d') = (instant d <=? instant d').
Proof.
  intros H H'. pose proof (ordinal_lt d d' H H') as Hlt. pose proof (ordinal_lt d' d H' H) as Hgt.
  pose proof (time_of_day_range d H). pose proof (time_of_day_range d' H').
  assert (year d = year d' → month d = month d' → day d = day d' → ordinal d = ordinal d') as Heq
    by (unfold ordinal; intros -> -> ->; done).
  apply Bool.eq_iff_eq_true. rewrite Z.leb_le. unfold instant. cbn [str_leb fields].
  do 6 compare_next.
  rewrite Heq by lia. unfold time_of_day in *. destruct H, H'.
  repeat compare_next. by split; intros; lia.
Qed.

Lemma utc_now_leb d d' : valid_datetime d = true → valid_datetime d' = true →
  str_leb (utc_now d) (utc_now d') = (instant d <=? instant d').
Proof.
  intros H%valid_in_range H'%valid_in_range. rewrite !utc_now_fields by done.
  rewrite fields_order by (by apply fields_fit). by apply fields_instant.
Qed.

(** C27: sorting by the timestamp text is sorting by time. For any two readings
    of the clock, of any year a [datetime] can have, the text of the first is at
    most the text of the second in the order of code points exactly when the
    first instant is not after the second; in particular the texts are equal
    only for the same instant. This is what [ORDER BY created_at] relies on. *)
Theorem timestamps_sort_by_time d d' :
  valid_datetime d = true → valid_datetime d' = true →
  (str_le (utc_now d) (utc_now d') ↔ instant d ≤ instant d') ∧
  (utc_now d = utc_now d' ↔ instant d = instant d').
Proof.
  intros H H'. unfold str_le. rewrite utc_now_leb, Z.leb_le by done. split; [done|]. split; intros E.
  - pose proof (utc_now_leb d d' H H') as E1. pose proof (utc_now_leb d' d H' H) as E2.
    rewrite E in E1, E2. destruct (str_leb_total (utc_now d') (utc_now d')) as [Hr|Hr]; rewrite Hr in E1, E2;
      symmetry in E1, E2; apply Z.leb_le in E1, E2; lia.
  - apply str_leb_antisym; rewrite utc_now_leb by done; apply Z.leb_le; lia.
Qed.

Lemma timestamps_sort_by_time_witness :
  str_le (utc_now (Datetime 2026 9 30 23 59 59 999999)) (utc_now (Datetime 2026 10 1 0 0 0 7)) ∧
  instant (Datetime 2026 9 30 23 59 59 999999) + 8 = instant (Datetime 2026 10 1 0 0 0 7).
Proof.
  split; [|reflexivity].
  apply (timestamps_sort_by_time (Datetime 2026 9 30 23 59 59 999999) (Datetime 2026 10 1 0 0 0 7) eq_refl eq_refl).
  vm_compute. congruence.
Defined.

(** ** What the rest of the server sees of it *)

(** A clock whose readings are those of a [datetime] gives texts that the
    database accepts. *)
Lemma utc_now_bindable d : valid_datetime d = true → bindable (utc_now d) = true.
Proof.
  intros H%valid_in_range. rewrite utc_now_fields by done. unfold bindable.
  apply negb_true_iff, not_true_is_false. intros (c & Hc & Hs)%existsb_exists.
  assert (Forall (λ c, is_surrogate c = false) (fields_text stamp_form (fields d))) as Hall.
  { assert (∀ k n, Forall (λ c, is_surrogate c = false) (fixed k n)) as Hf.
    { intros k n. eapply Forall_impl; [apply fixed_digits|]. intros c' Hc'. unfold is_surrogate. cbv beta in *. lia. }
    cbn [fields_text stamp_form fields]. rewrite !Forall_app. split_and!;
      match goal with |- Forall _ (fixed _ _) => apply Hf | _ => by repeat constructor end. }
  rewrite List.Forall_forall in Hall. by rewrite (Hall c Hc) in Hs.
Qed.

(** The pending list of an operator, newest first in time. *)
Theorem approvals_listed_by_time (stamp : approval → datetime) state limit d :
  (∀ a, a ∈ approvals d → valid_datetime (stamp a) = true ∧ a_created_at a = utc_now (stamp a)) →
  ∃ rest, list_approvals state limit d ++ rest ≡ₚ List.filter (listed state) (approvals d) ∧
    StronglySorted (λ a b, instant (stamp b) ≤ instant (stamp a)) (list_approvals state limit d ++ rest).
Proof.
  intros Hst. destruct (list_approvals_newest state limit d) as (rest & Hp & Hs & _). exists rest. split; [done|].
  assert (∀ a, a ∈ list_approvals state limit d ++ rest → a ∈ approvals d) as Hin.
  { intros a Ha. rewrite Hp in Ha. by apply list_elem_of_In, List.filter_In in Ha as [Ha%list_elem_of_In _]. }
  clear Hp. revert Hs Hin. generalize (list_approvals state limit d ++ rest). intros l Hs.
  induction Hs as [|a l Hs IH Hall]; intros Hin; constructor.
  - apply IH. intros b Hb. apply Hin. by right.
  - rewrite Forall_forall in Hall |- *. intros b Hb. specialize (Hall b Hb). unfold newer in Hall.
    apply andb_prop in Hall as [Hle _].
    destruct (Hst a (Hin a ltac:(left))) as [Ha Ea], (Hst b (Hin b ltac:(by right))) as [Hvb Eb].
    rewrite Ea, Eb, utc_now_leb in Hle by done. by apply Z.leb_le.
Qed.

(** The dashboards print the time of day to the millisecond. *)
Theorem dashboard_prints_the_time d :
  valid_datetime d = true →
  Dashboard.clock_text (JStr (utc_now d)) = inr (JStr (fixed 2 (hour d) ++ $":" ++ fixed 2 (minute d) ++ $":" ++
    fixed 2 (second d) ++ $"." ++ take 3 (fixed 6 (microsecond d)))).
Proof.
  intros H%valid_in_range. rewrite utc_now_fields by done. cbn. reflexivity.
Qed.
